(* ===== verification/_CoqProject ===== *)
-Q . S2P
Prelude.v
Effects.v
Execution.v
GoStd.v
GoMemory.v
GoMemoryTheory.v
DeepCopyRules.v
DeepCopy.v
DeepCopySafety.v
K8s.v
Api.v
Client.v
Scheme.v
Resources.v
Containers.v
Validators.v
ControllerCommon.v
PipelineController.v
PipelineSafety.v
ScanPod.v
SearchController.v
CronSearchController.v
CronSchedule.v
CronSafety.v
SearchSafety.v
Metrics.v
HelmPatch.v
Manager.v
Webhooks.v
WebhookSafety.v
PodShape.v
PipelineWebhook.v
AdmissionSystem.v
Os.v
Clientset.v
FakeClient.v
Signals.v
Kubelet.v
Sidecar.v
SidecarSafety.v
SidecarPod.v
SidecarCode.v
Scheduler.v
SchedulerSafety.v
SchedulerStart.v
SchedulerCode.v
PipelineServer.v
PipelineLife.v
PipelineSystem.v
PipelineRefinement.v
PipelineStale.v
CronSystem.v
CronStale.v
SearchSystem.v
SearchRun.v
