(* ===== verification/Prelude.v ===== *)
(** * Ocular: a verification library

    Ocular scans software artifacts on a Kubernetes cluster.  A _pipeline_
    downloads a target, runs the scanners of a profile on it and uploads what
    they found; a _search_ runs a crawler that asks for pipelines and for
    further searches; a _cron search_ starts searches on a schedule.  They are
    custom resources: a controller reconciles them, admission webhooks check
    them, and two small binaries, the sidecar and the scheduler, run inside the
    pods the controller makes.  This library models these four parts, the
    process of the manager that runs the first two, and the plugin that patches
    the Helm chart, from the Go source under src/, and proves what makes them
    correct.

    ** How the program is modelled

    Go functions without effects are Gallina functions of the same name.  A
    function that returns an error is a [result] or an [option].  Integers are
    [Z] with the wrap-around of their type written out ([GoStd.int32],
    [GoStd.duration_mul]); strings are [string]; maps are [gmap string];
    slices are lists; a pointer that may be nil is an [option].

    - Code with effects is a program ([Effects.free], an interaction tree
      without recursion, which branches on every answer an operation can give):
      reconcilers and webhooks over the API client, the clock and the metrics
      ([Client.Op]), the processes over the operating system ([Os.OsOp]), the
      manager over controller-runtime ([Manager.ManagerOp]).
      [Effects.always p P] says that [P] holds of the trace and the result of
      every path of [p]: whatever the API server answers, when other clients
      change objects in between, and for all readings of the clock.
      [Effects.exec] runs a program against a handler: a model of the API
      server ([PipelineServer.serve], [CronSystem.cron_serve]) or of a file
      system ([Os.os_serve]).
    - The controllers in their cluster are transition systems whose state holds
      what is left of the reconciliation that runs.  A step performs one
      operation - served, failed, or served with its answer lost -, starts the
      next reconciliation, restarts the controller, or is one of the kubelet's
      or the users' ([Execution.execution_step], with the environments
      [PipelineSystem.environment], [CronSystem.cron_environment] and
      [SearchSystem.search_environment]).  Invariants of such executions follow
      by one rule ([Execution.execution_invariant]): a reconciliation carries
      knowledge of the cluster that the environment cannot take away.
    - The controllers and the webhooks read through the client of the manager
      (cmd/controller/main.go), that is from a cache that may lag behind the
      server.  What the cache must have seen is part of each model.  In
      PipelineSystem and CronSystem a reading may miss what others did, but not
      the controller's own writes ([PipelineSystem.cached_serve],
      [CronSystem.own_writes_serve]); in SearchSystem it may give earlier
      versions, but a listing shows every pipeline and search that is stored
      ([SearchSystem.SearchView], [SearchSystem.seen_list]); in AdmissionSystem
      the cache knows which objects there are and what they refer to
      ([AdmissionSystem.up_to_date]).  In PipelineStale and CronStale the cache
      may answer anything that was ever there, or anything at all.
    - The sidecars of a pod and the goroutines of a scheduler run concurrently:
      they are state machines whose transitions are the answers to the call
      they are at, and a run is an interleaving of such answers
      ([Sidecar.pod_run], [Scheduler.Schedule_run]).  So are the goroutines that
      handle signals ([Signals.signal_run]).
    - Where sharing matters - the deep copies of the API types - values lie in a
      memory of cells, pointers, slices and maps refer to cells, and code is a
      statement that changes the memory and may panic ([GoMemory.M]).
    - Code that is not in the repository is a parameter with named laws, each
      with an instance: [Client.ControllerUtil] (owner references and
      finalizers of controller-runtime), [SearchController.TemplateJSON]
      (encoding/json on a template), [CronSearchController.CronLibrary]
      (robfig/cron, with no law), [CronSearchController.RFC3339],
      [CronSearchController.References], [Kubelet.Kubelet] (the environment of
      a container), [HelmPatch.PluginJSON] (encoding/json on what kubebuilder
      and its plugins exchange), [Scheme.SchemeBuilderMethods] with
      [Scheme.SchemeBuilderLaws] (the builder of a scheme),
      [DeepCopy.ApiMachinery] with [DeepCopySafety.DeepCopyLaws] (the types of
      k8s.io and their copies).  What Go leaves open is a parameter too:
      [GoStd.MapRange] (the order of a range over a map) and [GoStd.SortSlice]
      (the order sort.Slice gives to equal elements).

    ** The files

    - Prelude: results, automation, lemmas on lists.  GoStd: the part of Go and
      its standard library that is used (integers, time, strings, paths, maps,
      sorting, Itoa and Atoi).  K8s: the objects of Kubernetes, with one field
      for everything the program only carries along.
    - Api: the custom resources (src/api/v1beta1).
    - GoMemory: Go's memory, what a copy is, and a copier to compare with.
      GoMemoryTheory, DeepCopyRules: their lemmas, and a rule for each statement
      of generated code.  DeepCopy: the types as they lie in memory and the
      functions of src/api/v1beta1/zz_generated.deepcopy.go.  DeepCopySafety:
      their theorem.
    - Scheme: what the API types register with a scheme, the configuration of a
      client, the typed clients (src/pkg/generated/clientset).  Clientset: how
      clients are made.  FakeClient: the clients for tests (the packages fake
      of src/pkg/generated/clientset).
    - Effects: programs over operations, [always], [run] and [exec].  Execution:
      programs that run again and again in an environment.  Client:
      errors, the operations of the API client, the clock and the metrics.
    - Resources: references, parameters and metadata (src/internal/resources,
      src/pkg/runtime/parameters.go).  Containers: the options applied to
      containers, conditional containers (src/internal/containers).
      Validators: the checks of the webhooks (src/internal/validators).
    - ControllerCommon: constants and wrappers of the reconcilers
      (constants.go, helpers.go of src/internal/controller).
    - PipelineController: [Reconcile], [handleCompletion],
      [handlePostCompletion], [populateScanPod],
      [determineScanPodStageStatuses] and what they call
      (pipeline_controller.go).  ScanPod: the theorems on its pure functions.
      PipelineSafety: those on [Reconcile].  PipelineServer: a model of the API
      server for one pipeline, with its merge patches.  PipelineLife: the whole
      life of that pipeline when nothing fails.  PipelineSystem: the controller
      in its cluster, and the abstract life of a pipeline.  PipelineRefinement:
      the simulation between them.  PipelineStale: the same cluster when the
      controller reads from a cache that may be arbitrarily old.
    - SearchController: the same functions of search_controller.go.
      SearchSafety: its theorems.  SearchSystem: the controller in its cluster.
      SearchRun: the same cluster with the scheduler in the pod as a process.
    - CronSearchController: [Reconcile], [getNextSchedule],
      [findExistingSearches], [constructSearchForCronSearch], the history and
      the concurrency policy (cronsearch_controller.go).  CronSchedule: the
      theorems on the schedule.  CronSafety: those on [Reconcile].  CronSystem:
      the controller in its cluster.  CronStale: the same, with listings that
      may answer anything.
    - Metrics: the collectors of both reconcilers, as they are declared and
      registered.
    - Webhooks: the defaulters and validators of the ten kinds
      (src/internal/webhook/v1beta1).  WebhookSafety: their theorems.
      PodShape: when the pods the reconcilers make are well-formed, and what of
      that the webhooks check.  PipelineWebhook: which pipelines the webhook
      accepts, and what a pod made for one is like.  AdmissionSystem: the
      webhooks on a store of objects, request after request.
    - Manager: src/cmd/controller/main.go, the registrations of controllers and
      webhooks.  HelmPatch: src/hack/kubebuilder-helm-patch.
    - Os: the operations of the operating system, [CopyFile], the commands
      [init], [HookCommand] (src/internal/process, src/internal/utils/readers.go)
      and a file system to run them on.  Signals: what a signal to a wrapped
      container leads to (signals.go, subprocess.go).
    - Kubelet: the environment of a container, the interface between the pods
      the controllers build and the binaries that run in them.
    - Sidecar: src/cmd/sidecar/main.go, with [HookCommand] as the state machine
      of a process.  SidecarSafety: theorems for any pod
      of such processes.  SidecarPod: those for the pods of [populateScanPod].
      SidecarCode: [main], the hooks and the goroutines as the code has them, over
      the one [HookCommand] of Os, and how a pod of such processes and a pod of
      the machines of Sidecar simulate each other.
    - Scheduler: the goroutines of src/cmd/scheduler/main.go, what they create,
      and [utils.MergeMaps].  SchedulerSafety: its theorems, up to the search
      that started it.  SchedulerStart: the process, from its start to its exit.
      SchedulerCode: the goroutines of a FIFO as the loops they are written as,
      with the channel between them, and how they and the state machine of
      Scheduler simulate each other.

    The functions of the webhooks for a kind and its cluster-wide kind, and
    branches of long functions, are definitions of their own, named after what
    they do; a comment says where they stand in the source.

    ** What the theorems show

    - Pipelines in their cluster.  As long as the controller reads its own writes,
      whatever calls fail, answers are lost and restarts happen, what is stored
      and counted of a pipeline follows an abstract machine of a few stages
      ([pipeline_refines_life]); so it is counted as completed at most once, and
      its completion never changes ([completed_counted_once]).  When the controller reads a cache that is
      arbitrarily old, a pipeline still completes only after its start, stays
      started and completed, and is deleted only when a client asked for it or a
      lifetime is over ([stale_reads_keep_life]); but its completion may move, it
      may be counted twice and shown as downloading after its end
      ([stale_read_moves_completion], [stale_read_counts_twice],
      [stale_read_revives]).  That a lost answer leaves a pipeline uncounted and
      a restart the gauge wrong is shown by executions
      ([lost_answer_never_counted], [restart_makes_gauge_negative]).  No update
      of a metric panics ([metrics_never_panic]).
    - Pipelines, one reconciliation.  Each status a reconciliation writes is a step of a life that
      starts once, completes once and keeps its history
      ([Reconcile_status_steps]); a pipeline is deleted only when a lifetime is
      over ([Reconcile_deletes_only_expired], [await_ttl_outcome]); the gauge of
      running pipelines moves with each patch of the finalizer that guards it
      whose acceptance the controller was told, and with nothing else
      ([Reconcile_gauge_follows_finalizer], [handlePostCompletion_counts]); nothing but the pipeline, its pod and
      metrics is written ([Reconcile_footprint]).  Against a model of the API
      server the whole life takes five reconciliations ([pipeline_life]).  The
      phases and stages
      written for each phase of the pod are stated as they are, including
      the phase Succeeded of a pending pod and the exchanged statuses of the
      download, both against the comments in the source ([handleCompletion_phases],
      [determineScanPodStageStatuses_coherent],
      [determineScanPodStageStatuses_download]).
    - Scan pods.  What they run and carry ([populateScanPod_containers],
      [populateScanPod_metadata]), when they are well-formed
      ([scan_pod_well_formed], [accepted_pipeline_fits] for what the webhooks
      accepted), and, through the sidecar, that in every
      interleaving an uploader starts only after all scanners have ended, but for
      an uploader whose poll for a mark failed, which starts at once
      ([pipeline_uploads_after_scans]).  A scanner that goes away without its
      mark blocks them for ever ([no_mark_no_start]); otherwise waiting ends
      ([await_completes]).  The machines these theorems are about do what the code
      does, call by call ([sidecars_are_machines]).  Exit codes are those of the
      commands, or 1 when the start or the wait gave another error
      ([sidecar_exit_code]).
    - Searches.  In its cluster a search is complete only when everything it has
      scheduled is, and nothing more will be ([search_completes_last], and for
      one reconciliation [handleCompletion_waits]), as long as the listings of
      the controller show everything that is stored, in some version; one that
      misses a pipeline breaks it ([stale_listing_completes_early]).  With the scheduler as a process
      of the pod, a search that is stored as a success was, under the same
      condition, run to its end: everything its crawler asked for was created or
      refused, and what was created is complete or gone
      ([search_success_means_done]).  What its scheduler creates is what it waits
      for ([scheduled_resources_tracked]), and before the pod of a search can
      succeed everything the crawler asked for was created or refused
      ([schedules_everything], [scheduler_stops], [schedule_pace],
      [scheduler_settings]), which holds of the goroutines as they are written
      ([goroutines_are_machine]).  Its writes, its role binding and its deletion
      ([Reconcile_search_status], [Reconcile_search_footprint],
      [populateRoleBinding_grants], [populateSearchPod_new],
      [search_ttl_outcome]).
    - Cron searches.  The missed start and the next one are those that the
      schedule gives, and the right ones when it finds its activation times
      ([getNextSchedule_correct]); one that never activates is taken for an
      error ([never_activates]).  A start is not made up while its search is
      seen ([no_second_start], [constructSearch_roundtrip]); even when listings
      answer anything every search is for a start that was due, and no start has
      two ([one_search_per_start]), though then a policy that forbids concurrent
      runs may let two run ([stale_listing_runs_two]).  The concurrency policy
      and the suspension hold on every path ([start_missed_run_policy],
      [Reconcile_writes]), and the history keeps the newest
      ([trim_history_keeps_newest]).  In the cluster the policy that forbids
      concurrent runs, if it is not edited, keeps at most one search active, as
      long as the controller reads its own writes ([forbid_one_active]).  A
      missed start is made up when the calls are served, and not again before
      the next one as long as its search is listed
      ([missed_start_made_up_once]); when it is gone, it is run again
      ([gone_search_runs_again], [no_history_runs_again]), or nothing ever is
      ([forgotten_history_stops]); with more than ten active searches nothing is
      done at all ([many_active_stop]).
    - Processes.  The scheduler leaves no FIFO behind ([scheduler_cleans_up]); a
      copied file is closed ([CopyFile_closes]) and the installed binary is a
      copy ([install_copies]).  A signal to terminate is never lost, and reaches
      the command of a container within three steps
      ([termination_reaches_command]), though twice ([terminated_twice]); the
      others are relayed in order ([relay_keeps_order]).  The scheduler creates
      only with clients of the API's version that share one limiter
      ([scheduler_clients]), whose types are registered
      ([typed_clients_registered], [init_manager_registers]); the clients for
      tests stand for them ([fake_clients_stand_for],
      [NewSimpleClientset_outcomes]).  The manager serves only with all controllers and
      webhooks ([main_follows_plan], [manager_settings]).
    - The Helm plugin changes the three files it is to, or reports an error
      ([patchHelmChart_correct], [main_outcome]).
    - Deep copies.  A copy has the content of its original and shares nothing with
      it: no later write to the one is seen in the other
      ([DeepCopy_shares_nothing]).
    - Helpers and webhooks.  The values of parameters
      ([ParseParameters_correct]), the metadata of children
      ([PropagateMetadata_correct]), conditional containers
      ([FilterConditionalContainers_spec]); which references, profiles,
      updates and deletions are accepted
      ([ValidatePipeline_accepts], [ValidateParameterReference_accepts],
      [ValidateProfile_accepts],
      [ValidateAdditional_accepts],
      [Uploader_update_protects], [Crawler_delete_protects]).  Together the
      webhooks keep references from dangling ([admission_keeps_references]) -
      but for those of profiles, whose defaulter is registered for a resource
      that does not exist ([profile_left_dangling]), and as long as requests do
      not overlap ([concurrent_requests_dangle]) and the cache does not lag
      behind ([lagging_cache_dangles]).  Names of cron searches
      fit ([cron_search_names_fit]).

    ** Bounds

    The only fuel is [CronSearchController.missed_starts_fuel] = 101: the loop
    returns at the latest when it counts the hundred-and-first start, and
    [CronSchedule.getNextSchedule_total] shows that it does not run out.  All
    other recursion is on a list.  Times are nanoseconds since the year 1 in
    [Z]; the theorems that need it say for which range of times they hold.
    The polling of the sidecar and of the decoders is not bounded: their
    machines have no fuel.

    ** What is not modelled

    Logging, the parsing of flags, the methods of the typed clients (they are
    those of client-go, also for the fake clients, whose tracker and reactors
    are operations), the support code of the tests (src/test), the read-ahead of
    json.Decoder.  Outside of DeepCopy values are immutable: the copies the code
    makes before it changes an object are not visible there.  Signals has the
    interleavings of the goroutines that handle signals; the other process models
    have their outcome, the cancelled context, as an event.  The sidecars assume
    that only they write to the directory of the marks; a user's command may do
    what it likes otherwise.
    The clusters of PipelineSystem, SearchSystem and CronSystem hold what
    matters for one pipeline, search or cron search.  PipelineLife and
    [missed_start_made_up_once], which say what does happen, run against a
    server whose reads are current; the other theorems on clusters say what
    their cache may answer.  In SearchSystem a search that was deleted may
    still be read, but none is created again under its name.  Garbage collection by owner is a step of the
    cluster, not derived from the owner references.

    ** Plan

    What could follow: the updates of all kinds in AdmissionSystem, with what
    they keep of the parameters that references set; what is left of a search
    when its listings may miss objects; the reconcilers over the memory of GoMemory, where they change
    objects they read from the cache. *)

From Stdlib Require Import ZArith Lia String Ascii.
From stdpp Require Export base tactics option list gmap strings fin_maps sets.
From stdpp Require Export numbers.
Export list_basics.list list_relations.list.

#[global] Open Scope Z_scope.
#[global] Open Scope list_scope.
#[global] Set Default Goal Selector "!".

(** ** Results *)

(** A Go function that returns a value and an [error] is modelled by a
    [result]: the value when the error is nil, the error otherwise. *)
Inductive result (E A : Type) : Type :=
| Ok (a : A)
| Err (e : E).
Arguments Ok {E A} a.
Arguments Err {E A} e.

Definition result_bind {E A B} (r : result E A) (f : A -> result E B) : result E B :=
  match r with Ok a => f a | Err e => Err e end.

(** [fmt.Errorf("...: %w", err)] applied to the error of a call. *)
Definition map_err {E A} (f : E -> E) (r : result E A) : result E A :=
  match r with Ok a => Ok a | Err e => Err (f e) end.

Definition is_ok {E A} (r : result E A) : bool :=
  match r with Ok _ => true | Err _ => false end.

Declare Scope ocular_scope.
Delimit Scope ocular_scope with ocular.
Notation "'try' x <- r ; k" := (result_bind r (fun x => k))
  (at level 10, x name, r at level 100, k at level 200) : ocular_scope.

(** ** Automation *)

Create HintDb ocular.
Create Rewrite HintDb ocular.

(** Refutes the membership of a value in a list of other values. *)
Ltac absurd_elem H :=
  repeat (apply elem_of_cons in H as [H|H]; [discriminate H|]); by apply elem_of_nil in H.

(** ** Lists *)

Section lists.
Context {A B : Type}.

(** Folding a step that only ever appends [f x] is a [flat_map]. *)
Lemma fold_left_app_flat_map (f : A -> list B) (l : list A) (acc : list B) :
  fold_left (fun acc x => acc ++ f x) l acc = acc ++ flat_map f l.
Proof.
  revert acc; induction l as [|x l IH]; intros acc; simpl.
  - by rewrite app_nil_r.
  - by rewrite IH, <-app_assoc.
Qed.

Lemma flat_map_nil_iff (f : A -> list B) (l : list A) :
  flat_map f l = [] <-> Forall (fun x => f x = []) l.
Proof.
  induction l as [|x l [IH1 IH2]]; simpl; [by split|]. split.
  - intros [? ?]%app_eq_nil. constructor; auto.
  - inversion_clear 1 as [|? ? Hx Hl]. rewrite Hx. auto.
Qed.

(** A fold that appends an element when a test holds is a filter. *)
Lemma fold_left_app_if (f : A -> bool) (g : A -> B) (l : list A) (acc : list B) :
  fold_left (fun acc x => if f x then acc ++ [g x] else acc) l acc
  = acc ++ (g <$> List.filter f l).
Proof.
  revert acc; induction l as [|x l IH]; intros acc; simpl; [by rewrite app_nil_r|].
  rewrite IH. destruct (f x); simpl; [by rewrite <-app_assoc|done].
Qed.

Lemma fmap_nil_iff (f : A -> B) (l : list A) : f <$> l = [] <-> l = [].
Proof. by destruct l. Qed.

(** Two folds with pointwise equal steps. *)
Lemma fold_left_ext (f g : B -> A -> B) (l : list A) (acc : B) :
  (forall b x, x ∈ l -> f b x = g b x) -> fold_left f l acc = fold_left g l acc.
Proof.
  revert acc; induction l as [|x l IH]; intros acc H; simpl; [done|].
  rewrite H by (apply elem_of_cons; by left). apply IH.
  intros b y Hy. apply H. apply elem_of_cons. by right.
Qed.

Lemma filter_nil_iff (f : A -> bool) (l : list A) :
  List.filter f l = [] <-> forall x, x ∈ l -> f x = false.
Proof.
  induction l as [|x l [IH1 IH2]]; simpl.
  - split; [|done]. intros _ x Hx. by apply elem_of_nil in Hx.
  - destruct (f x) eqn:E; split; intros H.
    + done.
    + specialize (H x). rewrite E in H. by discriminate H; apply elem_of_cons; left.
    + intros y Hy. apply elem_of_cons in Hy as [->|Hy]; [done|]. by apply IH1.
    + apply IH2. intros y Hy. apply H, elem_of_cons. by right.
Qed.
End lists.

(** The elements of a list with their indices. *)
Lemma elem_of_imap_pair {A} (l : list A) i x :
  (i, x) ∈ imap pair l <-> l !! i = Some x.
Proof.
  rewrite elem_of_lookup_imap. split; [by intros (j & y & [= -> ->] & ?)|eauto].
Qed.
