(* ===== verification/Effects.v ===== *)
(** * Programs over operations

    Code that calls its environment - the API server, the clock, the operating
    system - is a program: a tree that branches on every answer an operation
    can give.  A property proved with [always] holds for all answers; [run] and
    [exec] execute a program against a handler that has a state.  The
    operations are a parameter: those of the API client are in Client, those of
    the operating system in Os, those of the manager in Manager. *)

From Stdlib Require Import ZArith Lia.
From S2P Require Import Prelude.

Local Open Scope Z_scope.
Local Open Scope list_scope.

(** ** Programs *)

(** [E X] are the operations whose answer is an [X]. *)
Inductive free (E : Type -> Type) (A : Type) : Type :=
| Ret (a : A)
| Vis (X : Type) (e : E X) (k : X -> free E A).
Arguments Ret {E A} a.
Arguments Vis {E A X} e k.

(** An operation together with the answer it got. *)
Inductive event_of (E : Type -> Type) : Type := event (X : Type) (e : E X) (x : X).
Arguments event {E X} e x.

(** A handler answers the operations from a state. *)
Definition handler_of (E : Type -> Type) (W : Type) : Type := forall X, E X -> W -> X * W.

(** Every operation has an answer. *)
Class Answerable (E : Type -> Type) : Type := some_answer : forall {X}, E X -> X.

Fixpoint bind {E A B} (p : free E A) (f : A -> free E B) : free E B :=
  match p with
  | Ret a => f a
  | Vis e k => Vis e (fun x => bind (k x) f)
  end.

(** Perform one operation. *)
Definition op {E X} (e : E X) : free E X := Vis e Ret.

Declare Scope prog_scope.
Delimit Scope prog_scope with prog.
Notation "'let*' x := p 'in' q" := (bind p (fun x => q))
  (at level 10, x name, p at level 200, q at level 200) : prog_scope.
Notation "'let*' ' pat := p 'in' q" := (bind p (fun x => match x with pat => q end))
  (at level 10, pat pattern, p at level 200, q at level 200) : prog_scope.

Section effects.
Context {E : Type -> Type}.

(** Sequencing a loop body over a list, with a carried value that ends the
    loop early when it is a [Err]. *)
Fixpoint for_each {R A B} (l : list A) (acc : B) (body : B -> A -> free E (result R B)) :
    free E (result R B) :=
  match l with
  | [] => Ret (Ok acc)
  | x :: r => bind (body acc x) (fun res =>
      match res with Ok acc => for_each r acc body | Err e => Ret (Err e) end)
  end.

(** ** Paths *)


(** [path p tr a]: [p] can perform exactly the events [tr] and return [a]. *)
Fixpoint path {A} (p : free E A) (tr : list (event_of E)) (a : A) : Prop :=
  match p with
  | Ret b => tr = [] /\ a = b
  | Vis e k => exists x tr', tr = event e x :: tr' /\ path (k x) tr' a
  end.

(** [always p Q]: every path of [p] satisfies [Q]. *)
Fixpoint always {A} (p : free E A) (Q : list (event_of E) -> A -> Prop) : Prop :=
  match p with
  | Ret a => Q [] a
  | Vis e k => forall x, always (k x) (fun tr a => Q (event e x :: tr) a)
  end.

Lemma always_path {A} (p : free E A) Q :
  always p Q <-> forall tr a, path p tr a -> Q tr a.
Proof.
  revert Q; induction p as [b|X e k IH]; intros Q; simpl.
  - split; [by intros ? ? ? [-> ->]|auto].
  - split.
    + intros H tr a (x & tr' & -> & Hp). by apply (IH x _) with (1 := H x).
    + intros H x. apply IH. intros tr a Hp. apply H. eauto.
Qed.

Lemma always_impl {A} (p : free E A) (Q Q' : list (event_of E) -> A -> Prop) :
  always p Q -> (forall tr a, Q tr a -> Q' tr a) -> always p Q'.
Proof. rewrite !always_path. eauto. Qed.

Lemma always_and {A} (p : free E A) (Q Q' : list (event_of E) -> A -> Prop) :
  always p Q -> always p Q' -> always p (fun tr a => Q tr a /\ Q' tr a).
Proof. rewrite !always_path. eauto. Qed.

Lemma always_trivial {A} (p : free E A) : always p (fun _ _ => True).
Proof. by apply always_path. Qed.

Lemma always_bind {A B} (p : free E A) (f : A -> free E B) Q :
  always p (fun tr a => always (f a) (fun tr' b => Q (tr ++ tr') b)) -> always (bind p f) Q.
Proof.
  revert Q; induction p as [b|X e k IH]; intros Q; simpl; [done|].
  intros H x. apply IH. apply H.
Qed.


(** ** Running a program *)

Fixpoint run {A W} (h : handler_of E W) (p : free E A) (w : W) : A * W * list (event_of E) :=
  match p with
  | Ret a => (a, w, [])
  | Vis e k =>
      let '(x, w1) := h _ e w in
      let '(a, w2, tr) := run h (k x) w1 in
      (a, w2, event e x :: tr)
  end.

Lemma run_path {A W} (h : handler_of E W) (p : free E A) w :
  path p (run h p w).2 (run h p w).1.1.
Proof.
  revert w; induction p as [b|X e k IH]; intros w; simpl; [done|].
  destruct (h X e w) as [x w1]. specialize (IH x w1).
  destruct (run h (k x) w1) as [[a w2] tr]; simpl in *. eauto.
Qed.

(** The result and the state, without the trace. *)
Fixpoint exec {A W} (h : handler_of E W) (p : free E A) (w : W) : A * W :=
  match p with
  | Ret a => (a, w)
  | Vis e k => let '(x, w1) := h _ e w in exec h (k x) w1
  end.

Lemma exec_run {A W} (h : handler_of E W) (p : free E A) w : exec h p w = (run h p w).1.
Proof.
  revert w; induction p as [a|X e k IH]; intros w; simpl; [done|].
  destruct (h X e w) as [x w1]. rewrite IH. by destruct (run h (k x) w1) as [[a w2] tr].
Qed.

Lemma exec_bind {A B W} (h : handler_of E W) (p : free E A) (f : A -> free E B) w :
  exec h (bind p f) w = let '(a, w1) := exec h p w in exec h (f a) w1.
Proof.
  revert w; induction p as [a|X e k IH]; intros w; simpl; [done|].
  destruct (h X e w) as [x w1]. apply IH.
Qed.

(** ** Sums and conditions over the events of a path *)

Definition sum_events (f : event_of E -> Z) (tr : list (event_of E)) : Z := foldr (fun v n => f v + n) 0 tr.

Lemma sum_events_app f tr tr' : sum_events f (tr ++ tr') = sum_events f tr + sum_events f tr'.
Proof. induction tr as [|v tr IH]; simpl; lia. Qed.

Lemma sum_events_zero f tr : Forall (fun v => f v = 0) tr -> sum_events f tr = 0.
Proof. induction 1; simpl; lia. Qed.



(** *** Conditions that hold for every event of every path *)

Definition all_events {A} (P : event_of E -> Prop) (p : free E A) : Prop :=
  always p (fun tr _ => Forall P tr).

Lemma all_events_ret {A} P (a : A) : all_events P (Ret a).
Proof. constructor. Qed.

Lemma all_events_vis {A X} P (e : E X) (k : X -> free E A) :
  (forall x, P (event e x)) -> (forall x, all_events P (k x)) -> all_events P (Vis e k).
Proof.
  intros He Hk x. eapply always_impl; [apply Hk|].
  intros tr a Htr. by constructor.
Qed.

Lemma all_events_bind {A B} P (p : free E A) (f : A -> free E B) :
  all_events P p -> (forall a, all_events P (f a)) -> all_events P (bind p f).
Proof.
  intros Hp Hf. apply always_bind. eapply always_impl; [apply Hp|].
  intros tr a Htr. eapply always_impl; [apply Hf|].
  intros tr' b Htr'. by apply Forall_app.
Qed.

Lemma all_events_impl {A} (P Q : event_of E -> Prop) (p : free E A) :
  all_events P p -> (forall v, P v -> Q v) -> all_events Q p.
Proof.
  intros Hp HPQ. eapply always_impl; [apply Hp|].
  intros tr ? Htr. eapply Forall_impl; [exact Htr|exact HPQ].
Qed.

(** The first event of a path satisfies what every event does. *)
Lemma always_some_path `{!Answerable E} {A} (p : free E A) Q : always p Q -> exists tr a, Q tr a.
Proof.
  revert Q. induction p as [a|X e k IH]; intros Q Hq; [by exists [], a|].
  destruct (IH (some_answer e) _ (Hq (some_answer e))) as (tr & a & Ha). by eexists (event e _ :: tr), a.
Qed.

Lemma all_events_vis_inv `{!Answerable E} {A X} P (e : E X) (k : X -> free E A) :
  all_events P (Vis e k) -> forall x, P (event e x) /\ all_events P (k x).
Proof.
  intros Hall x. split.
  - destruct (always_some_path _ _ (Hall x)) as (tr & a & Htr). by inversion Htr.
  - eapply always_impl; [apply Hall|]. intros tr a Htr. cbv beta in Htr. by inversion Htr.
Qed.

(** *** Weights that every path sums to zero *)

Definition zero_sum {A} (f : event_of E -> Z) (p : free E A) : Prop :=
  always p (fun tr _ => sum_events f tr = 0).

Lemma zero_sum_bind {A B} f (p : free E A) (g : A -> free E B) :
  zero_sum f p -> (forall a, zero_sum f (g a)) -> zero_sum f (bind p g).
Proof.
  intros Hp Hg. apply always_bind. eapply always_impl; [apply Hp|].
  intros tr a Htr. eapply always_impl; [apply Hg|].
  intros tr' b Htr'. rewrite sum_events_app. cbv beta in *. lia.
Qed.

Lemma zero_sum_vis {A X} f (e : E X) (k : X -> free E A) :
  (forall x, f (event e x) = 0) -> (forall x, zero_sum f (k x)) -> zero_sum f (Vis e k).
Proof.
  intros He Hk x. eapply always_impl; [apply Hk|].
  intros tr a Htr. simpl. rewrite He. cbv beta in *. lia.
Qed.

Lemma zero_sum_all_events {A} f (P : event_of E -> Prop) (p : free E A) :
  all_events P p -> (forall v, P v -> f v = 0) -> zero_sum f p.
Proof.
  intros Hp Hf. eapply always_impl; [apply Hp|].
  intros tr ? Htr. apply sum_events_zero. eapply Forall_impl; [exact Htr|exact Hf].
Qed.
End effects.

#[export] Hint Rewrite @sum_events_app : ocular.
