(* ===== verification/Execution.v ===== *)
(** * Executions of a program in an environment

    A program that is run again and again against a shared state, one run at a
    time, interleaved at every operation with what else happens to the state:
    calls are served, fail, or are served with their answer lost; the program
    can be stopped anywhere and begun anew.  And the proof rule for invariants
    of such executions: between its operations a run carries knowledge of the
    state that the environment cannot take away. *)

From S2P Require Import Prelude Effects.

Section execution.
Context {E : Type -> Type} {W A L : Type}.
(** What serves a call; [L] is what the server is free to choose. *)
Variable serve : L -> handler_of E W.
Variable fails : forall X, E X -> X -> Prop.
Variable environment : W -> W -> Prop.
Variable restarted : W -> W.
Variable start : free E A.

Inductive answers {X} (e : E X) (w : W) : X -> W -> Prop :=
| answer_served l : answers e w (serve l X e w).1 (serve l X e w).2
| answer_failed x : fails X e x -> answers e w x w
| answer_lost l x : fails X e x -> answers e w x (serve l X e w).2.

(** The state and what is left of the run. *)
Record Execution := mkExecution { Exec_State : W; Exec_Todo : free E A }.

Inductive execution_step : Execution -> Execution -> Prop :=
| step_environment w w' todo : environment w w' -> execution_step (mkExecution w todo) (mkExecution w' todo)
| step_begin w a : execution_step (mkExecution w (Ret a)) (mkExecution w start)
| step_call w X (e : E X) k x w' :
    answers e w x w' -> execution_step (mkExecution w (Vis e k)) (mkExecution w' (k x))
| step_restart w todo a : execution_step (mkExecution w todo) (mkExecution (restarted w) (Ret a)).

Definition execution_steps : Execution -> Execution -> Prop := rtc execution_step.

(** A run in which every call is served. *)
Lemma exec_steps l (p : free E A) w :
  execution_steps (mkExecution w p) (mkExecution (exec (serve l) p w).2 (Ret (exec (serve l) p w).1)).
Proof.
  revert w. induction p as [a|X e k IH]; intros w; [apply rtc_refl|].
  eapply rtc_l; [apply step_call, (answer_served e w l)|]. cbn [exec].
  destruct (serve l X e w) as [x w']. apply IH.
Qed.

(** ** Invariants *)

Section invariant.
Context {K : Type}.
Variable inv : W -> Prop.
Variable knows : K -> W -> Prop.

(** What is left of a run keeps the invariant, from the knowledge it has. *)
Fixpoint keeps {B} (p : free E B) (kn : K) : Prop :=
  match p with
  | Ret _ => True
  | Vis e k => forall w x w', inv w -> knows kn w -> answers e w x w' ->
      inv w' /\ exists kn', knows kn' w' /\ keeps (k x) kn'
  end.

(** An operation that takes nothing away. *)
Definition calm {X} (e : E X) : Prop :=
  forall w x w', answers e w x w' -> inv w -> inv w' /\ forall kn, knows kn w -> knows kn w'.

Lemma keeps_calm {B X} (e : E X) (k : X -> free E B) kn :
  calm e -> (forall x, keeps (k x) kn) -> keeps (Vis e k) kn.
Proof.
  intros He Hk w x w' Hinv Hkn Hans. destruct (He w x w' Hans Hinv) as [Hinv' Hkn'].
  split; [done|]. exists kn. auto.
Qed.

Lemma keeps_bind `{!Answerable E} {B C} (p : free E B) (f : B -> free E C) kn :
  all_events (fun v => match v with event e _ => calm e end) p -> (forall b, keeps (f b) kn) ->
  keeps (bind p f) kn.
Proof.
  induction p as [b|X e k IH]; intros Hp Hf; [apply Hf|].
  change (keeps (Vis e (fun x => bind (k x) f)) kn).
  pose proof (all_events_vis_inv _ _ _ Hp) as Hinv.
  apply keeps_calm; [apply (Hinv (some_answer e))|]. intros x. apply IH; [apply Hinv|exact Hf].
Qed.

(** More knowledge does no harm. *)
Lemma keeps_weaken {B} (p : free E B) kn kn' :
  (forall w, knows kn' w -> knows kn w) -> keeps p kn -> keeps p kn'.
Proof. destruct p as [b|X e k]; [done|]. intros Hkn Hp w x w' Hinv Hw. apply Hp; auto. Qed.

(** The rule: the invariant holds in every execution. *)
Theorem execution_invariant nothing w a s :
  (forall w, knows nothing w) -> keeps start nothing ->
  (forall w w', environment w w' -> inv w -> inv w' /\ forall kn, knows kn w -> knows kn w') ->
  (forall w, inv w -> inv (restarted w)) ->
  inv w -> execution_steps (mkExecution w (Ret a)) s -> inv (Exec_State s).
Proof.
  intros Hnothing Hstart Henv Hrestart Hw Hsteps.
  assert (inv (Exec_State s) /\ exists kn, knows kn (Exec_State s) /\ keeps (Exec_Todo s) kn) as [Hs _]; [|exact Hs].
  revert s Hsteps. refine (rtc_ind_r (fun s => _) (mkExecution w (Ret a)) _ _).
  - split; [exact Hw|]. by exists nothing.
  - intros s s' _ Hstep (Hs & kn & Hkn & Hkeeps). destruct Hstep as [v v' todo He|v b|v X e k x v' Hans|v todo b]; simpl in *.
    + destruct (Henv v v' He Hs) as [Hv Hkn']. split; [done|]. exists kn. auto.
    + split; [done|]. exists nothing. auto.
    + destruct (Hkeeps v x v' Hs Hkn Hans) as (Hv & kn' & Hkn' & Hk). split; [done|]. by exists kn'.
    + split; [auto|]. by exists nothing.
Qed.
End invariant.
End execution.
Arguments mkExecution {E W A}.
Arguments Exec_State {E W A}.
Arguments Exec_Todo {E W A}.
Arguments Execution : clear implicits.
