(* ===== verification/GoStd.v ===== *)
(** * The part of the Go language and standard library the program uses

    Fixed-width integers with their wrap-around, [time.Duration] and
    [time.Time], [strings], [path], [maps], [slices], the decoding of a
    string into runes by [range], and the two constructs whose result Go
    leaves open: the order of a [range] over a map and the order [sort.Slice]
    gives to equal elements.  These two are classes; every theorem holds for
    all their instances. *)

From Stdlib Require Import ZArith Lia String Ascii SpecFloat.
From stdpp Require Import pretty sorting.
From S2P Require Import Prelude.

(** ** Machine integers *)

(** Two's complement wrap-around at width [w]. *)
Definition wrap (w z : Z) : Z := (z + 2 ^ (w - 1)) mod 2 ^ w - 2 ^ (w - 1).
Definition int32 (z : Z) : Z := wrap 32 z.
Definition int64 (z : Z) : Z := wrap 64 z.

Definition max_int64 : Z := 2 ^ 63 - 1.
Definition min_int64 : Z := - 2 ^ 63.

(** The range of an [int32] and of an [int64] value. *)
Definition is_int32 (z : Z) : Prop := - 2 ^ 31 <= z < 2 ^ 31.
Definition is_int64 (z : Z) : Prop := - 2 ^ 63 <= z < 2 ^ 63.

Lemma wrap_id w z : 0 < w -> - 2 ^ (w - 1) <= z < 2 ^ (w - 1) -> wrap w z = z.
Proof.
  intros Hw Hz. unfold wrap.
  assert (2 ^ w = 2 * 2 ^ (w - 1)) as E.
  { rewrite <-(Z.pow_succ_r 2 (w - 1)) by lia. f_equal; lia. }
  rewrite Z.mod_small; lia.
Qed.

Lemma int32_id z : is_int32 z -> int32 z = z.
Proof. intros H. apply wrap_id; [lia|exact H]. Qed.
Lemma int64_id z : is_int64 z -> int64 z = z.
Proof. intros H. apply wrap_id; [lia|exact H]. Qed.
#[export] Hint Resolve int32_id int64_id : ocular.

(** ** Durations and times *)

(** A [time.Duration] is an [int64] number of nanoseconds, a [time.Time] the
    number of nanoseconds since the zero time (January 1, year 1 UTC). *)
Definition Duration : Type := Z.
Definition Time : Type := Z.

Definition Second : Duration := 1000000000.
Definition zero_time : Time := 0.
Definition time_is_zero (t : Time) : bool := t =? zero_time.

(** [d1 * d2] on durations: an [int64] multiplication, which wraps. *)
Definition duration_mul (a b : Duration) : Duration := int64 (a * b).

(** [t.Add(d)], [t.After(u)], [t.Before(u)]. *)
Definition time_add (t : Time) (d : Duration) : Time := t + d.
Definition time_after (t u : Time) : bool := u <? t.
Definition time_before (t u : Time) : bool := t <? u.

(** [t.Sub(u)] saturates at the bounds of [Duration]. *)
Definition time_sub (t u : Time) : Duration := Z.max min_int64 (Z.min max_int64 (t - u)).

(** [t.Unix()]: whole seconds since January 1, 1970 UTC, rounded down. *)
Definition unix_epoch_seconds : Z := 62135596800.
Definition time_unix (t : Time) : Z := t / Second - unix_epoch_seconds.

(** A copy with the precision of the wire format, whole seconds. *)
Definition truncate_to_second (t : Time) : Time := t - t mod Second.

(** [d.Seconds()] and [float64(i)] are binary64 numbers.  [seconds_gt d n] is
    [d.Seconds() > float64(n)]: [d.Seconds()] is
    [float64(d / Second) + float64(d % Second) / 1e9], with Go's truncated
    division and remainder. *)
Definition float64_of_Z (z : Z) : spec_float :=
  match z with
  | Z0 => S754_zero false
  | Zpos _ => binary_normalize 53 1024 z 0 false
  | Zneg _ => binary_normalize 53 1024 z 0 true
  end.
Definition duration_seconds (d : Duration) : spec_float :=
  SFadd 53 1024 (float64_of_Z (Z.quot d Second))
    (SFdiv 53 1024 (float64_of_Z (Z.rem d Second)) (float64_of_Z 1000000000)).
Definition seconds_gt (d : Duration) (n : Z) : bool :=
  SFltb (float64_of_Z n) (duration_seconds d).

Example seconds_gt_above : seconds_gt (3 * Second + 1) 3 = true.
Proof. vm_compute. reflexivity. Qed.
Example seconds_gt_equal : seconds_gt (3 * Second) 3 = false.
Proof. vm_compute. reflexivity. Qed.
Example seconds_gt_future : seconds_gt (- 5 * Second) 3 = false.
Proof. vm_compute. reflexivity. Qed.

(** An [int32] number of seconds is always a representable duration. *)
Lemma duration_mul_int32 n : is_int32 n -> duration_mul n Second = n * Second.
Proof.
  intros Hn. apply int64_id. unfold is_int32, is_int64, Second in *. lia.
Qed.

Lemma time_sub_small t u :
  - 2 ^ 63 <= t - u < 2 ^ 63 -> time_sub t u = t - u.
Proof. unfold time_sub, max_int64, min_int64. lia. Qed.

Lemma time_sub_pos t u : 0 < time_sub t u <-> u < t.
Proof. unfold time_sub, max_int64, min_int64. lia. Qed.

(** ** Strings *)

(** A Go string is a sequence of bytes, as is a Rocq [string]. *)
Definition has_prefix (s p : string) : bool := String.prefix p s.

(** [strings.Join]. *)
Definition strings_join (elems : list string) (sep : string) : string :=
  String.concat sep elems.

(** [strings.Split(s, sep)] for a separator of one byte. *)
Fixpoint strings_split (s : string) (sep : ascii) : list string :=
  match s with
  | EmptyString => [EmptyString]
  | String c r =>
      if Ascii.eqb c sep then EmptyString :: strings_split r sep
      else match strings_split r sep with
           | x :: xs => String c x :: xs
           | [] => [String c EmptyString]
           end
  end.

(** [strconv.Itoa], and [%d] for an integer. *)
Definition itoa (z : Z) : string := pretty z.

Lemma itoa_inj z1 z2 : itoa z1 = itoa z2 -> z1 = z2.
Proof. apply (inj pretty). Qed.

(** [len(s)], a number of bytes. *)
Definition len (s : string) : Z := Z.of_nat (String.length s).

Lemma len_app s t : len (s +:+ t) = len s + len t.
Proof.
  unfold len. rewrite <-Nat2Z.inj_add. f_equal.
  induction s as [|c s IH]; [done|]. simpl. by rewrite IH.
Qed.

Lemma pretty_digits n : (n < 10 ^ 10)%N -> (String.length (pretty n) <= 10)%nat.
Proof.
  intros Hn. assert (forall k m s, (m < 10 ^ N.of_nat k)%N ->
    (String.length (pretty_N_go m s) <= k + String.length s)%nat) as Hgo.
  { induction k as [|k IH]; intros m s Hm.
    - simpl in Hm. assert (m = 0%N) as -> by lia. rewrite pretty_N_go_0. lia.
    - destruct (decide (0 < m)%N) as [Hpos|]; [|assert (m = 0%N) as -> by lia; rewrite pretty_N_go_0; lia].
      rewrite pretty_N_go_step by done. etransitivity; [apply IH|simpl; lia].
      apply N.Div0.div_lt_upper_bound. rewrite Nat2N.inj_succ, N.pow_succ_r' in Hm. lia. }
  unfold pretty, pretty_N. destruct (decide (n = 0)%N) as [->|]; [simpl; lia|].
  specialize (Hgo 10%nat n ""). apply Hgo. exact Hn.
Qed.

(** A number below ten billion has at most ten digits. *)
Lemma len_itoa z : 0 <= z < 10 ^ 10 -> len (itoa z) <= 10.
Proof.
  intros Hz. unfold len, itoa. destruct z as [|x|x]; [done| |lia].
  change (pretty (Z.pos x)) with (pretty (N.pos x)).
  pose proof (pretty_digits (N.pos x)). lia.
Qed.

(** [strconv.Atoi]: a sign and decimal digits, in the range of an int. *)
Definition digit_value (c : ascii) : option Z :=
  let n := Z.of_nat (nat_of_ascii c) in
  if (48 <=? n) && (n <=? 57) then Some (n - 48) else None.

Fixpoint digits_value (acc : Z) (s : string) : option Z :=
  match s with
  | EmptyString => Some acc
  | String c s => match digit_value c with Some d => digits_value (10 * acc + d) s | None => None end
  end.

Definition unsigned_value (s : string) : option Z :=
  match s with EmptyString => None | _ => digits_value 0 s end.

Definition atoi (s : string) : option Z :=
  match (match s with
         | String "-"%char s => Z.opp <$> unsigned_value s
         | String "+"%char s => unsigned_value s
         | _ => unsigned_value s
         end) with
  | Some z => if (min_int64 <=? z) && (z <=? max_int64) then Some z else None
  | None => None
  end.

Lemma digits_value_pretty_go n s :
  digits_value 0 (pretty_N_go n s) = digits_value (Z.of_N n) s.
Proof.
  revert s; induction (N.lt_wf_0 n) as [n _ IH]; intros s.
  destruct (decide (0 < n)%N) as [Hpos|]; [|assert (n = 0%N) as -> by lia; by rewrite pretty_N_go_0].
  rewrite pretty_N_go_step by done.
  rewrite IH by (apply N.div_lt; [done|reflexivity]). cbn [digits_value].
  assert (digit_value (pretty_N_char (n `mod` 10)) = Some (Z.of_N (n `mod` 10))) as ->.
  { assert (n `mod` 10 < 10)%N as Hlt by (apply N.mod_lt; done).
    remember (n `mod` 10)%N as d. destruct d as [|d]; [done|]. do 4 (destruct d as [d|d|]; try done; try lia). }
  f_equal. pose proof (N.div_mod n 10) as Hdm. rewrite N2Z.inj_div, N2Z.inj_mod.
  pose proof (Z_div_mod_eq_full (Z.of_N n) (Z.of_N 10)). lia.
Qed.

Lemma pretty_N_go_String n s : (0 < n)%N -> exists c r, pretty_N_go n s = String (pretty_N_char c) r.
Proof.
  revert s; induction (N.lt_wf_0 n) as [n _ IH]; intros s Hpos.
  rewrite pretty_N_go_step by done.
  destruct (decide (0 < n / 10)%N) as [Hd|].
  - apply IH; [apply N.div_lt; [done|reflexivity]|done].
  - assert ((n / 10)%N = 0%N) as -> by (apply N.le_0_r, N.nlt_ge; done). rewrite pretty_N_go_0. eauto.
Qed.

(** Reading back a printed int gives the int. *)
Lemma atoi_itoa z : is_int64 z -> atoi (itoa z) = Some z.
Proof.
  assert (forall p, digits_value 0 (pretty (N.pos p)) = Some (Z.pos p)) as Hval.
  { intros p. change (pretty (N.pos p)) with (pretty_N_go (N.pos p) "").
    by rewrite digits_value_pretty_go. }
  assert (forall p, exists c r, pretty (N.pos p) = String (pretty_N_char c) r) as Hfirst.
  { intros p. by apply (pretty_N_go_String (N.pos p) ""). }
  intros [Hlo Hhi].
  assert ((min_int64 <=? z) && (z <=? max_int64) = true) as Hrange.
  { unfold min_int64, max_int64. apply andb_true_iff; split; apply Z.leb_le; lia. }
  unfold atoi, itoa. destruct z as [|p|p]; [done| |].
  - change (pretty (Z.pos p)) with (pretty (N.pos p)).
    destruct (Hfirst p) as (c & r & Hp). specialize (Hval p). rewrite Hp in *.
    assert (unsigned_value (String (pretty_N_char c) r) = Some (Z.pos p)) as Hu by exact Hval.
    assert (pretty_N_char c <> "-"%char /\ pretty_N_char c <> "+"%char) as [Hm Hplus].
    { destruct c as [|d]; [done|]. do 4 (try destruct d as [d|d|]); done. }
    destruct (pretty_N_char c) as [[] [] [] [] [] [] [] []]; try done; by rewrite Hu, Hrange.
  - change (pretty (Z.neg p)) with ("-" +:+ pretty (N.pos p)).
    destruct (Hfirst p) as (c & r & Hp). specialize (Hval p).
    assert (unsigned_value (pretty (N.pos p)) = Some (Z.pos p)) as Hu by (rewrite Hp in *; exact Hval).
    change ("-" +:+ pretty (N.pos p)) with (String "-" (pretty (N.pos p))). cbn iota.
    rewrite Hu. cbn [fmap option_fmap option_map]. change (- Z.pos p) with (Z.neg p). by rewrite Hrange.
Qed.

Example atoi_overflow : atoi "9223372036854775808" = None.
Proof. reflexivity. Qed.

(** ** Runes

    [for _, char := range s] decodes UTF-8.  [rune_width s] is the number of
    bytes of the first rune; an invalid sequence is one byte wide and decodes
    to U+FFFD (unicode/utf8). *)
Definition byte_in (lo hi : Z) (c : ascii) : bool :=
  let n := Z.of_nat (nat_of_ascii c) in (lo <=? n) && (n <=? hi).

Fixpoint continuation (n : nat) (s : string) : bool :=
  match n, s with
  | O, _ => true
  | S n, String c r => byte_in 128 191 c && continuation n r
  | S _, EmptyString => false
  end.

(** The sequences of two and more bytes: the range of the first byte, the
    range of the second, and the number of further continuation bytes. *)
Definition utf8_forms : list (Z * Z * Z * Z * nat) :=
  [ (194, 223, 128, 191, 0%nat);
    (224, 224, 160, 191, 1%nat); (225, 236, 128, 191, 1%nat);
    (237, 237, 128, 159, 1%nat); (238, 239, 128, 191, 1%nat);
    (240, 240, 144, 191, 2%nat); (241, 243, 128, 191, 2%nat);
    (244, 244, 128, 143, 2%nat) ].

Definition rune_width (s : string) : nat :=
  match s with
  | EmptyString => 0%nat
  | String c r =>
      match List.find (fun '(lo, hi, _, _, _) => byte_in lo hi c) utf8_forms, r with
      | Some (_, _, lo, hi, n), String d r' =>
          if byte_in lo hi d && continuation n r' then (n + 2)%nat else 1%nat
      | _, _ => 1%nat
      end
  end.

Example rune_width_ascii : rune_width "a"%string = 1%nat.
Proof. reflexivity. Qed.
Example rune_width_e_acute :
  rune_width (String (ascii_of_nat 195) (String (ascii_of_nat 169) ""))%string = 2%nat.
Proof. reflexivity. Qed.

Lemma rune_width_ascii_byte c r :
  (nat_of_ascii c < 128)%nat -> rune_width (String c r) = 1%nat.
Proof.
  intros Hc. unfold rune_width.
  assert (List.find (fun '(lo, hi, _, _, _) => byte_in lo hi c) utf8_forms = None) as ->.
  { unfold utf8_forms, byte_in. simpl.
    repeat match goal with
    | |- context [(?lo <=? ?n)%Z && _] => replace (lo <=? n)%Z with false by lia; simpl
    end. done. }
  done.
Qed.

(** ** Paths (package path) *)

(** [path.IsAbs]. *)
Definition path_is_abs (p : string) : bool := has_prefix p "/".

(** [path.Clean], element by element.  [stack] holds the elements written so
    far, the last one first; [..] removes the last element unless that is
    itself a [..] that could not be removed. *)
Definition clean_step (rooted : bool) (stack : list string) (e : string) : list string :=
  if (String.eqb e "" || String.eqb e ".")%bool then stack
  else if String.eqb e ".." then
    match stack with
    | x :: rest => if String.eqb x ".." then e :: stack else rest
    | [] => if rooted then [] else [e]
    end
  else e :: stack.

Definition clean_elems (rooted : bool) (es : list string) : list string :=
  rev (fold_left (clean_step rooted) es []).

Definition path_clean (p : string) : string :=
  let rooted := path_is_abs p in
  let es := clean_elems rooted (strings_split p "/"%char) in
  if rooted then String.append "/" (strings_join es "/")
  else match es with [] => "."%string | _ => strings_join es "/" end.

(** [path.Join]: empty elements are ignored and the result is cleaned. *)
Definition path_join (elems : list string) : string :=
  match List.filter (fun e => negb (String.eqb e "")) elems with
  | [] => ""%string
  | es => path_clean (strings_join es "/")
  end.

Example path_clean_dotdot : path_clean "a/../../b/./c//d"%string = "../b/c/d"%string.
Proof. reflexivity. Qed.
Example path_clean_rooted : path_clean "/../a/.."%string = "/"%string.
Proof. reflexivity. Qed.
Example path_join_clean : path_join ["/mnt/results"; "out/../x.json"]%string = "/mnt/results/x.json"%string.
Proof. reflexivity. Qed.

(** ** Maps and slices *)

(** A Go [map[string]V] is a finite map; the nil map is the empty map, since
    reads of the two agree and the program guards each write by a nil check.
    [maps.Copy(dst, src)]: the entries of [src] override those of [dst]. *)
Definition maps_copy {V} (dst src : gmap string V) : gmap string V := src ∪ dst.

(** [maps.DeleteFunc(m, del)]. *)
Definition maps_delete_func {V} (del : string -> V -> bool) (m : gmap string V) : gmap string V :=
  filter (fun kv => del kv.1 kv.2 = false) m.

Lemma lookup_maps_copy {V} (dst src : gmap string V) k :
  maps_copy dst src !! k = match src !! k with Some v => Some v | None => dst !! k end.
Proof.
  unfold maps_copy. rewrite lookup_union. by destruct (src !! k), (dst !! k).
Qed.

Lemma lookup_maps_delete_func {V} (del : string -> V -> bool) (m : gmap string V) k :
  maps_delete_func del m !! k =
    match m !! k with Some v => if del k v then None else Some v | None => None end.
Proof.
  unfold maps_delete_func. rewrite map_lookup_filter.
  destruct (m !! k) as [v|]; simpl; [|done].
  destruct (del k v) eqn:E; case_guard; simpl; congruence.
Qed.
#[export] Hint Rewrite @lookup_maps_copy @lookup_maps_delete_func : ocular.

(** [slices.CompactFunc]: drop an element equal to the one before it. *)
Fixpoint compact_from {A} (eq : A -> A -> bool) (prev : A) (l : list A) : list A :=
  match l with
  | [] => []
  | y :: r => if eq y prev then compact_from eq y r else y :: compact_from eq y r
  end.
Definition slices_compact_func {A} (eq : A -> A -> bool) (l : list A) : list A :=
  match l with [] => [] | x :: r => x :: compact_from eq x r end.

(** The order in which [for k, v := range m] visits the entries of a map is
    not specified: any enumeration of the entries is possible. *)
Class MapRange (V : Type) : Type := {
  map_range : gmap string V -> list (string * V);
  map_range_perm m : map_range m ≡ₚ map_to_list m
}.

Definition map_range_canonical {V} : MapRange V :=
  {| map_range := map_to_list; map_range_perm m := Permutation_refl _ |}.

Lemma elem_of_map_range `{MapRange V} (m : gmap string V) k v :
  (k, v) ∈ map_range m <-> m !! k = Some v.
Proof. rewrite map_range_perm. apply elem_of_map_to_list. Qed.

Lemma map_range_NoDup_keys `{MapRange V} (m : gmap string V) :
  NoDup (map_range m).*1.
Proof. rewrite map_range_perm. apply NoDup_fst_map_to_list. Qed.

(** [sort.Slice(l, less)] permutes [l] so that no element is less than an
    earlier one, provided [less] is a strict weak order; the order of
    equivalent elements is not specified. *)
Class StrictWeakOrder {A} (less : A -> A -> bool) : Prop := {
  less_irrefl x : less x x = false;
  less_trans x y z : less x y = true -> less y z = true -> less x z = true;
  less_incomparable_trans x y z :
    less x y = false -> less y z = false -> less x z = false
}.

Class SortSlice : Type := {
  sort_slice : forall {A}, (A -> A -> bool) -> list A -> list A;
  sort_slice_perm {A} (less : A -> A -> bool) l : sort_slice less l ≡ₚ l;
  sort_slice_sorted {A} (less : A -> A -> bool) l :
    StrictWeakOrder less -> StronglySorted (fun x y => less y x = false) (sort_slice less l)
}.

(** Insertion sort is such an implementation (and is the one Go runs on short
    slices). *)
Fixpoint insert_sorted {A} (less : A -> A -> bool) (x : A) (l : list A) : list A :=
  match l with
  | [] => [x]
  | y :: r => if less x y then x :: l else y :: insert_sorted less x r
  end.
Definition insertion_sort {A} (less : A -> A -> bool) (l : list A) : list A :=
  fold_left (fun acc x => insert_sorted less x acc) l [].

Section insertion.
Context {A : Type} (less : A -> A -> bool).

Lemma insert_sorted_perm x l : insert_sorted less x l ≡ₚ x :: l.
Proof.
  induction l as [|y r IH]; simpl; [done|].
  destruct (less x y); [done|]. rewrite IH. constructor.
Qed.

Lemma insertion_sort_perm l : insertion_sort less l ≡ₚ l.
Proof.
  unfold insertion_sort.
  enough (forall acc, fold_left (fun acc x => insert_sorted less x acc) l acc ≡ₚ l ++ acc) as H.
  { by rewrite H, app_nil_r. }
  induction l as [|x l IH]; intros acc; simpl; [done|].
  rewrite IH, insert_sorted_perm. symmetry. apply Permutation_middle.
Qed.

Lemma insert_sorted_sorted `{StrictWeakOrder A less} x l :
  StronglySorted (fun x y => less y x = false) l ->
  StronglySorted (fun x y => less y x = false) (insert_sorted less x l).
Proof.
  induction 1 as [|y r Hr IH Hy]; simpl; [repeat constructor|].
  destruct (less x y) eqn:E.
  - assert (less y x = false) as Eyx.
    { destruct (less y x) eqn:E'; [|done].
      rewrite <-(less_irrefl x). symmetry. by apply less_trans with y. }
    constructor; [by constructor|]. constructor; [done|].
    eapply Forall_impl; [exact Hy|]. intros z Hz. by apply less_incomparable_trans with y.
  - constructor; [done|].
    rewrite insert_sorted_perm. by constructor.
Qed.

Lemma insertion_sort_sorted l :
  StrictWeakOrder less -> StronglySorted (fun x y => less y x = false) (insertion_sort less l).
Proof.
  intros ?. unfold insertion_sort.
  assert (forall acc, StronglySorted (fun x y => less y x = false) acc ->
    StronglySorted (fun x y => less y x = false)
      (fold_left (fun acc x => insert_sorted less x acc) l acc)) as H'; [|apply H'; constructor].
  induction l as [|x l IH]; intros acc Hacc; simpl; [done|].
  apply IH. by apply insert_sorted_sorted.
Qed.
End insertion.

Definition sort_slice_insertion : SortSlice :=
  {| sort_slice := @insertion_sort;
     sort_slice_perm := @insertion_sort_perm;
     sort_slice_sorted := @insertion_sort_sorted |}.

(** ** Lemmas on strings *)

Definition has_byte (c : ascii) (s : string) : bool :=
  existsb (Ascii.eqb c) (String.list_ascii_of_string s).

Lemma string_app_cons c s t : String.append (String c s) t = String c (String.append s t).
Proof. done. Qed.

Lemma string_app_inj_l p a b : p +:+ a = p +:+ b -> a = b.
Proof. induction p as [|x p IH]; [done|]. intros [= E]. by apply IH. Qed.

Lemma split_no_sep s c : has_byte c s = false -> strings_split s c = [s].
Proof.
  induction s as [|d s IH]; [done|]. unfold has_byte; simpl.
  rewrite Ascii.eqb_sym. destruct (Ascii.eqb d c); simpl; [done|].
  intros H. by rewrite IH.
Qed.

Lemma split_app_sep s c t :
  has_byte c s = false -> strings_split (String.append s (String c t)) c = s :: strings_split t c.
Proof.
  induction s as [|d s IH]; simpl.
  - by rewrite Ascii.eqb_refl.
  - unfold has_byte; simpl. rewrite Ascii.eqb_sym.
    destruct (Ascii.eqb d c); simpl; [done|]. intros H. by rewrite IH.
Qed.

(** Splitting a joined list gives the list back, when it is not empty and no
    element contains the separator. *)
Lemma split_join c l :
  l <> [] -> Forall (fun s => has_byte c s = false) l ->
  strings_split (strings_join l (String c "")) c = l.
Proof.
  intros Hne. induction 1 as [|s l Hs Hl IH]; [done|]. unfold strings_join in *.
  destruct l as [|s' l]; simpl; [by apply split_no_sep|].
  change (String.append (String c "") ?x) with (String c x).
  rewrite split_app_sep by done. f_equal. by apply IH.
Qed.

(** Printed numbers hold digits and a sign only. *)
Lemma itoa_no_byte c z :
  Ascii.eqb c "-" = false -> digit_value c = None -> has_byte c (itoa z) = false.
Proof.
  intros Hminus Hdigit.
  assert (forall d, Ascii.eqb c (pretty_N_char (d `mod` 10)) = false) as Hchar.
  { intros d. destruct (Ascii.eqb_spec c (pretty_N_char (d `mod` 10))) as [->|]; [|done].
    assert (d `mod` 10 < 10)%N as Hlt by (apply N.mod_lt; done).
    remember (d `mod` 10)%N as m. destruct m as [|m]; [done|].
    do 4 (destruct m as [m|m|]; try done; try lia). }
  assert (forall n s, has_byte c s = false -> has_byte c (pretty_N_go n s) = false) as Hgo.
  { induction n as [n IH] using (well_founded_induction N.lt_wf_0). intros s Hs.
    destruct (decide (0 < n)%N) as [Hpos|]; [|assert (n = 0%N) as -> by lia; by rewrite pretty_N_go_0].
    rewrite pretty_N_go_step by done. apply IH; [apply N.div_lt; [done|reflexivity]|].
    unfold has_byte. cbn [String.list_ascii_of_string existsb]. by rewrite Hchar. }
  unfold itoa. destruct z as [|p|p].
  - change (pretty 0) with "0". unfold has_byte. simpl. rewrite orb_false_r.
    destruct (Ascii.eqb_spec c "0") as [->|]; [discriminate Hdigit|done].
  - by apply (Hgo (N.pos p) "").
  - change (pretty (Z.neg p)) with (String "-" (pretty_N_go (N.pos p) "")).
    unfold has_byte in *. cbn [String.list_ascii_of_string existsb]. by rewrite Hminus, (Hgo _ "").
Qed.
