(* ===== verification/GoMemory.v ===== *)
(** * The memory of a Go program

    The deep copies of the API types are about sharing, which values cannot
    show: this file models the memory they work on.  A [heap] maps locations to
    values; structs and arrays are stored in place, pointers, slices and maps
    refer to other cells.  A [place] is what a Go pointer points to: a cell, or
    a field or an element inside of one.  Statements are functions of the heap
    that may panic ([M]).

    [deep t h v] is the content of the value [v] of type [t]: what is left of it
    when references are replaced by what they refer to.  It is defined only when
    everything that [v] refers to is in [h] and has its type, so that
    [deep t h v = Some c] for a small heap [h] says that [v] refers to nothing
    outside of [h].  [copies t f] is the contract of a function [DeepCopyInto],
    [returns_copy t f] that of a function [DeepCopy]. *)

From Stdlib Require Import ZArith Lia String.
From S2P Require Import Prelude.

Local Open Scope string_scope.
Local Open Scope list_scope.

(** ** Values, places and types *)

Notation loc := positive (only parsing).

Inductive scalar : Type :=
| SString (s : string)
| SBool (b : bool)
| SInt (z : Z).

Inductive sel : Type :=
| Field (n : string)
| Index (i : nat).

Record place : Type := mkPlace { root : loc; path : list sel }.

(** [SliceOf l off len] is a slice of the array in the cell [l]; a map is a
    cell with a struct that has a field for each key. *)
Inductive value : Type :=
| Scalar (s : scalar)
| Nil
| Pointer (p : place)
| SliceOf (l : loc) (off len : nat)
| MapOf (l : loc)
| StructOf (fields : list (string * value))
| ArrayOf (elems : list value).

Inductive kind : Type := KString | KBool | KInt.

(** The types of Go, as far as the API uses them. *)
Inductive gotype : Type :=
| TBasic (k : kind)
| TPointer (t : gotype)
| TSlice (t : gotype)
| TMap (k : kind)
| TStruct (fields : list (string * gotype)).

(** What a value holds, without the memory. *)
Inductive content : Type :=
| CScalar (s : scalar)
| CNil
| CRef (c : content)
| CElems (cs : list content)
| CEntries (cs : list (string * scalar))
| CFields (cs : list content).

#[export] Instance scalar_eq_dec : EqDecision scalar.
Proof. solve_decision. Defined.
#[export] Instance sel_eq_dec : EqDecision sel.
Proof. solve_decision. Defined.
#[export] Instance place_eq_dec : EqDecision place.
Proof. solve_decision. Defined.
#[export] Instance kind_eq_dec : EqDecision kind.
Proof. solve_decision. Defined.

Definition has_kind (k : kind) (s : scalar) : bool :=
  match k, s with
  | KString, SString _ | KBool, SBool _ | KInt, SInt _ => true
  | _, _ => false
  end.

Definition zero_scalar (k : kind) : scalar :=
  match k with KString => SString "" | KBool => SBool false | KInt => SInt 0 end.

(** The zero value of a type. *)
Fixpoint zero (t : gotype) : value :=
  match t with
  | TBasic k => Scalar (zero_scalar k)
  | TPointer _ | TSlice _ | TMap _ => Nil
  | TStruct fs => StructOf ((fun '(n, t) => (n, zero t)) <$> fs)
  end.

(** ** Parts of values *)

Fixpoint field_of (n : string) (fs : list (string * value)) : option value :=
  match fs with
  | [] => None
  | (m, v) :: r => if decide (m = n) then Some v else field_of n r
  end.

Fixpoint set_field (n : string) (w : value) (fs : list (string * value)) : list (string * value) :=
  match fs with
  | [] => []
  | (m, v) :: r => if decide (m = n) then (m, w) :: r else (m, v) :: set_field n w r
  end.

Definition child (s : sel) (v : value) : option value :=
  match s, v with
  | Field n, StructOf fs => field_of n fs
  | Index i, ArrayOf vs => vs !! i
  | _, _ => None
  end.

Definition set_child (s : sel) (w v : value) : option value :=
  match s, v with
  | Field n, StructOf fs => (fun _ => StructOf (set_field n w fs)) <$> field_of n fs
  | Index i, ArrayOf vs => (fun _ => ArrayOf (<[i:=w]> vs)) <$> (vs !! i)
  | _, _ => None
  end.

Fixpoint get_path (p : list sel) (v : value) : option value :=
  match p with
  | [] => Some v
  | s :: p => child s v ≫= get_path p
  end.

Fixpoint set_path (p : list sel) (w v : value) : option value :=
  match p with
  | [] => Some w
  | s :: p => child s v ≫= (fun u => set_path p w u ≫= fun u' => set_child s u' v)
  end.

(** The field [n] of the struct at a place. *)
Definition field (p : place) (n : string) : place := mkPlace (root p) (path p ++ [Field n]).

Declare Scope memory_scope.
Delimit Scope memory_scope with mem.
Notation "p .@ n" := (field p n) (at level 8, n at level 0) : memory_scope.

(** ** The heap *)

Notation heap := (gmap positive value).

Definition load (h : heap) (p : place) : option value := h !! root p ≫= get_path (path p).

Definition store (h : heap) (p : place) (w : value) : option heap :=
  h !! root p ≫= (fun v => set_path (path p) w v ≫= fun v' => Some (<[root p := v']> h)).

(** A statement: it may change the heap and may panic. *)
Definition M (A : Type) : Type := heap -> option (A * heap).

Definition mret {A} (a : A) : M A := fun h => Some (a, h).
Definition mbind {A B} (m : M A) (f : A -> M B) : M B :=
  fun h => match m h with Some (a, h') => f a h' | None => None end.
Definition panic {A} : M A := fun _ => None.

Notation "x <-- m ; k" := (mbind m (fun x => k))
  (at level 100, m at next level, right associativity) : memory_scope.
Notation "m ;;; k" := (mbind m (fun _ => k))
  (at level 100, k at level 200, right associativity) : memory_scope.

Local Open Scope memory_scope.

Definition read (p : place) : M value := fun h => match load h p with Some v => Some (v, h) | None => None end.
Definition write (p : place) (v : value) : M unit :=
  fun h => match store h p v with Some h' => Some (tt, h') | None => None end.
Definition alloc (v : value) : M loc := fun h => let l := fresh (dom h) in Some (l, <[l:=v]> h).

(** [new(T)] *)
Definition new (t : gotype) : M place := l <-- alloc (zero t); mret (mkPlace l []).

(** [&v[i]] for the slice at a place. *)
Definition index (p : place) (i : nat) : M place :=
  v <-- read p;
  match v with
  | SliceOf l off len => if decide (i < len)%nat then mret (mkPlace l [Index (off + i)]) else panic
  | _ => panic
  end.

(** [for i := range n], from [i] on. *)
Fixpoint for_range (n i : nat) (body : nat -> M unit) : M unit :=
  match n with
  | O => mret tt
  | S n => body i ;;; for_range n (S i) body
  end.

(** ** The statements of a deep copy *)

(** [*out = *in] *)
Definition assign (inp out : place) : M unit := v <-- read inp; write out v.

(** [if in.F != nil { in, out := &in.F, &out.F; *out = new(T); ( *in).DeepCopyInto( *out) }],
    with the body of [DeepCopyInto] or [**out = **in] for [f]. *)
Definition copy_pointer (t : gotype) (f : place -> place -> M unit) (inp out : place) : M unit :=
  v <-- read inp;
  match v with
  | Nil => mret tt
  | Pointer p =>
      q <-- new t;
      write out (Pointer q) ;;;
      f p q
  | _ => panic
  end.

(** [if in.F != nil { in, out := &in.F, &out.F; *out = ( *in).DeepCopy() }] *)
Definition copy_by (f : value -> M value) (inp out : place) : M unit :=
  v <-- read inp;
  match v with
  | Nil => mret tt
  | _ => w <-- f v; write out w
  end.

(** [if in.F != nil { in, out := &in.F, &out.F; *out = make([]T, len( *in));
    for i := range *in { ( *in)[i].DeepCopyInto(&( *out)[i]) } }]; the body is
    [( *out)[i] = ( *in)[i]] for [copy( *out, *in)]. *)
Definition copy_slice (t : gotype) (f : place -> place -> M unit) (inp out : place) : M unit :=
  v <-- read inp;
  match v with
  | Nil => mret tt
  | SliceOf _ _ len =>
      a <-- alloc (ArrayOf (replicate len (zero t)));
      write out (SliceOf a 0 len) ;;;
      for_range len 0 (fun i => p <-- index inp i; q <-- index out i; f p q)
  | _ => panic
  end.

(** [if in.F != nil { in, out := &in.F, &out.F; *out = make(map[K]V, len( *in));
    for key, val := range *in { ( *out)[key] = val } }] *)
Definition copy_map (inp out : place) : M unit :=
  v <-- read inp;
  match v with
  | Nil => mret tt
  | MapOf l => kvs <-- read (mkPlace l []); m <-- alloc kvs; write out (MapOf m)
  | _ => panic
  end.

(** A function [DeepCopy]: [if in == nil { return nil }; out := new(T);
    in.DeepCopyInto(out); return out]. *)
Definition DeepCopy (t : gotype) (f : place -> place -> M unit) (inp : value) : M value :=
  match inp with
  | Nil => mret Nil
  | Pointer p =>
      out <-- new t;
      f p out ;;;
      mret (Pointer out)
  | _ => panic
  end.

(** A [runtime.Object]: nil, or a pointer with its dynamic type. *)
Definition object : Type := option (gotype * value).

(** A function [DeepCopyObject]: [if c := in.DeepCopy(); c != nil { return c }; return nil]. *)
Definition DeepCopyObject (t : gotype) (f : value -> M value) (inp : value) : M object :=
  c <-- f inp;
  match c with
  | Nil => mret None
  | c => mret (Some (t, c))
  end.

(** ** The content of a value *)

Section fields.
Variable d : gotype -> value -> option content.

(** The contents of the fields of a struct with the given names and types. *)
Fixpoint deep_fields (fs : list (string * gotype)) (vs : list (string * value)) : option (list content) :=
  match fs, vs with
  | [], [] => Some []
  | (n, t) :: fs, (m, v) :: vs =>
      if decide (n = m) then d t v ≫= (fun c => deep_fields fs vs ≫= fun cs => Some (c :: cs))
      else None
  | _, _ => None
  end.
End fields.

Definition entry (k : kind) (kv : string * value) : option (string * scalar) :=
  match kv.2 with
  | Scalar s => if has_kind k s then Some (kv.1, s) else None
  | _ => None
  end.

Fixpoint deep (t : gotype) (h : heap) (v : value) {struct t} : option content :=
  match t, v with
  | TBasic k, Scalar s => if has_kind k s then Some (CScalar s) else None
  | TPointer _, Nil | TSlice _, Nil | TMap _, Nil => Some CNil
  | TPointer t, Pointer p => load h p ≫= (fun v => deep t h v ≫= fun c => Some (CRef c))
  | TSlice t, SliceOf l off len =>
      match h !! l with
      | Some (ArrayOf vs) =>
          if decide (off + len <= length vs)%nat
          then mapM (deep t h) (take len (drop off vs)) ≫= fun cs => Some (CElems cs) else None
      | _ => None
      end
  | TMap k, MapOf l =>
      match h !! l with
      | Some (StructOf kvs) => mapM (entry k) kvs ≫= fun cs => Some (CEntries cs)
      | _ => None
      end
  | TStruct fs, StructOf vs => deep_fields (fun t => deep t h) fs vs ≫= fun cs => Some (CFields cs)
  | _, _ => None
  end.

(** Values of a flat type refer to nothing. *)
Fixpoint flat (t : gotype) : bool :=
  match t with
  | TBasic _ => true
  | TPointer _ | TSlice _ | TMap _ => false
  | TStruct fs => forallb (fun '(_, t) => flat t) fs
  end.

(** The fields of every struct have distinct names. *)
Fixpoint wf_type (t : gotype) : bool :=
  match t with
  | TBasic _ | TMap _ => true
  | TPointer t | TSlice t => wf_type t
  | TStruct fs => bool_decide (NoDup fs.*1) && forallb (fun '(_, t) => wf_type t) fs
  end.

(** A deep copy for any type. *)
Fixpoint deep_copy (t : gotype) (inp out : place) : M unit :=
  assign inp out ;;;
  match t with
  | TBasic _ => mret tt
  | TPointer t => copy_pointer t (deep_copy t) inp out
  | TSlice t => copy_slice t (deep_copy t) inp out
  | TMap _ => copy_map inp out
  | TStruct fs =>
      fold_right (fun '(n, t) rest => deep_copy t (inp.@n) (out.@n) ;;; rest) (mret tt) fs
  end.

(** ** Contracts *)

(** A function [DeepCopyInto] for [t] copies what is at [inp] into [out], which
    is not part of it: nothing else changes, and the new value refers to new
    cells only. *)
Definition copies (t : gotype) (f : place -> place -> M unit) : Prop :=
  forall h hin inp out v c,
  hin ⊆ h -> load h inp = Some v -> deep t hin v = Some c ->
  root inp <> root out -> hin !! root out = None -> is_Some (load h out) ->
  exists w hn h1, deep t hn w = Some c /\ hn ##ₘ h /\ store h out w = Some h1 /\
    f inp out h = Some (tt, h1 ∪ hn).

(** The same for a statement that runs when [out] holds what [inp] holds, after
    the assignment of the whole: it has to replace what is shared. *)
Definition completes (t : gotype) (f : place -> place -> M unit) : Prop :=
  forall h hin inp out v c,
  hin ⊆ h -> load h inp = Some v -> deep t hin v = Some c ->
  root inp <> root out -> hin !! root out = None -> load h out = Some v ->
  exists w hn h1, deep t hn w = Some c /\ hn ##ₘ h /\ store h out w = Some h1 /\
    f inp out h = Some (tt, h1 ∪ hn).

(** A function [DeepCopy] for [t] returns nil for nil, and otherwise a pointer
    to a copy in new cells; no old cell changes. *)
Definition returns_copy (t : gotype) (f : value -> M value) : Prop :=
  forall h v c, deep (TPointer t) h v = Some c ->
  exists w hn, deep (TPointer t) hn w = Some c /\ hn ##ₘ h /\ f v h = Some (w, h ∪ hn).
