(* ===== verification/GoMemoryTheory.v ===== *)
(** * The rules of the memory

    Lemmas on loads, stores and contents, and the rules by which a function
    that is made of the statements of a deep copy meets its contract. *)

From Stdlib Require Import ZArith Lia String.
From S2P Require Import Prelude GoMemory.

Local Open Scope list_scope.
Local Open Scope memory_scope.

Create HintDb memory.

(** ** Types *)

Lemma gotype_rec_deep (P : gotype -> Prop) :
  (forall k, P (TBasic k)) -> (forall t, P t -> P (TPointer t)) -> (forall t, P t -> P (TSlice t)) ->
  (forall k, P (TMap k)) -> (forall fs, Forall (fun f => P f.2) fs -> P (TStruct fs)) ->
  forall t, P t.
Proof.
  intros Hb Hp Hs Hm Hst. fix IH 1. intros [k|t|t|k|fs]; [apply Hb|apply Hp, IH|apply Hs, IH|apply Hm|].
  apply Hst. induction fs as [|[n t] fs IHfs]; constructor; [apply IH|exact IHfs].
Qed.

(** ** Parts of values *)

Lemma set_field_same n w fs v : field_of n fs = Some v -> field_of n (set_field n w fs) = Some w.
Proof.
  induction fs as [|[m u] fs IH]; simpl; [done|].
  case_decide; simpl; intros; rewrite ?decide_True, ?decide_False by done; auto.
Qed.

Lemma set_field_other n m w fs : m <> n -> field_of m (set_field n w fs) = field_of m fs.
Proof.
  intros Hn. induction fs as [|[k u] fs IH]; simpl; [done|].
  repeat (case_decide; simplify_eq; simpl); auto; congruence.
Qed.

Lemma set_field_twice n w w' fs : set_field n w' (set_field n w fs) = set_field n w' fs.
Proof.
  induction fs as [|[k u] fs IH]; simpl; [done|].
  repeat (case_decide; simpl); congruence.
Qed.

Lemma set_field_id n v fs : field_of n fs = Some v -> set_field n v fs = fs.
Proof.
  induction fs as [|[k u] fs IH]; simpl; [done|]. case_decide; intros; simplify_eq; [done|]. by rewrite IH.
Qed.

Lemma set_field_names n w fs : (set_field n w fs).*1 = fs.*1.
Proof. induction fs as [|[k u] fs IH]; simpl; [done|]. case_decide; csimpl; [done|]. by f_equal. Qed.

Lemma child_set_child s v u w : child s v = Some u -> exists v', set_child s w v = Some v' /\ child s v' = Some w.
Proof.
  destruct s, v; simpl; intros H; try done; rewrite H; simpl; eexists; split; try done; simpl.
  - by eapply set_field_same.
  - apply list_lookup_insert_eq. by eapply lookup_lt_Some.
Qed.

Lemma set_child_twice s v v' w w' :
  set_child s w v = Some v' -> set_child s w' v' = set_child s w' v.
Proof.
  destruct s, v; simpl; intros H; try done; apply fmap_Some in H as (u & Hu & ->); simpl; rewrite Hu; simpl.
  - by rewrite (set_field_same _ _ _ _ Hu), set_field_twice.
  - rewrite list_lookup_insert_eq by (by eapply lookup_lt_Some). simpl. by rewrite list_insert_insert_eq.
Qed.

Lemma set_child_id s v u : child s v = Some u -> set_child s u v = Some v.
Proof.
  destruct s, v; simpl; intros H; try done; rewrite H; simpl; do 2 f_equal.
  - by apply set_field_id.
  - by apply list_insert_id.
Qed.

Lemma set_path_id p v u : get_path p v = Some u -> set_path p u v = Some v.
Proof.
  revert v; induction p as [|s p IH]; simpl; intros v H; [by simplify_eq|].
  apply bind_Some in H as (x & Hx & Hu). rewrite Hx. simpl. rewrite (IH _ Hu). simpl.
  by apply set_child_id.
Qed.

Lemma set_path_get p v u w : get_path p v = Some u -> exists v', set_path p w v = Some v' /\ get_path p v' = Some w.
Proof.
  revert v; induction p as [|s p IH]; simpl; intros v H; [eauto|].
  apply bind_Some in H as (x & Hx & Hu). destruct (IH _ Hu) as (x' & Hx' & Hg). rewrite Hx. simpl.
  rewrite Hx'. simpl. destruct (child_set_child s v x x' Hx) as (v' & -> & Hc).
  exists v'. rewrite Hc. done.
Qed.

Lemma set_path_got p v v' w : set_path p w v = Some v' -> get_path p v' = Some w.
Proof.
  revert v v'; induction p as [|s p IH]; simpl; intros v v' H; [done|].
  apply bind_Some in H as (y & Hy & (y' & Hy' & Hs)%bind_Some).
  destruct (child_set_child s v y y' Hy) as (v'' & Hs' & Hc). rewrite Hs in Hs'. simplify_eq.
  rewrite Hc. simpl. by eapply IH.
Qed.

Lemma set_path_is_Some p v v' w : set_path p w v = Some v' -> is_Some (get_path p v).
Proof.
  revert v v'; induction p as [|s p IH]; simpl; intros v v' H; [eauto|].
  apply bind_Some in H as (y & Hy & (y' & Hy' & Hs)%bind_Some). rewrite Hy. by eapply IH.
Qed.

(** Writing below a place is writing the place with a part replaced. *)
Lemma set_path_app p q v u w : get_path p v = Some u ->
  set_path (p ++ q) w v = set_path q w u ≫= fun u' => set_path p u' v.
Proof.
  revert v; induction p as [|s p IH]; simpl; intros v H.
  - simplify_eq. by destruct (set_path q w u).
  - apply bind_Some in H as (x & Hx & Hu). rewrite Hx. simpl. rewrite (IH _ Hu).
    by destruct (set_path q w u).
Qed.

Lemma set_path_twice p v v' w w' : set_path p w v = Some v' -> set_path p w' v' = set_path p w' v.
Proof.
  revert v v'; induction p as [|s p IH]; simpl; intros v v' H; [done|].
  apply bind_Some in H as (x & Hx & (x' & Hx' & Hs)%bind_Some). rewrite Hx. simpl.
  destruct (child_set_child s v x x' Hx) as (v'' & Hs' & Hc). rewrite Hs in Hs'. simplify_eq.
  rewrite Hc. simpl. rewrite (IH _ _ Hx'). destruct (set_path p w' x); simpl; [|done].
  by eapply set_child_twice.
Qed.

Lemma get_path_app p q v : get_path (p ++ q) v = get_path p v ≫= get_path q.
Proof.
  revert v; induction p as [|s p IH]; simpl; intros v; [done|]. destruct (child s v); simpl; auto.
Qed.

(** ** Loads and stores *)

Lemma load_mono h h' p v : h ⊆ h' -> load h p = Some v -> load h' p = Some v.
Proof.
  unfold load. intros Hs (x & Hx & Hp)%bind_Some. by rewrite (lookup_weaken _ _ _ _ Hx Hs).
Qed.

Lemma load_store h p v w : load h p = Some v -> exists h', store h p w = Some h' /\ load h' p = Some w.
Proof.
  unfold load, store. intros (x & Hx & Hp)%bind_Some. rewrite Hx. simpl.
  destruct (set_path_get _ _ _ w Hp) as (x' & -> & Hg). eexists. split; [done|].
  by rewrite lookup_insert_eq.
Qed.

Lemma store_same h p w h' : store h p w = Some h' -> load h' p = Some w.
Proof.
  unfold load, store. intros (x & Hx & (x' & Hx' & [= <-])%bind_Some)%bind_Some.
  rewrite lookup_insert_eq. by eapply set_path_got.
Qed.

Lemma store_id h p v : load h p = Some v -> store h p v = Some h.
Proof.
  unfold load, store. intros (x & Hx & Hp)%bind_Some. rewrite Hx. simpl.
  rewrite (set_path_id _ _ _ Hp). simpl. by rewrite insert_id.
Qed.

Lemma store_root h p w h' : store h p w = Some h' -> exists v, is_Some (h !! root p) /\ h' = <[root p := v]> h.
Proof.
  unfold store. intros (x & Hx & (x' & Hx' & [= <-])%bind_Some)%bind_Some. rewrite Hx. eauto.
Qed.

Lemma store_other h p w h' l : store h p w = Some h' -> l <> root p -> h' !! l = h !! l.
Proof. intros (v & _ & ->)%store_root Hl. by rewrite lookup_insert_ne. Qed.

Lemma store_dom h p w h' : store h p w = Some h' -> dom h' = dom h.
Proof. intros (v & Hv%elem_of_dom & ->)%store_root. rewrite dom_insert_L. set_solver. Qed.

Lemma load_other h p w h' q : store h p w = Some h' -> root q <> root p -> load h' q = load h q.
Proof. intros Hs Hq. unfold load. by rewrite (store_other _ _ _ _ _ Hs Hq). Qed.

(** A store to an old cell and the allocation of new cells commute. *)
Lemma store_union h hn p w h' : store h p w = Some h' -> store (h ∪ hn) p w = Some (h' ∪ hn).
Proof.
  unfold store. intros (x & Hx & (x' & Hx' & [= <-])%bind_Some)%bind_Some.
  rewrite (lookup_union_Some_l _ _ _ _ Hx). simpl. rewrite Hx'. simpl. by rewrite insert_union_l.
Qed.

Lemma store_twice h p w w' h' : store h p w = Some h' -> store h' p w' = store h p w'.
Proof.
  unfold store. intros (x & Hx & (x' & Hx' & [= <-])%bind_Some)%bind_Some.
  rewrite lookup_insert_eq, Hx. simpl. rewrite (set_path_twice _ _ _ _ w' Hx').
  destruct (set_path (path p) w' x); simpl; [|done]. by rewrite insert_insert_eq.
Qed.

Lemma store_load h p w h' : store h p w = Some h' -> is_Some (load h p).
Proof.
  unfold store, load. intros (x & Hx & (x' & Hx' & _)%bind_Some)%bind_Some. rewrite Hx. simpl.
  by eapply set_path_is_Some.
Qed.

Lemma load_field h p n fs : load h p = Some (StructOf fs) -> load h (p.@n) = field_of n fs.
Proof.
  unfold load. intros (x & Hx & Hp)%bind_Some. simpl. rewrite Hx. simpl.
  rewrite get_path_app, Hp. simpl. by destruct (field_of n fs).
Qed.

(** A store to a field is a store of the struct with the field replaced. *)
Lemma store_field h p n fs w : load h p = Some (StructOf fs) -> is_Some (field_of n fs) ->
  store h (p.@n) w = store h p (StructOf (set_field n w fs)).
Proof.
  unfold load, store. intros (x & Hx & Hp)%bind_Some [u Hu]. simpl. rewrite Hx. simpl.
  rewrite (set_path_app _ _ _ _ _ Hp). simpl. by rewrite Hu.
Qed.

(** Reads of [hin] see neither a store outside of it nor new cells. *)
Lemma store_keeps hin h p w h' : hin ⊆ h -> hin !! root p = None -> store h p w = Some h' -> hin ⊆ h'.
Proof.
  intros Hs Hn Hst. apply map_subseteq_spec. intros l x Hl.
  rewrite (store_other _ _ _ _ _ Hst) by congruence. by eapply lookup_weaken.
Qed.

Lemma alloc_new v h : exists l, h !! l = None /\ alloc v h = Some (l, h ∪ {[l := v]}).
Proof.
  exists (fresh (dom h)). assert (h !! fresh (dom h) = None) as Hn by (apply not_elem_of_dom, is_fresh).
  split; [done|]. unfold alloc. by rewrite insert_union_singleton_r.
Qed.

(** ** Contents *)

Lemma mapM_mono {A B} (f g : A -> option B) l k :
  (forall x y, x ∈ l -> f x = Some y -> g x = Some y) -> mapM f l = Some k -> mapM g l = Some k.
Proof.
  rewrite !mapM_Some. intros Hfg H. induction H as [|x y l k Hxy H IH]; constructor.
  - apply Hfg; [apply elem_of_cons; by left|done].
  - apply IH. intros x' y' Hx'. apply Hfg, elem_of_cons. by right.
Qed.

Lemma deep_fields_mono (d d' : gotype -> value -> option content) fs vs cs :
  Forall (fun f => forall v c, d f.2 v = Some c -> d' f.2 v = Some c) fs ->
  deep_fields d fs vs = Some cs -> deep_fields d' fs vs = Some cs.
Proof.
  intros H. revert vs cs; induction H as [|[n t] fs Hf H IH]; intros [|[m v] vs] cs; simpl; try done.
  case_decide; [|done]. intros (c & Hc & (cs' & Hcs & [= <-])%bind_Some)%bind_Some.
  apply Hf in Hc. simpl in Hc. rewrite Hc. simpl. by rewrite (IH _ _ Hcs).
Qed.

(** What can be read in a part of the memory is there in the whole. *)
Lemma deep_mono t h h' v c : h ⊆ h' -> deep t h v = Some c -> deep t h' v = Some c.
Proof.
  intros Hs. revert v c. induction t as [k|t IH|t IH|k|fs IH] using gotype_rec_deep; intros v c H;
    destruct v; simpl in *; try done.
  - apply bind_Some in H as (x & Hx & (y & Hy & [= <-])%bind_Some).
    rewrite (load_mono _ _ _ _ Hs Hx). simpl. by rewrite (IH _ _ Hy).
  - destruct (h !! l) as [u|] eqn:E; [|done]. rewrite (lookup_weaken _ _ _ _ E Hs). destruct u; try done.
    case_decide; [|done]. apply bind_Some in H as (cs & Hcs & [= <-]).
    by rewrite (mapM_mono _ (deep t h') _ _ (fun x y _ => IH x y) Hcs).
  - destruct (h !! l) as [u|] eqn:E; [|done]. by rewrite (lookup_weaken _ _ _ _ E Hs).
  - apply bind_Some in H as (cs & Hcs & [= <-]).
    by rewrite (deep_fields_mono _ (fun t => deep t h') _ _ _ IH Hcs).
Qed.

Lemma deep_flat_mono t h h' v c : flat t = true -> deep t h v = Some c -> deep t h' v = Some c.
Proof.
  revert v c. induction t as [k|t IH|t IH|k|fs IH] using gotype_rec_deep; intros v c Hf H;
    simpl in Hf; try done.
  destruct v; simpl in *; try done. apply bind_Some in H as (cs & Hcs & [= <-]).
  rewrite (deep_fields_mono (fun t => deep t h) (fun t => deep t h') fs fields cs); [done| |done].
  clear Hcs. revert Hf. induction IH as [|[n t] fs Ht _ IHfs]; simpl; intros Hf; constructor;
    apply andb_true_iff in Hf as [Hft Hf]; auto.
Qed.

#[export] Hint Resolve deep_mono : memory.
