(* ===== verification/DeepCopyRules.v ===== *)
(** * The rules of a deep copy

    Each statement of a generated deep copy meets its contract when the
    functions that it calls do, and a function that assigns the whole struct
    and then replaces every field that refers to something is a deep copy
    ([copies_struct]). *)

From Stdlib Require Import ZArith Lia String.
From S2P Require Import Prelude GoMemory GoMemoryTheory.

Local Open Scope list_scope.
Local Open Scope memory_scope.

(** ** Single statements *)

Lemma copies_assign t : flat t = true -> copies t assign.
Proof.
  intros Hf h hin inp out v c Hs Hin Hd Hr Hn [u Hu].
  destruct (load_store h out u v Hu) as (h1 & Hst & _).
  exists v, ∅, h1. split; [by eapply deep_flat_mono|]. split; [apply map_disjoint_empty_l|]. split; [done|].
  unfold assign, mbind, read, write. by rewrite Hin, Hst, map_union_empty.
Qed.

Lemma completes_copies t f : copies t f -> completes t f.
Proof. intros Hf h hin inp out v c ? ? ? ? ? Ho. eapply Hf; eauto. Qed.

(** A statement that leaves a nil alone. *)
Lemma completes_nil h out : load h out = Some Nil ->
  exists w hn h1, w = Nil /\ hn = ∅ /\ hn ##ₘ h /\ store h out w = Some h1 /\ h = h1 ∪ hn.
Proof.
  intros Ho. exists Nil, ∅, h. rewrite map_union_empty. repeat split; [apply map_disjoint_empty_l|].
  by apply store_id.
Qed.

(** The heap after a statement has made the cell [q], referred to it from [out]
    and filled it. *)
Lemma new_cell h h1 hn out v z w q :
  store h out v = Some h1 -> h !! q = None -> hn ##ₘ h1 ∪ {[q := z]} ->
  {[q := w]} ∪ hn ##ₘ h /\ <[q := w]> (h1 ∪ {[q := z]}) ∪ hn = h1 ∪ ({[q := w]} ∪ hn).
Proof.
  intros Hst Hq Hdj. pose proof (store_dom _ _ _ _ Hst) as Hdom.
  assert (h1 !! q = None) as Hq1 by (by rewrite <-not_elem_of_dom, Hdom, not_elem_of_dom).
  apply map_disjoint_union_r in Hdj as [Hd1 Hd2]. split.
  - apply map_disjoint_union_l. split; [by apply map_disjoint_singleton_l|].
    apply map_disjoint_dom. rewrite <-Hdom. by apply map_disjoint_dom.
  - rewrite insert_union_r by done. by rewrite insert_singleton_eq, map_union_assoc.
Qed.

Lemma deep_new t hn q z w c : hn ##ₘ {[q := z]} -> deep t hn w = Some c ->
  deep (TPointer t) ({[q := w]} ∪ hn) (Pointer (mkPlace q [])) = Some (CRef c).
Proof.
  intros Hdj Hw. simpl. unfold load. simpl.
  rewrite (lookup_union_Some_l _ _ _ w) by apply lookup_singleton_eq. simpl.
  rewrite (deep_mono t hn _ w c); [done| |done].
  apply map_union_subseteq_r, map_disjoint_singleton_l. by apply map_disjoint_singleton_r in Hdj.
Qed.

Lemma stored_None h out v h1 q : store h out v = Some h1 -> h !! q = None -> h1 !! q = None.
Proof. intros Hst Hq. by rewrite <-not_elem_of_dom, (store_dom _ _ _ _ Hst), not_elem_of_dom. Qed.

(** A new cell with the copy, and the place that refers to it. *)
Lemma completes_pointer t f : copies t f -> completes (TPointer t) (copy_pointer t f).
Proof.
  intros Hf h hin inp out v c Hs Hin Hd Hr Hn Ho. unfold copy_pointer, mbind, read. rewrite Hin.
  destruct v; try done.
  { destruct (completes_nil h out Ho) as (w & hn & h1 & -> & -> & Hdj & Hst & Hh).
    exists Nil, ∅, h1. repeat split; [done..|]. unfold mret. by rewrite <-Hh. }
  simpl in Hd. apply bind_Some in Hd as (u & Hu & (c' & Hc' & [= <-])%bind_Some).
  unfold new, mbind, mret. destruct (alloc_new (zero t) h) as (q & Hq & ->).
  destruct (load_store h out _ (Pointer (mkPlace q [])) Ho) as (h1 & Hst & _).
  unfold write. rewrite (store_union _ _ _ _ _ Hst).
  pose proof (stored_None _ _ _ _ _ Hst Hq) as Hq1.
  pose proof (store_keeps _ _ _ _ _ Hs Hn Hst) as Hs1.
  destruct (Hf (h1 ∪ {[q := zero t]}) hin p (mkPlace q []) u c') as (w & hn & h2 & Hw & Hdj & Hst2 & ->).
  - by apply map_union_subseteq_l'.
  - eapply load_mono; [|exact Hu]. by apply map_union_subseteq_l'.
  - done.
  - simpl. intros Hpq. unfold load in Hu. rewrite Hpq, (lookup_weaken_None _ _ _ Hq Hs) in Hu. done.
  - by eapply lookup_weaken_None.
  - unfold load. simpl. rewrite (lookup_union_r _ _ _ Hq1), lookup_singleton_eq. eauto.
  - unfold store in Hst2. simpl in Hst2. rewrite (lookup_union_r _ _ _ Hq1), lookup_singleton_eq in Hst2.
    simpl in Hst2. simplify_eq.
    destruct (new_cell h h1 hn out _ (zero t) w q Hst Hq Hdj) as [Hd' ->].
    exists (Pointer (mkPlace q [])), ({[q := w]} ∪ hn), h1. split; [|done].
    eapply deep_new; [|exact Hw]. by apply map_disjoint_union_r in Hdj as [_ ?].
Qed.

(** A pointer that a function [DeepCopy] returns. *)
Lemma completes_by t f : returns_copy t f -> completes (TPointer t) (copy_by f).
Proof.
  intros Hf h hin inp out v c Hs Hin Hd Hr Hn Ho. unfold copy_by, mbind, read. rewrite Hin.
  assert (v = Nil \/ exists p, v = Pointer p) as [->|[p ->]] by (destruct v; naive_solver).
  { destruct (completes_nil h out Ho) as (w & hn & h1 & -> & -> & Hdj & Hst & Hh).
    simpl in Hd. injection Hd as <-. exists Nil, ∅, h1. repeat split; [done..|]. unfold mret. by rewrite <-Hh. }
  destruct (Hf h (Pointer p) c) as (w & hn & Hw & Hdj & Hc); [by eapply deep_mono|]. simpl. rewrite Hc.
  destruct (load_store h out _ w Ho) as (h1 & Hst & _).
  exists w, hn, h1. split; [done|]. split; [done|]. split; [done|].
  unfold write. by rewrite (store_union _ _ _ _ _ Hst).
Qed.

Lemma returns_copy_DeepCopy t f : copies t f -> returns_copy t (DeepCopy t f).
Proof.
  intros Hf h v c Hd. unfold DeepCopy. destruct v; try done.
  { exists Nil, ∅. simpl in *. simplify_eq. split; [done|]. split; [apply map_disjoint_empty_l|].
    by rewrite map_union_empty. }
  simpl in Hd. apply bind_Some in Hd as (u & Hu & (c' & Hc' & [= <-])%bind_Some).
  unfold new, mbind, mret. destruct (alloc_new (zero t) h) as (q & Hq & ->).
  destruct (Hf (h ∪ {[q := zero t]}) h p (mkPlace q []) u c') as (w & hn & h2 & Hw & Hdj & Hst2 & ->).
  - by apply map_union_subseteq_l.
  - eapply load_mono; [|exact Hu]. by apply map_union_subseteq_l.
  - done.
  - simpl. intros Hpq. unfold load in Hu. by rewrite Hpq, Hq in Hu.
  - done.
  - unfold load. simpl. rewrite (lookup_union_r _ _ _ Hq), lookup_singleton_eq. eauto.
  - unfold store in Hst2. simpl in Hst2. rewrite (lookup_union_r _ _ _ Hq), lookup_singleton_eq in Hst2.
    simpl in Hst2. simplify_eq. exists (Pointer (mkPlace q [])), ({[q := w]} ∪ hn).
    apply map_disjoint_union_r in Hdj as [Hd1 Hd2]. split; [|split].
    + by eapply deep_new.
    + apply map_disjoint_union_l. split; [by apply map_disjoint_singleton_l|done].
    + by rewrite insert_union_r, insert_singleton_eq, map_union_assoc.
Qed.

(** ** Slices *)

Lemma index_slice h p i l off n : load h p = Some (SliceOf l off n) -> (i < n)%nat ->
  index p i h = Some (mkPlace l [Index (off + i)], h).
Proof. intros Hp Hi. unfold index, mbind, read. rewrite Hp. by rewrite decide_True. Qed.

Lemma mapM_lookup {A B} (f : A -> option B) l k i x y :
  mapM f l = Some k -> l !! i = Some x -> k !! i = Some y -> f x = Some y.
Proof. rewrite mapM_Some. intros H Hx Hy. by eapply Forall2_lookup_lr in H. Qed.

Lemma length_elems {A} (d : value -> option A) (vs : list value) off n (cs : list A) :
  mapM d (take n (drop off vs)) = Some cs -> (off + n <= length vs)%nat -> length cs = n.
Proof. intros H%length_mapM ?. rewrite <-H, length_take, length_drop. lia. Qed.

(** One more element is copied. *)
Lemma elems_step t hn1 hn2 i w ws ws' c cs : (i < length ws)%nat -> hn1 ##ₘ hn2 ->
  deep t hn1 w = Some c -> cs !! i = Some c ->
  take (S i) ws' = take (S i) (<[i:=w]> ws) -> mapM (deep t hn2) (drop (S i) ws') = Some (drop (S i) cs) ->
  take i ws' = take i ws /\ mapM (deep t (hn1 ∪ hn2)) (drop i ws') = Some (drop i cs).
Proof.
  intros Hi Hd Hw Hc Ht Hm. split.
  - rewrite <-(take_insert_ge ws i i w) by lia.
    apply (f_equal (take i)) in Ht. by rewrite !take_take, !Nat.min_l in Ht by lia.
  - assert (ws' !! i = Some w) as Hw'.
    { rewrite <-(lookup_take_lt ws' (S i) i), Ht, lookup_take_lt by lia. by apply list_lookup_insert_eq. }
    rewrite (drop_S _ _ _ Hw'), (drop_S _ _ _ Hc). apply mapM_Some. constructor.
    + eapply deep_mono; [|exact Hw]. by apply map_union_subseteq_l.
    + apply mapM_Some. eapply mapM_mono; [|exact Hm]. intros x y _. apply deep_mono.
      by apply map_union_subseteq_r.
Qed.

(** The loop, from the element [i] on: it fills the rest of the array [a]. *)
Lemma copy_elems t f inp out l off a n : copies t f ->
  forall k i h hin ws vs cs, (i + k)%nat = n ->
  hin ⊆ h -> load h inp = Some (SliceOf l off n) -> load h out = Some (SliceOf a 0 n) ->
  root inp <> a -> root out <> a ->
  hin !! l = Some (ArrayOf vs) -> (off + n <= length vs)%nat ->
  mapM (deep t hin) (take n (drop off vs)) = Some cs ->
  hin !! a = None -> h !! a = Some (ArrayOf ws) -> length ws = n ->
  exists ws' hn, for_range k i (fun i => p <-- index inp i; q <-- index out i; f p q) h
      = Some (tt, <[a := ArrayOf ws']> h ∪ hn) /\
    hn ##ₘ h /\ length ws' = n /\ take i ws' = take i ws /\ mapM (deep t hn) (drop i ws') = Some (drop i cs).
Proof.
  intros Hf. induction k as [|k IH]; intros i h hin ws vs cs Hik Hs Hin Hout Hri Hro Hl Hlen Hcs Ha Hws Hn.
  - exists ws, ∅. simpl. rewrite insert_id, map_union_empty by done.
    pose proof (length_elems _ _ _ _ _ Hcs Hlen) as Hcn.
    split; [done|]. split; [apply map_disjoint_empty_l|]. rewrite !drop_ge by lia. done.
  - pose proof (length_elems _ _ _ _ _ Hcs Hlen) as Hcn.
    destruct (lookup_lt_is_Some_2 vs (off + i)) as [v Hv]; [lia|].
    destruct (lookup_lt_is_Some_2 cs i) as [c Hc]; [lia|].
    assert (deep t hin v = Some c) as Hvc.
    { eapply mapM_lookup; [exact Hcs| |exact Hc]. rewrite lookup_take_lt, lookup_drop by lia. exact Hv. }
    destruct (lookup_lt_is_Some_2 ws i) as [z Hz]; [lia|].
    simpl for_range. unfold mbind at 1 2 3.
    rewrite (index_slice _ _ _ _ _ _ Hin), (index_slice _ _ _ _ _ _ Hout) by lia.
    destruct (Hf h hin (mkPlace l [Index (off + i)]) (mkPlace a [Index (0 + i)]) v c)
      as (w & hn1 & h1 & Hw & Hd1 & Hst & ->); [done| |done| |done| |].
    + unfold load. simpl. rewrite (lookup_weaken _ _ _ _ Hl Hs). simpl. by rewrite Hv.
    + simpl. congruence.
    + unfold load. simpl. rewrite Hws. simpl. rewrite Hz. eauto.
    + unfold store in Hst. simpl in Hst. rewrite Hws in Hst. simpl in Hst. rewrite Hz in Hst. simpl in Hst.
      simplify_eq.
      assert (hin ⊆ <[a := ArrayOf (<[i:=w]> ws)]> h ∪ hn1) as Hs1.
      { apply map_union_subseteq_l'. by apply insert_subseteq_r. }
      assert (forall p x, root p <> a -> load h p = Some x ->
        load (<[a := ArrayOf (<[i:=w]> ws)]> h ∪ hn1) p = Some x) as Hold.
      { intros p x Hp Hx. unfold load in *. apply bind_Some in Hx as (y & Hy & Hx).
        rewrite (lookup_union_Some_l _ _ _ y); [done|]. by rewrite lookup_insert_ne. }
      destruct (IH (S i) _ hin (<[i:=w]> ws) vs cs ltac:(lia) Hs1 (Hold _ _ Hri Hin) (Hold _ _ Hro Hout)
        Hri Hro Hl Hlen Hcs Ha) as (ws' & hn2 & -> & Hd2 & Hl2 & Ht2 & Hm2).
      * rewrite (lookup_union_Some_l _ _ _ (ArrayOf (<[i:=w]> ws))); [done|]. apply lookup_insert_eq.
      * by rewrite length_insert.
      * apply map_disjoint_union_r in Hd2 as [Hd2 Hd12].
        exists ws', (hn1 ∪ hn2). split; [by rewrite insert_union_l, insert_insert_eq, map_union_assoc|].
        split; [|split; [done|by eapply elems_step; eauto; lia]].
        apply map_disjoint_union_l. split; [done|].
        apply map_disjoint_dom. apply map_disjoint_dom in Hd2. rewrite dom_insert_L in Hd2. set_solver.
Qed.

Lemma load_root h p v : load h p = Some v -> is_Some (h !! root p).
Proof. unfold load. intros (x & Hx & _)%bind_Some. eauto. Qed.

Lemma deep_slice_inv t h l off n c : deep (TSlice t) h (SliceOf l off n) = Some c ->
  exists vs cs, h !! l = Some (ArrayOf vs) /\ (off + n <= length vs)%nat /\
    mapM (deep t h) (take n (drop off vs)) = Some cs /\ c = CElems cs.
Proof.
  simpl. destruct (h !! l) as [u|]; [|done]. destruct u; try done. case_decide; [|done].
  intros (cs & Hcs & [= <-])%bind_Some. naive_solver.
Qed.

Lemma deep_new_slice t hn a z ws n cs : hn ##ₘ {[a := z]} -> length ws = n ->
  mapM (deep t hn) ws = Some cs ->
  deep (TSlice t) ({[a := ArrayOf ws]} ∪ hn) (SliceOf a 0 n) = Some (CElems cs).
Proof.
  intros Hd Hl Hm. simpl. rewrite (lookup_union_Some_l _ _ _ (ArrayOf ws)) by apply lookup_singleton_eq.
  rewrite decide_True by lia. rewrite drop_0, take_ge by lia.
  erewrite mapM_mono; [| |exact Hm]; [done|]. intros x y _. apply deep_mono.
  apply map_union_subseteq_r, map_disjoint_singleton_l. by apply map_disjoint_singleton_r in Hd.
Qed.

(** A new array with the copies of the elements. *)
Lemma completes_slice t f : copies t f -> completes (TSlice t) (copy_slice t f).
Proof.
  intros Hf h hin inp out v c Hs Hin Hd Hr Hn Ho. unfold copy_slice, mbind at 1, read at 1. rewrite Hin.
  assert (v = Nil \/ exists l off n, v = SliceOf l off n) as [->|(l & off & n & ->)] by (destruct v; naive_solver).
  { destruct (completes_nil h out Ho) as (w & hn & h1 & -> & -> & Hdj & Hst & Hh).
    simpl in Hd. injection Hd as <-. exists Nil, ∅, h1. repeat split; [done..|]. unfold mret. by rewrite <-Hh. }
  destruct (deep_slice_inv _ _ _ _ _ _ Hd) as (vs & cs & Hl & Hlen & Hcs & ->).
  set (z := ArrayOf (replicate n (zero t))).
  unfold mbind at 1. destruct (alloc_new z h) as (a & Ha & ->).
  destruct (load_store h out _ (SliceOf a 0 n) Ho) as (h1 & Hst & Ho1).
  unfold mbind at 1, write. rewrite (store_union _ _ _ _ _ Hst).
  pose proof (stored_None _ _ _ _ _ Hst Ha) as Ha1.
  assert (hin ⊆ h1) as Hs1 by (by eapply store_keeps).
  destruct (copy_elems t f inp out l off a n Hf n 0 (h1 ∪ {[a := z]}) hin (replicate n (zero t)) vs cs)
    as (ws & hn & -> & Hdj & Hws & _ & Hm); try done.
  - by apply map_union_subseteq_l'.
  - eapply load_mono; [by apply map_union_subseteq_l|]. by rewrite (load_other _ _ _ _ _ Hst Hr).
  - eapply load_mono; [by apply map_union_subseteq_l|done].
  - intros Hra. apply load_root in Hin as [? ?]. congruence.
  - intros Hra. apply load_root in Ho as [? ?]. congruence.
  - by eapply lookup_weaken_None.
  - rewrite (lookup_union_r _ _ _ Ha1). apply lookup_singleton_eq.
  - apply length_replicate.
  - destruct (new_cell h h1 hn out _ z (ArrayOf ws) a Hst Ha Hdj) as [Hd' ->].
    exists (SliceOf a 0 n), ({[a := ArrayOf ws]} ∪ hn), h1. split; [|done].
    apply map_disjoint_union_r in Hdj as [_ Hdj]. by eapply deep_new_slice.
Qed.

(** ** Structs *)

(** The type of a field. *)
Fixpoint type_of (n : string) (fs : list (string * gotype)) : option gotype :=
  match fs with
  | [] => None
  | (m, t) :: r => if decide (m = n) then Some t else type_of n r
  end.

(** While a copy is under way, [out] is a struct whose fields in [done] are
    copies in the new cells [hn] of those of the struct [vs]; the others are
    shared with it. *)
Definition copying (fs : list (string * gotype)) (hin h : heap) (out : place)
    (vs : list (string * value)) (done : list string) (h' : heap) : Prop :=
  exists ws hn h1, h' = h1 ∪ hn /\ hn ##ₘ h /\ store h out (StructOf ws) = Some h1 /\ ws.*1 = fs.*1 /\
    forall n t, type_of n fs = Some t ->
      exists v w c, field_of n vs = Some v /\ deep t hin v = Some c /\ field_of n ws = Some w /\
        if decide (n ∈ done) then deep t hn w = Some c else w = v.

(** A part [m] of the body of a function [DeepCopyInto] copies the fields in
    [d'] that are not in [d]. *)
Definition fills (fs : list (string * gotype)) (d d' : list string) (m : place -> place -> M unit) : Prop :=
  forall h hin inp out vs h1,
  hin ⊆ h -> load h inp = Some (StructOf vs) -> root inp <> root out -> hin !! root out = None ->
  copying fs hin h out vs d h1 ->
  exists h2, m inp out h1 = Some (tt, h2) /\ copying fs hin h out vs d' h2.

Lemma fills_seq fs d d' d'' m m' : fills fs d d' m -> fills fs d' d'' m' ->
  fills fs d d'' (fun inp out => m inp out ;;; m' inp out).
Proof.
  intros Hm Hm' h hin inp out vs h1 H1 H2 H3 H4 Hc.
  destruct (Hm h hin inp out vs h1) as (h2 & E & Hc2); [done..|]. unfold mbind. rewrite E. by eapply Hm'.
Qed.

Lemma fills_field fs d n t f : type_of n fs = Some t -> n ∉ d -> completes t f ->
  fills fs d (n :: d) (fun inp out => f (inp.@n) (out.@n)).
Proof.
  intros Ht Hnd Hf h hin inp out vs h1 Hs Hin Hr Hn (ws & hn & h0 & -> & Hdj & Hst & Hnames & Hfs).
  destruct (Hfs n t Ht) as (v & w0 & c & Hv & Hc & Hw & Hcase). rewrite decide_False in Hcase by done. subst w0.
  assert (load h0 out = Some (StructOf ws)) as Hlo by (by eapply store_same).
  destruct (Hf (h0 ∪ hn) hin (inp.@n) (out.@n) v c) as (w & hn2 & h2 & Hw2 & Hdj2 & Hst2 & E).
  - apply map_union_subseteq_l'. by eapply store_keeps.
  - eapply load_mono; [by apply map_union_subseteq_l|].
    rewrite (load_other _ _ _ _ _ Hst) by done. by rewrite (load_field _ _ _ _ Hin).
  - done.
  - done.
  - done.
  - eapply load_mono; [by apply map_union_subseteq_l|]. by rewrite (load_field _ _ _ _ Hlo).
  - rewrite E. eexists. split; [done|].
    assert (exists h3, store h out (StructOf (set_field n w ws)) = Some h3 /\ h2 = h3 ∪ hn) as (h3 & Hst3 & ->).
    { rewrite <-(store_twice _ _ _ _ _ Hst), <-(store_field _ _ _ _ w Hlo) by eauto.
      destruct (load_store h0 (out.@n) v w) as (h3 & Hst3 & _); [by rewrite (load_field _ _ _ _ Hlo)|].
      exists h3. split; [done|]. rewrite (store_union _ _ _ _ _ Hst3) in Hst2. congruence. }
    apply map_disjoint_union_r in Hdj2 as [Hd0 Hdn].
    exists (set_field n w ws), (hn ∪ hn2), h3. split; [by rewrite map_union_assoc|]. split.
    { apply map_disjoint_union_l. split; [done|]. apply map_disjoint_dom.
      rewrite <-(store_dom _ _ _ _ Hst). by apply map_disjoint_dom. }
    split; [done|]. split; [by rewrite set_field_names|]. intros m t' Hm.
    destruct (decide (m = n)) as [->|Hmn].
    + simplify_eq. exists v, w, c. rewrite decide_True by set_solver.
      repeat split; [done..|by eapply set_field_same|]. eapply deep_mono; [|done]. by apply map_union_subseteq_r.
    + destruct (Hfs m t' Hm) as (v' & w' & c' & ? & ? & ? & Hcase). exists v', w', c'.
      rewrite set_field_other by done. repeat split; [done..|].
      destruct (decide (m ∈ n :: d)) as [Hin'|Hout'].
      * rewrite decide_True in Hcase by set_solver. eapply deep_mono; [|done]. by apply map_union_subseteq_l.
      * by rewrite decide_False in Hcase by set_solver.
Qed.

Lemma type_of_elem n t fs : type_of n fs = Some t -> n ∈ fs.*1 /\ (n, t) ∈ fs.
Proof.
  induction fs as [|[m u] fs IH]; simpl; [done|]. case_decide; intros; simplify_eq.
  - split; apply elem_of_cons; by left.
  - destruct IH; [done|]. split; apply elem_of_cons; by right.
Qed.

Lemma deep_fields_get d fs vs cs n t : deep_fields d fs vs = Some cs -> type_of n fs = Some t ->
  exists v c, field_of n vs = Some v /\ d t v = Some c.
Proof.
  revert vs cs; induction fs as [|[m u] fs IH]; intros [|[k v] vs] cs; simpl; try done.
  destruct (decide (m = k)) as [->|]; [|done].
  intros (c & Hc & (cs' & Hcs & _)%bind_Some)%bind_Some. case_decide; intros; simplify_eq; eauto.
Qed.

Lemma deep_fields_names d fs vs cs : deep_fields d fs vs = Some cs -> vs.*1 = fs.*1.
Proof.
  revert vs cs; induction fs as [|[m u] fs IH]; intros [|[k v] vs] cs; simpl; try done.
  case_decide; [|done]. subst. intros (c & Hc & (cs' & Hcs & _)%bind_Some)%bind_Some. f_equal. eauto.
Qed.

(** Two structs whose fields have the same contents. *)
Lemma deep_fields_same (d d' : gotype -> value -> option content) fs vs ws cs : NoDup fs.*1 ->
  deep_fields d fs vs = Some cs -> ws.*1 = fs.*1 ->
  (forall n t v c, type_of n fs = Some t -> field_of n vs = Some v -> d t v = Some c ->
    exists w, field_of n ws = Some w /\ d' t w = Some c) ->
  deep_fields d' fs ws = Some cs.
Proof.
  revert vs ws cs; induction fs as [|[m u] fs IH]; intros [|[k v] vs] [|[k' w] ws] cs Hnd; simpl; try done.
  destruct (decide (m = k)) as [<-|]; [|done].
  intros (c & Hc & (cs' & Hcs & [= <-])%bind_Some)%bind_Some [= -> Hws] H. rewrite decide_True by done.
  apply NoDup_cons in Hnd as [Hm Hnd].
  destruct (H m u v c) as (w' & Hw & Hw'); rewrite ?decide_True by done; [done..|].
  rewrite decide_True in Hw by done. simplify_eq. rewrite Hw'. simpl.
  rewrite (IH vs ws cs'); [done|done|done|done|]. intros n t v' c' Ht Hv' Hc'.
  assert (m <> n) as Hmn by (intros <-; by apply type_of_elem in Ht as [? _]).
  destruct (H n t v' c') as (x & Hx & ?); rewrite ?decide_False by done; [done..|].
  rewrite decide_False in Hx by done. eauto.
Qed.

(** A function that assigns the struct and then copies every field that refers
    to something is a deep copy. *)
Lemma copies_struct fs d m : NoDup fs.*1 -> fills fs [] d m ->
  forallb (fun f => bool_decide (f.1 ∈ d) || flat f.2) fs = true ->
  copies (TStruct fs) (fun inp out => assign inp out ;;; m inp out).
Proof.
  intros Hnd Hm Hall h hin inp out v c Hs Hin Hd Hr Hn [u Hu].
  destruct v as [| | | | |vs|]; try done. simpl in Hd. apply bind_Some in Hd as (cs & Hcs & [= <-]).
  destruct (load_store h out u (StructOf vs) Hu) as (h1 & Hst & Ho1).
  destruct (Hm h hin inp out vs h1) as (h2 & E & ws & hn & h3 & -> & Hdj & Hst3 & Hnames & Hfs); [done..| |].
  { exists vs, ∅, h1. rewrite map_union_empty. split; [done|]. split; [apply map_disjoint_empty_l|].
    split; [done|]. split; [by eapply deep_fields_names|]. intros n t Ht.
    destruct (deep_fields_get _ _ _ _ _ _ Hcs Ht) as (v & c & ? & ?).
    exists v, v, c. by rewrite decide_False by (by intros ?%elem_of_nil). }
  exists (StructOf ws), hn, h3. split; [|split; [done|split; [done|]]].
  - simpl. erewrite deep_fields_same; [done|done|exact Hcs|done|]. intros n t v c Ht Hv Hc.
    destruct (Hfs n t Ht) as (v' & w & c' & Hv' & Hc' & Hw & Hcase). simplify_eq. exists w. split; [done|].
    case_decide as Hin'; [done|]. subst.
    apply type_of_elem in Ht as [_ Ht]. rewrite forallb_forall in Hall.
    specialize (Hall (n, t)). rewrite <-list_elem_of_In in Hall. specialize (Hall Ht). simpl in Hall.
    rewrite bool_decide_false in Hall by done. simpl in Hall. exact (deep_flat_mono _ _ _ _ _ Hall Hc).
  - unfold mbind, assign, mbind, read, write. by rewrite Hin, Hst, E.
Qed.

(** ** The deep copy of any type *)

Lemma completes_map k : completes (TMap k) copy_map.
Proof.
  intros h hin inp out v c Hs Hin Hd Hr Hn Ho. unfold copy_map, mbind at 1, read at 1. rewrite Hin.
  assert (v = Nil \/ exists l, v = MapOf l) as [->|[l ->]] by (destruct v; naive_solver).
  { destruct (completes_nil h out Ho) as (w & hn & h1 & -> & -> & Hdj & Hst & Hh).
    simpl in Hd. injection Hd as <-. exists Nil, ∅, h1. repeat split; [done..|]. unfold mret. by rewrite <-Hh. }
  simpl in Hd. destruct (hin !! l) as [u|] eqn:Hl; [|done].
  unfold mbind at 1, read, load. simpl. rewrite (lookup_weaken _ _ _ _ Hl Hs). simpl.
  unfold mbind. destruct (alloc_new u h) as (a & Ha & ->).
  destruct (load_store h out _ (MapOf a) Ho) as (h1 & Hst & _).
  exists (MapOf a), {[a := u]}, h1. split; [|split; [by apply map_disjoint_singleton_l|split; [done|]]].
  - simpl. by rewrite lookup_singleton_eq.
  - unfold write. by rewrite (store_union _ _ _ _ _ Hst).
Qed.

(** After the assignment it is enough to replace what is shared. *)
Lemma copies_after_assign t f : completes t f -> copies t (fun inp out => assign inp out ;;; f inp out).
Proof.
  intros Hf h hin inp out v c Hs Hin Hd Hr Hn [u Hu].
  destruct (load_store h out u v Hu) as (h1 & Hst & Ho1).
  destruct (Hf h1 hin inp out v c) as (w & hn & h2 & Hw & Hdj & Hst2 & E); try done.
  - by eapply store_keeps.
  - by rewrite (load_other _ _ _ _ _ Hst).
  - exists w, hn, h2. split; [done|]. split; [|split].
    + apply map_disjoint_dom. rewrite <-(store_dom _ _ _ _ Hst). by apply map_disjoint_dom.
    + by rewrite <-(store_twice _ _ _ _ _ Hst).
    + unfold mbind, assign, mbind, read, write. by rewrite Hin, Hst, E.
Qed.

Lemma fills_nothing fs d : fills fs d d (fun _ _ => mret tt).
Proof. intros h hin inp out vs h1 _ _ _ _ Hc. by exists h1. Qed.

Lemma fills_all fs rest d : NoDup rest.*1 -> (forall n, n ∈ rest.*1 -> n ∉ d) ->
  (forall n t, (n, t) ∈ rest -> type_of n fs = Some t /\ copies t (deep_copy t)) ->
  fills fs d (reverse rest.*1 ++ d)
    (fun inp out => fold_right (fun '(n, t) k => deep_copy t (inp.@n) (out.@n) ;;; k) (mret tt) rest).
Proof.
  revert d. induction rest as [|[n t] rest IH]; intros d Hnd Hd Hr; [apply fills_nothing|].
  apply NoDup_cons in Hnd as [Hn Hnd]. csimpl. rewrite reverse_cons, <-app_assoc. simpl.
  apply (fills_seq fs d (n :: d) _ (fun inp out => deep_copy t (inp.@n) (out.@n))).
  - destruct (Hr n t) as [Ht Hc]; [apply elem_of_cons; by left|].
    apply (fills_field _ _ _ t); [done|apply Hd, elem_of_cons; by left|by apply completes_copies].
  - apply IH; [done| |].
    + intros m Hm [->|Hm']%elem_of_cons; [done|]. revert Hm'. apply Hd, elem_of_cons. by right.
    + intros m u Hm. apply Hr, elem_of_cons. by right.
Qed.

Lemma type_of_NoDup fs n t : NoDup fs.*1 -> (n, t) ∈ fs -> type_of n fs = Some t.
Proof.
  induction fs as [|[m u] fs IH]; intros Hnd Hin; [by apply elem_of_nil in Hin|].
  apply NoDup_cons in Hnd as [Hm Hnd]. simpl. apply elem_of_cons in Hin as [[= -> ->]|Hin]; [by rewrite decide_True|].
  rewrite decide_False; [by apply IH|]. intros ->. apply Hm, list_elem_of_fmap. by exists (n, t).
Qed.

Theorem deep_copy_copies t : wf_type t = true -> copies t (deep_copy t).
Proof.
  induction t as [k|t IH|t IH|k|fs IH] using gotype_rec_deep; simpl; intros Hwf.
  - apply copies_after_assign. intros h hin inp out v c Hs Hin Hd Hr Hn Ho.
    exists v, ∅, h. rewrite map_union_empty. split; [by apply (deep_flat_mono (TBasic k) hin)|].
    split; [apply map_disjoint_empty_l|]. split; [by apply store_id|done].
  - apply copies_after_assign, completes_pointer, IH, Hwf.
  - apply copies_after_assign, completes_slice, IH, Hwf.
  - apply copies_after_assign, completes_map.
  - apply andb_true_iff in Hwf as [Hnd%bool_decide_eq_true Hwf].
    eapply copies_struct; [done|apply fills_all|]; [done|by intros ? _ ?%elem_of_nil| |].
    + intros n t Hin. split; [by apply type_of_NoDup|]. rewrite Forall_forall in IH. apply (IH (n, t) Hin).
      rewrite forallb_forall in Hwf. specialize (Hwf (n, t)). rewrite <-list_elem_of_In in Hwf. auto.
    + apply forallb_forall. intros [n t] Hin%list_elem_of_In. simpl. rewrite bool_decide_true; [done|].
      rewrite app_nil_r. apply elem_of_reverse, list_elem_of_fmap. by exists (n, t).
Qed.

(** ** Automation *)

Create HintDb deepcopy.
#[export] Hint Resolve completes_pointer completes_slice completes_by returns_copy_DeepCopy copies_assign : deepcopy.
#[export] Hint Extern 5 (completes _ _) => simple apply completes_copies : deepcopy.
#[export] Hint Extern 1 (flat _ = true) => reflexivity : deepcopy.

(** Decides a closed proposition. *)
Ltac by_computation := apply (bool_decide_unpack _); vm_compute; exact I.

(** Proves that the body of a function [DeepCopyInto] copies its struct, from
    the contracts of the functions that it calls. *)
Ltac fills_step :=
  lazymatch goal with
  | |- fills _ _ _ (fun inp out => mbind _ _) => eapply fills_seq
  | |- fills _ _ _ _ => eapply fills_field; [reflexivity|by_computation|]
  | |- completes _ _ => eauto with deepcopy
  end.

Ltac copy_struct :=
  eapply copies_struct; [by_computation|repeat fills_step|reflexivity].
