(* ===== verification/DeepCopy.v ===== *)
(** * The generated deep copies

    The types of src/api/v1beta1 as they lie in memory, and the functions of
    zz_generated.deepcopy.go: for each type [T] the functions [T_DeepCopyInto],
    [T_DeepCopy] and, for the kinds, [T_DeepCopyObject].  The types and the
    functions come from different files of the source: the functions are
    generated, and whether they fit the types is what DeepCopySafety proves.

    The types of k8s.io/api and k8s.io/apimachinery and their functions are
    parameters ([ApiMachinery]).  An [int32], an [int64], a [bool] and the string
    types of the API are basic types. *)

From Stdlib Require Import ZArith String.
From S2P Require Import Prelude GoMemory.

Local Open Scope string_scope.
Local Open Scope list_scope.
Local Open Scope memory_scope.

(** The types of the libraries that occur in the API, and their functions
    [DeepCopyInto] and [DeepCopy]. *)
Class ApiMachinery : Type := {
  TypeMeta : gotype;
  ObjectMeta : gotype;
  ListMeta : gotype;
  Condition : gotype;
  Time : gotype;
  Container : gotype;
  Volume : gotype;
  LocalObjectReference : gotype;
  ObjectReference : gotype;
  ResourceRequirements : gotype;
  ServiceAccountTokenProjection : gotype;
  ObjectMeta_DeepCopyInto : place -> place -> M unit;
  ListMeta_DeepCopyInto : place -> place -> M unit;
  Condition_DeepCopyInto : place -> place -> M unit;
  Container_DeepCopyInto : place -> place -> M unit;
  Volume_DeepCopyInto : place -> place -> M unit;
  ResourceRequirements_DeepCopyInto : place -> place -> M unit;
  ServiceAccountTokenProjection_DeepCopyInto : place -> place -> M unit;
  Time_DeepCopy : value -> M value
}.

Section deep_copy.
Context `{ApiMachinery}.

(** ** The types of the API *)

Definition ClusterCrawlerStatus : gotype := TStruct
  [("Conditions", TSlice Condition)].

Definition ParameterDefinition : gotype := TStruct
  [("Name", TBasic KString);
   ("Description", TBasic KString);
   ("Default", TPointer (TBasic KString))].

Definition CrawlerSpec : gotype := TStruct
  [("Container", Container);
   ("Volumes", TSlice Volume);
   ("Parameters", TSlice ParameterDefinition);
   ("ImagePullSecrets", TSlice LocalObjectReference)].

Definition ClusterCrawler : gotype := TStruct
  [("TypeMeta", TypeMeta);
   ("ObjectMeta", ObjectMeta);
   ("Spec", CrawlerSpec);
   ("Status", ClusterCrawlerStatus)].

Definition ClusterCrawlerList : gotype := TStruct
  [("TypeMeta", TypeMeta);
   ("ListMeta", ListMeta);
   ("Items", TSlice ClusterCrawler)].

Definition ClusterDownloaderStatus : gotype := TStruct
  [("Conditions", TSlice Condition)].

Definition DownloaderSpec : gotype := TStruct
  [("Container", Container);
   ("Volumes", TSlice Volume);
   ("MetadataFiles", TSlice (TBasic KString));
   ("Parameters", TSlice ParameterDefinition);
   ("ImagePullSecrets", TSlice LocalObjectReference)].

Definition ClusterDownloader : gotype := TStruct
  [("TypeMeta", TypeMeta);
   ("ObjectMeta", ObjectMeta);
   ("Spec", DownloaderSpec);
   ("Status", ClusterDownloaderStatus)].

Definition ClusterDownloaderList : gotype := TStruct
  [("TypeMeta", TypeMeta);
   ("ListMeta", ListMeta);
   ("Items", TSlice ClusterDownloader)].

Definition ClusterUploaderStatus : gotype := TStruct
  [("Conditions", TSlice Condition)].

Definition UploaderSpec : gotype := TStruct
  [("Container", Container);
   ("Volumes", TSlice Volume);
   ("Parameters", TSlice ParameterDefinition);
   ("ImagePullSecrets", TSlice LocalObjectReference)].

Definition ClusterUploader : gotype := TStruct
  [("TypeMeta", TypeMeta);
   ("ObjectMeta", ObjectMeta);
   ("Spec", UploaderSpec);
   ("Status", ClusterUploaderStatus)].

Definition ClusterUploaderList : gotype := TStruct
  [("TypeMeta", TypeMeta);
   ("ListMeta", ListMeta);
   ("Items", TSlice ClusterUploader)].

Definition ContainerCondition : gotype := TStruct
  [("WhenParamSet", TBasic KString)].

Definition ConditionalContainer : gotype := TStruct
  [("Container", Container);
   ("IncludeIf", TPointer ContainerCondition)].

Definition CrawlerStatus : gotype := TStruct
  [("Conditions", TSlice Condition)].

Definition Crawler : gotype := TStruct
  [("TypeMeta", TypeMeta);
   ("ObjectMeta", ObjectMeta);
   ("Spec", CrawlerSpec);
   ("Status", CrawlerStatus)].

Definition CrawlerList : gotype := TStruct
  [("TypeMeta", TypeMeta);
   ("ListMeta", ListMeta);
   ("Items", TSlice Crawler)].

Definition ParameterSource : gotype := TStruct
  [("ParentParam", TBasic KString)].

Definition ParameterSetting : gotype := TStruct
  [("Name", TBasic KString);
   ("Value", TBasic KString);
   ("ValueFrom", TPointer ParameterSource)].

Definition ParameterizedLocalObjectReference : gotype := TStruct
  [("Name", TBasic KString);
   ("Kind", TBasic KString);
   ("Parameters", TSlice ParameterSetting)].

Definition Target : gotype := TStruct
  [("Identifier", TBasic KString);
   ("Version", TBasic KString)].

Definition PipelineSpec : gotype := TStruct
  [("DownloaderRef", ParameterizedLocalObjectReference);
   ("ProfileRef", ParameterizedLocalObjectReference);
   ("Target", Target);
   ("ServiceAccountName", TBasic KString);
   ("RuntimeClassName", TPointer (TBasic KString));
   ("TTLSecondsAfterFinished", TPointer (TBasic KInt));
   ("TTLSecondsMaxLifetime", TPointer (TBasic KInt));
   ("Parameters", TSlice ParameterDefinition);
   ("Resources", TPointer ResourceRequirements)].

Definition PipelineTemplate : gotype := TStruct
  [("ObjectMeta", ObjectMeta);
   ("Spec", PipelineSpec)].

Definition SearchSchedulerSpec : gotype := TStruct
  [("PipelineTemplate", PipelineTemplate);
   ("IntervalSeconds", TPointer (TBasic KInt))].

Definition SearchSpec : gotype := TStruct
  [("CrawlerRef", ParameterizedLocalObjectReference);
   ("TTLSecondsAfterFinished", TPointer (TBasic KInt));
   ("ServiceAccountName", TBasic KString);
   ("RuntimeClassName", TPointer (TBasic KString));
   ("Scheduler", SearchSchedulerSpec);
   ("Resources", TPointer ResourceRequirements)].

Definition SearchTemplateSpec : gotype := TStruct
  [("ObjectMeta", ObjectMeta);
   ("Spec", SearchSpec)].

Definition CronSearchSpec : gotype := TStruct
  [("SearchTemplate", SearchTemplateSpec);
   ("Schedule", TBasic KString);
   ("Suspend", TPointer (TBasic KBool));
   ("SuccessfulJobsHistoryLimit", TPointer (TBasic KInt));
   ("FailedJobsHistoryLimit", TPointer (TBasic KInt));
   ("ConcurrencyPolicy", TBasic KString);
   ("StartingDeadlineSeconds", TPointer (TBasic KInt))].

Definition CronSearchStatus : gotype := TStruct
  [("Active", TSlice ObjectReference);
   ("LastScheduleTime", TPointer Time);
   ("Conditions", TSlice Condition)].

Definition CronSearch : gotype := TStruct
  [("TypeMeta", TypeMeta);
   ("ObjectMeta", ObjectMeta);
   ("Spec", CronSearchSpec);
   ("Status", CronSearchStatus)].

Definition CronSearchList : gotype := TStruct
  [("TypeMeta", TypeMeta);
   ("ListMeta", ListMeta);
   ("Items", TSlice CronSearch)].

Definition DownloaderStatus : gotype := TStruct
  [("Conditions", TSlice Condition)].

Definition Downloader : gotype := TStruct
  [("TypeMeta", TypeMeta);
   ("ObjectMeta", ObjectMeta);
   ("Spec", DownloaderSpec);
   ("Status", DownloaderStatus)].

Definition DownloaderList : gotype := TStruct
  [("TypeMeta", TypeMeta);
   ("ListMeta", ListMeta);
   ("Items", TSlice Downloader)].

Definition PipelineStageStatuses : gotype := TStruct
  [("DownloadStatus", TBasic KString);
   ("ScanStatus", TBasic KString);
   ("UploadStatus", TBasic KString)].

Definition PipelineStatus : gotype := TStruct
  [("Conditions", TSlice Condition);
   ("StartTime", TPointer Time);
   ("CompletionTime", TPointer Time);
   ("Phase", TBasic KString);
   ("StageStatuses", PipelineStageStatuses)].

Definition Pipeline : gotype := TStruct
  [("TypeMeta", TypeMeta);
   ("ObjectMeta", ObjectMeta);
   ("Spec", PipelineSpec);
   ("Status", PipelineStatus)].

Definition PipelineList : gotype := TStruct
  [("TypeMeta", TypeMeta);
   ("ListMeta", ListMeta);
   ("Items", TSlice Pipeline)].

Definition ProfileSpec : gotype := TStruct
  [("Containers", TSlice ConditionalContainer);
   ("Artifacts", TSlice (TBasic KString));
   ("Volumes", TSlice Volume);
   ("UploaderRefs", TSlice ParameterizedLocalObjectReference);
   ("Parameters", TSlice ParameterDefinition);
   ("ImagePullSecrets", TSlice LocalObjectReference)].

Definition ProfileStatus : gotype := TStruct
  [("Conditions", TSlice Condition)].

Definition Profile : gotype := TStruct
  [("TypeMeta", TypeMeta);
   ("ObjectMeta", ObjectMeta);
   ("Spec", ProfileSpec);
   ("Status", ProfileStatus)].

Definition ProfileList : gotype := TStruct
  [("TypeMeta", TypeMeta);
   ("ListMeta", ListMeta);
   ("Items", TSlice Profile)].

Definition SearchStatus : gotype := TStruct
  [("Conditions", TSlice Condition);
   ("StartTime", TPointer Time);
   ("CompletionTime", TPointer Time);
   ("CronSearchControllerName", TPointer (TBasic KString))].

Definition Search : gotype := TStruct
  [("TypeMeta", TypeMeta);
   ("ObjectMeta", ObjectMeta);
   ("Spec", SearchSpec);
   ("Status", SearchStatus)].

Definition SearchList : gotype := TStruct
  [("TypeMeta", TypeMeta);
   ("ListMeta", ListMeta);
   ("Items", TSlice Search)].

Definition ServiceAccountDefinition : gotype := TStruct
  [("Name", TBasic KString);
   ("Namespace", TBasic KString);
   ("IgnoreMissing", TBasic KBool);
   ("Token", ServiceAccountTokenProjection)].

Definition UploaderStatus : gotype := TStruct
  [("Conditions", TSlice Condition)].

Definition Uploader : gotype := TStruct
  [("TypeMeta", TypeMeta);
   ("ObjectMeta", ObjectMeta);
   ("Spec", UploaderSpec);
   ("Status", UploaderStatus)].

Definition UploaderList : gotype := TStruct
  [("TypeMeta", TypeMeta);
   ("ListMeta", ListMeta);
   ("Items", TSlice Uploader)].

(** ** The functions *)

Definition ClusterCrawlerStatus_DeepCopyInto (inp out : place) : M unit :=
  assign inp out ;;;
  copy_slice Condition Condition_DeepCopyInto (inp.@"Conditions") (out.@"Conditions").

Definition ClusterCrawlerStatus_DeepCopy : value -> M value :=
  DeepCopy ClusterCrawlerStatus ClusterCrawlerStatus_DeepCopyInto.

Definition ParameterDefinition_DeepCopyInto (inp out : place) : M unit :=
  assign inp out ;;;
  copy_pointer (TBasic KString) assign (inp.@"Default") (out.@"Default").

Definition ParameterDefinition_DeepCopy : value -> M value :=
  DeepCopy ParameterDefinition ParameterDefinition_DeepCopyInto.

Definition CrawlerSpec_DeepCopyInto (inp out : place) : M unit :=
  assign inp out ;;;
  Container_DeepCopyInto (inp.@"Container") (out.@"Container") ;;;
  copy_slice Volume Volume_DeepCopyInto (inp.@"Volumes") (out.@"Volumes") ;;;
  copy_slice ParameterDefinition ParameterDefinition_DeepCopyInto (inp.@"Parameters") (out.@"Parameters") ;;;
  copy_slice LocalObjectReference assign (inp.@"ImagePullSecrets") (out.@"ImagePullSecrets").

Definition CrawlerSpec_DeepCopy : value -> M value :=
  DeepCopy CrawlerSpec CrawlerSpec_DeepCopyInto.

Definition ClusterCrawler_DeepCopyInto (inp out : place) : M unit :=
  assign inp out ;;;
  assign (inp.@"TypeMeta") (out.@"TypeMeta") ;;;
  ObjectMeta_DeepCopyInto (inp.@"ObjectMeta") (out.@"ObjectMeta") ;;;
  CrawlerSpec_DeepCopyInto (inp.@"Spec") (out.@"Spec") ;;;
  ClusterCrawlerStatus_DeepCopyInto (inp.@"Status") (out.@"Status").

Definition ClusterCrawler_DeepCopy : value -> M value :=
  DeepCopy ClusterCrawler ClusterCrawler_DeepCopyInto.

Definition ClusterCrawler_DeepCopyObject : value -> M object :=
  DeepCopyObject ClusterCrawler ClusterCrawler_DeepCopy.

Definition ClusterCrawlerList_DeepCopyInto (inp out : place) : M unit :=
  assign inp out ;;;
  assign (inp.@"TypeMeta") (out.@"TypeMeta") ;;;
  ListMeta_DeepCopyInto (inp.@"ListMeta") (out.@"ListMeta") ;;;
  copy_slice ClusterCrawler ClusterCrawler_DeepCopyInto (inp.@"Items") (out.@"Items").

Definition ClusterCrawlerList_DeepCopy : value -> M value :=
  DeepCopy ClusterCrawlerList ClusterCrawlerList_DeepCopyInto.

Definition ClusterCrawlerList_DeepCopyObject : value -> M object :=
  DeepCopyObject ClusterCrawlerList ClusterCrawlerList_DeepCopy.

Definition ClusterDownloaderStatus_DeepCopyInto (inp out : place) : M unit :=
  assign inp out ;;;
  copy_slice Condition Condition_DeepCopyInto (inp.@"Conditions") (out.@"Conditions").

Definition ClusterDownloaderStatus_DeepCopy : value -> M value :=
  DeepCopy ClusterDownloaderStatus ClusterDownloaderStatus_DeepCopyInto.

Definition DownloaderSpec_DeepCopyInto (inp out : place) : M unit :=
  assign inp out ;;;
  Container_DeepCopyInto (inp.@"Container") (out.@"Container") ;;;
  copy_slice Volume Volume_DeepCopyInto (inp.@"Volumes") (out.@"Volumes") ;;;
  copy_slice (TBasic KString) assign (inp.@"MetadataFiles") (out.@"MetadataFiles") ;;;
  copy_slice ParameterDefinition ParameterDefinition_DeepCopyInto (inp.@"Parameters") (out.@"Parameters") ;;;
  copy_slice LocalObjectReference assign (inp.@"ImagePullSecrets") (out.@"ImagePullSecrets").

Definition DownloaderSpec_DeepCopy : value -> M value :=
  DeepCopy DownloaderSpec DownloaderSpec_DeepCopyInto.

Definition ClusterDownloader_DeepCopyInto (inp out : place) : M unit :=
  assign inp out ;;;
  assign (inp.@"TypeMeta") (out.@"TypeMeta") ;;;
  ObjectMeta_DeepCopyInto (inp.@"ObjectMeta") (out.@"ObjectMeta") ;;;
  DownloaderSpec_DeepCopyInto (inp.@"Spec") (out.@"Spec") ;;;
  ClusterDownloaderStatus_DeepCopyInto (inp.@"Status") (out.@"Status").

Definition ClusterDownloader_DeepCopy : value -> M value :=
  DeepCopy ClusterDownloader ClusterDownloader_DeepCopyInto.

Definition ClusterDownloader_DeepCopyObject : value -> M object :=
  DeepCopyObject ClusterDownloader ClusterDownloader_DeepCopy.

Definition ClusterDownloaderList_DeepCopyInto (inp out : place) : M unit :=
  assign inp out ;;;
  assign (inp.@"TypeMeta") (out.@"TypeMeta") ;;;
  ListMeta_DeepCopyInto (inp.@"ListMeta") (out.@"ListMeta") ;;;
  copy_slice ClusterDownloader ClusterDownloader_DeepCopyInto (inp.@"Items") (out.@"Items").

Definition ClusterDownloaderList_DeepCopy : value -> M value :=
  DeepCopy ClusterDownloaderList ClusterDownloaderList_DeepCopyInto.

Definition ClusterDownloaderList_DeepCopyObject : value -> M object :=
  DeepCopyObject ClusterDownloaderList ClusterDownloaderList_DeepCopy.

Definition ClusterUploaderStatus_DeepCopyInto (inp out : place) : M unit :=
  assign inp out ;;;
  copy_slice Condition Condition_DeepCopyInto (inp.@"Conditions") (out.@"Conditions").

Definition ClusterUploaderStatus_DeepCopy : value -> M value :=
  DeepCopy ClusterUploaderStatus ClusterUploaderStatus_DeepCopyInto.

Definition UploaderSpec_DeepCopyInto (inp out : place) : M unit :=
  assign inp out ;;;
  Container_DeepCopyInto (inp.@"Container") (out.@"Container") ;;;
  copy_slice Volume Volume_DeepCopyInto (inp.@"Volumes") (out.@"Volumes") ;;;
  copy_slice ParameterDefinition ParameterDefinition_DeepCopyInto (inp.@"Parameters") (out.@"Parameters") ;;;
  copy_slice LocalObjectReference assign (inp.@"ImagePullSecrets") (out.@"ImagePullSecrets").

Definition UploaderSpec_DeepCopy : value -> M value :=
  DeepCopy UploaderSpec UploaderSpec_DeepCopyInto.

Definition ClusterUploader_DeepCopyInto (inp out : place) : M unit :=
  assign inp out ;;;
  assign (inp.@"TypeMeta") (out.@"TypeMeta") ;;;
  ObjectMeta_DeepCopyInto (inp.@"ObjectMeta") (out.@"ObjectMeta") ;;;
  UploaderSpec_DeepCopyInto (inp.@"Spec") (out.@"Spec") ;;;
  ClusterUploaderStatus_DeepCopyInto (inp.@"Status") (out.@"Status").

Definition ClusterUploader_DeepCopy : value -> M value :=
  DeepCopy ClusterUploader ClusterUploader_DeepCopyInto.

Definition ClusterUploader_DeepCopyObject : value -> M object :=
  DeepCopyObject ClusterUploader ClusterUploader_DeepCopy.

Definition ClusterUploaderList_DeepCopyInto (inp out : place) : M unit :=
  assign inp out ;;;
  assign (inp.@"TypeMeta") (out.@"TypeMeta") ;;;
  ListMeta_DeepCopyInto (inp.@"ListMeta") (out.@"ListMeta") ;;;
  copy_slice ClusterUploader ClusterUploader_DeepCopyInto (inp.@"Items") (out.@"Items").

Definition ClusterUploaderList_DeepCopy : value -> M value :=
  DeepCopy ClusterUploaderList ClusterUploaderList_DeepCopyInto.

Definition ClusterUploaderList_DeepCopyObject : value -> M object :=
  DeepCopyObject ClusterUploaderList ClusterUploaderList_DeepCopy.

Definition ContainerCondition_DeepCopyInto (inp out : place) : M unit := assign inp out.

Definition ContainerCondition_DeepCopy : value -> M value :=
  DeepCopy ContainerCondition ContainerCondition_DeepCopyInto.

Definition ConditionalContainer_DeepCopyInto (inp out : place) : M unit :=
  assign inp out ;;;
  Container_DeepCopyInto (inp.@"Container") (out.@"Container") ;;;
  copy_pointer ContainerCondition assign (inp.@"IncludeIf") (out.@"IncludeIf").

Definition ConditionalContainer_DeepCopy : value -> M value :=
  DeepCopy ConditionalContainer ConditionalContainer_DeepCopyInto.

Definition CrawlerStatus_DeepCopyInto (inp out : place) : M unit :=
  assign inp out ;;;
  copy_slice Condition Condition_DeepCopyInto (inp.@"Conditions") (out.@"Conditions").

Definition CrawlerStatus_DeepCopy : value -> M value :=
  DeepCopy CrawlerStatus CrawlerStatus_DeepCopyInto.

Definition Crawler_DeepCopyInto (inp out : place) : M unit :=
  assign inp out ;;;
  assign (inp.@"TypeMeta") (out.@"TypeMeta") ;;;
  ObjectMeta_DeepCopyInto (inp.@"ObjectMeta") (out.@"ObjectMeta") ;;;
  CrawlerSpec_DeepCopyInto (inp.@"Spec") (out.@"Spec") ;;;
  CrawlerStatus_DeepCopyInto (inp.@"Status") (out.@"Status").

Definition Crawler_DeepCopy : value -> M value := DeepCopy Crawler Crawler_DeepCopyInto.

Definition Crawler_DeepCopyObject : value -> M object := DeepCopyObject Crawler Crawler_DeepCopy.

Definition CrawlerList_DeepCopyInto (inp out : place) : M unit :=
  assign inp out ;;;
  assign (inp.@"TypeMeta") (out.@"TypeMeta") ;;;
  ListMeta_DeepCopyInto (inp.@"ListMeta") (out.@"ListMeta") ;;;
  copy_slice Crawler Crawler_DeepCopyInto (inp.@"Items") (out.@"Items").

Definition CrawlerList_DeepCopy : value -> M value :=
  DeepCopy CrawlerList CrawlerList_DeepCopyInto.

Definition CrawlerList_DeepCopyObject : value -> M object :=
  DeepCopyObject CrawlerList CrawlerList_DeepCopy.

Definition ParameterSource_DeepCopyInto (inp out : place) : M unit := assign inp out.

Definition ParameterSource_DeepCopy : value -> M value :=
  DeepCopy ParameterSource ParameterSource_DeepCopyInto.

Definition ParameterSetting_DeepCopyInto (inp out : place) : M unit :=
  assign inp out ;;;
  copy_pointer ParameterSource assign (inp.@"ValueFrom") (out.@"ValueFrom").

Definition ParameterSetting_DeepCopy : value -> M value :=
  DeepCopy ParameterSetting ParameterSetting_DeepCopyInto.

Definition ParameterizedLocalObjectReference_DeepCopyInto (inp out : place) : M unit :=
  assign inp out ;;;
  copy_slice ParameterSetting ParameterSetting_DeepCopyInto (inp.@"Parameters") (out.@"Parameters").

Definition ParameterizedLocalObjectReference_DeepCopy : value -> M value :=
  DeepCopy ParameterizedLocalObjectReference ParameterizedLocalObjectReference_DeepCopyInto.

Definition Target_DeepCopyInto (inp out : place) : M unit := assign inp out.

Definition Target_DeepCopy : value -> M value := DeepCopy Target Target_DeepCopyInto.

Definition PipelineSpec_DeepCopyInto (inp out : place) : M unit :=
  assign inp out ;;;
  ParameterizedLocalObjectReference_DeepCopyInto (inp.@"DownloaderRef") (out.@"DownloaderRef") ;;;
  ParameterizedLocalObjectReference_DeepCopyInto (inp.@"ProfileRef") (out.@"ProfileRef") ;;;
  assign (inp.@"Target") (out.@"Target") ;;;
  copy_pointer (TBasic KString) assign (inp.@"RuntimeClassName") (out.@"RuntimeClassName") ;;;
  copy_pointer (TBasic KInt) assign (inp.@"TTLSecondsAfterFinished") (out.@"TTLSecondsAfterFinished") ;;;
  copy_pointer (TBasic KInt) assign (inp.@"TTLSecondsMaxLifetime") (out.@"TTLSecondsMaxLifetime") ;;;
  copy_slice ParameterDefinition ParameterDefinition_DeepCopyInto (inp.@"Parameters") (out.@"Parameters") ;;;
  copy_pointer ResourceRequirements ResourceRequirements_DeepCopyInto (inp.@"Resources") (out.@"Resources").

Definition PipelineSpec_DeepCopy : value -> M value :=
  DeepCopy PipelineSpec PipelineSpec_DeepCopyInto.

Definition PipelineTemplate_DeepCopyInto (inp out : place) : M unit :=
  assign inp out ;;;
  ObjectMeta_DeepCopyInto (inp.@"ObjectMeta") (out.@"ObjectMeta") ;;;
  PipelineSpec_DeepCopyInto (inp.@"Spec") (out.@"Spec").

Definition PipelineTemplate_DeepCopy : value -> M value :=
  DeepCopy PipelineTemplate PipelineTemplate_DeepCopyInto.

Definition SearchSchedulerSpec_DeepCopyInto (inp out : place) : M unit :=
  assign inp out ;;;
  PipelineTemplate_DeepCopyInto (inp.@"PipelineTemplate") (out.@"PipelineTemplate") ;;;
  copy_pointer (TBasic KInt) assign (inp.@"IntervalSeconds") (out.@"IntervalSeconds").

Definition SearchSchedulerSpec_DeepCopy : value -> M value :=
  DeepCopy SearchSchedulerSpec SearchSchedulerSpec_DeepCopyInto.

Definition SearchSpec_DeepCopyInto (inp out : place) : M unit :=
  assign inp out ;;;
  ParameterizedLocalObjectReference_DeepCopyInto (inp.@"CrawlerRef") (out.@"CrawlerRef") ;;;
  copy_pointer (TBasic KInt) assign (inp.@"TTLSecondsAfterFinished") (out.@"TTLSecondsAfterFinished") ;;;
  copy_pointer (TBasic KString) assign (inp.@"RuntimeClassName") (out.@"RuntimeClassName") ;;;
  SearchSchedulerSpec_DeepCopyInto (inp.@"Scheduler") (out.@"Scheduler") ;;;
  copy_pointer ResourceRequirements ResourceRequirements_DeepCopyInto (inp.@"Resources") (out.@"Resources").

Definition SearchSpec_DeepCopy : value -> M value := DeepCopy SearchSpec SearchSpec_DeepCopyInto.

Definition SearchTemplateSpec_DeepCopyInto (inp out : place) : M unit :=
  assign inp out ;;;
  ObjectMeta_DeepCopyInto (inp.@"ObjectMeta") (out.@"ObjectMeta") ;;;
  SearchSpec_DeepCopyInto (inp.@"Spec") (out.@"Spec").

Definition SearchTemplateSpec_DeepCopy : value -> M value :=
  DeepCopy SearchTemplateSpec SearchTemplateSpec_DeepCopyInto.

Definition CronSearchSpec_DeepCopyInto (inp out : place) : M unit :=
  assign inp out ;;;
  SearchTemplateSpec_DeepCopyInto (inp.@"SearchTemplate") (out.@"SearchTemplate") ;;;
  copy_pointer (TBasic KBool) assign (inp.@"Suspend") (out.@"Suspend") ;;;
  copy_pointer (TBasic KInt) assign (inp.@"SuccessfulJobsHistoryLimit") (out.@"SuccessfulJobsHistoryLimit") ;;;
  copy_pointer (TBasic KInt) assign (inp.@"FailedJobsHistoryLimit") (out.@"FailedJobsHistoryLimit") ;;;
  copy_pointer (TBasic KInt) assign (inp.@"StartingDeadlineSeconds") (out.@"StartingDeadlineSeconds").

Definition CronSearchSpec_DeepCopy : value -> M value :=
  DeepCopy CronSearchSpec CronSearchSpec_DeepCopyInto.

Definition CronSearchStatus_DeepCopyInto (inp out : place) : M unit :=
  assign inp out ;;;
  copy_slice ObjectReference assign (inp.@"Active") (out.@"Active") ;;;
  copy_by Time_DeepCopy (inp.@"LastScheduleTime") (out.@"LastScheduleTime") ;;;
  copy_slice Condition Condition_DeepCopyInto (inp.@"Conditions") (out.@"Conditions").

Definition CronSearchStatus_DeepCopy : value -> M value :=
  DeepCopy CronSearchStatus CronSearchStatus_DeepCopyInto.

Definition CronSearch_DeepCopyInto (inp out : place) : M unit :=
  assign inp out ;;;
  assign (inp.@"TypeMeta") (out.@"TypeMeta") ;;;
  ObjectMeta_DeepCopyInto (inp.@"ObjectMeta") (out.@"ObjectMeta") ;;;
  CronSearchSpec_DeepCopyInto (inp.@"Spec") (out.@"Spec") ;;;
  CronSearchStatus_DeepCopyInto (inp.@"Status") (out.@"Status").

Definition CronSearch_DeepCopy : value -> M value := DeepCopy CronSearch CronSearch_DeepCopyInto.

Definition CronSearch_DeepCopyObject : value -> M object :=
  DeepCopyObject CronSearch CronSearch_DeepCopy.

Definition CronSearchList_DeepCopyInto (inp out : place) : M unit :=
  assign inp out ;;;
  assign (inp.@"TypeMeta") (out.@"TypeMeta") ;;;
  ListMeta_DeepCopyInto (inp.@"ListMeta") (out.@"ListMeta") ;;;
  copy_slice CronSearch CronSearch_DeepCopyInto (inp.@"Items") (out.@"Items").

Definition CronSearchList_DeepCopy : value -> M value :=
  DeepCopy CronSearchList CronSearchList_DeepCopyInto.

Definition CronSearchList_DeepCopyObject : value -> M object :=
  DeepCopyObject CronSearchList CronSearchList_DeepCopy.

Definition DownloaderStatus_DeepCopyInto (inp out : place) : M unit :=
  assign inp out ;;;
  copy_slice Condition Condition_DeepCopyInto (inp.@"Conditions") (out.@"Conditions").

Definition DownloaderStatus_DeepCopy : value -> M value :=
  DeepCopy DownloaderStatus DownloaderStatus_DeepCopyInto.

Definition Downloader_DeepCopyInto (inp out : place) : M unit :=
  assign inp out ;;;
  assign (inp.@"TypeMeta") (out.@"TypeMeta") ;;;
  ObjectMeta_DeepCopyInto (inp.@"ObjectMeta") (out.@"ObjectMeta") ;;;
  DownloaderSpec_DeepCopyInto (inp.@"Spec") (out.@"Spec") ;;;
  DownloaderStatus_DeepCopyInto (inp.@"Status") (out.@"Status").

Definition Downloader_DeepCopy : value -> M value := DeepCopy Downloader Downloader_DeepCopyInto.

Definition Downloader_DeepCopyObject : value -> M object :=
  DeepCopyObject Downloader Downloader_DeepCopy.

Definition DownloaderList_DeepCopyInto (inp out : place) : M unit :=
  assign inp out ;;;
  assign (inp.@"TypeMeta") (out.@"TypeMeta") ;;;
  ListMeta_DeepCopyInto (inp.@"ListMeta") (out.@"ListMeta") ;;;
  copy_slice Downloader Downloader_DeepCopyInto (inp.@"Items") (out.@"Items").

Definition DownloaderList_DeepCopy : value -> M value :=
  DeepCopy DownloaderList DownloaderList_DeepCopyInto.

Definition DownloaderList_DeepCopyObject : value -> M object :=
  DeepCopyObject DownloaderList DownloaderList_DeepCopy.

Definition PipelineStageStatuses_DeepCopyInto (inp out : place) : M unit := assign inp out.

Definition PipelineStageStatuses_DeepCopy : value -> M value :=
  DeepCopy PipelineStageStatuses PipelineStageStatuses_DeepCopyInto.

Definition PipelineStatus_DeepCopyInto (inp out : place) : M unit :=
  assign inp out ;;;
  copy_slice Condition Condition_DeepCopyInto (inp.@"Conditions") (out.@"Conditions") ;;;
  copy_by Time_DeepCopy (inp.@"StartTime") (out.@"StartTime") ;;;
  copy_by Time_DeepCopy (inp.@"CompletionTime") (out.@"CompletionTime") ;;;
  assign (inp.@"StageStatuses") (out.@"StageStatuses").

Definition PipelineStatus_DeepCopy : value -> M value :=
  DeepCopy PipelineStatus PipelineStatus_DeepCopyInto.

Definition Pipeline_DeepCopyInto (inp out : place) : M unit :=
  assign inp out ;;;
  assign (inp.@"TypeMeta") (out.@"TypeMeta") ;;;
  ObjectMeta_DeepCopyInto (inp.@"ObjectMeta") (out.@"ObjectMeta") ;;;
  PipelineSpec_DeepCopyInto (inp.@"Spec") (out.@"Spec") ;;;
  PipelineStatus_DeepCopyInto (inp.@"Status") (out.@"Status").

Definition Pipeline_DeepCopy : value -> M value := DeepCopy Pipeline Pipeline_DeepCopyInto.

Definition Pipeline_DeepCopyObject : value -> M object :=
  DeepCopyObject Pipeline Pipeline_DeepCopy.

Definition PipelineList_DeepCopyInto (inp out : place) : M unit :=
  assign inp out ;;;
  assign (inp.@"TypeMeta") (out.@"TypeMeta") ;;;
  ListMeta_DeepCopyInto (inp.@"ListMeta") (out.@"ListMeta") ;;;
  copy_slice Pipeline Pipeline_DeepCopyInto (inp.@"Items") (out.@"Items").

Definition PipelineList_DeepCopy : value -> M value :=
  DeepCopy PipelineList PipelineList_DeepCopyInto.

Definition PipelineList_DeepCopyObject : value -> M object :=
  DeepCopyObject PipelineList PipelineList_DeepCopy.

Definition ProfileSpec_DeepCopyInto (inp out : place) : M unit :=
  assign inp out ;;;
  copy_slice ConditionalContainer ConditionalContainer_DeepCopyInto (inp.@"Containers") (out.@"Containers") ;;;
  copy_slice (TBasic KString) assign (inp.@"Artifacts") (out.@"Artifacts") ;;;
  copy_slice Volume Volume_DeepCopyInto (inp.@"Volumes") (out.@"Volumes") ;;;
  copy_slice ParameterizedLocalObjectReference ParameterizedLocalObjectReference_DeepCopyInto (inp.@"UploaderRefs") (out.@"UploaderRefs") ;;;
  copy_slice ParameterDefinition ParameterDefinition_DeepCopyInto (inp.@"Parameters") (out.@"Parameters") ;;;
  copy_slice LocalObjectReference assign (inp.@"ImagePullSecrets") (out.@"ImagePullSecrets").

Definition ProfileSpec_DeepCopy : value -> M value :=
  DeepCopy ProfileSpec ProfileSpec_DeepCopyInto.

Definition ProfileStatus_DeepCopyInto (inp out : place) : M unit :=
  assign inp out ;;;
  copy_slice Condition Condition_DeepCopyInto (inp.@"Conditions") (out.@"Conditions").

Definition ProfileStatus_DeepCopy : value -> M value :=
  DeepCopy ProfileStatus ProfileStatus_DeepCopyInto.

Definition Profile_DeepCopyInto (inp out : place) : M unit :=
  assign inp out ;;;
  assign (inp.@"TypeMeta") (out.@"TypeMeta") ;;;
  ObjectMeta_DeepCopyInto (inp.@"ObjectMeta") (out.@"ObjectMeta") ;;;
  ProfileSpec_DeepCopyInto (inp.@"Spec") (out.@"Spec") ;;;
  ProfileStatus_DeepCopyInto (inp.@"Status") (out.@"Status").

Definition Profile_DeepCopy : value -> M value := DeepCopy Profile Profile_DeepCopyInto.

Definition Profile_DeepCopyObject : value -> M object := DeepCopyObject Profile Profile_DeepCopy.

Definition ProfileList_DeepCopyInto (inp out : place) : M unit :=
  assign inp out ;;;
  assign (inp.@"TypeMeta") (out.@"TypeMeta") ;;;
  ListMeta_DeepCopyInto (inp.@"ListMeta") (out.@"ListMeta") ;;;
  copy_slice Profile Profile_DeepCopyInto (inp.@"Items") (out.@"Items").

Definition ProfileList_DeepCopy : value -> M value :=
  DeepCopy ProfileList ProfileList_DeepCopyInto.

Definition ProfileList_DeepCopyObject : value -> M object :=
  DeepCopyObject ProfileList ProfileList_DeepCopy.

Definition SearchStatus_DeepCopyInto (inp out : place) : M unit :=
  assign inp out ;;;
  copy_slice Condition Condition_DeepCopyInto (inp.@"Conditions") (out.@"Conditions") ;;;
  copy_by Time_DeepCopy (inp.@"StartTime") (out.@"StartTime") ;;;
  copy_by Time_DeepCopy (inp.@"CompletionTime") (out.@"CompletionTime") ;;;
  copy_pointer (TBasic KString) assign (inp.@"CronSearchControllerName") (out.@"CronSearchControllerName").

Definition SearchStatus_DeepCopy : value -> M value :=
  DeepCopy SearchStatus SearchStatus_DeepCopyInto.

Definition Search_DeepCopyInto (inp out : place) : M unit :=
  assign inp out ;;;
  assign (inp.@"TypeMeta") (out.@"TypeMeta") ;;;
  ObjectMeta_DeepCopyInto (inp.@"ObjectMeta") (out.@"ObjectMeta") ;;;
  SearchSpec_DeepCopyInto (inp.@"Spec") (out.@"Spec") ;;;
  SearchStatus_DeepCopyInto (inp.@"Status") (out.@"Status").

Definition Search_DeepCopy : value -> M value := DeepCopy Search Search_DeepCopyInto.

Definition Search_DeepCopyObject : value -> M object := DeepCopyObject Search Search_DeepCopy.

Definition SearchList_DeepCopyInto (inp out : place) : M unit :=
  assign inp out ;;;
  assign (inp.@"TypeMeta") (out.@"TypeMeta") ;;;
  ListMeta_DeepCopyInto (inp.@"ListMeta") (out.@"ListMeta") ;;;
  copy_slice Search Search_DeepCopyInto (inp.@"Items") (out.@"Items").

Definition SearchList_DeepCopy : value -> M value := DeepCopy SearchList SearchList_DeepCopyInto.

Definition SearchList_DeepCopyObject : value -> M object :=
  DeepCopyObject SearchList SearchList_DeepCopy.

Definition ServiceAccountDefinition_DeepCopyInto (inp out : place) : M unit :=
  assign inp out ;;;
  ServiceAccountTokenProjection_DeepCopyInto (inp.@"Token") (out.@"Token").

Definition ServiceAccountDefinition_DeepCopy : value -> M value :=
  DeepCopy ServiceAccountDefinition ServiceAccountDefinition_DeepCopyInto.

Definition UploaderStatus_DeepCopyInto (inp out : place) : M unit :=
  assign inp out ;;;
  copy_slice Condition Condition_DeepCopyInto (inp.@"Conditions") (out.@"Conditions").

Definition UploaderStatus_DeepCopy : value -> M value :=
  DeepCopy UploaderStatus UploaderStatus_DeepCopyInto.

Definition Uploader_DeepCopyInto (inp out : place) : M unit :=
  assign inp out ;;;
  assign (inp.@"TypeMeta") (out.@"TypeMeta") ;;;
  ObjectMeta_DeepCopyInto (inp.@"ObjectMeta") (out.@"ObjectMeta") ;;;
  UploaderSpec_DeepCopyInto (inp.@"Spec") (out.@"Spec") ;;;
  UploaderStatus_DeepCopyInto (inp.@"Status") (out.@"Status").

Definition Uploader_DeepCopy : value -> M value := DeepCopy Uploader Uploader_DeepCopyInto.

Definition Uploader_DeepCopyObject : value -> M object :=
  DeepCopyObject Uploader Uploader_DeepCopy.

Definition UploaderList_DeepCopyInto (inp out : place) : M unit :=
  assign inp out ;;;
  assign (inp.@"TypeMeta") (out.@"TypeMeta") ;;;
  ListMeta_DeepCopyInto (inp.@"ListMeta") (out.@"ListMeta") ;;;
  copy_slice Uploader Uploader_DeepCopyInto (inp.@"Items") (out.@"Items").

Definition UploaderList_DeepCopy : value -> M value :=
  DeepCopy UploaderList UploaderList_DeepCopyInto.

Definition UploaderList_DeepCopyObject : value -> M object :=
  DeepCopyObject UploaderList UploaderList_DeepCopy.

(** The functions [DeepCopyInto] of all types of the API. *)
Definition deepcopy_functions : list (string * gotype * (place -> place -> M unit)) :=
  [("ClusterCrawlerStatus", ClusterCrawlerStatus, ClusterCrawlerStatus_DeepCopyInto);
   ("ParameterDefinition", ParameterDefinition, ParameterDefinition_DeepCopyInto);
   ("CrawlerSpec", CrawlerSpec, CrawlerSpec_DeepCopyInto);
   ("ClusterCrawler", ClusterCrawler, ClusterCrawler_DeepCopyInto);
   ("ClusterCrawlerList", ClusterCrawlerList, ClusterCrawlerList_DeepCopyInto);
   ("ClusterDownloaderStatus", ClusterDownloaderStatus, ClusterDownloaderStatus_DeepCopyInto);
   ("DownloaderSpec", DownloaderSpec, DownloaderSpec_DeepCopyInto);
   ("ClusterDownloader", ClusterDownloader, ClusterDownloader_DeepCopyInto);
   ("ClusterDownloaderList", ClusterDownloaderList, ClusterDownloaderList_DeepCopyInto);
   ("ClusterUploaderStatus", ClusterUploaderStatus, ClusterUploaderStatus_DeepCopyInto);
   ("UploaderSpec", UploaderSpec, UploaderSpec_DeepCopyInto);
   ("ClusterUploader", ClusterUploader, ClusterUploader_DeepCopyInto);
   ("ClusterUploaderList", ClusterUploaderList, ClusterUploaderList_DeepCopyInto);
   ("ContainerCondition", ContainerCondition, ContainerCondition_DeepCopyInto);
   ("ConditionalContainer", ConditionalContainer, ConditionalContainer_DeepCopyInto);
   ("CrawlerStatus", CrawlerStatus, CrawlerStatus_DeepCopyInto);
   ("Crawler", Crawler, Crawler_DeepCopyInto);
   ("CrawlerList", CrawlerList, CrawlerList_DeepCopyInto);
   ("ParameterSource", ParameterSource, ParameterSource_DeepCopyInto);
   ("ParameterSetting", ParameterSetting, ParameterSetting_DeepCopyInto);
   ("ParameterizedLocalObjectReference", ParameterizedLocalObjectReference, ParameterizedLocalObjectReference_DeepCopyInto);
   ("Target", Target, Target_DeepCopyInto);
   ("PipelineSpec", PipelineSpec, PipelineSpec_DeepCopyInto);
   ("PipelineTemplate", PipelineTemplate, PipelineTemplate_DeepCopyInto);
   ("SearchSchedulerSpec", SearchSchedulerSpec, SearchSchedulerSpec_DeepCopyInto);
   ("SearchSpec", SearchSpec, SearchSpec_DeepCopyInto);
   ("SearchTemplateSpec", SearchTemplateSpec, SearchTemplateSpec_DeepCopyInto);
   ("CronSearchSpec", CronSearchSpec, CronSearchSpec_DeepCopyInto);
   ("CronSearchStatus", CronSearchStatus, CronSearchStatus_DeepCopyInto);
   ("CronSearch", CronSearch, CronSearch_DeepCopyInto);
   ("CronSearchList", CronSearchList, CronSearchList_DeepCopyInto);
   ("DownloaderStatus", DownloaderStatus, DownloaderStatus_DeepCopyInto);
   ("Downloader", Downloader, Downloader_DeepCopyInto);
   ("DownloaderList", DownloaderList, DownloaderList_DeepCopyInto);
   ("PipelineStageStatuses", PipelineStageStatuses, PipelineStageStatuses_DeepCopyInto);
   ("PipelineStatus", PipelineStatus, PipelineStatus_DeepCopyInto);
   ("Pipeline", Pipeline, Pipeline_DeepCopyInto);
   ("PipelineList", PipelineList, PipelineList_DeepCopyInto);
   ("ProfileSpec", ProfileSpec, ProfileSpec_DeepCopyInto);
   ("ProfileStatus", ProfileStatus, ProfileStatus_DeepCopyInto);
   ("Profile", Profile, Profile_DeepCopyInto);
   ("ProfileList", ProfileList, ProfileList_DeepCopyInto);
   ("SearchStatus", SearchStatus, SearchStatus_DeepCopyInto);
   ("Search", Search, Search_DeepCopyInto);
   ("SearchList", SearchList, SearchList_DeepCopyInto);
   ("ServiceAccountDefinition", ServiceAccountDefinition, ServiceAccountDefinition_DeepCopyInto);
   ("UploaderStatus", UploaderStatus, UploaderStatus_DeepCopyInto);
   ("Uploader", Uploader, Uploader_DeepCopyInto);
   ("UploaderList", UploaderList, UploaderList_DeepCopyInto)].

(** The functions [DeepCopyObject] of the kinds and their lists. *)
Definition deepcopy_objects : list (string * gotype * (value -> M object)) :=
  [("ClusterCrawler", ClusterCrawler, ClusterCrawler_DeepCopyObject);
   ("ClusterCrawlerList", ClusterCrawlerList, ClusterCrawlerList_DeepCopyObject);
   ("ClusterDownloader", ClusterDownloader, ClusterDownloader_DeepCopyObject);
   ("ClusterDownloaderList", ClusterDownloaderList, ClusterDownloaderList_DeepCopyObject);
   ("ClusterUploader", ClusterUploader, ClusterUploader_DeepCopyObject);
   ("ClusterUploaderList", ClusterUploaderList, ClusterUploaderList_DeepCopyObject);
   ("Crawler", Crawler, Crawler_DeepCopyObject);
   ("CrawlerList", CrawlerList, CrawlerList_DeepCopyObject);
   ("CronSearch", CronSearch, CronSearch_DeepCopyObject);
   ("CronSearchList", CronSearchList, CronSearchList_DeepCopyObject);
   ("Downloader", Downloader, Downloader_DeepCopyObject);
   ("DownloaderList", DownloaderList, DownloaderList_DeepCopyObject);
   ("Pipeline", Pipeline, Pipeline_DeepCopyObject);
   ("PipelineList", PipelineList, PipelineList_DeepCopyObject);
   ("Profile", Profile, Profile_DeepCopyObject);
   ("ProfileList", ProfileList, ProfileList_DeepCopyObject);
   ("Search", Search, Search_DeepCopyObject);
   ("SearchList", SearchList, SearchList_DeepCopyObject);
   ("Uploader", Uploader, Uploader_DeepCopyObject);
   ("UploaderList", UploaderList, UploaderList_DeepCopyObject)].
End deep_copy.
