(* ===== verification/DeepCopySafety.v ===== *)
(** * The deep copies share nothing with their originals

    With the contracts of the functions of the libraries ([DeepCopyLaws]), every
    function of zz_generated.deepcopy.go meets its own: the generated code fits
    the types.  An instance of the laws shows that they can hold. *)

From Stdlib Require Import ZArith Lia String.
From S2P Require Import Prelude GoMemory GoMemoryTheory DeepCopyRules DeepCopy.

Local Open Scope string_scope.
Local Open Scope list_scope.
Local Open Scope memory_scope.

(** What the libraries document: their functions are deep copies, and the types
    that are copied by assignment hold no references. *)
Class DeepCopyLaws `{ApiMachinery} : Prop := {
  TypeMeta_flat : flat TypeMeta = true;
  LocalObjectReference_flat : flat LocalObjectReference = true;
  ObjectReference_flat : flat ObjectReference = true;
  ObjectMeta_copies : copies ObjectMeta ObjectMeta_DeepCopyInto;
  ListMeta_copies : copies ListMeta ListMeta_DeepCopyInto;
  Condition_copies : copies Condition Condition_DeepCopyInto;
  Container_copies : copies Container Container_DeepCopyInto;
  Volume_copies : copies Volume Volume_DeepCopyInto;
  ResourceRequirements_copies : copies ResourceRequirements ResourceRequirements_DeepCopyInto;
  ServiceAccountTokenProjection_copies :
    copies ServiceAccountTokenProjection ServiceAccountTokenProjection_DeepCopyInto;
  Time_copies : returns_copy Time Time_DeepCopy
}.

#[export] Hint Resolve TypeMeta_flat LocalObjectReference_flat ObjectReference_flat ObjectMeta_copies
  ListMeta_copies Condition_copies Container_copies Volume_copies ResourceRequirements_copies
  ServiceAccountTokenProjection_copies Time_copies : deepcopy.

(** A function of the generated code, from those of its fields. *)
#[export] Hint Extern 9 (copies _ _) => copy_struct : deepcopy.

Section safety.
Context `{DeepCopyLaws}.

Lemma deepcopy_functions_copy n t f : (n, t, f) ∈ deepcopy_functions -> copies t f.
Proof.
  revert n t f. cut (Forall (fun x => copies x.1.2 x.2) deepcopy_functions).
  { rewrite Forall_forall. intros HF n t f Hin. exact (HF _ Hin). }
  repeat constructor; eauto with deepcopy.
Qed.

Lemma deepcopy_objects_copy n t f : (n, t, f) ∈ deepcopy_objects ->
  exists g, copies t g /\ f = DeepCopyObject t (DeepCopy t g).
Proof.
  revert n t f.
  cut (Forall (fun x => exists g, copies x.1.2 g /\ x.2 = DeepCopyObject x.1.2 (DeepCopy x.1.2 g)) deepcopy_objects).
  { rewrite Forall_forall. intros HF n t f Hin. exact (HF _ Hin). }
  repeat constructor; (eexists; split; [|reflexivity]); simpl; eauto with deepcopy.
Qed.

Lemma deep_pointer_nil t h h' v w c :
  deep (TPointer t) h v = Some c -> deep (TPointer t) h' w = Some c -> w = Nil <-> v = Nil.
Proof.
  intros Hv Hw. destruct v, w; try done; simpl in *; simplify_eq.
  - by apply bind_Some in Hw as (? & _ & (? & _ & [=])%bind_Some).
  - by apply bind_Some in Hv as (? & _ & (? & _ & [=])%bind_Some).
Qed.

(** C26: every generated function [DeepCopy] fits its type: it returns nil for nil
    and otherwise a pointer to new cells that hold the content of the original.
    It never panics and changes no cell; whatever is written to other cells
    later - those of the original - leaves the copy as it is, and whatever is
    written to the cells of the copy leaves the original as it is. *)
Theorem DeepCopy_shares_nothing n t f h v c :
  (n, t, f) ∈ deepcopy_functions -> deep (TPointer t) h v = Some c ->
  exists w hn, DeepCopy t f v h = Some (w, h ∪ hn) /\ hn ##ₘ h /\ (w = Nil <-> v = Nil) /\
    (forall h', hn ⊆ h' -> deep (TPointer t) h' w = Some c) /\
    (forall h', h ⊆ h' -> deep (TPointer t) h' v = Some c).
Proof.
  intros Hin Hd. destruct (returns_copy_DeepCopy t f (deepcopy_functions_copy _ _ _ Hin) h v c Hd)
    as (w & hn & Hw & Hdj & E).
  exists w, hn. split; [done|]. split; [done|].
  split; [by eapply deep_pointer_nil|]. split; intros h' Hs; by eapply deep_mono.
Qed.

(** An object that a generated function [DeepCopyObject] returns is nil exactly
    when there was nothing to copy: a nil pointer is not wrapped. *)
Theorem DeepCopyObject_nil n t f h v c :
  (n, t, f) ∈ deepcopy_objects -> deep (TPointer t) h v = Some c ->
  exists o hn, f v h = Some (o, h ∪ hn) /\ hn ##ₘ h /\
    match o with
    | None => v = Nil
    | Some (t', w) => v <> Nil /\ t' = t /\ deep (TPointer t) hn w = Some c
    end.
Proof.
  intros Hin Hd. destruct (deepcopy_objects_copy _ _ _ Hin) as (g & Hg & ->).
  destruct (returns_copy_DeepCopy t g Hg h v c Hd) as (w & hn & Hw & Hdj & E).
  unfold DeepCopyObject, mbind. rewrite E.
  exists (match w with Nil => None | w => Some (t, w) end), hn.
  split; [by destruct w|]. split; [done|]. pose proof (deep_pointer_nil _ _ _ _ _ _ Hd Hw) as Hnil.
  destruct w; naive_solver.
Qed.
End safety.

(** ** An instance *)

(** Types of the shape of those of the libraries; all copies are made by
    [deep_copy]. *)
Definition some_TypeMeta : gotype := TStruct [("Kind", TBasic KString); ("APIVersion", TBasic KString)].
Definition some_OwnerReference : gotype :=
  TStruct [("Name", TBasic KString); ("Controller", TPointer (TBasic KBool))].
Definition some_ObjectMeta : gotype :=
  TStruct [("Name", TBasic KString); ("DeletionTimestamp", TPointer (TBasic KInt));
    ("Labels", TMap KString); ("OwnerReferences", TSlice some_OwnerReference);
    ("Finalizers", TSlice (TBasic KString))].
Definition some_ListMeta : gotype :=
  TStruct [("ResourceVersion", TBasic KString); ("RemainingItemCount", TPointer (TBasic KInt))].
Definition some_Condition : gotype :=
  TStruct [("Type", TBasic KString); ("Status", TBasic KString); ("LastTransitionTime", TBasic KInt)].
Definition some_Container : gotype := TStruct [("Name", TBasic KString); ("Args", TSlice (TBasic KString))].
Definition some_Volume : gotype :=
  TStruct [("Name", TBasic KString); ("EmptyDir", TPointer (TStruct [("Medium", TBasic KString)]))].
Definition some_Reference : gotype := TStruct [("Name", TBasic KString)].
Definition some_Requirements : gotype := TStruct [("Limits", TMap KInt); ("Requests", TMap KInt)].
Definition some_Projection : gotype :=
  TStruct [("Audience", TBasic KString); ("ExpirationSeconds", TPointer (TBasic KInt))].

#[export] Instance some_machinery : ApiMachinery := {|
  TypeMeta := some_TypeMeta; ObjectMeta := some_ObjectMeta; ListMeta := some_ListMeta;
  Condition := some_Condition; Time := TBasic KInt; Container := some_Container; Volume := some_Volume;
  LocalObjectReference := some_Reference; ObjectReference := some_Reference;
  ResourceRequirements := some_Requirements; ServiceAccountTokenProjection := some_Projection;
  ObjectMeta_DeepCopyInto := deep_copy some_ObjectMeta; ListMeta_DeepCopyInto := deep_copy some_ListMeta;
  Condition_DeepCopyInto := deep_copy some_Condition; Container_DeepCopyInto := deep_copy some_Container;
  Volume_DeepCopyInto := deep_copy some_Volume;
  ResourceRequirements_DeepCopyInto := deep_copy some_Requirements;
  ServiceAccountTokenProjection_DeepCopyInto := deep_copy some_Projection;
  Time_DeepCopy := DeepCopy (TBasic KInt) assign
|}.

#[export] Instance some_laws : DeepCopyLaws.
Proof.
  split; try done; try (by apply deep_copy_copies). by apply returns_copy_DeepCopy, copies_assign.
Qed.

(** A pipeline with a label, a finalizer and a time to live, as it lies in the
    cell 1. *)
Definition some_ref : value := StructOf [("Name", Scalar (SString "ref")); ("Kind", Scalar (SString ""));
  ("Parameters", Nil)].
Definition some_pipeline : value := StructOf
  [("TypeMeta", zero some_TypeMeta);
   ("ObjectMeta", StructOf [("Name", Scalar (SString "p")); ("DeletionTimestamp", Nil); ("Labels", MapOf 2);
      ("OwnerReferences", Nil); ("Finalizers", SliceOf 3 1 1)]);
   ("Spec", StructOf [("DownloaderRef", some_ref); ("ProfileRef", some_ref); ("Target", zero Target);
      ("ServiceAccountName", Scalar (SString "")); ("RuntimeClassName", Nil);
      ("TTLSecondsAfterFinished", Pointer (mkPlace 4 [])); ("TTLSecondsMaxLifetime", Pointer (mkPlace 4 []));
      ("Parameters", Nil); ("Resources", Nil)]);
   ("Status", zero PipelineStatus)].
Definition some_heap : heap :=
  list_to_map [(1%positive, some_pipeline);
    (2%positive, StructOf [("team", Scalar (SString "a"))]);
    (3%positive, ArrayOf [Scalar (SString "x"); Scalar (SString "metrics")]);
    (4%positive, Scalar (SInt 60))].
Definition some_content : content := default CNil (deep (TPointer Pipeline) some_heap (Pointer (mkPlace 1 []))).

Lemma DeepCopy_shares_nothing_witness :
  exists w hn, Pipeline_DeepCopy (Pointer (mkPlace 1 [])) some_heap = Some (w, some_heap ∪ hn) /\
    (forall h', hn ⊆ h' -> deep (TPointer Pipeline) h' w = Some some_content).
Proof.
  destruct (DeepCopy_shares_nothing "Pipeline" Pipeline Pipeline_DeepCopyInto some_heap
    (Pointer (mkPlace 1 [])) some_content) as (w & hn & E & _ & _ & Hw & _).
  - by apply (list_elem_of_lookup_2 _ 36).
  - vm_compute. reflexivity.
  - exists w, hn. split; [exact E|exact Hw].
Defined.

Lemma DeepCopyObject_nil_witness :
  exists o hn, Pipeline_DeepCopyObject (Pointer (mkPlace 1 [])) some_heap = Some (o, some_heap ∪ hn) /\ o <> None.
Proof.
  destruct (DeepCopyObject_nil "Pipeline" Pipeline Pipeline_DeepCopyObject some_heap
    (Pointer (mkPlace 1 [])) some_content) as (o & hn & E & _ & Ho).
  - by apply (list_elem_of_lookup_2 _ 12).
  - vm_compute. reflexivity.
  - exists o, hn. split; [exact E|]. intros ->. discriminate Ho.
Defined.

(** A reconciler takes a copy as the base of its patch and then changes the
    pipeline: with a shallow copy the base would change too, and the patch
    would be empty. *)
Definition clear_finalizers (p : place) : M unit :=
  fs <-- read (p.@"ObjectMeta".@"Finalizers");
  match fs with
  | SliceOf l off _ => write (mkPlace l [Index off]) (Scalar (SString ""))
  | _ => panic
  end.

Definition change_after (copy : place -> place -> M unit) : option (option content * option content) :=
  let p := mkPlace 1 [] in
  match (base <-- DeepCopy Pipeline copy (Pointer p); clear_finalizers p ;;; mret base) some_heap with
  | Some (base, h) => Some (deep (TPointer Pipeline) h base, deep (TPointer Pipeline) h (Pointer p))
  | None => None
  end.

Lemma patch_base_stays :
  (exists new, change_after Pipeline_DeepCopyInto = Some (Some some_content, Some new) /\ new <> some_content) /\
  (exists new, change_after assign = Some (Some new, Some new) /\ new <> some_content).
Proof.
  split; (eexists; split; [vm_compute; reflexivity|]); vm_compute; congruence.
Qed.
