(* ===== verification/K8s.v ===== *)
(** * The Kubernetes objects the program builds and reads

    The structs of [k8s.io/api] and [k8s.io/apimachinery] are not part of the
    repository.  A record here has the fields the program reads or writes and
    one field [.._rest] for all the others, which the program only carries
    along; its value is not interpreted.  A pointer that may be nil is an
    [option]; the zero value of a string-typed enumeration is a constructor
    of its own. *)

From Stdlib Require Import ZArith String.
From S2P Require Import Prelude GoStd.

Local Open Scope string_scope.
Local Open Scope list_scope.

(** The fields of a struct the program neither reads nor writes. *)
Definition Rest : Type := string.

(** ** Metadata *)

Record OwnerReference := mkOwnerReference {
  OR_APIVersion : string;
  OR_Kind : string;
  OR_Name : string;
  OR_UID : string;
  OR_Controller : option bool
}.
#[export] Instance OwnerReference_eq_dec : EqDecision OwnerReference.
Proof. solve_decision. Defined.

Record ObjectMeta := mkObjectMeta {
  Name : string;
  GenerateName : string;
  Namespace : string;
  UID : string;
  Labels : gmap string string;
  Annotations : gmap string string;
  CreationTimestamp : Time;
  DeletionTimestamp : option Time;
  Finalizers : list string;
  OwnerReferences : list OwnerReference
}.
#[export] Instance ObjectMeta_eq_dec : EqDecision ObjectMeta.
Proof. solve_decision. Defined.

(** A metadata value with every field at its Go zero value. *)
Definition zero_ObjectMeta : ObjectMeta :=
  mkObjectMeta "" "" "" "" ∅ ∅ zero_time None [] [].

Definition meta_named (name namespace : string) : ObjectMeta :=
  mkObjectMeta name "" namespace "" ∅ ∅ zero_time None [] [].

Definition with_labels (m : ObjectMeta) (ls : gmap string string) : ObjectMeta :=
  mkObjectMeta (Name m) (GenerateName m) (Namespace m) (UID m) ls (Annotations m)
    (CreationTimestamp m) (DeletionTimestamp m) (Finalizers m) (OwnerReferences m).
Definition with_annotations (m : ObjectMeta) (xs : gmap string string) : ObjectMeta :=
  mkObjectMeta (Name m) (GenerateName m) (Namespace m) (UID m) (Labels m) xs
    (CreationTimestamp m) (DeletionTimestamp m) (Finalizers m) (OwnerReferences m).
Definition with_finalizers (m : ObjectMeta) (fs : list string) : ObjectMeta :=
  mkObjectMeta (Name m) (GenerateName m) (Namespace m) (UID m) (Labels m) (Annotations m)
    (CreationTimestamp m) (DeletionTimestamp m) fs (OwnerReferences m).
Definition with_owner_references (m : ObjectMeta) (os : list OwnerReference) : ObjectMeta :=
  mkObjectMeta (Name m) (GenerateName m) (Namespace m) (UID m) (Labels m) (Annotations m)
    (CreationTimestamp m) (DeletionTimestamp m) (Finalizers m) os.

(** [t.IsZero()] on a [*metav1.Time]: nil or the zero time. *)
Definition ptime_is_zero (t : option Time) : bool :=
  match t with Some t => time_is_zero t | None => true end.

Inductive ConditionStatus := ConditionTrue | ConditionFalse | ConditionUnknown | ConditionStatusEmpty.
#[export] Instance ConditionStatus_eq_dec : EqDecision ConditionStatus.
Proof. solve_decision. Defined.

Record Condition := mkCondition {
  Cond_Type : string;
  Cond_Status : ConditionStatus;
  Cond_Reason : string;
  Cond_Message : string;
  Cond_LastTransitionTime : Time
}.
#[export] Instance Condition_eq_dec : EqDecision Condition.
Proof. solve_decision. Defined.

(** [corev1.ObjectReference], as far as the API server needs it to find the
    object. *)
Record ObjectReference := mkObjectReference {
  Ref_Kind : string;
  Ref_Namespace : string;
  Ref_Name : string;
  Ref_UID : string
}.

(** ** Pods *)

Inductive EnvVarSource :=
| FieldRef (path : string)
| OtherEnvVarSource (rest : Rest).
#[export] Instance EnvVarSource_eq_dec : EqDecision EnvVarSource.
Proof. solve_decision. Defined.

Record EnvVar := mkEnvVar {
  Env_Name : string;
  Env_Value : string;
  Env_ValueFrom : option EnvVarSource
}.
#[export] Instance EnvVar_eq_dec : EqDecision EnvVar.
Proof. solve_decision. Defined.

(** An environment variable with a literal value. *)
Definition env_value (name value : string) : EnvVar := mkEnvVar name value None.
(** An environment variable read from a field of the pod. *)
Definition env_field (name path : string) : EnvVar := mkEnvVar name "" (Some (FieldRef path)).

Record VolumeMount := mkVolumeMount {
  VM_Name : string;
  VM_MountPath : string;
  VM_rest : Rest
}.
#[export] Instance VolumeMount_eq_dec : EqDecision VolumeMount.
Proof. solve_decision. Defined.

Definition volume_mount (name path : string) : VolumeMount := mkVolumeMount name path "".

Inductive VolumeSource :=
| EmptyDir
| DownwardAPI (items : list (string * string))  (* path, field path *)
| OtherVolumeSource (rest : Rest).
#[export] Instance VolumeSource_eq_dec : EqDecision VolumeSource.
Proof. solve_decision. Defined.

Record Volume := mkVolume {
  Vol_Name : string;
  Vol_Source : VolumeSource
}.
#[export] Instance Volume_eq_dec : EqDecision Volume.
Proof. solve_decision. Defined.

Record LocalObjectReference := mkLocalObjectReference { LOR_Name : string }.
#[export] Instance LocalObjectReference_eq_dec : EqDecision LocalObjectReference.
Proof. solve_decision. Defined.

Record ResourceRequirements := mkResourceRequirements {
  Limits : list (string * string);
  Requests : list (string * string);
  RR_rest : Rest
}.
#[export] Instance ResourceRequirements_eq_dec : EqDecision ResourceRequirements.
Proof. solve_decision. Defined.

Record Capabilities := mkCapabilities {
  Cap_Add : list string;
  Cap_Drop : list string
}.
#[export] Instance Capabilities_eq_dec : EqDecision Capabilities.
Proof. solve_decision. Defined.

Record SeccompProfile := mkSeccompProfile {
  Seccomp_Type : string;
  Seccomp_LocalhostProfile : option string
}.
#[export] Instance SeccompProfile_eq_dec : EqDecision SeccompProfile.
Proof. solve_decision. Defined.

Record SecurityContext := mkSecurityContext {
  SC_RunAsNonRoot : option bool;
  SC_AllowPrivilegeEscalation : option bool;
  SC_Capabilities : option Capabilities;
  SC_SeccompProfile : option SeccompProfile;
  SC_rest : Rest
}.
#[export] Instance SecurityContext_eq_dec : EqDecision SecurityContext.
Proof. solve_decision. Defined.

Definition zero_SecurityContext : SecurityContext := mkSecurityContext None None None None "".

Record Container := mkContainer {
  C_Name : string;
  C_Image : string;
  C_ImagePullPolicy : string;
  C_Command : list string;
  C_Args : list string;
  C_WorkingDir : string;
  C_Env : list EnvVar;
  C_VolumeMounts : list VolumeMount;
  C_SecurityContext : option SecurityContext;
  C_Resources : ResourceRequirements;
  C_rest : Rest
}.
#[export] Instance Container_eq_dec : EqDecision Container.
Proof. solve_decision. Defined.

Definition zero_ResourceRequirements : ResourceRequirements := mkResourceRequirements [] [] "".
Definition zero_Container : Container :=
  mkContainer "" "" "" [] [] "" [] [] None zero_ResourceRequirements "".

Definition with_c_name (c : Container) (n : string) : Container :=
  mkContainer n (C_Image c) (C_ImagePullPolicy c) (C_Command c) (C_Args c) (C_WorkingDir c)
    (C_Env c) (C_VolumeMounts c) (C_SecurityContext c) (C_Resources c) (C_rest c).
Definition with_c_command (c : Container) (cmd args : list string) : Container :=
  mkContainer (C_Name c) (C_Image c) (C_ImagePullPolicy c) cmd args (C_WorkingDir c)
    (C_Env c) (C_VolumeMounts c) (C_SecurityContext c) (C_Resources c) (C_rest c).
Definition with_c_working_dir (c : Container) (d : string) : Container :=
  mkContainer (C_Name c) (C_Image c) (C_ImagePullPolicy c) (C_Command c) (C_Args c) d
    (C_Env c) (C_VolumeMounts c) (C_SecurityContext c) (C_Resources c) (C_rest c).
Definition with_c_env (c : Container) (env : list EnvVar) : Container :=
  mkContainer (C_Name c) (C_Image c) (C_ImagePullPolicy c) (C_Command c) (C_Args c) (C_WorkingDir c)
    env (C_VolumeMounts c) (C_SecurityContext c) (C_Resources c) (C_rest c).
Definition with_c_mounts (c : Container) (ms : list VolumeMount) : Container :=
  mkContainer (C_Name c) (C_Image c) (C_ImagePullPolicy c) (C_Command c) (C_Args c) (C_WorkingDir c)
    (C_Env c) ms (C_SecurityContext c) (C_Resources c) (C_rest c).
Definition with_c_security (c : Container) (sc : option SecurityContext) : Container :=
  mkContainer (C_Name c) (C_Image c) (C_ImagePullPolicy c) (C_Command c) (C_Args c) (C_WorkingDir c)
    (C_Env c) (C_VolumeMounts c) sc (C_Resources c) (C_rest c).

Inductive PodPhase :=
| PodPending | PodRunning | PodSucceeded | PodFailed | PodUnknown | PodPhaseEmpty.
#[export] Instance PodPhase_eq_dec : EqDecision PodPhase.
Proof. solve_decision. Defined.

(** A container status: its name and, when the container has terminated, its
    exit code ([State.Terminated] is nil otherwise). *)
Record ContainerStatus := mkContainerStatus {
  CS_Name : string;
  CS_Terminated : option Z
}.
#[export] Instance ContainerStatus_eq_dec : EqDecision ContainerStatus.
Proof. solve_decision. Defined.

Record PodSpec := mkPodSpec {
  PS_Volumes : list Volume;
  PS_InitContainers : list Container;
  PS_Containers : list Container;
  PS_ServiceAccountName : string;
  PS_RuntimeClassName : option string;
  PS_RestartPolicy : string;
  PS_ImagePullSecrets : list LocalObjectReference;
  PS_Resources : option ResourceRequirements;
  PS_rest : Rest
}.
#[export] Instance PodSpec_eq_dec : EqDecision PodSpec.
Proof. solve_decision. Defined.

Record PodStatus := mkPodStatus {
  Pod_Phase : PodPhase;
  InitContainerStatuses : list ContainerStatus;
  ContainerStatuses : list ContainerStatus
}.
#[export] Instance PodStatus_eq_dec : EqDecision PodStatus.
Proof. solve_decision. Defined.

Record Pod := mkPod {
  Pod_Meta : ObjectMeta;
  Pod_Spec : PodSpec;
  Pod_Status : PodStatus
}.
#[export] Instance Pod_eq_dec : EqDecision Pod.
Proof. solve_decision. Defined.

Definition zero_PodSpec : PodSpec := mkPodSpec [] [] [] "" None "" [] None "".
Definition zero_PodStatus : PodStatus := mkPodStatus PodPhaseEmpty [] [].
Definition pod_named (name namespace : string) : Pod :=
  mkPod (meta_named name namespace) zero_PodSpec zero_PodStatus.

(** ** Service accounts and role bindings *)

Record ServiceAccount := mkServiceAccount { SA_Meta : ObjectMeta; SA_rest : Rest }.

Record RoleRef := mkRoleRef { RR_APIGroup : string; RR_Kind : string; RR_Name : string }.
Record Subject := mkSubject { Sub_Kind : string; Sub_Name : string; Sub_Namespace : string }.
Record RoleBinding := mkRoleBinding {
  RB_Meta : ObjectMeta;
  RB_RoleRef : RoleRef;
  RB_Subjects : list Subject
}.
