(* ===== verification/Api.v ===== *)
(** * The API types (api/v1beta1)

    The custom resources, the parts of them that a specification or a status
    holds, and the constants of the package. *)

From Stdlib Require Import ZArith String.
From S2P Require Import Prelude GoStd K8s.

Local Open Scope string_scope.
Local Open Scope list_scope.

(** ** Constants (groupversion_info.go, common.go, pipeline_types.go,
       search_types.go, environment_variables.go) *)

Definition Group : string := "ocular.crashoverride.run".
Definition Version : string := "v1beta1".
(** [GroupVersion.String()]. *)
Definition GroupVersion : string := Group +:+ "/" +:+ Version.

Definition CompletedSuccessfullyConditionType : string := "Complete".
Definition StartedConditionType : string := "Started".
Definition TypeLabelKey : string := Group +:+ "/type".
Definition PipelinePodType : string := "pipeline".
Definition SearchPodType : string := "search".
Definition SearchServiceAccountType : string := "search".
Definition SearchRoleBindingType : string := "search".

Definition PipelineResultsDirectory : string := "/mnt/results".
Definition PipelineMetadataDirectory : string := "/mnt/metadata".
Definition PipelineTargetDirectory : string := "/mnt/target".
Definition PipelineLabelKey : string := Group +:+ "/pipeline".
Definition ProfileLabelKey : string := Group +:+ "/profile".
Definition DownloaderLabelKey : string := Group +:+ "/downloader".
Definition PipelineScanPodCreatedConditionType : string := "PipelineScanPodCreated".
Definition PipelineCompletedSuccessfullyConditionType : string := "PipelineCompletedSuccessful".

Definition SearchLabelKey : string := Group +:+ "/search".
Definition CrawlerLabelKey : string := Group +:+ "/crawler".
Definition PipelineTemplateAnnotation : string := Group +:+ "/pipelineTemplate.json".
Definition TTLSecondsAnnotation : string := Group +:+ "/ttlSecondsAfterFinished".
Definition ServiceAccountNameAnnotation : string := Group +:+ "/serviceAccount".
Definition ScheduledByLabelKey : string := Group +:+ "/scheduledBy".

Definition EnvVarNamespaceName : string := "OCULAR_NAMESPACE_NAME".
Definition EnvVarPodName : string := "OCULAR_POD_NAME".
Definition EnvVarContainerName : string := "OCULAR_CONTAINER_NAME".
Definition EnvVarTargetIdentifier : string := "OCULAR_TARGET_IDENTIFIER".
Definition EnvVarTargetVersion : string := "OCULAR_TARGET_VERSION".
Definition EnvVarDownloaderName : string := "OCULAR_DOWNLOADER_NAME".
Definition EnvVarProfileName : string := "OCULAR_PROFILE_NAME".
Definition EnvVarPipelineName : string := "OCULAR_PIPELINE_NAME".
Definition EnvVarTargetDir : string := "OCULAR_TARGET_DIR".
Definition EnvVarResultsDir : string := "OCULAR_RESULTS_DIR".
Definition EnvVarMetadataDir : string := "OCULAR_METADATA_DIR".
Definition EnvVarUploaderName : string := "OCULAR_UPLOADER_NAME".
Definition EnvVarSearchName : string := "OCULAR_SEARCH_NAME".
Definition EnvVarCrawlerName : string := "OCULAR_CRAWLER_NAME".
Definition EnvVarPipelineFIFO : string := "OCULAR_PIPELINE_FIFO".
Definition EnvVarSearchFIFO : string := "OCULAR_SEARCH_FIFO".
Definition EnvVarPipelineTemplatePath : string := "OCULAR_PIPELINE_TEMPLATE".
Definition EnvVarPipelineSchedulerIntervalSeconds : string := "OCULAR_PIPELINE_SCHEDULER_INTERVAL_SEC".
Definition EnvVarProcessDir : string := "OCULAR_PROCESS_DIR".
Definition EnvVarSidecarPath : string := "OCULAR_SIDECAR_PATH".
Definition EnvVarSchedulerPath : string := "OCULAR_SCHEDULER_PATH".
Definition EnvVarScanContainerNames : string := "OCULAR_SCAN_CONTAINER_NAMES".
Definition EnvVarSchedulerSearchTTL : string := "OCULAR_SCHEDULER_TTL".
Definition EnvVarSchedulerServiceAccount : string := "OCULAR_SCHEDULER_SERVICEACCOUNT".
Definition EnvVarSchedulerParentUID : string := "OCULAR_SCHEDULER_PARENT_UID".

(** ** Targets, parameters and references (common.go) *)

Record Target := mkTarget { Identifier : string; TargetVersion : string }.
#[export] Instance Target_eq_dec : EqDecision Target.
Proof. solve_decision. Defined.

Record ParameterSource := mkParameterSource { ParentParam : string }.
#[export] Instance ParameterSource_eq_dec : EqDecision ParameterSource.
Proof. solve_decision. Defined.

Record ParameterSetting := mkParameterSetting {
  Set_Name : string;
  Set_Value : string;
  Set_ValueFrom : option ParameterSource
}.
#[export] Instance ParameterSetting_eq_dec : EqDecision ParameterSetting.
Proof. solve_decision. Defined.

Record ParameterizedLocalObjectReference := mkReference {
  Ref_name : string;
  Ref_kind : string;
  Ref_Parameters : list ParameterSetting
}.
#[export] Instance ParameterizedLocalObjectReference_eq_dec : EqDecision ParameterizedLocalObjectReference.
Proof. solve_decision. Defined.

Record ContainerCondition := mkContainerCondition { WhenParamSet : string }.

Record ParameterDefinition := mkParameterDefinition {
  Def_Name : string;
  Def_Description : string;
  Def_Default : option string
}.
#[export] Instance ParameterDefinition_eq_dec : EqDecision ParameterDefinition.
Proof. solve_decision. Defined.

(** ** Specifications of the resources a pipeline or search refers to *)

Record ConditionalContainer := mkConditionalContainer {
  CC_Container : Container;
  CC_IncludeIf : option ContainerCondition
}.

Record ProfileSpec := mkProfileSpec {
  Prof_Containers : list ConditionalContainer;
  Prof_Artifacts : list string;
  Prof_Volumes : list Volume;
  Prof_UploaderRefs : list ParameterizedLocalObjectReference;
  Prof_Parameters : list ParameterDefinition;
  Prof_ImagePullSecrets : list LocalObjectReference
}.

Record DownloaderSpec := mkDownloaderSpec {
  Down_Container : Container;
  Down_Volumes : list Volume;
  Down_MetadataFiles : list string;
  Down_Parameters : list ParameterDefinition;
  Down_ImagePullSecrets : list LocalObjectReference
}.

Record UploaderSpec := mkUploaderSpec {
  Up_Container : Container;
  Up_Volumes : list Volume;
  Up_Parameters : list ParameterDefinition;
  Up_ImagePullSecrets : list LocalObjectReference
}.

Record CrawlerSpec := mkCrawlerSpec {
  Crawl_Container : Container;
  Crawl_Volumes : list Volume;
  Crawl_Parameters : list ParameterDefinition;
  Crawl_ImagePullSecrets : list LocalObjectReference
}.

Definition zero_ProfileSpec : ProfileSpec := mkProfileSpec [] [] [] [] [] [].
Definition zero_DownloaderSpec : DownloaderSpec := mkDownloaderSpec zero_Container [] [] [] [].
Definition zero_UploaderSpec : UploaderSpec := mkUploaderSpec zero_Container [] [] [].
Definition zero_CrawlerSpec : CrawlerSpec := mkCrawlerSpec zero_Container [] [] [].

(** The resources themselves.  Their statuses hold only conditions that no
    code of the repository reads or writes. *)
Record Profile := mkProfile { Profile_Meta : ObjectMeta; Profile_Spec : ProfileSpec }.
Record Downloader := mkDownloader { Downloader_Meta : ObjectMeta; Downloader_Spec : DownloaderSpec }.
Record ClusterDownloader := mkClusterDownloader {
  ClusterDownloader_Meta : ObjectMeta; ClusterDownloader_Spec : DownloaderSpec }.
Record Uploader := mkUploader { Uploader_Meta : ObjectMeta; Uploader_Spec : UploaderSpec }.
Record ClusterUploader := mkClusterUploader {
  ClusterUploader_Meta : ObjectMeta; ClusterUploader_Spec : UploaderSpec }.
Record Crawler := mkCrawler { Crawler_Meta : ObjectMeta; Crawler_Spec : CrawlerSpec }.
Record ClusterCrawler := mkClusterCrawler {
  ClusterCrawler_Meta : ObjectMeta; ClusterCrawler_Spec : CrawlerSpec }.

(** ** Pipelines (pipeline_types.go) *)

Record PipelineSpec := mkPipelineSpec {
  PipeS_DownloaderRef : ParameterizedLocalObjectReference;
  PipeS_ProfileRef : ParameterizedLocalObjectReference;
  PipeS_Target : Target;
  PipeS_ServiceAccountName : string;
  PipeS_RuntimeClassName : option string;
  PipeS_TTLSecondsAfterFinished : option Z;   (* *int32 *)
  PipeS_TTLSecondsMaxLifetime : option Z;     (* *int32 *)
  PipeS_Parameters : list ParameterDefinition;
  PipeS_Resources : option ResourceRequirements
}.
#[export] Instance PipelineSpec_eq_dec : EqDecision PipelineSpec.
Proof. solve_decision. Defined.

Inductive PipelinePhase :=
| PipelinePending | PipelineDownloading | PipelineScanning | PipelineUploading
| PipelineSucceeded | PipelineFailed | PipelineStateUnknown
| PipelinePhaseEmpty.   (* the zero value *)
#[export] Instance PipelinePhase_eq_dec : EqDecision PipelinePhase.
Proof. solve_decision. Defined.

(** [string(phase)]. *)
Definition phase_string (p : PipelinePhase) : string :=
  match p with
  | PipelinePending => "Pending"
  | PipelineDownloading => "Downloading"
  | PipelineScanning => "Scanning"
  | PipelineUploading => "Uploading"
  | PipelineSucceeded => "Succeeded"
  | PipelineFailed => "Failed"
  | PipelineStateUnknown => "Unknown"
  | PipelinePhaseEmpty => ""
  end.

Inductive PipelineStageStatus :=
| PipelineStageNotStarted | PipelineStageInProgress | PipelineStageCompleted
| PipelineStageFailed | PipelineStageSkipped
| PipelineStageEmpty.   (* the zero value *)
#[export] Instance PipelineStageStatus_eq_dec : EqDecision PipelineStageStatus.
Proof. solve_decision. Defined.

Record PipelineStageStatuses := mkStageStatuses {
  DownloadStatus : PipelineStageStatus;
  ScanStatus : PipelineStageStatus;
  UploadStatus : PipelineStageStatus
}.
#[export] Instance PipelineStageStatuses_eq_dec : EqDecision PipelineStageStatuses.
Proof. solve_decision. Defined.

Record PipelineStatus := mkPipelineStatus {
  PipeSt_Conditions : list Condition;
  PipeSt_StartTime : option Time;
  PipeSt_CompletionTime : option Time;
  PipeSt_Phase : PipelinePhase;
  PipeSt_StageStatuses : PipelineStageStatuses
}.
#[export] Instance PipelineStatus_eq_dec : EqDecision PipelineStatus.
Proof. solve_decision. Defined.

Record Pipeline := mkPipeline {
  Pipeline_Meta : ObjectMeta;
  Pipeline_Spec : PipelineSpec;
  Pipeline_Status : PipelineStatus
}.
#[export] Instance Pipeline_eq_dec : EqDecision Pipeline.
Proof. solve_decision. Defined.

(** ** Searches (search_types.go) *)

Record PipelineTemplate := mkPipelineTemplate {
  PT_Meta : ObjectMeta;
  PT_Spec : PipelineSpec
}.
#[export] Instance PipelineTemplate_eq_dec : EqDecision PipelineTemplate.
Proof. solve_decision. Defined.

Record SearchSchedulerSpec := mkSearchSchedulerSpec {
  Sched_PipelineTemplate : PipelineTemplate;
  Sched_IntervalSeconds : option Z   (* *int32 *)
}.

Record SearchSpec := mkSearchSpec {
  SearchS_CrawlerRef : ParameterizedLocalObjectReference;
  SearchS_TTLSecondsAfterFinished : option Z;   (* *int32 *)
  SearchS_ServiceAccountName : string;
  SearchS_RuntimeClassName : option string;
  SearchS_Scheduler : SearchSchedulerSpec;
  SearchS_Resources : option ResourceRequirements
}.

Record SearchStatus := mkSearchStatus {
  SearchSt_Conditions : list Condition;
  SearchSt_StartTime : option Time;
  SearchSt_CompletionTime : option Time;
  SearchSt_CronSearchControllerName : option string
}.

Record Search := mkSearch {
  Search_Meta : ObjectMeta;
  Search_Spec : SearchSpec;
  Search_Status : SearchStatus
}.

(** ** Cron searches (cronsearch_types.go) *)

Record SearchTemplateSpec := mkSearchTemplateSpec {
  ST_Meta : ObjectMeta;
  ST_Spec : SearchSpec
}.

Inductive ConcurrencyPolicy :=
| AllowConcurrent | ForbidConcurrent | ReplaceConcurrent
| ConcurrencyPolicyEmpty.   (* the zero value *)
#[export] Instance ConcurrencyPolicy_eq_dec : EqDecision ConcurrencyPolicy.
Proof. solve_decision. Defined.

Record CronSearchSpec := mkCronSearchSpec {
  CronS_SearchTemplate : SearchTemplateSpec;
  CronS_Schedule : string;
  CronS_Suspend : option bool;
  CronS_SuccessfulJobsHistoryLimit : option Z;   (* *int32 *)
  CronS_FailedJobsHistoryLimit : option Z;       (* *int32 *)
  CronS_ConcurrencyPolicy : ConcurrencyPolicy;
  CronS_StartingDeadlineSeconds : option Z       (* *int64 *)
}.

Record CronSearchStatus := mkCronSearchStatus {
  CronSt_Active : list ObjectReference;
  CronSt_LastScheduleTime : option Time;
  CronSt_Conditions : list Condition
}.

Record CronSearch := mkCronSearch {
  CronSearch_Meta : ObjectMeta;
  CronSearch_Spec : CronSearchSpec;
  CronSearch_Status : CronSearchStatus
}.

(** ** Zero values *)

Definition zero_Reference : ParameterizedLocalObjectReference := mkReference "" "" [].
Definition zero_PipelineSpec : PipelineSpec :=
  mkPipelineSpec zero_Reference zero_Reference (mkTarget "" "") "" None None None [] None.
Definition zero_PipelineStatus : PipelineStatus :=
  mkPipelineStatus [] None None PipelinePhaseEmpty
    (mkStageStatuses PipelineStageEmpty PipelineStageEmpty PipelineStageEmpty).
Definition zero_SearchSpec : SearchSpec :=
  mkSearchSpec zero_Reference None "" None
    (mkSearchSchedulerSpec (mkPipelineTemplate zero_ObjectMeta zero_PipelineSpec) None) None.
Definition zero_SearchStatus : SearchStatus := mkSearchStatus [] None None None.
