(* ===== verification/Client.v ===== *)
(** * Errors and effects

    The program talks to the Kubernetes API server through the
    controller-runtime client, reads the clock and updates Prometheus metrics.
    None of these is code of the repository, so a controller is modelled as a
    program over their operations ([prog]): a tree that branches on every
    answer an operation can give, failures included.  A property proved with
    [always] therefore holds whatever the API server, the clock and the other
    clients of the cluster do; where the code relies on documented behaviour
    of an operation, the property says so in a hypothesis on the answers.
    [run] executes a program against a handler, for concrete inputs. *)

From Stdlib Require Import ZArith Lia String.
From S2P Require Import Prelude Effects GoStd K8s Api.

Local Open Scope string_scope.
Local Open Scope list_scope.

(** ** Field errors (package field of apimachinery) *)

Inductive PathElem := Child (name : string) | Index (i : nat).
Definition FieldPath : Type := list PathElem.   (* outermost element first *)

Inductive BadValue :=
| BadString (s : string)
| BadStrings (l : list string)
| BadReference (r : ParameterizedLocalObjectReference)
| BadParameters (l : list ParameterSetting)
| BadSetting (s : ParameterSetting)
| BadInt (z : Z)
| BadSchedule.

Inductive FieldErrorType := ErrorTypeInvalid | ErrorTypeNotFound | ErrorTypeDuplicate.

Record FieldError := mkFieldError {
  FE_Type : FieldErrorType;
  FE_Field : FieldPath;
  FE_BadValue : BadValue;
  FE_Detail : string
}.

Definition field_invalid (p : FieldPath) (v : BadValue) (detail : string) : FieldError :=
  mkFieldError ErrorTypeInvalid p v detail.
Definition field_not_found (p : FieldPath) (v : BadValue) : FieldError :=
  mkFieldError ErrorTypeNotFound p v "".
Definition field_duplicate (p : FieldPath) (v : BadValue) : FieldError :=
  mkFieldError ErrorTypeDuplicate p v "".

(** ** Errors *)

Inductive GoError :=
| APINotFound                                  (* reason NotFound *)
| APIAlreadyExists                             (* reason AlreadyExists *)
| APIError (reason : string)                   (* any other failure of a call *)
| InvalidObjectReference (message : string)    (* resources.InvalidObjectReference *)
| StatusInvalid (kind name : string) (errs : list FieldError)     (* apierrors.NewInvalid *)
| StatusForbidden (resource name : string) (reason : string)      (* apierrors.NewForbidden *)
| StatusInternalError (err : GoError)          (* apierrors.NewInternalError *)
| ErrorString (message : string)               (* an error that wraps no other *)
| Wrapped (message : string) (err : GoError)   (* fmt.Errorf("message: %w", err) *)
| NilDereference.                              (* the panic of a nil pointer *)

(** [apierrors.IsNotFound] and [apierrors.IsAlreadyExists] look through
    wrapped errors, as does [errors.As]. *)
Fixpoint is_not_found (e : GoError) : bool :=
  match e with APINotFound => true | Wrapped _ e => is_not_found e | _ => false end.
Fixpoint is_already_exists (e : GoError) : bool :=
  match e with APIAlreadyExists => true | Wrapped _ e => is_already_exists e | _ => false end.
Fixpoint as_invalid_reference (e : GoError) : option string :=
  match e with
  | InvalidObjectReference m => Some m
  | Wrapped _ e => as_invalid_reference e
  | _ => None
  end.

(** [client.IgnoreNotFound] and [client.IgnoreAlreadyExists] on a possibly
    nil error. *)
Definition ignore_not_found (e : option GoError) : option GoError :=
  match e with Some e => if is_not_found e then None else Some e | None => None end.
Definition ignore_already_exists (e : option GoError) : option GoError :=
  match e with Some e => if is_already_exists e then None else Some e | None => None end.

(** The error of a call whose value is not used. *)
Definition err_of {A} (r : result GoError A) : option GoError :=
  match r with Ok _ => None | Err e => Some e end.

(** ** The objects a client handles *)

Inductive Kind :=
| KPipeline | KProfile | KDownloader | KClusterDownloader | KUploader | KClusterUploader
| KCrawler | KClusterCrawler | KSearch | KCronSearch | KPod | KServiceAccount | KRoleBinding.
#[export] Instance Kind_eq_dec : EqDecision Kind.
Proof. solve_decision. Defined.

Definition obj (k : Kind) : Type :=
  match k with
  | KPipeline => Pipeline
  | KProfile => Profile
  | KDownloader => Downloader
  | KClusterDownloader => ClusterDownloader
  | KUploader => Uploader
  | KClusterUploader => ClusterUploader
  | KCrawler => Crawler
  | KClusterCrawler => ClusterCrawler
  | KSearch => Search
  | KCronSearch => CronSearch
  | KPod => Pod
  | KServiceAccount => ServiceAccount
  | KRoleBinding => RoleBinding
  end.

Definition meta_of (k : Kind) : obj k -> ObjectMeta :=
  match k with
  | KPipeline => Pipeline_Meta
  | KProfile => Profile_Meta
  | KDownloader => Downloader_Meta
  | KClusterDownloader => ClusterDownloader_Meta
  | KUploader => Uploader_Meta
  | KClusterUploader => ClusterUploader_Meta
  | KCrawler => Crawler_Meta
  | KClusterCrawler => ClusterCrawler_Meta
  | KSearch => Search_Meta
  | KCronSearch => CronSearch_Meta
  | KPod => Pod_Meta
  | KServiceAccount => SA_Meta
  | KRoleBinding => RB_Meta
  end.

(** The namespaced name of an object; a cluster-scoped object has the empty
    namespace. *)
Record ObjectKey := mkObjectKey { Key_Namespace : string; Key_Name : string }.
#[export] Instance ObjectKey_eq_dec : EqDecision ObjectKey.
Proof. solve_decision. Defined.

Definition key_of (k : Kind) (o : obj k) : ObjectKey :=
  mkObjectKey (Namespace (meta_of k o)) (Name (meta_of k o)).

(** [client.ListOptions]: the empty namespace lists all of them. *)
Record ListOptions := mkListOptions {
  LO_Namespace : string;
  LO_LabelSelector : option (string * string);
  LO_FieldSelector : option (string * string)
}.
Definition in_namespace (ns : string) : ListOptions := mkListOptions ns None None.

(** [controllerutil.OperationResult]. *)
Inductive OperationResult :=
| OperationResultNone | OperationResultCreated | OperationResultUpdated.
#[export] Instance OperationResult_eq_dec : EqDecision OperationResult.
Proof. solve_decision. Defined.

(** ** Metrics *)

Inductive Metric :=
| pipelinesCompleted | pipelinesRunning | pipelinePodsCreated | pipelineDurationSeconds
| searchPodsCreated | searchDurationSeconds.
#[export] Instance Metric_eq_dec : EqDecision Metric.
Proof. solve_decision. Defined.

(** The label names a metric is declared with; [With] panics on a set of
    labels with other names. *)
Definition metric_label_names (m : Metric) : gset string :=
  match m with
  | pipelinesCompleted | pipelineDurationSeconds =>
      {["profile"; "downloader"; "namespace"; "phase"]}
  | pipelinesRunning | pipelinePodsCreated => {["profile"; "downloader"; "namespace"]}
  | searchPodsCreated | searchDurationSeconds => {["crawler"; "namespace"]}
  end.

(** [m.With(labels).Add(n)] ([Inc] and [Dec] are [Add(1)] and [Add(-1)]) and
    [m.With(labels).Observe(d.Seconds())]. *)
Inductive MetricOp :=
| MetricAdd (n : Z)
| MetricObserve (d : Duration).

(** ** Programs *)

(** The operations, each indexed by the type of its answer. *)
Inductive Op : Type -> Type :=
| Get (k : Kind) (key : ObjectKey) : Op (result GoError (obj k))
| ListObjects (k : Kind) (opts : ListOptions) : Op (result GoError (list (obj k)))
| Create (k : Kind) (o : obj k) : Op (result GoError (obj k))
(** [controllerutil.CreateOrUpdate(ctx, c, o, mutate)] *)
| CreateOrUpdate (k : Kind) (o : obj k) (mutate : obj k -> result GoError (obj k)) :
    Op (result GoError (obj k * OperationResult))
(** [c.Patch(ctx, o, client.MergeFrom(orig))]; the answer is the object as
    the server returns it *)
| Patch (k : Kind) (orig o : obj k) : Op (result GoError (obj k))
| StatusPatch (k : Kind) (orig o : obj k) : Op (result GoError (obj k))
| StatusUpdate (k : Kind) (o : obj k) : Op (result GoError (obj k))
| Delete (k : Kind) (o : obj k) : Op (result GoError unit)
| Now : Op Time
| UpdateMetric (m : Metric) (labels : gmap string string) (op : MetricOp) : Op unit.

(** A program over these operations, its events, and what executes it. *)
Notation prog := (free Op).
Notation Event := (event_of Op).
Notation handler := (handler_of Op).

#[export] Instance Op_answerable : Answerable Op.
Proof. intros X e. destruct e; first [exact (Err APINotFound)|exact 0|exact tt]. Defined.

(** The answers that report a failure; the clock and the metrics do not fail. *)
Definition call_error {X} (e : Op X) : X -> Prop :=
  match e in Op X return X -> Prop with
  | Get _ _ | ListObjects _ _ | Create _ _ | CreateOrUpdate _ _ _ | Patch _ _ _
  | StatusPatch _ _ _ | StatusUpdate _ _ | Delete _ _ => fun x => exists err, x = Err err
  | Now | UpdateMetric _ _ _ => fun _ => False
  end.

(** Reads of the API server and of the clock. *)
Definition is_read (v : Event) : Prop :=
  match v with
  | event (Get _ _) _ | event (ListObjects _ _) _ | event Now _ => True
  | _ => False
  end.

(** The label names of a metric update are the declared ones. *)
Definition metric_labels_ok (v : Event) : Prop :=
  match v with
  | event (UpdateMetric m labels _) _ => dom labels = metric_label_names m
  | _ => True
  end.

(** *** The writes to the objects of a kind *)

Definition of_kind {F : Kind -> Type} {k : Kind} (k' : Kind) (x : F k) : option (F k') :=
  match decide (k = k') with
  | left H => Some (eq_rect k F x k' H)
  | right _ => None
  end.

Arguments of_kind {F k} !k' x /.

Lemma of_kind_same {F : Kind -> Type} k (x : F k) : of_kind k x = Some x.
Proof. by destruct k. Qed.

(** An object before and after a write, and the answer of the server. *)
Record Write (k : Kind) := mkWrite {
  write_from : obj k;
  write_to : obj k;
  write_answer : result GoError (obj k)
}.
Arguments mkWrite {k} write_from write_to write_answer.
Arguments write_from {k} w.
Arguments write_to {k} w.
Arguments write_answer {k} w.

(** The answer to the reading, and the patch, the patch of the status, the
    update of the status and the deletion of an object of kind [k], if the event is one. *)
Definition get_of (k : Kind) (v : Event) : option (result GoError (obj k)) :=
  match v with
  | event e x =>
      match e in Op X return X -> option (result GoError (obj k)) with
      | Get k' _ => fun r => of_kind (F := fun k => result GoError (obj k)) k r
      | _ => fun _ => None
      end x
  end.

Definition patch_of (k : Kind) (v : Event) : option (Write k) :=
  match v with
  | event e x =>
      match e in Op X return X -> option (Write k) with
      | Patch k' orig o => fun r => of_kind k (mkWrite orig o r)
      | _ => fun _ => None
      end x
  end.

Definition status_patch_of (k : Kind) (v : Event) : option (Write k) :=
  match v with
  | event e x =>
      match e in Op X return X -> option (Write k) with
      | StatusPatch k' orig o => fun r => of_kind k (mkWrite orig o r)
      | _ => fun _ => None
      end x
  end.

Definition status_update_of (k : Kind) (v : Event) : option (obj k * result GoError (obj k)) :=
  match v with
  | event e x =>
      match e in Op X return X -> option (obj k * result GoError (obj k)) with
      | StatusUpdate k' o => fun r =>
          of_kind (F := fun k => (obj k * result GoError (obj k))%type) k (o, r)
      | _ => fun _ => None
      end x
  end.

Definition create_of (k : Kind) (v : Event) : option (obj k) :=
  match v with
  | event e x =>
      match e in Op X return X -> option (obj k) with
      | Create k' o => fun _ => of_kind k o
      | _ => fun _ => None
      end x
  end.

Definition list_of (k : Kind) (v : Event) : option (result GoError (list (obj k))) :=
  match v with
  | event e x =>
      match e in Op X return X -> option (result GoError (list (obj k))) with
      | ListObjects k' _ => fun r => of_kind (F := fun k => result GoError (list (obj k))) k r
      | _ => fun _ => None
      end x
  end.

Definition delete_of (k : Kind) (v : Event) : option (obj k * result GoError unit) :=
  match v with
  | event e x =>
      match e in Op X return X -> option (obj k * result GoError unit) with
      | Delete k' o => fun r => match of_kind k o with Some o => Some (o, r) | None => None end
      | _ => fun _ => None
      end x
  end.

(** *** Conditions on an event and the last reading of the clock before it *)

Definition clock_of (v : Event) : option Time :=
  match v with
  | event e x =>
      match e in Op X return X -> option Time with Now => fun t => Some t | _ => fun _ => None end x
  end.

Definition last_clock (last : option Time) (v : Event) : option Time :=
  match clock_of v with Some t => Some t | None => last end.

Fixpoint with_clock (P : option Time -> Event -> Prop) (last : option Time)
    (tr : list Event) : Prop :=
  match tr with
  | [] => True
  | v :: tr => P last v /\ with_clock P (last_clock last v) tr
  end.

Lemma with_clock_app P last tr tr' :
  with_clock P last tr -> (forall last', with_clock P last' tr') -> with_clock P last (tr ++ tr').
Proof. revert last; induction tr as [|v tr IH]; intros last; simpl; intuition. Qed.

Lemma with_clock_bind {A B} (P : option Time -> Event -> Prop) (p : prog A) (f : A -> prog B) last :
  all_events (fun v => forall last, P last v) p ->
  (forall a last, always (f a) (fun tr _ => with_clock P last tr)) ->
  always (bind p f) (fun tr _ => with_clock P last tr).
Proof.
  intros Hp Hf. apply always_bind. eapply always_impl; [apply Hp|].
  intros tr a Htr. rewrite always_path. intros tr' b Hpath. apply with_clock_app.
  - clear Hpath. revert last. induction Htr; intros last; simpl; auto.
  - intros last'. specialize (Hf a last'). rewrite always_path in Hf. eauto.
Qed.

Lemma with_clock_all_events {A} (P : option Time -> Event -> Prop) (p : prog A) last :
  all_events (fun v => forall last, P last v) p -> always p (fun tr _ => with_clock P last tr).
Proof.
  intros Hp. eapply always_impl; [apply Hp|]. intros tr a Htr. cbv beta in Htr. revert last.
  induction Htr; intros last; simpl; auto.
Qed.

(** ** The helpers of controller-runtime

    [controllerutil] edits finalizers and owner references; its documented
    behaviour is the laws of this class. *)
Class ControllerUtil : Type := {
  ContainsFinalizer : ObjectMeta -> string -> bool;
  AddFinalizer : ObjectMeta -> string -> ObjectMeta;
  RemoveFinalizer : ObjectMeta -> string -> ObjectMeta;
  (** [ctrl.SetControllerReference(owner, object, scheme)], given the kind of
      the owner in the scheme. *)
  SetControllerReference : string -> ObjectMeta -> ObjectMeta -> result GoError ObjectMeta;
  (** [Rfc3339Copy]: the time with the precision of its wire format. *)
  Rfc3339Copy : Time -> Time;
  ContainsFinalizer_iff m f : ContainsFinalizer m f = true <-> f ∈ Finalizers m;
  AddFinalizer_elem m f g : g ∈ Finalizers (AddFinalizer m f) <-> g = f \/ g ∈ Finalizers m;
  AddFinalizer_only m f : AddFinalizer m f = with_finalizers m (Finalizers (AddFinalizer m f));
  RemoveFinalizer_elem m f g :
    g ∈ Finalizers (RemoveFinalizer m f) <-> g <> f /\ g ∈ Finalizers m;
  RemoveFinalizer_only m f :
    RemoveFinalizer m f = with_finalizers m (Finalizers (RemoveFinalizer m f));
  SetControllerReference_only kind owner m m' :
    SetControllerReference kind owner m = Ok m' ->
    m' = with_owner_references m (OwnerReferences m') /\
    exists ref, ref ∈ OwnerReferences m' /\ OR_Kind ref = kind /\ OR_Name ref = Name owner /\
      OR_UID ref = UID owner /\ OR_Controller ref = Some true;
  (** An object of the owner's namespace that has no owner gets just this one. *)
  SetControllerReference_fresh kind owner m :
    OwnerReferences m = [] -> Namespace m = Namespace owner ->
    SetControllerReference kind owner m = Ok (with_owner_references m
      [mkOwnerReference GroupVersion kind (Name owner) (UID owner) (Some true)]);
  (** One whose only owner is this one is left as it is. *)
  SetControllerReference_again kind owner m :
    OwnerReferences m = [mkOwnerReference GroupVersion kind (Name owner) (UID owner) (Some true)] ->
    Namespace m = Namespace owner -> SetControllerReference kind owner m = Ok m
}.

(** An implementation of the class, to run the controllers on concrete
    objects. *)
Definition set_controller_reference (kind : string) (owner m : ObjectMeta) :
    result GoError ObjectMeta :=
  let ref := mkOwnerReference GroupVersion kind (Name owner) (UID owner) (Some true) in
  match List.find (fun r => bool_decide (OR_Controller r = Some true)) (OwnerReferences m) with
  | Some r =>
      if String.eqb (OR_UID r) (UID owner)
      then Ok (with_owner_references m (ref ::
             List.filter (fun r => negb (String.eqb (OR_UID r) (UID owner))) (OwnerReferences m)))
      else Err (ErrorString "already owned by another controller")
  | None => Ok (with_owner_references m (OwnerReferences m ++ [ref]))
  end.

#[refine] Definition controller_util_model : ControllerUtil := {|
  ContainsFinalizer m f := bool_decide (f ∈ Finalizers m);
  AddFinalizer m f :=
    if bool_decide (f ∈ Finalizers m) then m else with_finalizers m (Finalizers m ++ [f]);
  RemoveFinalizer m f :=
    with_finalizers m (List.filter (fun g => negb (String.eqb g f)) (Finalizers m));
  SetControllerReference := set_controller_reference;
  Rfc3339Copy := truncate_to_second
|}.
Proof.
  - intros m f. apply bool_decide_eq_true.
  - intros m f g. case_bool_decide as Hin; [split; [by right|by intros [->|?]]|].
    simpl. rewrite elem_of_app, list_elem_of_singleton. tauto.
  - intros m f. case_bool_decide; by destruct m.
  - intros m f g. simpl. rewrite !list_elem_of_In, filter_In, negb_true_iff, String.eqb_neq. tauto.
  - done.
  - intros kind owner m m' H. unfold set_controller_reference in H.
    destruct (List.find _ _); [destruct (String.eqb _ _); [|done]|];
      injection H as <-; (split; [done|]);
      exists (mkOwnerReference GroupVersion kind (Name owner) (UID owner) (Some true));
      (split; [|done]); simpl.
    + apply elem_of_cons. by left.
    + apply elem_of_app. right. by apply list_elem_of_singleton.
  - intros kind owner m Hm _. unfold set_controller_reference. by rewrite Hm.
  - intros kind owner m Hm _. unfold set_controller_reference. rewrite Hm. simpl.
    rewrite String.eqb_refl. simpl. destruct m; simpl in *; by subst.
Defined.
