(* ===== verification/Scheme.v ===== *)
(** * The scheme and the configuration of the generated client (api/v1beta1/groupversion_info.go, pkg/generated/clientset)

    Which Go types the packages register with a [runtime.Scheme], as programs
    over the calls of the scheme; the configuration of a REST client; and the
    part of the generated clients that only selects and wraps: the accessors and
    the client of each kind.  The calls that make the clients are in Clientset. *)

From Stdlib Require Import ZArith String.
From Stdlib Require Import SpecFloat.
From S2P Require Import Prelude Effects GoStd K8s Api Client.

Local Open Scope string_scope.
Local Open Scope Z_scope.
Local Open Scope list_scope.
Local Open Scope prog_scope.

(** [schema.GroupVersion]. *)
Record SchemaGroupVersion := mkSchemaGroupVersion { GV_Group : string; GV_Version : string }.

Definition SchemeGroupVersion : SchemaGroupVersion := mkSchemaGroupVersion Group Version.

#[export] Instance SchemaGroupVersion_eq_dec : EqDecision SchemaGroupVersion.
Proof. solve_decision. Defined.

(** ** Registration *)

(** The calls on a [runtime.Scheme]; a Go type is named. *)
Inductive SchemeOp : Type -> Type :=
| AddKnownTypes (gv : SchemaGroupVersion) (types : list string) : SchemeOp unit
| AddToGroupVersion (gv : SchemaGroupVersion) : SchemeOp unit.

Notation scheme_prog := (free SchemeOp (option GoError)).

(** [runtime.SchemeBuilder], a list of functions, and its method [AddToScheme],
    documented to apply them in order up to the first error. *)
Definition SchemeBuilder : Type := list scheme_prog.

Class SchemeBuilderMethods := { AddToScheme : SchemeBuilder -> scheme_prog }.

Class SchemeBuilderLaws `{SchemeBuilderMethods} := {
  AddToScheme_nil : AddToScheme [] = Ret None;
  AddToScheme_cons f b :
    AddToScheme (f :: b) =
      let* err := f in match err with Some e => Ret (Some e) | None => AddToScheme b end
}.

(** The function an [init] registers for the type [kind]. *)
Definition register_kind (kind : string) : scheme_prog :=
  let* _ := op (AddKnownTypes SchemeGroupVersion [kind; kind +:+ "List"]) in Ret None.

(** [SchemeBuilder] as package v1beta1 declares it, and each file's [init]. *)
Definition declared_builder : SchemeBuilder :=
  [let* _ := op (AddToGroupVersion SchemeGroupVersion) in Ret None].
Definition init_ClusterCrawler (b : SchemeBuilder) := b ++ [register_kind "ClusterCrawler"].
Definition init_ClusterDownloader (b : SchemeBuilder) := b ++ [register_kind "ClusterDownloader"].
Definition init_ClusterUploader (b : SchemeBuilder) := b ++ [register_kind "ClusterUploader"].
Definition init_Crawler (b : SchemeBuilder) := b ++ [register_kind "Crawler"].
Definition init_CronSearch (b : SchemeBuilder) := b ++ [register_kind "CronSearch"].
Definition init_Downloader (b : SchemeBuilder) := b ++ [register_kind "Downloader"].
Definition init_Pipeline (b : SchemeBuilder) := b ++ [register_kind "Pipeline"].
Definition init_Profile (b : SchemeBuilder) := b ++ [register_kind "Profile"].
Definition init_Search (b : SchemeBuilder) := b ++ [register_kind "Search"].
Definition init_Uploader (b : SchemeBuilder) := b ++ [register_kind "Uploader"].

(** The initialisers of a package run before anything that imports it, one
    after the other, the files in the order of their names. *)
Definition initialised_builder : SchemeBuilder :=
  init_Uploader (init_Search (init_Profile (init_Pipeline (init_Downloader (init_CronSearch
    (init_Crawler (init_ClusterUploader (init_ClusterDownloader (init_ClusterCrawler
      declared_builder))))))))).

Section registration.
Context `{!SchemeBuilderMethods}.

(** The local builder of the package scheme. *)
Definition localSchemeBuilder : SchemeBuilder := [AddToScheme initialised_builder].

(** [init] of the package scheme; [None] when [utilruntime.Must] panics. *)
Definition init_scheme : free SchemeOp (option unit) :=
  let* _ := op (AddToGroupVersion (mkSchemaGroupVersion "" "v1")) in
  let* err := AddToScheme localSchemeBuilder in
  match err with Some _ => Ret None | None => Ret (Some tt) end.

(** The types a path registers by name; what [AddToGroupVersion] adds of the
    package meta/v1 is not counted. *)
Definition types_added (v : event_of SchemeOp) : list (SchemaGroupVersion * string) :=
  match v with
  | event e _ => match e with AddKnownTypes gv types => pair gv <$> types | _ => [] end
  end.
Definition registered (tr : list (event_of SchemeOp)) : list (SchemaGroupVersion * string) :=
  tr ≫= types_added.

(** [init] of the manager (cmd/controller/main.go); the types of client-go are
    registered by its own builder. *)
Definition init_manager (clientgoscheme_AddToScheme : scheme_prog) : free SchemeOp (option unit) :=
  let* err := clientgoscheme_AddToScheme in
  match err with
  | Some _ => Ret None
  | None =>
      let* err := AddToScheme initialised_builder in
      match err with Some _ => Ret None | None => Ret (Some tt) end
  end.
End registration.

(** ** The configuration of a client *)

(** A rate limiter, an HTTP client, a REST client, a discovery client: objects
    of client-go, told apart by an identity. *)
Definition RateLimiter : Type := Z.
Definition HttpClient : Type := Z.
Definition RESTClient : Type := Z.
Definition DiscoveryClient : Type := Z.

(** The serializer that client-go makes for generated clients from the scheme
    and the codecs of the package scheme. *)
Inductive Serializer := CodecFactoryForGeneratedClient_WithoutConversion.

(** [rest.Config]: what the generated code reads or sets of it, and the rest. *)
Record ClientConfig := mkClientConfig {
  Config_APIPath : string;
  Config_GroupVersion : option SchemaGroupVersion;
  Config_NegotiatedSerializer : option Serializer;
  Config_UserAgent : string;
  Config_RateLimiter : option RateLimiter;
  Config_QPS : spec_float;        (* a float32 *)
  Config_Burst : Z;
  Config_rest : Rest
}.

Definition with_UserAgent (c : ClientConfig) (agent : string) : ClientConfig :=
  mkClientConfig (Config_APIPath c) (Config_GroupVersion c) (Config_NegotiatedSerializer c) agent
    (Config_RateLimiter c) (Config_QPS c) (Config_Burst c) (Config_rest c).
Definition with_RateLimiter (c : ClientConfig) (limiter : RateLimiter) : ClientConfig :=
  mkClientConfig (Config_APIPath c) (Config_GroupVersion c) (Config_NegotiatedSerializer c)
    (Config_UserAgent c) (Some limiter) (Config_QPS c) (Config_Burst c) (Config_rest c).
Definition with_api_defaults (c : ClientConfig) : ClientConfig :=
  mkClientConfig "/apis" (Some SchemeGroupVersion)
    (Some CodecFactoryForGeneratedClient_WithoutConversion) (Config_UserAgent c)
    (Config_RateLimiter c) (Config_QPS c) (Config_Burst c) (Config_rest c).

(** The comparison of float32 numbers: a NaN is not greater than zero. *)
Definition qps_positive (c : ClientConfig) : bool := SFltb (S754_zero false) (Config_QPS c).

(** ** The client of the API group (typed/api/v1beta1/api_client.go) *)

(** [ApiV1beta1Client]; a [nil] interface or pointer is [None]. *)
Record ApiV1beta1Client := mkApiV1beta1Client { restClient : option RESTClient }.

Definition ApiV1beta1_New (c : option RESTClient) : ApiV1beta1Client := mkApiV1beta1Client c.

(** The method is made for a [nil] receiver too. *)
Definition ApiV1beta1Client_RESTClient (c : option ApiV1beta1Client) : option RESTClient :=
  match c with None => None | Some c => restClient c end.

(** [gentype.ClientWithList]: the path of the resource below that of the API
    group, the client the requests go through, the namespace, and the types of
    the objects and lists that are decoded; its parameter codec is that of the
    package scheme. *)
Record ClientWithList := mkClientWithList {
  Typed_resource : string;
  Typed_client : option RESTClient;
  Typed_namespace : string;
  Typed_newObject : string;
  Typed_newList : string
}.

Section getters.
Variable c : option ApiV1beta1Client.
Variable namespace : string.
Notation rest := (ApiV1beta1Client_RESTClient c).

Definition newCrawlers := mkClientWithList "crawlers" rest namespace "Crawler" "CrawlerList".
Definition newCronSearches := mkClientWithList "cronsearches" rest namespace "CronSearch" "CronSearchList".
Definition newDownloaders := mkClientWithList "downloaders" rest namespace "Downloader" "DownloaderList".
Definition newPipelines := mkClientWithList "pipelines" rest namespace "Pipeline" "PipelineList".
Definition newProfiles := mkClientWithList "profiles" rest namespace "Profile" "ProfileList".
Definition newSearches := mkClientWithList "searches" rest namespace "Search" "SearchList".
Definition newUploaders := mkClientWithList "uploaders" rest namespace "Uploader" "UploaderList".

Definition Crawlers := newCrawlers.
Definition CronSearches := newCronSearches.
Definition Downloaders := newDownloaders.
Definition Pipelines := newPipelines.
Definition Profiles := newProfiles.
Definition Searches := newSearches.
Definition Uploaders := newUploaders.

(** [ApiV1beta1Interface]: the getters it embeds. *)
Definition typed_clients : list ClientWithList :=
  [Crawlers; CronSearches; Downloaders; Pipelines; Profiles; Searches; Uploaders].
End getters.

(** ** The set of clients (clientset.go) *)

Record Clientset := mkClientset {
  Clientset_DiscoveryClient : option DiscoveryClient;
  Clientset_apiV1beta1 : option ApiV1beta1Client
}.

(** [None]: the panic of a [nil] receiver. *)
Definition ApiV1beta1 (c : option Clientset) : option (option ApiV1beta1Client) :=
  Clientset_apiV1beta1 <$> c.
Definition Discovery (c : option Clientset) : option DiscoveryClient :=
  match c with None => None | Some c => Clientset_DiscoveryClient c end.

(** ** What is registered *)

Section registered_types.
Context `{SchemeBuilderLaws}.

Definition registers (f : scheme_prog) (types : list (SchemaGroupVersion * string)) : Prop :=
  always f (fun tr err => err = None /\ registered tr = types).

Lemma AddToScheme_registers b types :
  Forall2 registers b types -> registers (AddToScheme b) (concat types).
Proof.
  induction 1 as [|f ts b types Hf _ IH]; [by rewrite AddToScheme_nil|].
  rewrite AddToScheme_cons. apply always_bind. eapply always_impl; [exact Hf|].
  intros tr err [-> Htr]. eapply always_impl; [exact IH|]. intros tr' err' [-> Htr'].
  split; [done|]. unfold registered in *. by rewrite bind_app, Htr, Htr'.
Qed.

Lemma register_kind_registers kind :
  registers (register_kind kind) [(SchemeGroupVersion, kind); (SchemeGroupVersion, kind +:+ "List")].
Proof. by intros []. Qed.

(** Registering never fails, and registers the ten kinds of the API with their
    lists, each once. *)
Lemma init_scheme_registers :
  always init_scheme (fun tr res =>
    res = Some tt /\
    registered tr = kind ← ["ClusterCrawler"; "ClusterDownloader"; "ClusterUploader"; "Crawler"; "CronSearch";
                            "Downloader"; "Pipeline"; "Profile"; "Search"; "Uploader"];
                    [(SchemeGroupVersion, kind); (SchemeGroupVersion, kind +:+ "List")]).
Proof.
  intros []. simpl. apply always_bind. eapply always_impl.
  { eapply AddToScheme_registers. constructor; [|constructor].
    eapply AddToScheme_registers. constructor; [by intros []; split|].
    repeat (constructor; [apply register_kind_registers|]). constructor. }
  intros tr err [-> Htr]. split; [done|]. simpl. rewrite app_nil_r. exact Htr.
Qed.

(** The types of the API, as the builder registers them. *)
Definition api_types : list (SchemaGroupVersion * string) :=
  kind ← ["ClusterCrawler"; "ClusterDownloader"; "ClusterUploader"; "Crawler"; "CronSearch";
          "Downloader"; "Pipeline"; "Profile"; "Search"; "Uploader"];
  [(SchemeGroupVersion, kind); (SchemeGroupVersion, kind +:+ "List")].

(** The manager knows what client-go registers and the types of the API; it
    panics only when client-go fails to register its own. *)
Lemma init_manager_registers clientgoscheme_AddToScheme (known : list (SchemaGroupVersion * string)) :
  always clientgoscheme_AddToScheme (fun tr err => err = None -> registered tr = known) ->
  always (init_manager clientgoscheme_AddToScheme) (fun tr res =>
    match res with
    | Some _ => registered tr = known ++ api_types
    | None => exists err, path clientgoscheme_AddToScheme tr (Some err)
    end).
Proof.
  intros Hknown. apply always_bind. rewrite always_path in *. intros tr err Hpath.
  specialize (Hknown tr err Hpath). destruct err as [e|]; [simpl; rewrite app_nil_r; eauto|].
  apply always_bind. eapply always_impl.
  { eapply (AddToScheme_registers initialised_builder). constructor; [by intros []; split|].
    repeat (constructor; [apply register_kind_registers|]). constructor. }
  intros tr' err [-> Htr']. simpl. rewrite app_nil_r. unfold registered in *.
  rewrite bind_app, (Hknown eq_refl), Htr'. reflexivity.
Qed.

(** What a typed client decodes is registered with its scheme, once. *)
Lemma typed_clients_registered c namespace :
  always init_scheme (fun tr _ =>
    NoDup (registered tr) /\
    Forall (fun t => (SchemeGroupVersion, Typed_newObject t) ∈ registered tr /\
                     (SchemeGroupVersion, Typed_newList t) ∈ registered tr) (typed_clients c namespace)).
Proof.
  eapply always_impl; [apply init_scheme_registers|]. intros tr res [_ ->].
  split; [compute_done|].
  repeat constructor; compute_done.
Qed.
End registered_types.

(** The method as the package runtime documents it. *)
#[export] Instance documented_methods : SchemeBuilderMethods := {
  AddToScheme := fix go b :=
    match b with
    | [] => Ret None
    | f :: b => let* err := f in match err with Some e => Ret (Some e) | None => go b end
    end
}.
#[export] Instance documented_laws : SchemeBuilderLaws.
Proof. by split. Qed.
