(* ===== verification/Resources.v ===== *)
(** * Resources: references, parameters and metadata (internal/resources)

    How a reference is resolved to the resource it names, how the parameters
    of an invocation are computed, and which labels and annotations a child
    inherits; and the name of a parameter in the environment of a container
    (pkg/runtime). *)

From Stdlib Require Import ZArith Lia String Ascii.
From S2P Require Import Prelude Effects GoStd K8s Api Client.

Local Open Scope string_scope.
Local Open Scope list_scope.
Local Open Scope prog_scope.

(** ** Invocations (references.go) *)

Record Invocation (S : Type) := mkInvocation {
  Inv_Spec : S;
  Inv_Parameters : list ParameterSetting;
  Inv_Metadata : ObjectMeta
}.
Arguments mkInvocation {S}.
Arguments Inv_Spec {S}.
Arguments Inv_Parameters {S}.
Arguments Inv_Metadata {S}.

(** The zero value of [Invocation[S]]. *)
Definition zero_Invocation {S} (zero : S) : Invocation S := mkInvocation zero [] zero_ObjectMeta.

(** A resolving function returns an invocation and an error.  When [c.Get]
    fails the object it was to fill in keeps its zero value. *)
Definition get_invocation {S} (k : Kind) (key : ObjectKey) (spec : obj k -> S) (zero : S)
    (params : list ParameterSetting) : prog (Invocation S * option GoError) :=
  let* r := op (Get k key) in
  Ret match r with
      | Ok o => (mkInvocation (spec o) params (meta_of k o), None)
      | Err e => (mkInvocation zero params zero_ObjectMeta, Some e)
      end.

Definition UploaderInvocationFromReference (namespace : string)
    (ref : ParameterizedLocalObjectReference) : prog (Invocation UploaderSpec * option GoError) :=
  if (String.eqb (Ref_kind ref) "Uploader" || String.eqb (Ref_kind ref) "")%bool then
    get_invocation KUploader (mkObjectKey namespace (Ref_name ref)) Uploader_Spec
      zero_UploaderSpec (Ref_Parameters ref)
  else if String.eqb (Ref_kind ref) "ClusterUploader" then
    get_invocation KClusterUploader (mkObjectKey "" (Ref_name ref)) ClusterUploader_Spec
      zero_UploaderSpec (Ref_Parameters ref)
  else
    Ret (zero_Invocation zero_UploaderSpec,
         Some (InvalidObjectReference ("invalid kind for uploader ref '" +:+ Ref_kind ref
           +:+ "', should either be 'Uploader' or 'ClusterUploader'"))).

Definition ProfileInvocationFromReference (namespace : string)
    (ref : ParameterizedLocalObjectReference) : prog (Invocation ProfileSpec * option GoError) :=
  if (negb (String.eqb (Ref_kind ref) "Profile") && negb (String.eqb (Ref_kind ref) ""))%bool then
    Ret (zero_Invocation zero_ProfileSpec,
         Some (InvalidObjectReference ("invalid kind for crawler reference '" +:+ Ref_kind ref
           +:+ "', should either be 'Crawler' or 'ClusterCrawler'")))
  else
    get_invocation KProfile (mkObjectKey namespace (Ref_name ref)) Profile_Spec
      zero_ProfileSpec (Ref_Parameters ref).

Definition DownloaderInvocationFromReference (namespace : string)
    (ref : ParameterizedLocalObjectReference) : prog (Invocation DownloaderSpec * option GoError) :=
  if (String.eqb (Ref_kind ref) "Downloader" || String.eqb (Ref_kind ref) "")%bool then
    get_invocation KDownloader (mkObjectKey namespace (Ref_name ref)) Downloader_Spec
      zero_DownloaderSpec (Ref_Parameters ref)
  else if String.eqb (Ref_kind ref) "ClusterDownloader" then
    get_invocation KClusterDownloader (mkObjectKey "" (Ref_name ref)) ClusterDownloader_Spec
      zero_DownloaderSpec (Ref_Parameters ref)
  else
    Ret (zero_Invocation zero_DownloaderSpec,
         Some (InvalidObjectReference ("invalid kind for downloader reference '" +:+ Ref_kind ref
           +:+ "', should either be 'Downloader' or 'ClusterDownloader'"))).

Definition CrawlerInvocationFromReference (namespace : string)
    (ref : ParameterizedLocalObjectReference) : prog (Invocation CrawlerSpec * option GoError) :=
  if (String.eqb (Ref_kind ref) "Crawler" || String.eqb (Ref_kind ref) "")%bool then
    get_invocation KCrawler (mkObjectKey namespace (Ref_name ref)) Crawler_Spec
      zero_CrawlerSpec (Ref_Parameters ref)
  else if String.eqb (Ref_kind ref) "ClusterCrawler" then
    get_invocation KClusterCrawler (mkObjectKey "" (Ref_name ref)) ClusterCrawler_Spec
      zero_CrawlerSpec (Ref_Parameters ref)
  else
    Ret (zero_Invocation zero_CrawlerSpec,
         Some (InvalidObjectReference ("invalid kind for crawler reference '" +:+ Ref_kind ref
           +:+ "', should either be 'Crawler' or 'ClusterCrawler'"))).

Definition ReferenceDefaulter (ref : ParameterizedLocalObjectReference) (defaultKind : string) :
    ParameterizedLocalObjectReference :=
  if String.eqb (Ref_kind ref) "" then mkReference (Ref_name ref) defaultKind (Ref_Parameters ref)
  else ref.

(** ** Parameters (parameters.go) *)

(** The first loop: every defined parameter, with its default or "". *)
Definition default_parameters (definitions : list ParameterDefinition) : gmap string string :=
  fold_left (fun params def =>
      match Def_Default def with
      | Some d => <[Def_Name def := d]> params
      | None => <[Def_Name def := ""]> params
      end) definitions ∅.

(** One iteration of the second loop.  [parentSettings] may be the nil map,
    which the code tests; reading an absent key gives "". *)
Definition apply_setting (parentSettings : option (gmap string string))
    (params : gmap string string) (setting : ParameterSetting) : gmap string string :=
  match params !! Set_Name setting with
  | None => params
  | Some _ =>
      match Set_ValueFrom setting, parentSettings with
      | Some src, Some parent =>
          <[Set_Name setting := default "" (parent !! ParentParam src)]> params
      | _, _ => <[Set_Name setting := Set_Value setting]> params
      end
  end.

Definition ParseParameters (definitions : list ParameterDefinition)
    (settings : list ParameterSetting) (parentSettings : option (gmap string string)) :
    gmap string string :=
  fold_left (apply_setting parentSettings) settings (default_parameters definitions).

(** ** Metadata propagation (metadata.go) *)

Definition excludedMetadataKeyPrefixes : list string :=
  ["kubectl.kubernetes.io/"; "app.kubernetes.io/"; "helm.sh/"; Group +:+ "/"].

Definition shouldExcludeKey (key : string) : bool :=
  existsb (fun prefix => has_prefix key prefix) excludedMetadataKeyPrefixes.

Definition PropagateMetadata (parentLabels : list (gmap string string)) : gmap string string :=
  let childLabels := fold_left maps_copy parentLabels ∅ in
  let childLabels := maps_delete_func (fun k _ => shouldExcludeKey k) childLabels in
  <["app.kubernetes.io/managed-by" := "ocular-controller"]> childLabels.

(** ** Environment variable names (pkg/runtime/parameters.go) *)

Definition is_env_char (c : ascii) : bool :=
  (byte_in 97 122 c || byte_in 65 90 c || byte_in 48 57 c || Ascii.eqb c "_")%bool.

(** The loop over the runes of the name; [skip] is the number of bytes left
    of the rune being read.  Only an ASCII byte, a rune by itself, can pass
    the test. *)
Fixpoint env_runes (skip : nat) (name : string) : string :=
  match name with
  | EmptyString => EmptyString
  | String c r =>
      match skip with
      | S skip => env_runes skip r
      | O => String (if is_env_char c then c else "_"%char) (env_runes (rune_width name - 1) r)
      end
  end.

Definition ParameterToEnvironmentVariable (name : string) : string :=
  "OCULAR_PARAM_" +:+ env_runes 0 name.

(** [os.LookupEnv] in the environment of the process. *)
Definition GetParameterFromEnvironment (env : gmap string string) (name : string) : string * bool :=
  match env !! ParameterToEnvironmentVariable name with
  | None => ("", false)
  | Some value => (value, true)
  end.

(** ** Properties of references *)

(** Resolving a reference only reads. *)
Lemma get_invocation_reads {S} k key (spec : obj k -> S) zero params :
  all_events is_read (get_invocation k key spec zero params).
Proof. simpl. intros x. repeat constructor. Qed.
Ltac resolve_reads := first [apply get_invocation_reads | by constructor].

Lemma UploaderInvocation_reads ns ref :
  all_events is_read (UploaderInvocationFromReference ns ref).
Proof. unfold UploaderInvocationFromReference. repeat case_match; resolve_reads. Qed.
Lemma ProfileInvocation_reads ns ref :
  all_events is_read (ProfileInvocationFromReference ns ref).
Proof. unfold ProfileInvocationFromReference. repeat case_match; resolve_reads. Qed.
Lemma DownloaderInvocation_reads ns ref :
  all_events is_read (DownloaderInvocationFromReference ns ref).
Proof. unfold DownloaderInvocationFromReference. repeat case_match; resolve_reads. Qed.
Lemma CrawlerInvocation_reads ns ref :
  all_events is_read (CrawlerInvocationFromReference ns ref).
Proof. unfold CrawlerInvocationFromReference. repeat case_match; resolve_reads. Qed.
#[export] Hint Resolve UploaderInvocation_reads ProfileInvocation_reads
  DownloaderInvocation_reads CrawlerInvocation_reads : ocular.

(** The webhook defaulter and the resolvers agree on what an empty kind
    means. *)
Lemma ReferenceDefaulter_resolves ns ref :
  UploaderInvocationFromReference ns (ReferenceDefaulter ref "Uploader")
    = UploaderInvocationFromReference ns ref /\
  ProfileInvocationFromReference ns (ReferenceDefaulter ref "Profile")
    = ProfileInvocationFromReference ns ref /\
  DownloaderInvocationFromReference ns (ReferenceDefaulter ref "Downloader")
    = DownloaderInvocationFromReference ns ref /\
  CrawlerInvocationFromReference ns (ReferenceDefaulter ref "Crawler")
    = CrawlerInvocationFromReference ns ref.
Proof.
  unfold ReferenceDefaulter, UploaderInvocationFromReference, ProfileInvocationFromReference,
    DownloaderInvocationFromReference, CrawlerInvocationFromReference.
  destruct (String.eqb (Ref_kind ref) "") eqn:E; [|rewrite ?E; repeat split; reflexivity].
  apply String.eqb_eq in E. rewrite E. repeat split; reflexivity.
Qed.

(** ** Properties of parameters *)

(** What the code of [ParseParameters] computes, stated without its loops:
    a name has a value exactly when it is defined, and the value is the one
    of its last setting, or of its last definition when it is not set. *)
Definition setting_value (parent : option (gmap string string)) (s : ParameterSetting) : string :=
  match Set_ValueFrom s, parent with
  | Some src, Some p => default "" (p !! ParentParam src)
  | _, _ => Set_Value s
  end.

Definition last_named {A} (name_of : A -> string) (n : string) (l : list A) : option A :=
  list.last (List.filter (fun x => String.eqb (name_of x) n) l).

Definition parameter_value (definitions : list ParameterDefinition)
    (settings : list ParameterSetting) (parent : option (gmap string string)) (n : string) :
    option string :=
  match last_named Def_Name n definitions with
  | None => None
  | Some def =>
      match last_named Set_Name n settings with
      | Some s => Some (setting_value parent s)
      | None => Some (default "" (Def_Default def))
      end
  end.

Lemma last_named_snoc {A} (name_of : A -> string) n l x :
  last_named name_of n (l ++ [x])
  = if String.eqb (name_of x) n then Some x else last_named name_of n l.
Proof.
  unfold last_named. rewrite List.filter_app. simpl.
  destruct (String.eqb (name_of x) n); [apply last_snoc|by rewrite app_nil_r].
Qed.

Lemma default_parameters_lookup defs n :
  default_parameters defs !! n
  = (fun d => default "" (Def_Default d)) <$> last_named Def_Name n defs.
Proof.
  unfold default_parameters.
  induction defs as [|d defs IH] using rev_ind; [done|].
  rewrite fold_left_app, last_named_snoc. simpl.
  destruct (String.eqb_spec (Def_Name d) n) as [<-|Hne].
  - destruct (Def_Default d) eqn:E; simpl; rewrite E; apply lookup_insert_eq.
  - destruct (Def_Default d); rewrite lookup_insert_ne by done; exact IH.
Qed.

Lemma apply_setting_lookup parent params s n :
  apply_setting parent params s !! n
  = if String.eqb (Set_Name s) n
    then (fun _ => setting_value parent s) <$> params !! n else params !! n.
Proof.
  unfold apply_setting, setting_value.
  destruct (String.eqb_spec (Set_Name s) n) as [<-|Hne].
  - destruct (params !! Set_Name s) eqn:E; simpl; [|done].
    destruct (Set_ValueFrom s), parent; apply lookup_insert_eq.
  - destruct (params !! Set_Name s); [|done].
    destruct (Set_ValueFrom s), parent; by rewrite lookup_insert_ne.
Qed.

Lemma ParseParameters_lookup definitions settings parent n :
  ParseParameters definitions settings parent !! n
  = parameter_value definitions settings parent n.
Proof.
  unfold ParseParameters, parameter_value.
  induction settings as [|s settings IH] using rev_ind; simpl.
  - rewrite default_parameters_lookup. by destruct (last_named Def_Name n definitions).
  - rewrite fold_left_app, last_named_snoc. simpl. rewrite apply_setting_lookup, IH.
    by destruct (last_named Def_Name n definitions), (String.eqb (Set_Name s) n),
      (last_named Set_Name n settings).
Qed.

(** C38: [ParseParameters] gives a value exactly to the defined parameters;
    the value is that of the last setting of the parameter - taken from the
    parent's parameters when the setting names a parent parameter and parent
    settings are given - and otherwise the default, "" when there is none.
    Settings of undefined parameters are ignored. *)
Theorem ParseParameters_correct definitions settings parent n :
  ParseParameters definitions settings parent !! n
  = parameter_value definitions settings parent n.
Proof. apply ParseParameters_lookup. Qed.

Lemma last_named_is_Some {A} (name_of : A -> string) n l :
  is_Some (last_named name_of n l) <-> exists x, x ∈ l /\ name_of x = n.
Proof.
  induction l as [|x l IH] using rev_ind.
  - split; [by intros []|]. intros (x & Hx%not_elem_of_nil & _); done.
  - rewrite last_named_snoc. destruct (String.eqb_spec (name_of x) n) as [E|E].
    + split; [|eauto]. intros _. exists x. split; [|done].
      apply elem_of_app. right. by apply list_elem_of_singleton.
    + rewrite IH. split; intros (y & Hy & <-); exists y; split; auto.
      * apply elem_of_app. by left.
      * apply elem_of_app in Hy as [?|Hy]; [done|]. by apply list_elem_of_singleton in Hy as ->.
Qed.

(** A setting is found by [last_named] only among the settings. *)
Lemma last_named_elem {A} (name_of : A -> string) n l x :
  last_named name_of n l = Some x -> x ∈ l /\ name_of x = n.
Proof.
  induction l as [|y l IH] using rev_ind; [done|].
  rewrite last_named_snoc. destruct (String.eqb_spec (name_of y) n) as [E|E].
  - intros [= <-]. split; [|done]. apply elem_of_app. right. by apply list_elem_of_singleton.
  - intros H%IH. destruct H. split; [|done]. apply elem_of_app. by left.
Qed.

(** ** Properties of environment variable names *)

Definition all_env_chars (s : string) : bool := forallb is_env_char (String.list_ascii_of_string s).

(** The pattern of [ParameterDefinition.Name]:
    [^[a-zA-Z_][a-zA-Z0-9_]*$]. *)
Definition valid_parameter_name (s : string) : bool :=
  match s with
  | EmptyString => false
  | String c _ => negb (byte_in 48 57 c) && all_env_chars s
  end.

Lemma is_env_char_ascii c : is_env_char c = true -> (nat_of_ascii c < 128)%nat.
Proof.
  unfold is_env_char, byte_in. intros H.
  destruct (Ascii.eqb c "_"%char) eqn:E.
  { apply Ascii.eqb_eq in E as ->. apply Nat.ltb_lt. reflexivity. }
  rewrite !orb_true_iff, !andb_true_iff in H. lia.
Qed.

Lemma env_runes_all_env_chars skip s : all_env_chars (env_runes skip s) = true.
Proof.
  unfold all_env_chars. revert skip; induction s as [|c s IH]; intros skip; [done|].
  destruct skip as [|skip]; [|apply IH]. cbn [env_runes].
  simpl String.list_ascii_of_string. simpl forallb. rewrite IH, andb_true_r.
  by destruct (is_env_char c) eqn:E.
Qed.

Lemma env_runes_id s : all_env_chars s = true -> env_runes 0 s = s.
Proof.
  unfold all_env_chars. induction s as [|c s IH]; [done|]. simpl forallb.
  intros [Hc Hs]%andb_true_iff. cbn [env_runes].
  rewrite Hc, (rune_width_ascii_byte c s) by (by apply is_env_char_ascii).
  simpl. by rewrite IH.
Qed.

(** Whatever the bytes of the parameter name, the name of its environment
    variable is the prefix followed by letters, digits and underscores, and
    the conversion leaves such a name alone. *)
Theorem ParameterToEnvironmentVariable_wellformed name :
  exists suffix, ParameterToEnvironmentVariable name = "OCULAR_PARAM_" +:+ suffix /\
    all_env_chars suffix = true /\ env_runes 0 suffix = suffix.
Proof.
  exists (env_runes 0 name). split; [done|].
  split; [apply env_runes_all_env_chars|apply env_runes_id, env_runes_all_env_chars].
Qed.

Lemma env_runes_valid n : valid_parameter_name n = true -> env_runes 0 n = n.
Proof.
  destruct n as [|c n]; [done|]. unfold valid_parameter_name.
  intros [_ H]%andb_true_iff. by apply env_runes_id.
Qed.

Lemma ParameterToEnvironmentVariable_neq n1 n2 :
  valid_parameter_name n1 = true -> valid_parameter_name n2 = true ->
  n1 <> n2 -> ParameterToEnvironmentVariable n1 <> ParameterToEnvironmentVariable n2.
Proof.
  intros H1 H2 Hne E. apply Hne. unfold ParameterToEnvironmentVariable in E.
  rewrite !env_runes_valid in E by done. by injection E.
Qed.

(** Two parameters with names the API accepts never share an environment
    variable. *)
Theorem ParameterToEnvironmentVariable_injective n1 n2 :
  valid_parameter_name n1 = true -> valid_parameter_name n2 = true ->
  n1 <> n2 -> ParameterToEnvironmentVariable n1 <> ParameterToEnvironmentVariable n2.
Proof. apply ParameterToEnvironmentVariable_neq. Qed.

Lemma ParameterToEnvironmentVariable_injective_witness :
  ParameterToEnvironmentVariable "git_ref" <> ParameterToEnvironmentVariable "git_Ref".
Proof.
  apply ParameterToEnvironmentVariable_injective; [vm_compute; reflexivity..|discriminate].
Defined.

(** The conversion does not change case, whatever its comment says. *)
Example ParameterToEnvironmentVariable_keeps_case :
  ParameterToEnvironmentVariable "git_ref" = "OCULAR_PARAM_git_ref".
Proof. vm_compute. reflexivity. Qed.

(** Names outside the pattern can collide. *)
Example ParameterToEnvironmentVariable_collision :
  ParameterToEnvironmentVariable "git-ref" = ParameterToEnvironmentVariable "git.ref".
Proof. vm_compute. reflexivity. Qed.

(** ** Properties of metadata propagation *)

(** The value of the last parent that has the key. *)
Definition last_parent_value (parents : list (gmap string string)) (k : string) : option string :=
  list.last (omap (fun m : gmap string string => m !! k) parents).

Lemma fold_maps_copy_lookup (parents : list (gmap string string)) k :
  fold_left maps_copy parents ∅ !! k = last_parent_value parents k.
Proof.
  unfold last_parent_value.
  induction parents as [|m parents IH] using rev_ind; [done|].
  rewrite fold_left_app, omap_app. simpl. rewrite lookup_maps_copy, IH.
  destruct (m !! k); simpl; [by rewrite last_snoc|by rewrite app_nil_r].
Qed.

Lemma PropagateMetadata_lookup parents k :
  PropagateMetadata parents !! k
  = if decide (k = "app.kubernetes.io/managed-by") then Some "ocular-controller"
    else if shouldExcludeKey k then None else last_parent_value parents k.
Proof.
  unfold PropagateMetadata. rewrite lookup_insert.
  destruct (decide (k = "app.kubernetes.io/managed-by")) as [->|Hne].
  { by rewrite decide_True. }
  rewrite decide_False by done. rewrite lookup_maps_delete_func, fold_maps_copy_lookup.
  by destruct (last_parent_value parents k), (shouldExcludeKey k).
Qed.

(** A child inherits exactly the keys of its parents that no prefix
    reserves, each with the value of the last parent that has it, and is
    marked as managed by the controller. *)
Theorem PropagateMetadata_correct parents k :
  PropagateMetadata parents !! k
  = if decide (k = "app.kubernetes.io/managed-by") then Some "ocular-controller"
    else if shouldExcludeKey k then None else last_parent_value parents k.
Proof. apply PropagateMetadata_lookup. Qed.

(** No label or annotation of the API group reaches a child this way. *)
Lemma PropagateMetadata_group parents suffix :
  PropagateMetadata parents !! (Group +:+ "/" +:+ suffix) = None.
Proof.
  rewrite PropagateMetadata_lookup. rewrite decide_False by done.
  assert (shouldExcludeKey (Group +:+ "/" +:+ suffix) = true) as ->; [|done].
  unfold shouldExcludeKey. rewrite existsb_exists. exists (Group +:+ "/").
  split; [simpl; tauto|]. by destruct suffix.
Qed.
