(* ===== verification/Containers.v ===== *)
(** * Containers (internal/containers)

    The options that turn the container of a resource into a container of a
    pod, the containers a profile includes conditionally, and the environment
    variables of parameters.

    An [Option] updates a container through a pointer; here it is the function
    from the container before to the container after.  The containers come
    from freshly decoded API objects, so no two of them share memory. *)

From Stdlib Require Import ZArith Lia String Ascii.
From S2P Require Import Prelude GoStd K8s Api Resources.

Local Open Scope string_scope.
Local Open Scope list_scope.

(** ** Options (options.go) *)

Definition Option : Type := Container -> Container.

Definition WithAdditionalEnvVars (envs : list EnvVar) : Option :=
  fun c => with_c_env c (C_Env c ++ envs).

Definition WithAdditionalArgs (args : list string) : Option :=
  fun c => with_c_command c (C_Command c) (C_Args c ++ args).

Definition WithNamePrefix (prefix : string) : Option :=
  fun c => with_c_name c (prefix +:+ C_Name c).

Definition WrapCommand (newEntrypoint : list string) : Option :=
  fun c => with_c_command c newEntrypoint (C_Command c ++ C_Args c).

Definition WithAdditionalVolumeMounts (mounts : list VolumeMount) : Option :=
  fun c => with_c_mounts c (C_VolumeMounts c ++ mounts).

Definition WithWorkingDir (dir : string) : Option :=
  fun c => with_c_working_dir c dir.

Definition ApplyOptionsTo (c : Container) (options : list Option) : Container :=
  fold_left (fun c option => option c) options c.

Definition ApplyOptionsToAll (containers : list Container) (options : list Option) : list Container :=
  map (fun c => ApplyOptionsTo c options) containers.

Definition WithPodSecurityStandardRestricted : Option :=
  fun c =>
    let sc := match C_SecurityContext c with Some sc => sc | None => zero_SecurityContext end in
    with_c_security c (Some (mkSecurityContext
      (SC_RunAsNonRoot sc)
      (Some false)
      (Some (mkCapabilities [] ["ALL"]))
      (Some (mkSeccompProfile "RuntimeDefault" None))
      (SC_rest sc))).

Definition WithContainerNameEnvVar : Option :=
  fun c => with_c_env c (C_Env c ++ [env_value EnvVarContainerName (C_Name c)]).

Definition ApplyStandardOptions (containers : list Container) : list Container :=
  ApplyOptionsToAll containers [WithPodSecurityStandardRestricted; WithContainerNameEnvVar].

(** ** Parameters as environment variables (parameters.go) *)

Definition ParseParameterEnvVars `{MapRange string} (definitions : list ParameterDefinition)
    (settings : list ParameterSetting) (parentSettings : option (gmap string string)) : list EnvVar :=
  let params := ParseParameters definitions settings parentSettings in
  map (fun '(param, value) => env_value (ParameterToEnvironmentVariable param) value)
    (map_range params).

Definition WithParameters `{MapRange string} (definitions : list ParameterDefinition)
    (settings : list ParameterSetting) (parent : option (gmap string string)) : Option :=
  let env := ParseParameterEnvVars definitions settings parent in
  fun c => with_c_env c (C_Env c ++ env).

(** ** Conditional containers (contiditonal.go) *)

Definition shouldInclude (includeIf : option ContainerCondition) (setParams : gmap string bool) : bool :=
  match includeIf with
  | None => true
  | Some cond =>
      if negb (String.eqb (WhenParamSet cond) "")
      then default false (setParams !! WhenParamSet cond)
      else true
  end.

(** The map of the parameters that are set: first by their defaults, then by
    the settings of the parameters that are defined. *)
Definition default_set_params (definitions : list ParameterDefinition) : gmap string bool :=
  fold_left (fun m def =>
      match Def_Default def with
      | Some d => if negb (String.eqb d "") then <[Def_Name def := true]> m
                  else <[Def_Name def := false]> m
      | None => <[Def_Name def := false]> m
      end) definitions ∅.

Definition apply_set_setting (m : gmap string bool) (setting : ParameterSetting) : gmap string bool :=
  match m !! Set_Name setting with
  | Some _ => <[Set_Name setting := negb (String.eqb (Set_Value setting) "")]> m
  | None => m
  end.

Definition set_params (definitions : list ParameterDefinition)
    (settings : list ParameterSetting) : gmap string bool :=
  fold_left apply_set_setting settings (default_set_params definitions).

Definition FilterConditionalContainers (cs : list ConditionalContainer)
    (definitions : list ParameterDefinition) (settings : list ParameterSetting) : list Container :=
  fold_left (fun result c =>
      if shouldInclude (CC_IncludeIf c) (set_params definitions settings)
      then result ++ [CC_Container c] else result) cs [].

(** ** Options: what they leave alone and what they compose to *)

(** The command line a container runs when its [command] is set: the image's
    entry point is not used then. *)
Definition argv (c : Container) : list string := C_Command c ++ C_Args c.

Lemma argv_WrapCommand entry c : argv (WrapCommand entry c) = entry ++ argv c.
Proof. done. Qed.

Lemma ApplyOptionsTo_app c o1 o2 :
  ApplyOptionsTo c (o1 ++ o2) = ApplyOptionsTo (ApplyOptionsTo c o1) o2.
Proof. apply fold_left_app. Qed.

Lemma ApplyOptionsToAll_app cs cs' os :
  ApplyOptionsToAll (cs ++ cs') os = ApplyOptionsToAll cs os ++ ApplyOptionsToAll cs' os.
Proof. apply map_app. Qed.

Lemma length_ApplyOptionsToAll cs os : length (ApplyOptionsToAll cs os) = length cs.
Proof. apply length_map. Qed.

(** The requirements of the restricted pod security standard that an option
    can meet. *)
Definition restricted (c : Container) : Prop :=
  exists sc, C_SecurityContext c = Some sc /\
    SC_AllowPrivilegeEscalation sc = Some false /\
    SC_Capabilities sc = Some (mkCapabilities [] ["ALL"]) /\
    SC_SeccompProfile sc = Some (mkSeccompProfile "RuntimeDefault" None).

(** Every container that went through [ApplyStandardOptions] is
    restricted - whatever security context it had, of which only the other
    fields are kept - and its last environment variable holds its name; its
    command line, mounts, image and name are those it had. *)
Theorem ApplyStandardOptions_spec cs i c :
  cs !! i = Some c ->
  exists c', ApplyStandardOptions cs !! i = Some c' /\ restricted c' /\
    C_Env c' = C_Env c ++ [env_value EnvVarContainerName (C_Name c)] /\
    argv c' = argv c /\ C_Name c' = C_Name c /\ C_Image c' = C_Image c /\
    C_VolumeMounts c' = C_VolumeMounts c /\
    (forall sc, C_SecurityContext c = Some sc ->
      exists sc', C_SecurityContext c' = Some sc' /\
        SC_RunAsNonRoot sc' = SC_RunAsNonRoot sc /\ SC_rest sc' = SC_rest sc).
Proof.
  intros Hc. eexists. split.
  { unfold ApplyStandardOptions, ApplyOptionsToAll. rewrite list_lookup_fmap, Hc. reflexivity. }
  split; [by eexists|]. do 5 (split; [done|]).
  intros sc Hsc. simpl. rewrite Hsc. by eexists.
Qed.

Lemma ApplyStandardOptions_spec_witness :
  let c := with_c_name zero_Container "scanner" in
  exists c', ApplyStandardOptions [c] !! 0%nat = Some c' /\ restricted c' /\
    C_Env c' = C_Env c ++ [env_value EnvVarContainerName (C_Name c)] /\
    argv c' = argv c /\ C_Name c' = C_Name c /\ C_Image c' = C_Image c /\
    C_VolumeMounts c' = C_VolumeMounts c /\
    (forall sc, C_SecurityContext c = Some sc ->
      exists sc', C_SecurityContext c' = Some sc' /\
        SC_RunAsNonRoot sc' = SC_RunAsNonRoot sc /\ SC_rest sc' = SC_rest sc).
Proof. apply (ApplyStandardOptions_spec [with_c_name zero_Container "scanner"] 0). reflexivity. Defined.

(** ** Parameters *)

(** The environment variables of the parameters are, in some order, one
    per defined parameter: the variable named after [n] with value [v] is
    there exactly when a parameter with that variable name has value [v]. *)
Theorem ParseParameterEnvVars_elem `{MapRange string} definitions settings parent e :
  e ∈ ParseParameterEnvVars definitions settings parent <->
  exists n v, parameter_value definitions settings parent n = Some v /\
    e = env_value (ParameterToEnvironmentVariable n) v.
Proof.
  unfold ParseParameterEnvVars. rewrite list_elem_of_fmap. split.
  - intros ([n v] & -> & Hin). rewrite elem_of_map_range, ParseParameters_lookup in Hin. eauto.
  - intros (n & v & Hv & ->). exists (n, v). split; [done|].
    by rewrite elem_of_map_range, ParseParameters_lookup.
Qed.

(** With the parameter names the API accepts, no variable is defined twice,
    so the order does not matter. *)
Lemma ParseParameterEnvVars_NoDup `{MapRange string} definitions settings parent :
  Forall (fun d => valid_parameter_name (Def_Name d) = true) definitions ->
  NoDup (Env_Name <$> ParseParameterEnvVars definitions settings parent).
Proof.
  intros Hvalid. unfold ParseParameterEnvVars.
  assert (Env_Name <$> map (fun '(param, value) =>
    env_value (ParameterToEnvironmentVariable param) value)
      (map_range (ParseParameters definitions settings parent))
    = ParameterToEnvironmentVariable <$> (map_range (ParseParameters definitions settings parent)).*1)
    as ->.
  { change (map ?f ?l) with (f <$> l). rewrite <-!list_fmap_compose.
    apply list_fmap_ext. by intros ? [? ?] _. }
  assert (Forall (fun n => valid_parameter_name n = true)
    (map_range (ParseParameters definitions settings parent)).*1) as Hn.
  { apply Forall_forall. intros n [[n' v] [-> Hin]]%list_elem_of_fmap.
    apply elem_of_map_range in Hin. rewrite ParseParameters_lookup in Hin.
    unfold parameter_value in Hin.
    destruct (last_named Def_Name n' definitions) as [d|] eqn:E; [|done].
    apply last_named_elem in E as [Hd <-]. rewrite Forall_forall in Hvalid. by apply Hvalid. }
  generalize (map_range_NoDup_keys (ParseParameters definitions settings parent)). revert Hn.
  generalize (map_range (ParseParameters definitions settings parent)).*1 as ns.
  induction 1 as [|n ns Hnv Hns IH]; [constructor|]. inversion_clear 1 as [|? ? Hnin Hnd].
  constructor; [|by apply IH]. intros (n' & En & Hn')%list_elem_of_fmap.
  rewrite Forall_forall in Hns.
  destruct (decide (n = n')) as [->|Hne]; [done|].
  by apply (ParameterToEnvironmentVariable_neq n n'); auto.
Qed.

(** ** Conditional containers *)

Definition nonempty (s : string) : bool := negb (String.eqb s "").

Lemma set_params_lookup definitions settings n :
  set_params definitions settings !! n
  = nonempty <$> parameter_value definitions settings None n.
Proof.
  unfold set_params. rewrite <-ParseParameters_lookup. unfold ParseParameters.
  induction settings as [|s settings IH] using rev_ind; simpl.
  - induction definitions as [|d ds IH] using rev_ind; [done|].
    unfold default_set_params, default_parameters in *. rewrite !fold_left_app. simpl.
    unfold nonempty in *.
    destruct (Def_Default d) as [v|]; [destruct (negb (String.eqb v "")) eqn:E|];
      rewrite !lookup_insert; case_decide; simpl; auto; by rewrite E.
  - rewrite !fold_left_app. simpl. rewrite apply_setting_lookup.
    unfold apply_set_setting.
    set (m := fold_left _ settings (default_set_params definitions)) in *.
    set (p := fold_left _ settings (default_parameters definitions)) in *.
    destruct (String.eqb_spec (Set_Name s) n) as [<-|Hne].
    + destruct (p !! Set_Name s) eqn:E; rewrite ?E in IH |- *; simpl in IH |- *; rewrite IH.
      * rewrite lookup_insert_eq. unfold setting_value. by destruct (Set_ValueFrom s).
      * by rewrite IH.
    + destruct (m !! Set_Name s); [by rewrite lookup_insert_ne|done].
Qed.

(** Whether a conditional container takes part in a scan, given the values of
    the profile's parameters. *)
Definition included (value : string -> option string) (c : ConditionalContainer) : bool :=
  match CC_IncludeIf c with
  | None => true
  | Some cond =>
      String.eqb (WhenParamSet cond) "" ||
      match value (WhenParamSet cond) with Some v => nonempty v | None => false end
  end.

(** The containers of a scan are, in the order of the profile, those
    without a condition and those whose parameter has a non-empty value in
    the very environment [ParseParameters] gives the scanners. *)
Theorem FilterConditionalContainers_spec cs definitions settings :
  FilterConditionalContainers cs definitions settings
  = CC_Container <$> List.filter (included (fun n => ParseParameters definitions settings None !! n)) cs.
Proof.
  unfold FilterConditionalContainers.
  enough (forall acc, fold_left (fun result c =>
      if shouldInclude (CC_IncludeIf c) (set_params definitions settings)
      then result ++ [CC_Container c] else result) cs acc
    = acc ++ (CC_Container <$>
        List.filter (included (fun n => ParseParameters definitions settings None !! n)) cs)) as H
    by apply H.
  induction cs as [|c cs IH]; intros acc; simpl; [by rewrite app_nil_r|]. rewrite IH.
  assert (shouldInclude (CC_IncludeIf c) (set_params definitions settings)
    = included (fun n => ParseParameters definitions settings None !! n) c) as ->.
  { unfold shouldInclude, included. destruct (CC_IncludeIf c) as [cond|]; [|done].
    destruct (String.eqb (WhenParamSet cond) ""); [done|]. simpl.
    rewrite set_params_lookup, ParseParameters_lookup.
    by destruct (parameter_value definitions settings None (WhenParamSet cond)). }
  destruct (included _ c); simpl; [by rewrite <-app_assoc|done].
Qed.
