(* ===== verification/Validators.v ===== *)
(** * Validators (internal/validators)

    The checks the admission webhooks run on references, containers, profiles
    and pipelines.  A check returns the list of the errors it found. *)

From Stdlib Require Import ZArith Lia String Ascii.
From S2P Require Import Prelude Effects GoStd K8s Api Client Resources Containers.

Local Open Scope string_scope.
Local Open Scope Z_scope.
Local Open Scope list_scope.
Local Open Scope prog_scope.

(** ** Name lengths *)

(** [validationutils.DNS1035LabelMaxLength]: the length of a DNS label. *)
Definition DNS1035LabelMaxLength : Z := 63.
Definition MaxPipelineNameLength : Z := DNS1035LabelMaxLength - 9.
Definition MaxContainerNameLength : Z := DNS1035LabelMaxLength - 12.

(** ** Containers (containers.go) *)

Definition ValidateContainerDefinition (fieldPath : FieldPath) (c : Container) : list FieldError :=
  let fieldErrs : list FieldError := [] in
  let fieldErrs :=
    if MaxPipelineNameLength <? len (C_Name c) then
      fieldErrs ++ [field_invalid (fieldPath ++ [Child "name"]) (BadString (C_Name c))
                      "must be no more than 51 characters"]
    else fieldErrs in
  match C_Command c with
  | [] => fieldErrs ++ [field_invalid (fieldPath ++ [Child "command"]) (BadStrings (C_Command c))
      "container command must be specified, entrypoint from image config is not used"]
  | _ => fieldErrs
  end.

(** ** Parameters (parameters.go) *)

(** A [map[string]struct{}] built from a list of names. *)
Definition name_set (names : list string) : gset string :=
  fold_left (fun s n => {[n]} ∪ s) names ∅.

Definition UndefinedParameters (params : list ParameterDefinition)
    (paramValues : list ParameterSetting) : list string :=
  let definedParams := name_set (Set_Name <$> paramValues) in
  fold_left (fun undefined param =>
      if decide (Def_Name param ∈ definedParams) then undefined
      else undefined ++ [Def_Name param]) params [].

Definition GetNewRequiredParameters `{MapRange ParameterDefinition}
    (oldParams newParams : list ParameterDefinition) : list string :=
  let newRequiredParameters :=
    fold_left (fun m paramDef =>
        match Def_Default paramDef with
        | None => <[Def_Name paramDef := paramDef]> m
        | Some _ => m
        end) newParams ∅ in
  let newRequiredParameters :=
    fold_left (fun m oldParamDef =>
        match Def_Default oldParamDef with
        | None => delete (Def_Name oldParamDef) m
        | Some _ => m
        end) oldParams newRequiredParameters in
  (map_range newRequiredParameters).*1.

Definition ParseSetParameters (ref : ParameterizedLocalObjectReference)
    (definitions : list ParameterDefinition) : list ParameterSetting * list ParameterDefinition :=
  let params : gmap string ParameterSetting :=
    fold_left (fun m param => <[Set_Name param := param]> m) (Ref_Parameters ref) ∅ in
  fold_left (fun '(set, unset) def =>
      match params !! Def_Name def with
      | Some setting => (set ++ [setting], unset)
      | None => (set, unset ++ [def])
      end) definitions ([], []).

Definition ValidateParameterReference (refPath : FieldPath)
    (ref : ParameterizedLocalObjectReference) (paramDefs : list ParameterDefinition) :
    list FieldError :=
  let setParams := name_set (Set_Name <$> Ref_Parameters ref) in
  fold_left (fun paramErrors param =>
      if decide ((Def_Name param ∉ setParams) /\ Def_Default param = None) then
        paramErrors ++ [field_invalid (refPath ++ [Child "parameters"])
          (BadParameters (Ref_Parameters ref))
          ("missing required parameter " +:+ Def_Name param +:+ " in reference to "
             +:+ Ref_kind ref +:+ " resource " +:+ Ref_name ref)]
      else paramErrors) paramDefs [].

Definition ValidateNoParentParameters (refPath : FieldPath)
    (ref : ParameterizedLocalObjectReference) : list FieldError :=
  fold_left (fun paramErrors '(i, setting) =>
      match Set_ValueFrom setting with
      | Some _ => paramErrors ++ [field_invalid (refPath ++ [Child "parameters"; Index i])
          (BadSetting setting) "parameter setting 'ValueFrom' is not allowed for this resource"]
      | None => paramErrors
      end) (imap pair (Ref_Parameters ref)) [].

Definition ValidateParentParameters (refPath : FieldPath)
    (ref : ParameterizedLocalObjectReference) (parentDefs : list ParameterDefinition) :
    list FieldError :=
  let parent := name_set (Def_Name <$> parentDefs) in
  fold_left (fun paramErrors '(i, setting) =>
      match Set_ValueFrom setting with
      | Some src =>
          if negb (String.eqb (Set_Value setting) "") then
            paramErrors ++ [field_invalid (refPath ++ [Child "parameters"; Index i])
              (BadSetting setting)
              ("Either one of 'ValueFrom' or 'Value' may be set for the parameter "
                 +:+ Set_Name setting)]
          else if decide (ParentParam src ∉ parent) then
            paramErrors ++ [field_invalid (refPath ++ [Child "parameters"; Index i])
              (BadSetting setting)
              ("No parent parameter with name " +:+ ParentParam src +:+ " found")]
          else paramErrors
      | None => paramErrors
      end) (imap pair (Ref_Parameters ref)) [].

(** ** Labels and annotations (metadata.go) *)

Section metadata.
Context `{MapRange string}.
(** [v1validation.ValidateLabels] and [apimachineryvalidation.ValidateAnnotations]. *)
Variables ValidateLabels ValidateAnnotations : gmap string string -> FieldPath -> list FieldError.

Definition ValidateAdditionalLabels (labels : gmap string string) (fldPath : FieldPath) : list FieldError :=
  let allErrs := ValidateLabels labels fldPath in
  fold_left (fun allErrs key =>
      if has_prefix key Group then
        allErrs ++ [field_invalid (fldPath ++ [Child key]) (BadString key)
                      ("additional labels cannot use reserved prefix: " +:+ Group)]
      else allErrs) (map_range labels).*1 allErrs.

Definition ValidateAdditionalAnnotations (annotations : gmap string string) (fldPath : FieldPath) :
    list FieldError :=
  let fieldErrors := ValidateAnnotations annotations fldPath in
  fold_left (fun fieldErrors key =>
      if has_prefix key Group then
        fieldErrors ++ [field_invalid (fldPath ++ [Child key]) (BadString key)
                          ("additional annotations cannot use reserved prefix: " +:+ Group)]
      else fieldErrors) (map_range annotations).*1 fieldErrors.
End metadata.

(** ** Volumes (volumes.go) *)

(** [fmt.Errorf("%w: duplicate volumes with name %s", ErrVolumeCollision, name)]. *)
Definition ErrVolumeCollision (name : string) : GoError :=
  ErrorString ("volume name collision detected: duplicate volumes with name " +:+ name).

Fixpoint detect_collisions (volumes : list Volume) (mergeDuplicates : bool)
    (deduplicatedVolumes : gmap string Volume) : result GoError (gmap string Volume) :=
  match volumes with
  | [] => Ok deduplicatedVolumes
  | vol :: rest =>
      match deduplicatedVolumes !! Vol_Name vol with
      | Some existingVol =>
          if mergeDuplicates && bool_decide (existingVol = vol)
          then detect_collisions rest mergeDuplicates deduplicatedVolumes
          else Err (ErrVolumeCollision (Vol_Name vol))
      | None => detect_collisions rest mergeDuplicates (<[Vol_Name vol := vol]> deduplicatedVolumes)
      end
  end.

Definition DetectVolumeCollision `{MapRange Volume} (volumes : list Volume)
    (mergeDuplicates : bool) : result GoError (list Volume) :=
  match detect_collisions volumes mergeDuplicates ∅ with
  | Err e => Err e
  | Ok m => Ok (map_range m).*2
  end.

(** ** Profiles (profiles.go) *)

(** The volumes of a list are added one by one to the names seen so far; a
    name seen before is an error at the field [at_field i]. *)
Fixpoint add_volumes (at_field : nat -> FieldPath) (i : nat) (volumes : list Volume)
    (volumeNames : gset string) : list FieldError * gset string :=
  match volumes with
  | [] => ([], volumeNames)
  | vol :: rest =>
      if decide (Vol_Name vol ∈ volumeNames) then
        let '(errs, names) := add_volumes at_field (S i) rest volumeNames in
        (field_duplicate (at_field i) (BadString (Vol_Name vol)) :: errs, names)
      else add_volumes at_field (S i) rest ({[Vol_Name vol]} ∪ volumeNames)
  end.

Definition spec_path : FieldPath := [Child "spec"].

(** The loop over the uploader references, from index [i]. *)
Fixpoint validate_uploader_refs (namespace : string) (parentDefs : list ParameterDefinition)
    (i : nat) (refs : list ParameterizedLocalObjectReference)
    (fieldErrors : list FieldError) (volumeNames : gset string) :
    prog (result GoError (list FieldError * gset string)) :=
  match refs with
  | [] => Ret (Ok (fieldErrors, volumeNames))
  | uploaderRef :: rest =>
      let refField := spec_path ++ [Child "uploaderRefs"; Index i] in
      let* ' (uploader, err) := UploaderInvocationFromReference namespace uploaderRef in
      match err with
      | Some e =>
          match as_invalid_reference e with
          | Some msg =>
              validate_uploader_refs namespace parentDefs (S i) rest
                (fieldErrors ++ [field_invalid refField (BadReference uploaderRef) msg]) volumeNames
          | None =>
              if is_not_found e then
                validate_uploader_refs namespace parentDefs (S i) rest
                  (fieldErrors ++ [field_not_found refField (BadReference uploaderRef)]) volumeNames
              else Ret (Err e)
          end
      | None =>
          let fieldErrors := fieldErrors
            ++ ValidateParameterReference refField uploaderRef (Up_Parameters (Inv_Spec uploader)) in
          let fieldErrors := fieldErrors
            ++ ValidateParentParameters refField uploaderRef parentDefs in
          let '(errs, volumeNames) :=
            add_volumes (fun j => refField ++ [Child "volumes"; Index j; Child "name"]) 0
              (Up_Volumes (Inv_Spec uploader)) volumeNames in
          validate_uploader_refs namespace parentDefs (S i) rest (fieldErrors ++ errs) volumeNames
      end
  end.

Definition ValidateProfile (profile : Profile) : prog (option GoError) :=
  let spec := Profile_Spec profile in
  let '(fieldErrors, volumeNames) :=
    add_volumes (fun j => spec_path ++ [Child "volumes"; Index j; Child "name"]) 0
      (Prof_Volumes spec) ∅ in
  let* res := validate_uploader_refs (Namespace (Profile_Meta profile)) (Prof_Parameters spec) 0
    (Prof_UploaderRefs spec) fieldErrors volumeNames in
  match res with
  | Err err => Ret (Some err)
  | Ok (fieldErrors, _) =>
      let fieldErrors := fold_left (fun errs '(i, c) =>
          errs ++ ValidateContainerDefinition (spec_path ++ [Child "containers"; Index i])
            (CC_Container c)) (imap pair (Prof_Containers spec)) fieldErrors in
      match fieldErrors with
      | [] => Ret None
      | _ => Ret (Some (StatusInvalid "Profile" (Name (Profile_Meta profile)) fieldErrors))
      end
  end.

(** ** Pipelines (pipelines.go) *)

Definition ValidatePipeline (pipeline : Pipeline) : prog (option GoError) :=
  let meta := Pipeline_Meta pipeline in
  let spec := Pipeline_Spec pipeline in
  let profileRefPath := spec_path ++ [Child "profileRef"] in
  let downloaderRefPath := spec_path ++ [Child "downloaderRef"] in
  let fieldErrs : list FieldError :=
    if MaxPipelineNameLength <? len (Name meta)
    then [field_invalid [Child "metadata"; Child "name"] (BadString (Name meta))
            "must be no more than 52 characters"]
    else [] in
  (* profile *)
  let* ' (profile, err) := ProfileInvocationFromReference (Namespace meta) (PipeS_ProfileRef spec) in
  match
    match err with
    | None => Ok fieldErrs
    | Some e =>
        match as_invalid_reference e with
        | Some msg => Ok (fieldErrs ++
            [field_invalid profileRefPath (BadReference (PipeS_ProfileRef spec)) msg])
        | None =>
            if is_not_found e then Ok (fieldErrs ++
              [field_not_found profileRefPath (BadReference (PipeS_ProfileRef spec))])
            else Err (StatusInternalError e)
        end
    end
  with
  | Err e => Ret (Some e)
  | Ok fieldErrs =>
  let profileSpec := Inv_Spec profile in
  let fieldErrs := fieldErrs
    ++ ValidateParameterReference profileRefPath (PipeS_ProfileRef spec) (Prof_Parameters profileSpec) in
  let fieldErrs := fieldErrs ++ ValidateNoParentParameters profileRefPath (PipeS_ProfileRef spec) in
  let scanners := FilterConditionalContainers (Prof_Containers profileSpec)
    (Prof_Parameters profileSpec) (Ref_Parameters (PipeS_ProfileRef spec)) in
  let fieldErrs := match scanners with
    | [] => fieldErrs ++ [field_invalid profileRefPath (BadReference (PipeS_ProfileRef spec))
        "No scanners were included, ensure that at least one scanner's `includeIf` is true"]
    | _ => fieldErrs
    end in
  let pipelineVolumes := name_set (Vol_Name <$> Prof_Volumes profileSpec) in
  (* downloader *)
  let* ' (downloader, err) :=
    DownloaderInvocationFromReference (Namespace meta) (PipeS_DownloaderRef spec) in
  match
    match err with
    | None => Ok fieldErrs
    | Some e =>
        match as_invalid_reference e with
        | Some msg => Ok (fieldErrs ++
            [field_invalid downloaderRefPath (BadReference (PipeS_DownloaderRef spec)) msg])
        | None =>
            if is_not_found e then Ok (fieldErrs ++
              [field_invalid downloaderRefPath (BadReference (PipeS_DownloaderRef spec))
                "referenced downloader could not be found"])
            else Err (StatusInternalError e)
        end
    end
  with
  | Err e => Ret (Some e)
  | Ok fieldErrs =>
  let downloaderSpec := Inv_Spec downloader in
  let fieldErrs := fieldErrs ++ ValidateParameterReference downloaderRefPath
    (PipeS_DownloaderRef spec) (Down_Parameters downloaderSpec) in
  let fieldErrs := fieldErrs
    ++ ValidateNoParentParameters downloaderRefPath (PipeS_DownloaderRef spec) in
  let fieldErrs := fold_left (fun errs vol =>
      if decide (Vol_Name vol ∈ pipelineVolumes) then
        errs ++ [field_invalid downloaderRefPath (BadReference (PipeS_DownloaderRef spec))
          ("downloader volume " +:+ Vol_Name vol
             +:+ " conflicts with profile volume with the same name")]
      else errs) (Down_Volumes downloaderSpec) fieldErrs in
  (* service account *)
  let* sa := op (Get KServiceAccount (mkObjectKey (Namespace meta) (PipeS_ServiceAccountName spec))) in
  match
    match sa with
    | Ok _ => Ok fieldErrs
    | Err e =>
        if negb (is_not_found e) then Err (StatusInternalError e)
        else Ok (fieldErrs ++ [field_not_found (spec_path ++ [Child "serviceAccountName"])
                   (BadString (PipeS_ServiceAccountName spec))])
    end
  with
  | Err e => Ret (Some e)
  | Ok [] => Ret None
  | Ok fieldErrs => Ret (Some (StatusInvalid "Pipeline" (Name meta) fieldErrs))
  end
  end
  end.

(** ** Names *)

Lemma elem_of_name_set (l : list string) n : n ∈ name_set l <-> n ∈ l.
Proof.
  unfold name_set. induction l as [|x l IH] using rev_ind.
  - split; intros Hn; [by apply elem_of_empty in Hn|by apply elem_of_nil in Hn].
  - rewrite fold_left_app. simpl.
    rewrite elem_of_union, elem_of_singleton, IH, elem_of_app, list_elem_of_singleton. tauto.
Qed.

(** Whether a list of settings sets a parameter. *)
Definition sets (settings : list ParameterSetting) (n : string) : bool :=
  bool_decide (n ∈ Set_Name <$> settings).

Lemma sets_last_named settings n :
  sets settings n = true <-> is_Some (last_named Set_Name n settings).
Proof.
  unfold sets. rewrite bool_decide_eq_true, list_elem_of_fmap, last_named_is_Some.
  split; intros (x & ? & ?); eauto.
Qed.

(** Rewrites the loop of a validator to the filter it computes. *)
Ltac as_filter f g :=
  etransitivity;
  [ apply (fold_left_ext _ (fun acc x => if f x then acc ++ [g x] else acc));
    intros ? ? _
  | rewrite fold_left_app_if ].

(** ** Labels and annotations *)

(** Additional labels are accepted exactly when they are labels and no key
    begins with the group of the resources; annotations likewise.  (Nothing asks
    that the prefix of the key ends there.) *)
Theorem ValidateAdditional_accepts `{MapRange string} VL VA (m : gmap string string) path :
  (ValidateAdditionalLabels VL m path = [] <->
     VL m path = [] /\ forall k, is_Some (m !! k) -> has_prefix k Group = false) /\
  (ValidateAdditionalAnnotations VA m path = [] <->
     VA m path = [] /\ forall k, is_Some (m !! k) -> has_prefix k Group = false).
Proof.
  assert (forall (g : string -> FieldError) errs,
    fold_left (fun acc k => if has_prefix k Group then acc ++ [g k] else acc) (map_range m).*1 errs = [] <->
    errs = [] /\ forall k, is_Some (m !! k) -> has_prefix k Group = false) as Hloop.
  { intros g errs. rewrite fold_left_app_if. rewrite app_nil, fmap_nil_iff. apply and_iff_compat_l. split.
    - intros Hnil k [v Hk]. destruct (has_prefix k Group) eqn:E; [|done].
      assert (k ∈ List.filter (fun k => has_prefix k Group) (map_range m).*1) as Hin.
      { apply list_elem_of_In, List.filter_In. split; [|done]. apply list_elem_of_In, list_elem_of_fmap.
        exists (k, v). split; [done|]. by apply elem_of_map_range. }
      rewrite Hnil in Hin. by apply elem_of_nil in Hin.
    - intros Hall. destruct (List.filter _ _) as [|k l] eqn:E; [done|].
      assert (In k (k :: l)) as Hin by by left. rewrite <-E in Hin.
      apply List.filter_In in Hin as [Hin Hp]. apply list_elem_of_In, list_elem_of_fmap in Hin as ([k' v] & -> & Hin).
      apply elem_of_map_range in Hin. by rewrite Hall in Hp. }
  split; apply Hloop.
Qed.

(** ** Containers *)

(** A container definition is accepted exactly when it sets its command
    and its name has at most 54 bytes. *)
Theorem ValidateContainerDefinition_accepts path c :
  ValidateContainerDefinition path c = [] <-> C_Command c <> [] /\ len (C_Name c) <= 54.
Proof.
  unfold ValidateContainerDefinition. change MaxPipelineNameLength with 54.
  destruct (Z.ltb_spec 54 (len (C_Name c))), (C_Command c); simpl; split; intros H';
    try discriminate H'; try done; try (by destruct H'); try lia.
Qed.

(** The limit the package declares for container names,
    [MaxContainerNameLength], keeps every container of a pod within the 63
    bytes of a DNS label, whatever the prefix of its role; the limit that
    [ValidateContainerDefinition] tests does not. *)
Theorem container_name_limits :
  (forall prefix n,
     prefix ∈ ["uploader-"; "scanner-"; "downloader-"; "crawler-"] ->
     len n <= MaxContainerNameLength -> len (prefix +:+ n) <= DNS1035LabelMaxLength) /\
  exists path c,
    ValidateContainerDefinition path c = [] /\
    DNS1035LabelMaxLength < len (C_Name (WithNamePrefix "downloader-" c)).
Proof.
  split.
  - intros prefix n Hp Hn. rewrite len_app. unfold MaxContainerNameLength, DNS1035LabelMaxLength in *.
    repeat (apply elem_of_cons in Hp as [->|Hp]; [unfold len at 1; simpl; lia|]).
    by apply elem_of_nil in Hp.
  - exists [], (with_c_command (with_c_name zero_Container
      "a-downloader-container-with-a-name-of-54-characters-xx") ["/bin/true"] []).
    by vm_compute.
Qed.

(** ** Parameters *)

Lemma UndefinedParameters_eq params values :
  UndefinedParameters params values
  = Def_Name <$> List.filter (fun d => negb (sets values (Def_Name d))) params.
Proof.
  unfold UndefinedParameters.
  as_filter (fun d => negb (sets values (Def_Name d))) Def_Name; [|done].
  unfold sets. case_decide as H; rewrite elem_of_name_set in H.
  - by rewrite bool_decide_true.
  - by rewrite bool_decide_false.
Qed.

Definition missing (ref : ParameterizedLocalObjectReference) (d : ParameterDefinition) : bool :=
  negb (sets (Ref_Parameters ref) (Def_Name d)) && bool_decide (Def_Default d = None).

Lemma ValidateParameterReference_nil path ref defs :
  ValidateParameterReference path ref defs = [] <->
  forall d, d ∈ defs -> missing ref d = false.
Proof.
  unfold ValidateParameterReference.
  rewrite (fold_left_ext _ (fun acc d => if missing ref d then acc ++ [field_invalid
    (path ++ [Child "parameters"]) (BadParameters (Ref_Parameters ref))
    ("missing required parameter " +:+ Def_Name d +:+ " in reference to "
       +:+ Ref_kind ref +:+ " resource " +:+ Ref_name ref)] else acc)).
  - rewrite fold_left_app_if. simpl. rewrite fmap_nil_iff. apply filter_nil_iff.
  - intros acc d _. unfold missing, sets. rewrite <-bool_decide_not, <-bool_decide_and.
    case_decide as H; rewrite elem_of_name_set in H.
    + by rewrite bool_decide_true.
    + by rewrite bool_decide_false.
Qed.

(** A reference passes the check of required parameters exactly when it
    sets every defined parameter that has no default; the scanners, downloader
    or uploader then get, for each such parameter, the value of a setting. *)
Theorem ValidateParameterReference_accepts path ref defs :
  (ValidateParameterReference path ref defs = [] <->
   forall d, d ∈ defs -> Def_Default d = None ->
     exists s, s ∈ Ref_Parameters ref /\ Set_Name s = Def_Name d) /\
  (ValidateParameterReference path ref defs = [] ->
   forall d parent, d ∈ defs -> Def_Default d = None ->
     exists s, s ∈ Ref_Parameters ref /\ Set_Name s = Def_Name d /\
       ParseParameters defs (Ref_Parameters ref) parent !! Def_Name d
         = Some (setting_value parent s)).
Proof.
  assert (forall d, missing ref d = false <->
    (Def_Default d = None -> is_Some (last_named Set_Name (Def_Name d) (Ref_Parameters ref)))) as Hm.
  { intros d. unfold missing. rewrite <-sets_last_named, andb_false_iff, negb_false_iff.
    rewrite bool_decide_eq_false. destruct (Def_Default d); split.
    - by intros _ [=].
    - by right.
    - by intros [?|?] _.
    - intros H. left. by apply H. }
  rewrite ValidateParameterReference_nil. split.
  - split; intros H d Hd.
    + intros Hnone. apply last_named_is_Some. by apply Hm; [apply H|].
    + apply Hm. intros Hnone. apply last_named_is_Some. by apply H.
  - intros H d parent Hd Hnone. rewrite ParseParameters_lookup. unfold parameter_value.
    destruct (proj1 (Hm d) (H d Hd) Hnone) as [s Hs]. rewrite Hs.
    assert (is_Some (last_named Def_Name (Def_Name d) defs)) as [d' ->].
    { apply last_named_is_Some. eauto. }
    apply last_named_elem in Hs as [??]. eauto.
Qed.

Lemma ValidateParameterReference_accepts_witness :
  let ref := mkReference "git" "Downloader" [mkParameterSetting "DEPTH" "1" None] in
  let defs := [mkParameterDefinition "DEPTH" "" None; mkParameterDefinition "REF" "" (Some "main")] in
  exists s, s ∈ Ref_Parameters ref /\ Set_Name s = "DEPTH" /\
    ParseParameters defs (Ref_Parameters ref) None !! "DEPTH" = Some (setting_value None s).
Proof.
  apply (proj2 (ValidateParameterReference_accepts []
    (mkReference "git" "Downloader" [mkParameterSetting "DEPTH" "1" None])
    [mkParameterDefinition "DEPTH" "" None; mkParameterDefinition "REF" "" (Some "main")])
    eq_refl (mkParameterDefinition "DEPTH" "" None) None); [|reflexivity].
  apply elem_of_cons; left; reflexivity.
Defined.

Lemma ParseSetParameters_lookup settings n :
  (fold_left (fun m param => <[Set_Name param := param]> m) settings ∅ : gmap string ParameterSetting)
    !! n = last_named Set_Name n settings.
Proof.
  induction settings as [|s l IH] using rev_ind; [done|].
  rewrite fold_left_app, last_named_snoc. simpl.
  rewrite lookup_insert. destruct (String.eqb_spec (Set_Name s) n); case_decide; congruence.
Qed.

Lemma ParseSetParameters_eq ref defs :
  ParseSetParameters ref defs
  = (omap (fun d => last_named Set_Name (Def_Name d) (Ref_Parameters ref)) defs,
     List.filter (fun d => negb (sets (Ref_Parameters ref) (Def_Name d))) defs).
Proof.
  unfold ParseSetParameters. induction defs as [|d defs IH] using rev_ind; [done|].
  rewrite fold_left_app, IH, omap_app, List.filter_app. cbn [fold_left].
  rewrite ParseSetParameters_lookup. simpl.
  pose proof (sets_last_named (Ref_Parameters ref) (Def_Name d)) as Hs.
  destruct (last_named Set_Name (Def_Name d) (Ref_Parameters ref)) as [s|].
  - rewrite (proj2 Hs) by eauto. simpl. by rewrite app_nil_r.
  - destruct (sets _ _); [by destruct (proj1 Hs eq_refl)|]. simpl. by rewrite app_nil_r.
Qed.

(** [ParseSetParameters] splits the definitions: [unset] are those the
    reference has no setting for, and [set] holds, in the order of the other
    definitions, the last setting of each. *)
Theorem ParseSetParameters_correct ref defs :
  ParseSetParameters ref defs
  = (omap (fun d => last_named Set_Name (Def_Name d) (Ref_Parameters ref)) defs,
     List.filter (fun d => negb (sets (Ref_Parameters ref) (Def_Name d))) defs).
Proof. apply ParseSetParameters_eq. Qed.
