(* ===== verification/ControllerCommon.v ===== *)
(** * What the reconcilers share (internal/controller/constants.go, helpers.go)

    The names of volumes, files, directories and containers, the outcome of a
    reconciliation, and the wrappers around the writes of the client. *)

From Stdlib Require Import ZArith Lia String Ascii.
From S2P Require Import Prelude Effects GoStd K8s Api Client.

Local Open Scope string_scope.
Local Open Scope Z_scope.
Local Open Scope list_scope.
Local Open Scope prog_scope.

(** ** Constants *)

Definition pipelineResultsVolumeName : string := "ocular-pipeline-results".
Definition pipelineTargetVolumeName : string := "ocular-pipeline-target".
Definition pipelineMetadataVolumeName : string := "ocular-pipeline-metadata".
Definition runtimeProcVolumeName : string := "ocular-runtime-process".
Definition runtimeBinaryVolumeName : string := "ocular-runtime-binaries".
Definition searchTemplatesVolumeName : string := "ocular-search-templates".
Definition searchFIFOVolumeName : string := "ocular-search-fifos".

Definition schedulerBinaryName : string := "scheduler".
Definition sidecarBinaryName : string := "sidecar".
Definition pipelineTemplateName : string := "pipeline.template.json".
Definition pipelineFIFOName : string := "pipelines".
Definition searchFIFOName : string := "searches".

Definition runtimeDirectory : string := "/var/run/ocular".
Definition processDirectory : string := runtimeDirectory +:+ "/proc".
Definition fifoDirectory : string := runtimeDirectory +:+ "/fifo".
Definition binaryDirectory : string := runtimeDirectory +:+ "/bin".
Definition configDirectory : string := "/etc/ocular".
Definition pipelineTargetDirectory : string := "/mnt/target".
Definition pipelineResultsDirectory : string := "/mnt/results".
Definition pipelineMetadataDirectory : string := "/mnt/metadata".

Definition pipelineTemplatePath : string := configDirectory +:+ "/" +:+ pipelineTemplateName.
Definition sidecarBinaryPath : string := binaryDirectory +:+ "/" +:+ sidecarBinaryName.
Definition schedulerBinaryPath : string := binaryDirectory +:+ "/" +:+ schedulerBinaryName.
Definition pipelineFIFOPath : string := fifoDirectory +:+ "/" +:+ pipelineFIFOName.
Definition searchFIFOPath : string := fifoDirectory +:+ "/" +:+ searchFIFOName.

Definition uploadContainerPrefix : string := "uploader-".
Definition scanContainerPrefix : string := "scanner-".
Definition downloadContainerPrefix : string := "downloader-".
Definition crawlerContainerPrefix : string := "crawler-".
Definition sidecarInitContainerName : string := "sidecar-init".
Definition schedulerInitContainerName : string := "scheduler-init".
Definition pipelineResourcePrefix : string := "pipeline-".
Definition searchResourcePrefix : string := "search-".
Definition metricsFinalizer : string := "ocular.crashoverride.run/metrics".

Definition sidecarInitResourceRequirements : ResourceRequirements :=
  mkResourceRequirements [("cpu", "150m"); ("memory", "128Mi")]
    [("cpu", "25m"); ("memory", "32Mi")] "".
Definition schedulerInitResourceRequirements : ResourceRequirements :=
  mkResourceRequirements [("cpu", "150m"); ("memory", "128Mi")]
    [("cpu", "25m"); ("memory", "64Mi")] "".

(** The predicate on pod updates: reconcile when the phase changed, or when
    the objects are not pods. *)
Definition podStateChangedPredicate (oldObj newObj : option Pod) : bool :=
  match oldObj, newObj with
  | Some oldPod, Some newPod =>
      negb (bool_decide (Pod_Phase (Pod_Status oldPod) = Pod_Phase (Pod_Status newPod)))
  | _, _ => true
  end.

(** ** The outcome of a reconciliation *)

(** [ctrl.Result]; a zero [RequeueAfter] means no requeue. *)
Record Result := mkResult { RequeueAfter : Duration; Priority : option Z }.
Definition emptyResult : Result := mkResult 0 None.
Definition requeue_after (d : Duration) : Result := mkResult d None.

(** What [Reconcile] returns. *)
Definition Outcome : Type := Result * option GoError.

(** Reading through a [*metav1.Time]: a nil pointer panics, which the manager
    turns into a failed reconciliation. *)
Definition deref (t : option Time) (k : Time -> prog Outcome) : prog Outcome :=
  match t with
  | Some t => k t
  | None => Ret (emptyResult, Some NilDereference)
  end.

(** ** Writes (helpers.go)

    The helpers log a failure and return it; logging is not modelled. *)
Definition updateStatus (k : Kind) (o : obj k) : prog (result GoError (obj k)) :=
  op (StatusUpdate k o).
Definition patchResource (k : Kind) (orig o : obj k) : prog (result GoError (obj k)) :=
  op (Patch k orig o).
Definition patchStatus (k : Kind) (orig o : obj k) : prog (result GoError (obj k)) :=
  op (StatusPatch k orig o).
