(* ===== verification/PipelineController.v ===== *)
(** * The pipeline reconciler (internal/controller/pipeline_controller.go)

    [Reconcile] and everything it calls, as programs over the client
    operations. *)

From Stdlib Require Import ZArith Lia String Ascii.
From S2P Require Import Prelude Effects GoStd K8s Api Client Resources Containers ControllerCommon.

Local Open Scope string_scope.
Local Open Scope Z_scope.
Local Open Scope list_scope.
Local Open Scope prog_scope.

(** ** The reconciler and updates of a pipeline *)

Record PipelineReconciler := mkPipelineReconciler {
  SidecarImage : string;
  SidecarPullPolicy : string
}.

Definition with_pipeline_meta (p : Pipeline) (m : ObjectMeta) : Pipeline :=
  mkPipeline m (Pipeline_Spec p) (Pipeline_Status p).
Definition with_pipeline_status (p : Pipeline) (st : PipelineStatus) : Pipeline :=
  mkPipeline (Pipeline_Meta p) (Pipeline_Spec p) st.

Definition metricLabelsForPipeline (pipeline : Pipeline) : gmap string string :=
  {[ "namespace" := Namespace (Pipeline_Meta pipeline);
     "downloader" := Ref_name (PipeS_DownloaderRef (Pipeline_Spec pipeline));
     "profile" := Ref_name (PipeS_ProfileRef (Pipeline_Spec pipeline)) ]}.

(** ** The stages of a scan pod *)

(** The loop over the init containers: the last one that is not the sidecar
    decides. *)
Definition download_status (init : list ContainerStatus) : PipelineStageStatus :=
  fold_left (fun download cs =>
      if negb (String.eqb (CS_Name cs) sidecarInitContainerName) then
        match CS_Terminated cs with
        | Some code => if negb (code =? 0) then PipelineStageCompleted else PipelineStageFailed
        | None => PipelineStageInProgress
        end
      else download) init PipelineStageEmpty.

(** A loop over the containers with a name prefix that stops at the first
    one still running or failed, and otherwise leaves the status alone. *)
Fixpoint first_unfinished (prefix : string) (status : PipelineStageStatus)
    (css : list ContainerStatus) : PipelineStageStatus :=
  match css with
  | [] => status
  | cs :: rest =>
      if has_prefix (CS_Name cs) prefix then
        match CS_Terminated cs with
        | None => PipelineStageInProgress
        | Some code =>
            if negb (code =? 0) then PipelineStageFailed else first_unfinished prefix status rest
        end
      else first_unfinished prefix status rest
  end.

(** The statuses of the download, scan and upload stages. *)
Definition determineScanPodStageStatuses (scanPod : Pod) :
    PipelineStageStatus * PipelineStageStatus * PipelineStageStatus :=
  let st := Pod_Status scanPod in
  let download := download_status (InitContainerStatuses st) in
  let scan :=
    match download with
    | PipelineStageInProgress => PipelineStageNotStarted
    | PipelineStageFailed => PipelineStageSkipped
    | _ => first_unfinished scanContainerPrefix PipelineStageCompleted (ContainerStatuses st)
    end in
  let upload :=
    match scan with
    | PipelineStageInProgress => PipelineStageNotStarted
    | PipelineStageSkipped => PipelineStageSkipped
    | _ => first_unfinished uploadContainerPrefix PipelineStageEmpty (ContainerStatuses st)
    end in
  (download, scan, upload).

(** ** Completion *)

(** The three writes of [handleCompletion] to the status, one per pod phase
    that ends or continues the run; [t] is the time read at the beginning. *)
Definition keep_skipped (old new : PipelineStageStatus) : PipelineStageStatus :=
  if decide (old = PipelineStageSkipped) then old else new.

Definition completion_status (st : PipelineStatus) (stages : PipelineStageStatuses)
    (phase : PipelinePhase) (t : Time) (c : Condition) : PipelineStatus :=
  mkPipelineStatus (PipeSt_Conditions st ++ [c]) (PipeSt_StartTime st) (Some t) phase stages.

Definition succeeded_status (st : PipelineStatus) (t : Time) : PipelineStatus :=
  completion_status st
    (mkStageStatuses PipelineStageCompleted PipelineStageCompleted
       (keep_skipped (UploadStatus (PipeSt_StageStatuses st)) PipelineStageCompleted))
    PipelineSucceeded t
    (mkCondition PipelineCompletedSuccessfullyConditionType ConditionTrue
       "PodCompletedSuccessfully" "The pipeline has completed successfully." t).

Definition failed_status (st : PipelineStatus) (scanPod : Pod) (t : Time) : PipelineStatus :=
  let '(downloaderStatus, scanStatus, uploadStatus) := determineScanPodStageStatuses scanPod in
  completion_status st
    (mkStageStatuses downloaderStatus scanStatus
       (keep_skipped (UploadStatus (PipeSt_StageStatuses st)) uploadStatus))
    PipelineFailed t
    (mkCondition CompletedSuccessfullyConditionType ConditionFalse
       "PodTerminatedWithFailures" "The pipeline pod has failed." t).

(** While the pod runs the stages are rebuilt from a fresh struct, whose
    upload status is empty when it is compared with [Skipped]. *)
Definition running_status (st : PipelineStatus) (scanPod : Pod) : PipelineStatus :=
  let '(downloaderStatus, scanStatus, uploadStatus) := determineScanPodStageStatuses scanPod in
  let stages := mkStageStatuses downloaderStatus scanStatus PipelineStageEmpty in
  let stages := mkStageStatuses downloaderStatus scanStatus
    (keep_skipped (UploadStatus stages) uploadStatus) in
  let phase :=
    if decide (downloaderStatus = PipelineStageInProgress) then PipelineDownloading
    else if decide (scanStatus = PipelineStageInProgress) then PipelineScanning
    else if decide (UploadStatus stages <> PipelineStageSkipped) then PipelineUploading
    else PipeSt_Phase st in
  mkPipelineStatus (PipeSt_Conditions st) (PipeSt_StartTime st) (PipeSt_CompletionTime st)
    phase stages.

Definition pending_status (st : PipelineStatus) : PipelineStatus :=
  mkPipelineStatus (PipeSt_Conditions st) (PipeSt_StartTime st) (PipeSt_CompletionTime st)
    PipelineSucceeded
    (mkStageStatuses PipelineStageNotStarted PipelineStageNotStarted
       (keep_skipped (UploadStatus (PipeSt_StageStatuses st)) PipelineStageNotStarted)).

Definition handleCompletion (pipeline : Pipeline) (scanPod : Pod) : prog Outcome :=
  let st := Pipeline_Status pipeline in
  let* t := op Now in
  let patch_to (st' : PipelineStatus) : prog Outcome :=
    let* r := patchStatus KPipeline pipeline (with_pipeline_status pipeline st') in
    Ret (emptyResult, err_of r) in
  match Pod_Phase (Pod_Status scanPod) with
  | PodSucceeded => patch_to (succeeded_status st t)
  | PodFailed => patch_to (failed_status st scanPod t)
  | PodRunning => patch_to (running_status st scanPod)
  | PodPending => patch_to (pending_status st)
  | PodUnknown | PodPhaseEmpty => Ret (requeue_after (15 * Second), None)
  end.

(** The end of [handlePostCompletion]: delete the pipeline when its TTL has
    passed since its completion, else come back when it will have. *)
Definition await_ttl (pipeline : Pipeline) : prog Outcome :=
  match PipeS_TTLSecondsAfterFinished (Pipeline_Spec pipeline) with
  | None => Ret (emptyResult, None)
  | Some seconds =>
      let ttl := duration_mul seconds Second in
      deref (PipeSt_CompletionTime (Pipeline_Status pipeline)) (fun completion =>
      let* now := op Now in
      let wait := time_sub (time_add completion ttl) now in
      if wait <=? 0 then
        let* r := op (Delete KPipeline pipeline) in
        Ret (emptyResult, ignore_not_found (err_of r))
      else Ret (requeue_after wait, None))
  end.

Section post_completion.
Context `{ControllerUtil}.

Definition handlePostCompletion (pipeline : Pipeline) : prog Outcome :=
  let meta := Pipeline_Meta pipeline in
  if ContainsFinalizer meta metricsFinalizer then
    let* r := patchResource KPipeline pipeline
      (with_pipeline_meta pipeline (RemoveFinalizer meta metricsFinalizer)) in
    match r with
    | Err e => Ret (emptyResult, Some (Wrapped "failed to remove finalizer at completion" e))
    | Ok pipeline =>
        let metricLabels := metricLabelsForPipeline pipeline in
        let* _ := op (UpdateMetric pipelinesRunning metricLabels (MetricAdd (-1))) in
        let metricLabels :=
          <["phase" := phase_string (PipeSt_Phase (Pipeline_Status pipeline))]> metricLabels in
        deref (PipeSt_CompletionTime (Pipeline_Status pipeline)) (fun completion =>
        deref (PipeSt_StartTime (Pipeline_Status pipeline)) (fun start =>
        let duration := time_sub completion start in
        let* _ := op (UpdateMetric pipelinesCompleted metricLabels (MetricAdd 1)) in
        let* _ := op (UpdateMetric pipelineDurationSeconds metricLabels (MetricObserve duration)) in
        await_ttl pipeline))
    end
  else await_ttl pipeline.

End post_completion.

(** ** The scan pod *)

Definition uploader_containers `{MapRange string} (parentParams : gmap string string)
    (uploaders : list (Invocation UploaderSpec)) : list Container :=
  map (fun invocation =>
      ApplyOptionsTo (Up_Container (Inv_Spec invocation))
        [ WithParameters (Up_Parameters (Inv_Spec invocation)) (Inv_Parameters invocation)
            (Some parentParams);
          WithAdditionalEnvVars [env_value EnvVarUploaderName (Name (Inv_Metadata invocation))] ])
    uploaders.

Definition generateArtifactArguments (metadataFiles artifacts : list string) : list string :=
  let resolve (dir artifact : string) : string :=
    let artifactPath := path_clean artifact in
    if path_is_abs artifactPath then artifactPath else path_join [dir; artifactPath] in
  let args := ["--"] in
  let args := fold_left (fun args artifact =>
    args ++ [resolve PipelineResultsDirectory artifact]) artifacts args in
  fold_left (fun args artifact =>
    args ++ [resolve PipelineMetadataDirectory artifact]) metadataFiles args.

Definition generateBasePipelineEnvironment (pipeline : Pipeline) : list EnvVar :=
  let spec := Pipeline_Spec pipeline in
  [ env_value EnvVarTargetIdentifier (Identifier (PipeS_Target spec));
    env_value EnvVarTargetVersion (TargetVersion (PipeS_Target spec));
    env_value EnvVarDownloaderName (Ref_name (PipeS_DownloaderRef spec));
    env_value EnvVarProfileName (Ref_name (PipeS_ProfileRef spec));
    env_value EnvVarPipelineName (Name (Pipeline_Meta pipeline));
    env_field EnvVarPodName "metadata.name";
    env_value EnvVarTargetDir PipelineTargetDirectory;
    env_value EnvVarResultsDir PipelineResultsDirectory;
    env_value EnvVarMetadataDir PipelineMetadataDirectory;
    env_field EnvVarNamespaceName "metadata.namespace";
    env_value EnvVarProcessDir processDirectory;
    env_value EnvVarSidecarPath sidecarBinaryPath ].

Definition emptyDirVolume (name : string) : Volume := mkVolume name EmptyDir.
Definition targetVolume : Volume := emptyDirVolume pipelineTargetVolumeName.
Definition resultsVolume : Volume := emptyDirVolume pipelineResultsVolumeName.
Definition metadataVolume : Volume := emptyDirVolume pipelineMetadataVolumeName.
Definition processVolume : Volume := emptyDirVolume runtimeProcVolumeName.
Definition binaryVolume : Volume := emptyDirVolume runtimeBinaryVolumeName.

Definition baseContainerOptions (pipeline : Pipeline) : list Option :=
  [ WithAdditionalEnvVars (generateBasePipelineEnvironment pipeline);
    WithAdditionalVolumeMounts [volume_mount (Vol_Name metadataVolume) pipelineMetadataDirectory];
    WithAdditionalVolumeMounts [volume_mount (Vol_Name resultsVolume) pipelineResultsDirectory];
    WithAdditionalVolumeMounts [volume_mount (Vol_Name processVolume) processDirectory];
    WithAdditionalVolumeMounts [volume_mount (Vol_Name binaryVolume) binaryDirectory] ].

Definition mount_target : Option :=
  WithAdditionalVolumeMounts [volume_mount (Vol_Name targetVolume) pipelineTargetDirectory].

Section reconciler.
Context `{ControllerUtil} `{MapRange string}.
Variable r : PipelineReconciler.

Definition sidecarInitContainer : Container :=
  mkContainer sidecarInitContainerName (SidecarImage r) (SidecarPullPolicy r) [] ["init"] "" [] []
    (Some (mkSecurityContext (Some true) None None None "")) sidecarInitResourceRequirements "".

Definition downloaderContainer (pipeline : Pipeline) (downloader : Invocation DownloaderSpec) :
    Container :=
  ApplyOptionsTo (Down_Container (Inv_Spec downloader))
    [ WithWorkingDir pipelineTargetDirectory;
      WithParameters (Down_Parameters (Inv_Spec downloader))
        (Ref_Parameters (PipeS_DownloaderRef (Pipeline_Spec pipeline))) None;
      mount_target;
      WithNamePrefix downloadContainerPrefix ].

Definition initContainers (pipeline : Pipeline) (downloader : Invocation DownloaderSpec) :
    list Container :=
  ApplyOptionsToAll [sidecarInitContainer; downloaderContainer pipeline downloader]
    (baseContainerOptions pipeline).

Definition scannerContainers (pipeline : Pipeline) (profile : Invocation ProfileSpec) :
    list Container :=
  let spec := Inv_Spec profile in
  let settings := Ref_Parameters (PipeS_ProfileRef (Pipeline_Spec pipeline)) in
  ApplyOptionsToAll
    (FilterConditionalContainers (Prof_Containers spec) (Prof_Parameters spec) settings)
    (baseContainerOptions pipeline ++
      [ WrapCommand [sidecarBinaryPath; "scanner"];
        WithWorkingDir pipelineTargetDirectory;
        WithParameters (Prof_Parameters spec) settings None;
        mount_target;
        WithNamePrefix scanContainerPrefix ]).

Definition uploaderContainers (pipeline : Pipeline) (profile : Invocation ProfileSpec)
    (downloader : Invocation DownloaderSpec) (uploaders : list (Invocation UploaderSpec)) :
    list Container :=
  let scanContainerNames := C_Name <$> scannerContainers pipeline profile in
  let artifactArgs := generateArtifactArguments (Down_MetadataFiles (Inv_Spec downloader))
    (Prof_Artifacts (Inv_Spec profile)) in
  let parentParams := ParseParameters (Prof_Parameters (Inv_Spec profile))
    (Inv_Parameters profile) None in
  ApplyOptionsToAll (uploader_containers parentParams uploaders)
    (baseContainerOptions pipeline ++
      [ WrapCommand [sidecarBinaryPath; "await-scanners"];
        WithAdditionalArgs artifactArgs;
        WithWorkingDir pipelineResultsDirectory;
        WithAdditionalEnvVars
          [env_value EnvVarScanContainerNames (strings_join scanContainerNames ",")];
        WithNamePrefix uploadContainerPrefix ]).

(** The labels and annotations of the uploaders, a later one overriding an
    earlier one. *)
Definition uploader_metadata (f : ObjectMeta -> gmap string string)
    (uploaders : list (Invocation UploaderSpec)) : gmap string string :=
  fold_left (fun m invocation => maps_copy m (f (Inv_Metadata invocation))) uploaders ∅.

(** The specification of a new pod, from [spec]. *)
Definition scan_pod_spec (spec : PodSpec) (pipeline : Pipeline) (profile : Invocation ProfileSpec)
    (downloader : Invocation DownloaderSpec) (uploaders : list (Invocation UploaderSpec)) : PodSpec :=
  let pspec := Pipeline_Spec pipeline in
  let volumes :=
    [targetVolume; binaryVolume; resultsVolume; metadataVolume; processVolume]
    ++ Down_Volumes (Inv_Spec downloader)
    ++ Prof_Volumes (Inv_Spec profile)
    ++ flat_map (fun u => Up_Volumes (Inv_Spec u)) uploaders in
  let imagePullSecrets :=
    PS_ImagePullSecrets spec
    ++ Down_ImagePullSecrets (Inv_Spec downloader)
    ++ Prof_ImagePullSecrets (Inv_Spec profile)
    ++ flat_map (fun u => Up_ImagePullSecrets (Inv_Spec u)) uploaders in
  mkPodSpec volumes
    (ApplyStandardOptions (initContainers pipeline downloader))
    (ApplyStandardOptions (scannerContainers pipeline profile
       ++ uploaderContainers pipeline profile downloader uploaders))
    (PipeS_ServiceAccountName pspec)
    (PipeS_RuntimeClassName pspec)
    "Never"
    (slices_compact_func (fun s1 s2 => String.eqb (LOR_Name s1) (LOR_Name s2)) imagePullSecrets)
    (PipeS_Resources pspec)
    (PS_rest spec).

(** Its labels and annotations, added to those of [meta]. *)
Definition scan_pod_meta (meta : ObjectMeta) (pipeline : Pipeline) (profile : Invocation ProfileSpec)
    (downloader : Invocation DownloaderSpec) (uploaders : list (Invocation UploaderSpec)) : ObjectMeta :=
  let pspec := Pipeline_Spec pipeline in
  let labels := maps_copy (Labels meta) (PropagateMetadata
    [Labels (Inv_Metadata downloader); Labels (Inv_Metadata profile);
     uploader_metadata Labels uploaders]) in
  let labels := <[TypeLabelKey := PipelinePodType]> labels in
  let labels := <[PipelineLabelKey := Name (Pipeline_Meta pipeline)]> labels in
  let labels := <[DownloaderLabelKey := Ref_name (PipeS_DownloaderRef pspec)]> labels in
  let labels := <[ProfileLabelKey := Ref_name (PipeS_ProfileRef pspec)]> labels in
  let annotations := maps_copy (Annotations meta) (PropagateMetadata
    [Annotations (Inv_Metadata downloader); Annotations (Inv_Metadata profile);
     uploader_metadata Annotations uploaders]) in
  with_annotations (with_labels meta labels) annotations.

Definition populateScanPod (pod : Pod) (pipeline : Pipeline) (profile : Invocation ProfileSpec)
    (downloader : Invocation DownloaderSpec) (uploaders : list (Invocation UploaderSpec)) :
    result GoError Pod :=
  let pod :=
    if time_is_zero (CreationTimestamp (Pod_Meta pod)) then
      mkPod (scan_pod_meta (Pod_Meta pod) pipeline profile downloader uploaders)
        (scan_pod_spec (Pod_Spec pod) pipeline profile downloader uploaders) (Pod_Status pod)
    else pod in
  match SetControllerReference "Pipeline" (Pipeline_Meta pipeline) (Pod_Meta pod) with
  | Err e => Err e
  | Ok m => Ok (mkPod m (Pod_Spec pod) (Pod_Status pod))
  end.

(** ** Reconcile *)

Fixpoint uploaderInvocationsFromProfile (namespace : string)
    (uploaderRefs : list ParameterizedLocalObjectReference)
    (uploaders : list (Invocation UploaderSpec)) :
    prog (result GoError (list (Invocation UploaderSpec))) :=
  match uploaderRefs with
  | [] => Ret (Ok uploaders)
  | uploaderRef :: rest =>
      let* ' (uploader, err) := UploaderInvocationFromReference namespace uploaderRef in
      match err with
      | Some e => Ret (Err (Wrapped ("unable to get uploader spec for " +:+ namespace +:+ "/"
          +:+ Ref_name uploaderRef) e))
      | None => uploaderInvocationsFromProfile namespace rest (uploaders ++ [uploader])
      end
  end.

(** Whether the pipeline has outlived [TTLSecondsMaxLifetime]; the clock is
    read only when the limit is set. *)
Definition exceeded_lifetime (pipeline : Pipeline) : prog bool :=
  match PipeS_TTLSecondsMaxLifetime (Pipeline_Spec pipeline) with
  | None => Ret false
  | Some seconds =>
      let* now := op Now in
      Ret (seconds_gt (time_sub now (CreationTimestamp (Pipeline_Meta pipeline))) seconds)
  end.

Definition started_status (st : PipelineStatus) (scanPod : Pod) : PipelineStatus :=
  let startTime := CreationTimestamp (Pod_Meta scanPod) in
  mkPipelineStatus
    (PipeSt_Conditions st ++
      [mkCondition PipelineScanPodCreatedConditionType ConditionTrue "ScanPodSuccessfullyCreated"
         ("The scan pod " +:+ Name (Pod_Meta scanPod) +:+ " has been created.")
         (Rfc3339Copy startTime)])
    (Some startTime) (PipeSt_CompletionTime st) PipelineDownloading
    (mkStageStatuses PipelineStageInProgress PipelineStageNotStarted
       (UploadStatus (PipeSt_StageStatuses st))).

(** From the creation or update of the scan pod on. *)
Definition reconcile_scan_pod (pipeline : Pipeline) (profile : Invocation ProfileSpec)
    (downloader : Invocation DownloaderSpec) (uploaders : list (Invocation UploaderSpec)) :
    prog Outcome :=
  let meta := Pipeline_Meta pipeline in
  let st := Pipeline_Status pipeline in
  let* res := op (CreateOrUpdate KPod
    (pod_named (pipelineResourcePrefix +:+ Name meta) (Namespace meta))
    (fun pod => populateScanPod pod pipeline profile downloader uploaders)) in
  match res with
  | Err e => Ret (emptyResult, Some (Wrapped "unable to generate new scan pod" e))
  | Ok (scanPod, scanPodOp) =>
      let* _ :=
        if decide (scanPodOp = OperationResultCreated)
        then op (UpdateMetric pipelinePodsCreated (metricLabelsForPipeline pipeline) (MetricAdd 1))
        else Ret tt in
      if negb (ptime_is_zero (PipeSt_StartTime st)) then
        if negb (ContainsFinalizer meta metricsFinalizer) then
          let* res := patchResource KPipeline pipeline
            (with_pipeline_meta pipeline (AddFinalizer meta metricsFinalizer)) in
          match res with
          | Err e => Ret (emptyResult, Some (Wrapped "failed to add metrics finalizer" e))
          | Ok pipeline =>
              let* _ := op (UpdateMetric pipelinesRunning (metricLabelsForPipeline pipeline)
                (MetricAdd 1)) in
              Ret (mkResult 0 (Some 25), None)
          end
        else handleCompletion pipeline scanPod
      else
        let* res := patchStatus KPipeline pipeline
          (with_pipeline_status pipeline (started_status st scanPod)) in
        Ret (emptyResult, err_of res)
  end.

(** From the check of the completion time on. *)
Definition reconcile_unexpired (pipeline : Pipeline) : prog Outcome :=
  let meta := Pipeline_Meta pipeline in
  let spec := Pipeline_Spec pipeline in
  if negb (ptime_is_zero (PipeSt_CompletionTime (Pipeline_Status pipeline))) then
    handlePostCompletion pipeline
  else
  let* ' (profile, err) := ProfileInvocationFromReference (Namespace meta) (PipeS_ProfileRef spec) in
  match err with Some e => Ret (emptyResult, Some e) | None =>
  let* ' (downloader, err) :=
    DownloaderInvocationFromReference (Namespace meta) (PipeS_DownloaderRef spec) in
  match err with Some e => Ret (emptyResult, Some e) | None =>
  let* res := uploaderInvocationsFromProfile (Namespace meta)
    (Prof_UploaderRefs (Inv_Spec profile)) [] in
  match res with Err e => Ret (emptyResult, Some e) | Ok uploaders =>
  reconcile_scan_pod pipeline profile downloader uploaders
  end end end.

Definition Reconcile (key : ObjectKey) : prog Outcome :=
  let* res := op (Get KPipeline key) in
  match res with
  | Err e => Ret (emptyResult, ignore_not_found (Some e))
  | Ok pipeline =>
  let meta := Pipeline_Meta pipeline in
  let wasDeleted := negb (ptime_is_zero (DeletionTimestamp meta)) in
  if wasDeleted && ContainsFinalizer meta metricsFinalizer then
    let* res := patchResource KPipeline pipeline
      (with_pipeline_meta pipeline (RemoveFinalizer meta metricsFinalizer)) in
    match res with
    | Err e => Ret (emptyResult, Some (Wrapped "failed to remove metrics finalizer upon deletion" e))
    | Ok pipeline =>
        let* _ := op (UpdateMetric pipelinesRunning (metricLabelsForPipeline pipeline)
          (MetricAdd (-1))) in
        Ret (emptyResult, None)
    end
  else
  let* exceeded := exceeded_lifetime pipeline in
  if exceeded : bool then
    let* res := op (Delete KPipeline pipeline) in
    Ret (emptyResult, ignore_not_found (err_of res))
  else reconcile_unexpired pipeline
  end.

End reconciler.
