(* ===== verification/PipelineSafety.v ===== *)
(** * Safety of the pipeline reconciler

    What holds on every path through [Reconcile], whatever the API server and
    the clock answer: the metrics and the finalizer that guards them, the
    steps of a pipeline's status, the objects written and deleted. *)

From Stdlib Require Import ZArith Lia String Ascii.
From S2P Require Import Prelude Effects GoStd K8s Api Client Resources Containers ControllerCommon PipelineController.

Local Open Scope string_scope.
Local Open Scope Z_scope.
Local Open Scope list_scope.
Local Open Scope prog_scope.

(** ** Reading the events of a reconciliation *)

(** What an event adds to the gauge of running pipelines. *)
Definition gauge_change (v : Event) : Z :=
  match v with
  | event (UpdateMetric pipelinesRunning _ (MetricAdd n)) _ => n
  | _ => 0
  end.

Definition has_metrics_finalizer (p : Pipeline) : Z :=
  if bool_decide (metricsFinalizer ∈ Finalizers (Pipeline_Meta p)) then 1 else 0.

(** What an event adds to the number of pipelines that carry the metrics
    finalizer: a patch that the server accepted. *)
Definition finalizer_change (v : Event) : Z :=
  match patch_of KPipeline v with
  | Some w =>
      if is_ok (write_answer w)
      then has_metrics_finalizer (write_to w) - has_metrics_finalizer (write_from w)
      else 0
  | None => 0
  end.

Definition gauge_imbalance (v : Event) : Z := gauge_change v - finalizer_change v.

(** ** The life of a pipeline *)

Definition started (st : PipelineStatus) : Prop := ptime_is_zero (PipeSt_StartTime st) = false.
Definition completed (st : PipelineStatus) : Prop :=
  ptime_is_zero (PipeSt_CompletionTime st) = false.

(** The steps the controller may make a pipeline's status take: it starts once,
    moves between phases while its pod runs, and completes once; start and
    completion times and the conditions already there are never rewritten. *)
Inductive status_step (st : PipelineStatus) : PipelineStatus -> Prop :=
| step_start t phase stages c :
    ~ started st -> ~ completed st ->
    Cond_Type c = PipelineScanPodCreatedConditionType ->
    status_step st (mkPipelineStatus (PipeSt_Conditions st ++ [c]) (Some t)
      (PipeSt_CompletionTime st) phase stages)
| step_progress phase stages :
    started st -> ~ completed st -> phase = PipeSt_Phase st \/ phase <> PipelineFailed ->
    status_step st (mkPipelineStatus (PipeSt_Conditions st) (PipeSt_StartTime st)
      (PipeSt_CompletionTime st) phase stages)
| step_succeed t stages c :
    started st -> ~ completed st -> Cond_Status c = ConditionTrue ->
    Cond_LastTransitionTime c = t ->
    status_step st (mkPipelineStatus (PipeSt_Conditions st ++ [c]) (PipeSt_StartTime st)
      (Some t) PipelineSucceeded stages)
| step_fail t stages c :
    started st -> ~ completed st -> Cond_Status c = ConditionFalse ->
    Cond_LastTransitionTime c = t ->
    status_step st (mkPipelineStatus (PipeSt_Conditions st ++ [c]) (PipeSt_StartTime st)
      (Some t) PipelineFailed stages).

(** The statuses a pipeline can have that was created without one. *)
Definition reachable_status : PipelineStatus -> Prop := rtc status_step zero_PipelineStatus.

(** The write of a status keeps the rest of the object and is such a step. *)
Definition status_write_ok (v : Event) : Prop :=
  match status_patch_of KPipeline v with
  | Some w =>
      Pipeline_Meta (write_to w) = Pipeline_Meta (write_from w) /\
      Pipeline_Spec (write_to w) = Pipeline_Spec (write_from w) /\
      status_step (Pipeline_Status (write_from w)) (Pipeline_Status (write_to w))
  | None => True
  end.

(** ** Deletions *)

(** The pipeline may be deleted at time [now]. *)
Definition expired (p : Pipeline) (now : Time) : Prop :=
  (exists n, PipeS_TTLSecondsMaxLifetime (Pipeline_Spec p) = Some n /\
     seconds_gt (time_sub now (CreationTimestamp (Pipeline_Meta p))) n = true)
  \/ (exists n t, PipeS_TTLSecondsAfterFinished (Pipeline_Spec p) = Some n /\
     PipeSt_CompletionTime (Pipeline_Status p) = Some t /\
     time_sub (time_add t (duration_mul n Second)) now <= 0).

Definition deletes_expired (last : option Time) (v : Event) : Prop :=
  match delete_of KPipeline v with
  | Some (p, _) => exists now, last = Some now /\ expired p now
  | None => True
  end.

(** ** What a reconciliation may write *)

(** Besides metrics, a reconciliation writes pipelines and the scan pod of the
    one it reads. *)
Definition writes_own_objects (p : Pipeline) (v : Event) : Prop :=
  match v with
  | event e x =>
      match e in Op X return X -> Prop with
      | Get _ _ | ListObjects _ _ | Now | UpdateMetric _ _ _ => fun _ => True
      | Patch k _ _ | StatusPatch k _ _ | Delete k _ => fun _ => k = KPipeline
      | CreateOrUpdate k o _ => fun _ =>
          k = KPod /\ key_of k o =
            mkObjectKey (Namespace (Pipeline_Meta p))
                (pipelineResourcePrefix +:+ Name (Pipeline_Meta p))
      | _ => fun _ => False
      end x
  end.

(** What an event adds to the counter of completed pipelines. *)
Definition completions (v : Event) : Z :=
  match v with
  | event (UpdateMetric pipelinesCompleted _ (MetricAdd n)) _ => n
  | _ => 0
  end.

(** The server's answers to the writes of [handlePostCompletion]: a patch of
    the metadata gives back the status there was (the status is a
    subresource), and its errors are not the panic of the caller. *)
Definition post_completion_answers (v : Event) : Prop :=
  match patch_of KPipeline v, delete_of KPipeline v with
  | Some w, _ =>
      match write_answer w with
      | Ok p => Pipeline_Status p = Pipeline_Status (write_to w)
      | Err _ => True
      end
  | None, Some (_, Err e) => e <> NilDereference
  | None, _ => True
  end.

(** ** The events of a reconciliation of [p] *)

(** The statuses [handleCompletion] may write. *)
Definition completion_statuses (st : PipelineStatus) (pod : Pod) (t : Time) : list PipelineStatus :=
  [succeeded_status st t; failed_status st pod t; running_status st pod; pending_status st].

Inductive reconcile_event `{ControllerUtil} (p : Pipeline) : Event -> Prop :=
| ev_read v : is_read v -> reconcile_event p v
| ev_remove_finalizer a :
    reconcile_event p (event (Patch KPipeline p
      (with_pipeline_meta p (RemoveFinalizer (Pipeline_Meta p) metricsFinalizer))) a)
| ev_add_finalizer a :
    reconcile_event p (event (Patch KPipeline p
      (with_pipeline_meta p (AddFinalizer (Pipeline_Meta p) metricsFinalizer))) a)
| ev_running q d x :
    reconcile_event p (event
      (UpdateMetric pipelinesRunning (metricLabelsForPipeline q) (MetricAdd d)) x)
| ev_pod_created x :
    reconcile_event p (event
      (UpdateMetric pipelinePodsCreated (metricLabelsForPipeline p) (MetricAdd 1)) x)
| ev_completed q s x :
    reconcile_event p (event (UpdateMetric pipelinesCompleted
      (<["phase" := s]> (metricLabelsForPipeline q)) (MetricAdd 1)) x)
| ev_duration q s d x :
    reconcile_event p (event (UpdateMetric pipelineDurationSeconds
      (<["phase" := s]> (metricLabelsForPipeline q)) (MetricObserve d)) x)
| ev_delete q a : reconcile_event p (event (Delete KPipeline q) a)
| ev_pod f a :
    reconcile_event p (event (CreateOrUpdate KPod
      (pod_named (pipelineResourcePrefix +:+ Name (Pipeline_Meta p)) (Namespace (Pipeline_Meta p))) f) a)
| ev_start pod a :
    ~ started (Pipeline_Status p) -> ~ completed (Pipeline_Status p) ->
    reconcile_event p (event (StatusPatch KPipeline p
      (with_pipeline_status p (started_status (Pipeline_Status p) pod))) a)
| ev_progress pod t st a :
    started (Pipeline_Status p) -> ~ completed (Pipeline_Status p) ->
    In st (completion_statuses (Pipeline_Status p) pod t) ->
    reconcile_event p (event (StatusPatch KPipeline p (with_pipeline_status p st)) a).

(** The first event reads a pipeline, all others satisfy [P] of it; nothing
    happens when it cannot be read. *)
Definition after_read (P : Pipeline -> Event -> Prop) (tr : list Event) : Prop :=
  match tr with
  | v :: tr =>
      match get_of KPipeline v with
      | Some (Ok p) => Forall (P p) tr
      | Some (Err _) => tr = []
      | None => False
      end
  | [] => False
  end.

Lemma sum_gauge_imbalance tr :
  sum_events gauge_imbalance tr = sum_events gauge_change tr - sum_events finalizer_change tr.
Proof. unfold gauge_imbalance. induction tr; simpl; lia. Qed.

Lemma read_imbalance v : is_read v -> gauge_imbalance v = 0.
Proof. destruct v as [X [] x]; done. Qed.

(** ** Parts of a reconciliation that only read *)

Lemma uploaderInvocations_reads ns refs us :
  all_events is_read (uploaderInvocationsFromProfile ns refs us).
Proof.
  revert us; induction refs as [|ref refs IH]; intros us; simpl; [apply all_events_ret|].
  apply all_events_bind; [apply UploaderInvocation_reads|].
  intros [u [e|]]; [apply all_events_ret|apply IH].
Qed.

Lemma exceeded_lifetime_reads p : all_events is_read (exceeded_lifetime p).
Proof.
  unfold exceeded_lifetime. destruct (PipeS_TTLSecondsMaxLifetime _); simpl;
    intros; repeat constructor.
Qed.
#[export] Hint Resolve uploaderInvocations_reads exceeded_lifetime_reads : ocular.

Section reconciler_properties.
Context `{ControllerUtil} `{MapRange string}.
Implicit Types (r : PipelineReconciler).

Lemma zero_sum_reads {A} (p : prog A) : all_events is_read p -> zero_sum gauge_imbalance p.
Proof. intros Hp. by apply (zero_sum_all_events _ _ _ Hp read_imbalance). Qed.

(** Adding or removing the finalizer changes the count by one. *)
Lemma remove_finalizer_change p :
  ContainsFinalizer (Pipeline_Meta p) metricsFinalizer = true ->
  has_metrics_finalizer
    (with_pipeline_meta p (RemoveFinalizer (Pipeline_Meta p) metricsFinalizer))
  - has_metrics_finalizer p = -1.
Proof.
  rewrite ContainsFinalizer_iff. unfold has_metrics_finalizer; simpl. intros Hin.
  rewrite (bool_decide_true _ Hin), bool_decide_false; [done|].
  rewrite RemoveFinalizer_elem. by intros [? _].
Qed.

Lemma add_finalizer_change p :
  ContainsFinalizer (Pipeline_Meta p) metricsFinalizer = false ->
  has_metrics_finalizer
    (with_pipeline_meta p (AddFinalizer (Pipeline_Meta p) metricsFinalizer))
  - has_metrics_finalizer p = 1.
Proof.
  intros Hc. unfold has_metrics_finalizer; simpl.
  rewrite bool_decide_true by (apply AddFinalizer_elem; by left).
  rewrite bool_decide_false; [done|]. rewrite <-ContainsFinalizer_iff. by rewrite Hc.
Qed.

Lemma handleCompletion_balanced p pod : zero_sum gauge_imbalance (handleCompletion p pod).
Proof.
  unfold handleCompletion. simpl. intros t.
  destruct (Pod_Phase (Pod_Status pod)); simpl; intros; done.
Qed.

Lemma await_ttl_balanced p : zero_sum gauge_imbalance (await_ttl p).
Proof.
  unfold await_ttl. destruct (PipeS_TTLSecondsAfterFinished _); [|done].
  destruct (PipeSt_CompletionTime _); [|done]. apply zero_sum_vis; [done|]. intros now. simpl.
  destruct (_ <=? 0); [|done]. by apply zero_sum_vis.
Qed.

Lemma handlePostCompletion_balanced p : zero_sum gauge_imbalance (handlePostCompletion p).
Proof.
  unfold handlePostCompletion.
  destruct (ContainsFinalizer _ _) eqn:E; [|apply await_ttl_balanced].
  intros [p'|e]; [|done]. simpl. intros ?. unfold deref.
  pose proof (remove_finalizer_change p E) as Hr.
  destruct (PipeSt_CompletionTime _); [|simpl; unfold gauge_imbalance, finalizer_change; simpl; lia].
  destruct (PipeSt_StartTime _); [|simpl; unfold gauge_imbalance, finalizer_change; simpl; lia].
  simpl. intros ? ?. eapply always_impl; [apply await_ttl_balanced|].
  intros tr a Htr. cbv beta in Htr. simpl. rewrite Htr. unfold gauge_imbalance, finalizer_change; simpl; lia.
Qed.

Lemma reconcile_scan_pod_balanced r p profile downloader uploaders :
  zero_sum gauge_imbalance (reconcile_scan_pod r p profile downloader uploaders).
Proof.
  unfold reconcile_scan_pod. apply zero_sum_vis; [done|]. intros [[pod res]|e]; [|done].
  apply zero_sum_bind; [destruct (decide _); [by apply zero_sum_vis|done]|]. intros _.
  destruct (negb (ptime_is_zero _)); [|by apply zero_sum_vis].
  destruct (ContainsFinalizer _ _) eqn:E; [apply handleCompletion_balanced|].
  pose proof (add_finalizer_change p E) as Ha.
  intros [p'|e]; [|done]. simpl. intros ?. unfold gauge_imbalance, finalizer_change. simpl. lia.
Qed.

Lemma reconcile_unexpired_balanced r p : zero_sum gauge_imbalance (reconcile_unexpired r p).
Proof.
  unfold reconcile_unexpired.
  destruct (negb _); [apply handlePostCompletion_balanced|].
  apply zero_sum_bind; [apply zero_sum_reads; auto with ocular|]. intros [profile [e|]]; [done|].
  apply zero_sum_bind; [apply zero_sum_reads; auto with ocular|]. intros [downloader [e|]]; [done|].
  apply zero_sum_bind; [apply zero_sum_reads; auto with ocular|]. intros [uploaders|e]; [|done].
  apply reconcile_scan_pod_balanced.
Qed.

Lemma Reconcile_balanced r key : zero_sum gauge_imbalance (Reconcile r key).
Proof.
  unfold Reconcile. apply zero_sum_vis; [done|]. intros [p|e]; [|done].
  destruct (_ && _) eqn:E.
  { apply andb_true_iff in E as [_ E]. pose proof (remove_finalizer_change p E) as Hr.
    intros [p'|e]; [|done]. simpl. intros ?. unfold gauge_imbalance, finalizer_change. simpl. lia. }
  apply zero_sum_bind; [apply zero_sum_reads; auto with ocular|]. intros [].
  - by apply zero_sum_vis.
  - apply reconcile_unexpired_balanced.
Qed.

(** *** The labels of the metrics *)

Lemma read_metric_labels v : is_read v -> metric_labels_ok v.
Proof. by destruct v as [X [] x]. Qed.

Lemma metricLabels_dom p : dom (metricLabelsForPipeline p) = {["profile"; "downloader"; "namespace"]}.
Proof. unfold metricLabelsForPipeline. set_solver. Qed.

Lemma metricLabels_phase_dom p phase :
  dom (<["phase" := phase]> (metricLabelsForPipeline p))
  = {["profile"; "downloader"; "namespace"; "phase"]}.
Proof. rewrite dom_insert_L, metricLabels_dom. set_solver. Qed.
#[local] Hint Resolve metricLabels_dom metricLabels_phase_dom read_metric_labels : ocular.

(** *** The events of a reconciliation *)

Lemma await_ttl_events p q : all_events (reconcile_event p) (await_ttl q).
Proof.
  unfold await_ttl, deref. destruct (PipeS_TTLSecondsAfterFinished _); [|constructor].
  destruct (PipeSt_CompletionTime _); [|constructor].
  apply all_events_vis; [by constructor|]. intros now. simpl.
  destruct (_ <=? 0); [apply all_events_vis; [by constructor|]; intros|]; constructor.
Qed.

Lemma handlePostCompletion_events p : all_events (reconcile_event p) (handlePostCompletion p).
Proof.
  unfold handlePostCompletion, deref.
  destruct (ContainsFinalizer _ _); [|apply await_ttl_events].
  apply all_events_vis; [by constructor|]. intros [p'|e]; [|constructor].
  apply all_events_vis; [by constructor|]. intros ?. simpl.
  destruct (PipeSt_CompletionTime _); [|constructor].
  destruct (PipeSt_StartTime _); [|constructor].
  repeat (apply all_events_vis; [by constructor|]; intros ?; simpl). apply await_ttl_events.
Qed.

Lemma handleCompletion_events p pod :
  started (Pipeline_Status p) -> ~ completed (Pipeline_Status p) ->
  all_events (reconcile_event p) (handleCompletion p pod).
Proof.
  intros Hs Hc. unfold handleCompletion. apply all_events_vis; [by constructor|].
  intros t. simpl. destruct (Pod_Phase _);
    try (apply all_events_vis;
      [intros; apply (ev_progress _ pod t); [done..|]; simpl; tauto|]; intros); constructor.
Qed.

Lemma reconcile_scan_pod_events r p profile downloader uploaders :
  ~ completed (Pipeline_Status p) ->
  all_events (reconcile_event p) (reconcile_scan_pod r p profile downloader uploaders).
Proof.
  intros Hc. unfold reconcile_scan_pod.
  apply all_events_vis; [by constructor|]. intros [[pod res]|e]; [|constructor].
  apply all_events_bind.
  { destruct (decide _); [|constructor]. apply all_events_vis; [by constructor|constructor]. }
  intros _. destruct (ptime_is_zero (PipeSt_StartTime _)) eqn:Es; simpl.
  { assert (~ started (Pipeline_Status p)) by (unfold started; congruence).
    apply all_events_vis; by constructor. }
  destruct (ContainsFinalizer _ _); [by apply handleCompletion_events|].
  apply all_events_vis; [by constructor|]. intros [p'|e]; [|constructor].
  apply all_events_vis; [by constructor|]. constructor.
Qed.

Lemma reads_events {A} p (q : prog A) : all_events is_read q -> all_events (reconcile_event p) q.
Proof. intros Hq. eapply all_events_impl; [exact Hq|]. by constructor. Qed.

Lemma reconcile_unexpired_events r p : all_events (reconcile_event p) (reconcile_unexpired r p).
Proof.
  unfold reconcile_unexpired.
  destruct (ptime_is_zero (PipeSt_CompletionTime _)) eqn:Ec; [|apply handlePostCompletion_events].
  assert (~ completed (Pipeline_Status p)) by (unfold completed; congruence).
  apply all_events_bind; [apply reads_events; auto with ocular|]. intros [profile [e|]]; [constructor|].
  apply all_events_bind; [apply reads_events; auto with ocular|]. intros [down [e|]]; [constructor|].
  apply all_events_bind; [apply reads_events; auto with ocular|]. intros [us|e]; [|constructor].
  by apply reconcile_scan_pod_events.
Qed.

(** Every event after the reading of the pipeline is one of these. *)
Lemma Reconcile_events r key :
  always (Reconcile r key) (fun tr _ => after_read reconcile_event tr).
Proof.
  unfold Reconcile. intros [p|e]; [|done]. simpl.
  match goal with |- always ?q _ => change (all_events (reconcile_event p) q) end.
  destruct (_ && _).
  { apply all_events_vis; [by constructor|]. intros [p'|e]; [|constructor].
    apply all_events_vis; [by constructor|]. constructor. }
  apply all_events_bind; [apply reads_events; auto with ocular|]. intros [].
  - apply all_events_vis; [by constructor|]. constructor.
  - apply reconcile_unexpired_events.
Qed.

(** C6: on every path of a reconciliation, whatever fails, the gauge of
    running pipelines is raised once for each patch whose acceptance the
    controller was told that adds the metrics finalizer, and lowered once for
    each that removes it: it changes by nothing else.  That is not the number of
    pipelines with the finalizer: a patch whose answer is lost is not counted
    ([PipelineRefinement.lost_answer_never_counted]), one that takes away what is
    gone is counted again ([PipelineRefinement.stale_read_counts_twice]). *)
Theorem Reconcile_gauge_follows_finalizer r key :
  always (Reconcile r key)
    (fun tr _ => sum_events gauge_change tr = sum_events finalizer_change tr).
Proof.
  eapply always_impl; [apply Reconcile_balanced|].
  intros tr a Htr. cbv beta in *. rewrite sum_gauge_imbalance in Htr. lia.
Qed.

Lemma after_read_impl P Q tr :
  after_read P tr -> (forall p v, P p v -> Q p v) -> after_read Q tr.
Proof.
  intros HP HPQ. destruct tr as [|v tr]; [done|]. simpl in *.
  destruct (get_of KPipeline v) as [[p|e]|]; [|done..].
  eapply Forall_impl; [exact HP|apply HPQ].
Qed.

(** After the reading of the pipeline, a reconciliation writes nothing
    but pipelines (their metadata, their status, their deletion), metrics,
    and the pod [pipeline-<name>] in the namespace of the pipeline; when the
    pipeline cannot be read nothing is written. *)
Theorem Reconcile_footprint r key :
  always (Reconcile r key) (fun tr _ => after_read writes_own_objects tr).
Proof.
  eapply always_impl; [apply Reconcile_events|]. intros tr a Htr.
  eapply after_read_impl; [exact Htr|]. intros p v Hv.
  destruct Hv as [v Hv| | | | | | | | | |]; try done. by destruct v as [X [] x].
Qed.

(** Every metric is updated with exactly the labels it is declared with
    (any other set of labels panics). *)
Theorem Reconcile_metric_labels r key : all_events metric_labels_ok (Reconcile r key).
Proof.
  eapply always_impl; [apply Reconcile_events|]. intros [|v tr] a Htr; simpl in *; [done|].
  destruct (get_of KPipeline v) as [[p|e]|] eqn:E; subst.
  - constructor; [by destruct v as [X [] x]|]. eapply Forall_impl; [exact Htr|].
    intros v' []; simpl; auto with ocular.
  - constructor; [by destruct v as [X [] x]|constructor].
  - done.
Qed.

(** *** Status *)

Lemma completion_status_step st pod t st' :
  started st -> ~ completed st -> In st' (completion_statuses st pod t) -> status_step st st'.
Proof.
  intros Hs Hc [<-|[<-|[<-|[<-|[]]]]].
  - by apply step_succeed.
  - unfold failed_status. destruct (determineScanPodStageStatuses pod) as [[d s] u].
    by apply step_fail.
  - unfold running_status. destruct (determineScanPodStageStatuses pod) as [[d s] u].
    apply step_progress; [done..|]. repeat case_decide; auto.
  - apply step_progress; auto.
Qed.

Lemma started_status_step st pod :
  ~ started st -> ~ completed st -> status_step st (started_status st pod).
Proof. intros. by apply step_start. Qed.

(** C4: every write a reconciliation makes to the status of a pipeline leaves
    its metadata and its specification alone and is a step of its life: it
    starts once, it completes once and only after it started, a completion
    appends one condition stamped with the completion time, and the start
    time, the completion time and the earlier conditions are never rewritten. *)
Theorem Reconcile_status_steps r key :
  always (Reconcile r key) (fun tr _ => after_read (fun _ => status_write_ok) tr).
Proof.
  eapply always_impl; [apply Reconcile_events|]. intros tr a Htr.
  eapply after_read_impl; [exact Htr|]. intros p v Hv. unfold status_write_ok.
  destruct Hv as [v Hv| | | | | | | | |pod b Hs Hc|pod t st b Hs Hc Hst]; try done.
  - by destruct v as [X [] x].
  - simpl. split; [done|]. split; [done|]. by apply started_status_step.
  - simpl. split; [done|]. split; [done|]. by apply (completion_status_step _ pod t).
Qed.

Lemma reachable_completed st :
  reachable_status st -> completed st ->
  started st /\ (PipeSt_Phase st = PipelineSucceeded \/ PipeSt_Phase st = PipelineFailed).
Proof.
  intros Hst. revert st Hst. unfold reachable_status, completed.
  apply (rtc_ind_r (fun st => ptime_is_zero (PipeSt_CompletionTime st) = false -> _)); [done|].
  intros x y _ Hxy _ Hc. destruct Hxy; simpl in *; tauto.
Qed.

(** What [handleCompletion] does to the phase and the completion time, by the
    phase of the pod. *)
Definition phase_of_pod (pod : Pod) (now : Time) (old new : PipelineStatus) : Prop :=
  match Pod_Phase (Pod_Status pod) with
  | PodSucceeded =>
      PipeSt_Phase new = PipelineSucceeded /\ PipeSt_CompletionTime new = Some now
  | PodFailed => PipeSt_Phase new = PipelineFailed /\ PipeSt_CompletionTime new = Some now
  | PodRunning =>
      PipeSt_CompletionTime new = PipeSt_CompletionTime old /\
      PipeSt_Phase new =
        match determineScanPodStageStatuses pod with
        | (PipelineStageInProgress, _, _) => PipelineDownloading
        | (_, PipelineStageInProgress, _) => PipelineScanning
        | (_, _, PipelineStageSkipped) => PipeSt_Phase old
        | _ => PipelineUploading
        end
  | PodPending =>
      PipeSt_CompletionTime new = PipeSt_CompletionTime old /\
      PipeSt_Phase new = PipelineSucceeded
  | PodUnknown | PodPhaseEmpty => False
  end.

Lemma running_status_phase st pod :
  PipeSt_CompletionTime (running_status st pod) = PipeSt_CompletionTime st /\
  PipeSt_Phase (running_status st pod) =
    match determineScanPodStageStatuses pod with
    | (PipelineStageInProgress, _, _) => PipelineDownloading
    | (_, PipelineStageInProgress, _) => PipelineScanning
    | (_, _, PipelineStageSkipped) => PipeSt_Phase st
    | _ => PipelineUploading
    end.
Proof.
  unfold running_status. destruct (determineScanPodStageStatuses pod) as [[d s] u].
  split; [done|]. by destruct d, s, u.
Qed.

(** C28: each time it looks at the pod, [handleCompletion] makes one write to
    the status, unless the pod's phase is unknown, when it writes nothing and
    asks to come back in 15 seconds - the phase PipelineStateUnknown is never
    written.  The pipeline completes exactly when the pod has succeeded or
    failed, at the time read from the clock, with the phase of the pod; a
    running pod gives the phase of its first unfinished stage.  A pending pod
    gives the pipeline the phase Succeeded, without a completion, against what
    the comment on that phase says (pipeline_types.go): that all containers have
    terminated in success. *)
Theorem handleCompletion_phases p pod :
  always (handleCompletion p pod) (fun tr out => exists now,
    (exists new a,
      tr = [event Now now; event (StatusPatch KPipeline p (with_pipeline_status p new)) a] /\
      out = (emptyResult, err_of a) /\ phase_of_pod pod now (Pipeline_Status p) new)
    \/ (tr = [event Now now] /\ out = (requeue_after (15 * Second), None) /\
      (Pod_Phase (Pod_Status pod) = PodUnknown \/ Pod_Phase (Pod_Status pod) = PodPhaseEmpty))).
Proof.
  unfold handleCompletion, phase_of_pod. intros now. simpl.
  destruct (Pod_Phase (Pod_Status pod)) eqn:Ep; simpl.
  5,6: exists now; right; tauto.
  all: intros a; exists now; left; eexists _, a; (split; [reflexivity|]); (split; [reflexivity|]).
  - done.
  - apply running_status_phase.
  - done.
  - unfold failed_status. by destruct (determineScanPodStageStatuses pod) as [[d s] u].
Qed.

(** *** Deletions *)

Lemma read_deletes_nothing v : is_read v -> forall last, deletes_expired last v.
Proof. by destruct v as [X [] x]. Qed.

Lemma reads_delete_nothing {A} (p : prog A) :
  all_events is_read p -> all_events (fun v => forall last, deletes_expired last v) p.
Proof. intros Hp. eapply all_events_impl; [exact Hp|apply read_deletes_nothing]. Qed.

Lemma await_ttl_deletes p last :
  always (await_ttl p) (fun tr _ => with_clock deletes_expired last tr).
Proof.
  unfold await_ttl, deref. destruct (PipeS_TTLSecondsAfterFinished _) as [n|] eqn:En; [|done].
  destruct (PipeSt_CompletionTime _) as [t|] eqn:Et; [|done].
  intros now. simpl. destruct (Z.leb_spec (time_sub (time_add t (duration_mul n Second)) now) 0);
    simpl; [|done].
  intros b. split; [done|]. split; [|done].
  exists now. split; [done|]. right. eauto.
Qed.

Lemma handlePostCompletion_deletes p last :
  always (handlePostCompletion p) (fun tr _ => with_clock deletes_expired last tr).
Proof.
  unfold handlePostCompletion, deref. destruct (ContainsFinalizer _ _); [|apply await_ttl_deletes].
  intros [p'|e]; simpl; [|done]. intros ?.
  destruct (PipeSt_CompletionTime _); simpl; [|done].
  destruct (PipeSt_StartTime _); simpl; [|done]. intros ? ?.
  eapply always_impl; [apply await_ttl_deletes|]. intros tr a Htr. exact (conj I (conj I (conj I (conj I Htr)))).
Qed.

Lemma reconcile_scan_pod_deletes r p profile downloader uploaders :
  ~ completed (Pipeline_Status p) ->
  all_events (fun v => forall last, deletes_expired last v)
    (reconcile_scan_pod r p profile downloader uploaders).
Proof.
  intros Hc. unfold reconcile_scan_pod.
  apply all_events_vis; [done|]. intros [[pod res]|e]; [|constructor].
  apply all_events_bind.
  { destruct (decide _); [|constructor]. apply all_events_vis; [done|constructor]. }
  intros _. destruct (negb _); [|apply all_events_vis; [done|constructor]].
  destruct (ContainsFinalizer _ _).
  - unfold handleCompletion. apply all_events_vis; [done|]. intros t. simpl.
    destruct (Pod_Phase _); try (apply all_events_vis; [done|]; intros); constructor.
  - apply all_events_vis; [done|]. intros [p'|e]; [|constructor].
    apply all_events_vis; [done|constructor].
Qed.

Lemma reconcile_unexpired_deletes r p last :
  always (reconcile_unexpired r p) (fun tr _ => with_clock deletes_expired last tr).
Proof.
  unfold reconcile_unexpired.
  destruct (ptime_is_zero (PipeSt_CompletionTime _)) eqn:Ec; [|apply handlePostCompletion_deletes].
  assert (~ completed (Pipeline_Status p)) by (unfold completed; congruence).
  apply with_clock_all_events.
  apply all_events_bind; [apply reads_delete_nothing; auto with ocular|].
  intros [profile [e|]]; [constructor|].
  apply all_events_bind; [apply reads_delete_nothing; auto with ocular|].
  intros [down [e|]]; [constructor|].
  apply all_events_bind; [apply reads_delete_nothing; auto with ocular|].
  intros [us|e]; [|constructor]. by apply reconcile_scan_pod_deletes.
Qed.

(** C5: whatever happens, a reconciliation deletes a pipeline only when, at
    the last reading of the clock before, its age exceeded the maximal
    lifetime it asks for, or its time to live after its completion was over. *)
Theorem Reconcile_deletes_only_expired r key last :
  always (Reconcile r key) (fun tr _ => with_clock deletes_expired last tr).
Proof.
  unfold Reconcile. intros [p|e]; simpl; [|done].
  apply (always_impl _ (fun tr _ => with_clock deletes_expired last tr));
    [|intros tr a Htr; exact (conj I Htr)].
  destruct (_ && _); [by intros [p'|e]|].
  unfold exceeded_lifetime. destruct (PipeS_TTLSecondsMaxLifetime _) as [n|] eqn:En; simpl.
  - intros now. destruct (seconds_gt _ n) eqn:Egt; simpl.
    + intros b. split; [done|]. split; [|done]. exists now. split; [done|]. left. eauto.
    + eapply always_impl; [apply reconcile_unexpired_deletes|].
      intros tr a Htr. exact (conj I Htr).
  - apply reconcile_unexpired_deletes.
Qed.

(** *** After the completion *)

Lemma await_ttl_counts p :
  always (await_ttl p) (fun tr out =>
    (PipeSt_CompletionTime (Pipeline_Status p) <> None -> Forall post_completion_answers tr ->
      out.2 <> Some NilDereference) /\
    sum_events completions tr = 0 /\ sum_events finalizer_change tr = 0).
Proof.
  unfold await_ttl, deref. destruct (PipeS_TTLSecondsAfterFinished _) as [n|]; [|done].
  destruct (PipeSt_CompletionTime _) as [t|]; [|done].
  intros now. simpl. destruct (_ <=? 0); simpl; [|done].
  intros b. split; [|done]. intros _ Htr.
  inversion_clear Htr as [|? ? _ Hdel]. inversion_clear Hdel as [|? ? Hb _].
  destruct b as [u|e]; simpl in *; [done|]. destruct (is_not_found e); congruence.
Qed.

(** A completed pipeline, whose status the controller's steps produced,
    is counted as completed exactly when its metrics finalizer was removed,
    however often the reconciliation runs; and neither the start time nor the
    completion time that its duration is computed from can be missing. *)
Theorem handlePostCompletion_counts p :
  reachable_status (Pipeline_Status p) -> completed (Pipeline_Status p) ->
  always (handlePostCompletion p) (fun tr out => Forall post_completion_answers tr ->
    sum_events completions tr = - sum_events finalizer_change tr /\
    out.2 <> Some NilDereference).
Proof.
  intros Hreach Hc. destruct (reachable_completed _ Hreach Hc) as [Hs _].
  unfold handlePostCompletion.
  assert (PipeSt_CompletionTime (Pipeline_Status p) <> None) as Hsome.
  { unfold completed in Hc. by destruct (PipeSt_CompletionTime _). }
  destruct (ContainsFinalizer _ _) eqn:Ef.
  2: { eapply always_impl; [apply await_ttl_counts|]. intros tr out (Hn & -> & ->) Htr. auto. }
  pose proof (remove_finalizer_change p Ef) as Hchange.
  intros [p'|e]; simpl; [|intros _; unfold finalizer_change; simpl; split; [lia|congruence]]. intros ?.
  unfold deref. destruct (PipeSt_CompletionTime (Pipeline_Status p')) as [t|] eqn:Et; simpl.
  2: { intros Htr. inversion_clear Htr as [|? ? Hp' _]. simpl in Hp'. by rewrite Hp' in Et. }
  destruct (PipeSt_StartTime (Pipeline_Status p')) as [t'|] eqn:Et'; simpl.
  2: { intros Htr. inversion_clear Htr as [|? ? Hp' _]. simpl in Hp'. rewrite Hp' in Et'.
       simpl in Et'. unfold started in Hs. by rewrite Et' in Hs. }
  intros ? ?. eapply always_impl; [apply await_ttl_counts|].
  intros tr out (Hn & Hcount & Hfin) Htr. simpl. rewrite Hcount, Hfin.
  unfold finalizer_change. simpl. split; [lia|].
  repeat (apply Forall_cons in Htr as [_ Htr]). apply Hn; [by rewrite Et|done].
Qed.

End reconciler_properties.

(** A pipeline that succeeded at second 300, with the finalizer, its status
    produced by a start and a completion. *)
Definition done_status : PipelineStatus :=
  succeeded_status (started_status (H := controller_util_model) zero_PipelineStatus
    (mkPod (mkObjectMeta "pipeline-p" "" "ns" "" ∅ ∅ (100 * Second) None [] [])
       zero_PodSpec zero_PodStatus)) (300 * Second).

Definition done_pipeline (ttl : option Z) : Pipeline :=
  mkPipeline (mkObjectMeta "p" "" "ns" "" ∅ ∅ (50 * Second) None [metricsFinalizer] [])
    (mkPipelineSpec (mkReference "d" "" []) (mkReference "pr" "" []) (mkTarget "t" "") ""
       None ttl None [] None) done_status.

Lemma done_status_reachable : reachable_status done_status.
Proof.
  eapply rtc_l.
  - apply (started_status_step (H := controller_util_model)); [by intros ?|by intros ?].
  - apply rtc_once, (step_succeed _ (300 * Second)); [done|by intros ?|done..].
Qed.

Lemma handlePostCompletion_counts_witness :
  reachable_status (Pipeline_Status (done_pipeline (Some 60))) /\
  always (handlePostCompletion (H := controller_util_model) (done_pipeline (Some 60)))
    (fun tr out => Forall post_completion_answers tr ->
      sum_events completions tr = - sum_events finalizer_change tr /\
      out.2 <> Some NilDereference).
Proof.
  split; [exact done_status_reachable|].
  apply (handlePostCompletion_counts (H := controller_util_model));
    [exact done_status_reachable|reflexivity].
Defined.

(** C32: when the clock reads [now], a completed pipeline with a time to live
    of [n] seconds is deleted if its completion was at least that long ago;
    otherwise nothing is written and the next reconciliation is scheduled,
    strictly in the future and no later than the end of the time to live. *)
Theorem await_ttl_outcome p n t :
  PipeS_TTLSecondsAfterFinished (Pipeline_Spec p) = Some n -> is_int32 n ->
  PipeSt_CompletionTime (Pipeline_Status p) = Some t ->
  always (await_ttl p) (fun tr out => exists now,
    (t + n * Second <= now /\ exists a,
      tr = [event Now now; event (Delete KPipeline p) a] /\
      out = (emptyResult, ignore_not_found (err_of a)))
    \/ (now < t + n * Second /\ tr = [event Now now] /\ exists d,
      out = (requeue_after d, None) /\ 0 < d <= t + n * Second - now)).
Proof.
  intros Hn Hi Ht. unfold await_ttl, deref. rewrite Hn, Ht. intros now. simpl.
  rewrite duration_mul_int32 by done. unfold time_add.
  pose proof (time_sub_pos (t + n * Second) now) as Hpos.
  destruct (Z.leb_spec (time_sub (t + n * Second) now) 0); simpl.
  - intros a. exists now. left. split; [lia|]. eauto.
  - exists now. right. split; [lia|]. split; [done|]. eexists. split; [done|].
    unfold time_sub, max_int64, min_int64 in *. lia.
Qed.

Lemma await_ttl_outcome_witness :
  is_int32 60 /\ always (await_ttl (done_pipeline (Some 60))) (fun tr out => exists now,
    (300 * Second + 60 * Second <= now /\ exists a,
      tr = [event Now now; event (Delete KPipeline (done_pipeline (Some 60))) a] /\
      out = (emptyResult, ignore_not_found (err_of a)))
    \/ (now < 300 * Second + 60 * Second /\ tr = [event Now now] /\ exists d,
      out = (requeue_after d, None) /\ 0 < d <= 300 * Second + 60 * Second - now)).
Proof.
  assert (is_int32 60) as H60 by (unfold is_int32; lia). split; [exact H60|].
  exact (await_ttl_outcome (done_pipeline (Some 60)) 60 (300 * Second) eq_refl H60 eq_refl).
Defined.
