(* ===== verification/ScanPod.v ===== *)
(** * The scan pod of a pipeline

    What [populateScanPod] writes into a pod that is not created yet, and into
    one that is; the arguments the uploaders get; and what
    [determineScanPodStageStatuses] reads back from the statuses of its
    containers. *)

From Stdlib Require Import ZArith Lia String Ascii.
From S2P Require Import Prelude Effects GoStd K8s Api Client Resources Containers ControllerCommon PipelineController.

Local Open Scope string_scope.
Local Open Scope Z_scope.
Local Open Scope list_scope.

(** ** Specifications *)

(** The container of the pod made from the scanner [c] of the profile. *)
Definition is_scanner_for (p : Pipeline) (c c' : Container) : Prop :=
  C_Name c' = scanContainerPrefix +:+ C_Name c /\ C_Image c' = C_Image c /\
  argv c' = [sidecarBinaryPath; "scanner"] ++ argv c /\
  C_WorkingDir c' = pipelineTargetDirectory /\
  volume_mount pipelineTargetVolumeName pipelineTargetDirectory ∈ C_VolumeMounts c' /\
  restricted c'.

(** The one made from the uploader [u], which gets the names of the scanners
    it waits for and the artifacts it uploads. *)
Definition is_uploader_for (scanners artifacts : list string) (u : Invocation UploaderSpec)
    (c' : Container) : Prop :=
  let c := Up_Container (Inv_Spec u) in
  C_Name c' = uploadContainerPrefix +:+ C_Name c /\ C_Image c' = C_Image c /\
  argv c' = [sidecarBinaryPath; "await-scanners"] ++ argv c ++ artifacts /\
  C_WorkingDir c' = pipelineResultsDirectory /\
  env_value EnvVarScanContainerNames (strings_join scanners ",") ∈ C_Env c' /\
  env_value EnvVarUploaderName (Name (Inv_Metadata u)) ∈ C_Env c' /\
  restricted c'.

(** The directory a stage shares is mounted in a container. *)
Definition mounts_shared (c : Container) : Prop :=
  volume_mount pipelineMetadataVolumeName pipelineMetadataDirectory ∈ C_VolumeMounts c /\
  volume_mount pipelineResultsVolumeName pipelineResultsDirectory ∈ C_VolumeMounts c /\
  volume_mount runtimeProcVolumeName processDirectory ∈ C_VolumeMounts c /\
  volume_mount runtimeBinaryVolumeName binaryDirectory ∈ C_VolumeMounts c.

(** ** Options, one container at a time *)

Lemma lookup_ApplyOptionsToAll cs os i :
  ApplyOptionsToAll cs os !! i = (fun c => ApplyOptionsTo c os) <$> cs !! i.
Proof. apply list_lookup_fmap. Qed.

Lemma ApplyOptionsTo_WithParameters_cons `{MapRange string} defs settings parent c os :
  ApplyOptionsTo c (WithParameters defs settings parent :: os)
  = ApplyOptionsTo (with_c_env c (C_Env c ++ ParseParameterEnvVars defs settings parent)) os.
Proof. done. Qed.

Section scan_pod.
Context `{ControllerUtil} `{MapRange string}.
Variable r : PipelineReconciler.

Ltac elem := repeat rewrite elem_of_app; repeat rewrite elem_of_cons; tauto.

Lemma scannerContainers_lookup p profile i c :
  FilterConditionalContainers (Prof_Containers (Inv_Spec profile))
    (Prof_Parameters (Inv_Spec profile))
    (Ref_Parameters (PipeS_ProfileRef (Pipeline_Spec p))) !! i = Some c ->
  exists c', ApplyStandardOptions (scannerContainers p profile) !! i = Some c' /\
    is_scanner_for p c c' /\ mounts_shared c'.
Proof.
  intros Hc. eexists. split.
  { unfold ApplyStandardOptions, scannerContainers. rewrite !lookup_ApplyOptionsToAll, Hc.
    reflexivity. }
  repeat split; try (by eexists); simpl; elem.
Qed.

Lemma uploaderContainers_lookup p profile downloader uploaders j u :
  uploaders !! j = Some u ->
  exists c', ApplyStandardOptions (uploaderContainers p profile downloader uploaders) !! j = Some c' /\
    is_uploader_for (C_Name <$> scannerContainers p profile)
      (generateArtifactArguments (Down_MetadataFiles (Inv_Spec downloader))
         (Prof_Artifacts (Inv_Spec profile))) u c' /\ mounts_shared c'.
Proof.
  intros Hu. eexists. split.
  { unfold ApplyStandardOptions, uploaderContainers, uploader_containers.
    rewrite !lookup_ApplyOptionsToAll, list_lookup_fmap, Hu. reflexivity. }
  repeat split; try (by eexists); unfold argv; simpl; rewrite <-?app_assoc; elem || done.
Qed.

Lemma populateScanPod_fresh pod p profile downloader uploaders pod' :
  populateScanPod r pod p profile downloader uploaders = Ok pod' ->
  time_is_zero (CreationTimestamp (Pod_Meta pod)) = true ->
  PS_Containers (Pod_Spec pod') = ApplyStandardOptions
    (scannerContainers p profile ++ uploaderContainers p profile downloader uploaders).
Proof.
  unfold populateScanPod. intros Hpod Hnew. rewrite Hnew in Hpod.
  destruct (SetControllerReference _ _ _) as [m|e]; [|done]. by injection Hpod as <-.
Qed.

(** C27: the pod made for a pipeline runs the scanners that take part, then
    the uploaders, and nothing else.  Each runs the user's command line behind
    the sidecar, under its prefixed name, restricted, with the shared
    directories mounted; an uploader is told the scanners to wait for and the
    artifacts to upload. *)
Theorem populateScanPod_containers pod p profile downloader uploaders pod' :
  populateScanPod r pod p profile downloader uploaders = Ok pod' ->
  time_is_zero (CreationTimestamp (Pod_Meta pod)) = true ->
  let included := FilterConditionalContainers (Prof_Containers (Inv_Spec profile))
    (Prof_Parameters (Inv_Spec profile)) (Ref_Parameters (PipeS_ProfileRef (Pipeline_Spec p))) in
  let artifacts := generateArtifactArguments (Down_MetadataFiles (Inv_Spec downloader))
    (Prof_Artifacts (Inv_Spec profile)) in
  length (PS_Containers (Pod_Spec pod')) = (length included + length uploaders)%nat /\
  (forall i c, included !! i = Some c -> exists c',
    PS_Containers (Pod_Spec pod') !! i = Some c' /\ is_scanner_for p c c' /\ mounts_shared c') /\
  (forall j u, uploaders !! j = Some u -> exists c',
    PS_Containers (Pod_Spec pod') !! (length included + j)%nat = Some c' /\
    is_uploader_for (C_Name <$> scannerContainers p profile) artifacts u c' /\ mounts_shared c').
Proof.
  intros Hpod Hnew included artifacts. apply populateScanPod_fresh in Hpod; [|done].
  rewrite Hpod. unfold ApplyStandardOptions at 1 2 3. rewrite !ApplyOptionsToAll_app.
  fold (ApplyStandardOptions (scannerContainers p profile)).
  fold (ApplyStandardOptions (uploaderContainers p profile downloader uploaders)).
  assert (length (ApplyStandardOptions (scannerContainers p profile)) = length included) as Hlen.
  { unfold ApplyStandardOptions, scannerContainers. by rewrite !length_ApplyOptionsToAll. }
  split; [|split].
  - rewrite length_app, Hlen. unfold ApplyStandardOptions, uploaderContainers, uploader_containers.
    by rewrite !length_ApplyOptionsToAll, length_map.
  - intros i c Hc. destruct (scannerContainers_lookup p profile i c Hc) as (c' & Hc' & Hs).
    exists c'. split; [|done]. by apply lookup_app_l_Some.
  - intros j u Hu.
    destruct (uploaderContainers_lookup p profile downloader uploaders j u Hu) as (c' & Hc' & Hs).
    exists c'. split; [|done]. rewrite <-Hlen. by rewrite lookup_app_r, Nat.add_comm, Nat.add_sub by lia.
Qed.

(** The pod made for a pipeline never restarts a container, carries the
    labels that tie it to the pipeline, the profile and the downloader
    whatever labels those have, is controlled by the pipeline, and has its own
    five volumes before those of the resources. *)
Theorem populateScanPod_metadata pod p profile downloader uploaders pod' :
  populateScanPod r pod p profile downloader uploaders = Ok pod' ->
  time_is_zero (CreationTimestamp (Pod_Meta pod)) = true ->
  PS_RestartPolicy (Pod_Spec pod') = "Never" /\
  Labels (Pod_Meta pod') !! TypeLabelKey = Some PipelinePodType /\
  Labels (Pod_Meta pod') !! PipelineLabelKey = Some (Name (Pipeline_Meta p)) /\
  Labels (Pod_Meta pod') !! DownloaderLabelKey
    = Some (Ref_name (PipeS_DownloaderRef (Pipeline_Spec p))) /\
  Labels (Pod_Meta pod') !! ProfileLabelKey
    = Some (Ref_name (PipeS_ProfileRef (Pipeline_Spec p))) /\
  (exists ref, ref ∈ OwnerReferences (Pod_Meta pod') /\ OR_Kind ref = "Pipeline" /\
    OR_UID ref = UID (Pipeline_Meta p) /\ OR_Controller ref = Some true) /\
  Vol_Name <$> firstn 5 (PS_Volumes (Pod_Spec pod'))
    = [pipelineTargetVolumeName; runtimeBinaryVolumeName; pipelineResultsVolumeName;
       pipelineMetadataVolumeName; runtimeProcVolumeName].
Proof.
  unfold populateScanPod. intros Hpod Hnew. rewrite Hnew in Hpod.
  destruct (SetControllerReference _ _ _) as [m|e] eqn:Em; [|done].
  injection Hpod as <-. destruct (SetControllerReference_only _ _ _ _ Em) as (Hm & ref & Href).
  simpl. split; [done|].
  assert (Labels m = Labels (with_owner_references m (OwnerReferences m))) as -> by done.
  rewrite Hm. simpl. rewrite !(lookup_insert_ne _ ProfileLabelKey) by done.
  rewrite !(lookup_insert_ne _ DownloaderLabelKey) by done.
  rewrite !(lookup_insert_ne _ PipelineLabelKey) by done.
  rewrite !lookup_insert_eq. repeat (split; [done|]). split; [|done].
  exists ref. tauto.
Qed.

(** Of a pod that exists already, a reconciliation changes nothing but
    its owner references. *)
Theorem populateScanPod_existing pod p profile downloader uploaders pod' :
  populateScanPod r pod p profile downloader uploaders = Ok pod' ->
  time_is_zero (CreationTimestamp (Pod_Meta pod)) = false ->
  pod' = mkPod (with_owner_references (Pod_Meta pod) (OwnerReferences (Pod_Meta pod')))
    (Pod_Spec pod) (Pod_Status pod).
Proof.
  unfold populateScanPod. intros Hpod Hold. rewrite Hold in Hpod.
  destruct (SetControllerReference _ _ _) as [m|e] eqn:Em; [|done].
  injection Hpod as <-. destruct (SetControllerReference_only _ _ _ _ Em) as [Hm _].
  simpl. by rewrite <-Hm.
Qed.

(** The sidecar of an uploader reads back, by splitting at commas, exactly
    the names under which the scanners of the pod report that they are done
    (the value of their variable for the container name). *)
Theorem scan_container_names_roundtrip p profile :
  let scanners := ApplyStandardOptions (scannerContainers p profile) in
  scanners <> [] ->
  Forall (fun c => has_byte "," (C_Name c) = false) scanners ->
  strings_split (strings_join (C_Name <$> scannerContainers p profile) ",") ","%char
  = C_Name <$> scanners /\
  Forall (fun c => exists env, C_Env c = env ++ [env_value EnvVarContainerName (C_Name c)]) scanners.
Proof.
  intros scanners Hne Hcomma.
  assert (C_Name <$> scanners = C_Name <$> scannerContainers p profile) as Hnames.
  { unfold scanners, ApplyStandardOptions, ApplyOptionsToAll.
    change (map ?f ?l) with (f <$> l). by rewrite <-list_fmap_compose. }
  split.
  - rewrite <-Hnames. apply (split_join ","%char).
    + by intros ->%fmap_nil_inv.
    + apply Forall_fmap. exact Hcomma.
  - unfold scanners, ApplyStandardOptions, ApplyOptionsToAll.
    apply Forall_fmap, Forall_forall. intros c _. by eexists.
Qed.

End scan_pod.

(** ** Artifacts *)

Definition artifact_argument (dir artifact : string) : string :=
  let artifactPath := path_clean artifact in
  if path_is_abs artifactPath then artifactPath else path_join [dir; artifactPath].

Lemma generateArtifactArguments_eq metadataFiles artifacts :
  generateArtifactArguments metadataFiles artifacts
  = "--" :: (artifact_argument PipelineResultsDirectory <$> artifacts)
    ++ (artifact_argument PipelineMetadataDirectory <$> metadataFiles).
Proof.
  assert (forall (f : string -> string) l, flat_map (fun a => [f a]) l = f <$> l) as E.
  { intros f l. induction l as [|x l IH]; [done|]. by rewrite fmap_cons, <-IH. }
  transitivity (fold_left (fun args a => args ++ [artifact_argument PipelineMetadataDirectory a])
    metadataFiles (fold_left (fun args a => args ++ [artifact_argument PipelineResultsDirectory a])
      artifacts ["--"])); [done|].
  rewrite !(fold_left_app_flat_map (fun a => [artifact_argument _ a])), !E.
  by rewrite <-app_assoc.
Qed.

Lemma path_clean_abs p : path_is_abs p = true -> path_is_abs (path_clean p) = true.
Proof.
  intros Hp. unfold path_clean. rewrite Hp. unfold path_is_abs, has_prefix. simpl.
  by destruct (strings_join _ _).
Qed.

Lemma artifact_argument_abs d artifact :
  path_is_abs (artifact_argument (String "/" d) artifact) = true.
Proof.
  unfold artifact_argument. destruct (path_is_abs (path_clean artifact)) eqn:E; [done|].
  unfold path_join. simpl. destruct (negb _); apply path_clean_abs; by destruct d.
Qed.

(** An uploader gets, after a separator, one argument per artifact of
    the profile and then one per metadata file of the downloader, in their
    order, and each is an absolute path. *)
Theorem generateArtifactArguments_absolute metadataFiles artifacts :
  exists paths, generateArtifactArguments metadataFiles artifacts = "--" :: paths /\
    length paths = (length artifacts + length metadataFiles)%nat /\
    Forall (fun p => path_is_abs p = true) paths.
Proof.
  rewrite generateArtifactArguments_eq. eexists. split; [done|].
  split; [by rewrite length_app, !length_fmap|].
  apply Forall_app; split; apply Forall_fmap, Forall_forall; intros a _; apply artifact_argument_abs.
Qed.

(** A relative artifact may leave the directory of results. *)
Example artifact_outside_results :
  generateArtifactArguments [] ["../target/secret"] = ["--"; "/mnt/target/secret"].
Proof. reflexivity. Qed.
Example artifact_arguments :
  generateArtifactArguments ["meta.json"; "/tmp/x"] ["./a//b"; "/mnt/results/../c"]
  = ["--"; "/mnt/results/a/b"; "/mnt/c"; "/mnt/metadata/meta.json"; "/tmp/x"].
Proof. reflexivity. Qed.

(** ** The stages *)

(** A container whose status has terminated successfully. *)
Definition succeeded (cs : ContainerStatus) : Prop := CS_Terminated cs = Some 0.

Lemma first_unfinished_cases prefix status css :
  (Forall (fun cs => has_prefix (CS_Name cs) prefix = true -> succeeded cs) css /\
     first_unfinished prefix status css = status)
  \/ (exists i cs, css !! i = Some cs /\ has_prefix (CS_Name cs) prefix = true /\
      Forall (fun cs => has_prefix (CS_Name cs) prefix = true -> succeeded cs) (take i css) /\
      ((CS_Terminated cs = None /\ first_unfinished prefix status css = PipelineStageInProgress) \/
       (exists code, CS_Terminated cs = Some code /\ code <> 0 /\
          first_unfinished prefix status css = PipelineStageFailed))).
Proof.
  induction css as [|cs css IH]; simpl; [by left|].
  destruct (has_prefix (CS_Name cs) prefix) eqn:Ep.
  - destruct (CS_Terminated cs) as [code|] eqn:Et.
    + destruct (Z.eqb_spec code 0) as [->|Hc]; simpl.
      * destruct IH as [[IH1 IH2]|(i & cs' & Hi & Hp & Ht & IH)].
        -- left. split; [|done]. constructor; [by intros _|done].
        -- right. exists (S i), cs'. repeat split; try done. simpl. constructor; [by intros _|done].
      * right. exists 0%nat, cs. repeat split; try done. right. eauto.
    + right. exists 0%nat, cs. repeat split; try done. left. eauto.
  - destruct IH as [[IH1 IH2]|(i & cs' & Hi & Hp & Ht & IH)].
    + left. split; [|done]. constructor; [congruence|done].
    + right. exists (S i), cs'. repeat split; try done. simpl. constructor; [congruence|done].
Qed.

Lemma first_unfinished_status prefix status css :
  In (first_unfinished prefix status css) [status; PipelineStageInProgress; PipelineStageFailed].
Proof.
  destruct (first_unfinished_cases prefix status css)
    as [[_ ->]|(_ & _ & _ & _ & _ & [[_ ->]|(_ & _ & _ & ->)])]; simpl; tauto.
Qed.

Lemma download_status_last init cs :
  CS_Name cs <> sidecarInitContainerName ->
  download_status (init ++ [cs]) =
    match CS_Terminated cs with
    | Some code => if decide (code = 0) then PipelineStageFailed else PipelineStageCompleted
    | None => PipelineStageInProgress
    end.
Proof.
  intros Hn%String.eqb_neq. unfold download_status. rewrite fold_left_app. simpl. rewrite Hn. simpl.
  destruct (CS_Terminated cs) as [code|]; [|done]. destruct (Z.eqb_spec code 0), (decide (code = 0)); done.
Qed.

(** C29: the three statuses computed for a pod fit together.  The download status
    is that of the last init container that is not the sidecar's: in progress
    until it has terminated, then Failed when it exited with 0 and Completed
    when it did not - the branches are exchanged, against what the comments on
    the two say (pipeline_types.go), so that the scan of a pod whose downloader
    did its work is reported as skipped.  While the download status is
    InProgress no scan has started, and when it is Failed the rest is skipped;
    uploads do not start while a scan runs; the scan stage is completed exactly
    when the download status is neither of the two and every scanner exited
    with 0; and the upload stage is never reported as completed, only as
    running, failed, skipped or not known. *)
Theorem determineScanPodStageStatuses_coherent pod download scan upload :
  determineScanPodStageStatuses pod = (download, scan, upload) ->
  (forall init cs, InitContainerStatuses (Pod_Status pod) = init ++ [cs] -> CS_Name cs <> sidecarInitContainerName ->
     download = match CS_Terminated cs with
                | Some code => if decide (code = 0) then PipelineStageFailed else PipelineStageCompleted
                | None => PipelineStageInProgress
                end) /\
  (download = PipelineStageInProgress -> scan = PipelineStageNotStarted) /\
  (download = PipelineStageFailed -> scan = PipelineStageSkipped /\ upload = PipelineStageSkipped) /\
  (scan = PipelineStageInProgress -> upload = PipelineStageNotStarted) /\
  (scan = PipelineStageCompleted <->
     download <> PipelineStageInProgress /\ download <> PipelineStageFailed /\
     Forall (fun cs => has_prefix (CS_Name cs) scanContainerPrefix = true -> succeeded cs)
       (ContainerStatuses (Pod_Status pod))) /\
  upload <> PipelineStageCompleted.
Proof.
  unfold determineScanPodStageStatuses. intros E. injection E as Ed Es Eu. split.
  { intros init cs Hinit Hname. rewrite <-Ed, Hinit. by apply download_status_last. }
  rewrite Ed in *. clear Ed.
  assert (upload <> PipelineStageCompleted) as Hu.
  { subst upload. pose proof (first_unfinished_status uploadContainerPrefix PipelineStageEmpty
      (ContainerStatuses (Pod_Status pod))) as Hin. simpl in Hin.
    destruct scan; try discriminate; rewrite Es; try discriminate; intuition congruence. }
  destruct download; try (subst scan upload; repeat split; intuition congruence).
  all: rewrite Es in Eu;
    destruct (first_unfinished_cases scanContainerPrefix PipelineStageCompleted
      (ContainerStatuses (Pod_Status pod)))
      as [[Hall E]|(i & cs & Hi & Hp & _ & [[Ht E]|(code & Ht & Hc & E)])]; rewrite E in Es; subst scan.
  all: repeat split; try done; try (by subst upload).
  all: intros (_ & _ & Hall); exfalso; rewrite Forall_forall in Hall;
    specialize (Hall cs (list_elem_of_lookup_2 _ _ _ Hi) Hp); unfold succeeded in Hall; congruence.
Qed.

(** When the downloader exits with 0 its stage is reported as failed and
    the others as skipped; when it exits with any other code its stage is
    reported as completed.  (The sidecar's own init container is passed
    over.) *)
Theorem determineScanPodStageStatuses_download phase init cs css code :
  CS_Name cs <> sidecarInitContainerName -> CS_Terminated cs = Some code ->
  let '(download, scan, upload) := determineScanPodStageStatuses
    (mkPod zero_ObjectMeta zero_PodSpec (mkPodStatus phase (init ++ [cs]) css)) in
  (code = 0 -> (download, scan, upload)
     = (PipelineStageFailed, PipelineStageSkipped, PipelineStageSkipped)) /\
  (code <> 0 -> download = PipelineStageCompleted).
Proof.
  intros Hn Ht. unfold determineScanPodStageStatuses. simpl.
  rewrite (download_status_last init cs Hn), Ht. by destruct (decide (code = 0)).
Qed.

Lemma determineScanPodStageStatuses_download_witness :
  let '(download, scan, upload) := determineScanPodStageStatuses
    (mkPod zero_ObjectMeta zero_PodSpec (mkPodStatus PodRunning
      ([mkContainerStatus sidecarInitContainerName (Some 0)] ++
       [mkContainerStatus "downloader-git" (Some 0)])
      [mkContainerStatus "scanner-a" None])) in
  (0 = 0 -> (download, scan, upload)
     = (PipelineStageFailed, PipelineStageSkipped, PipelineStageSkipped)) /\
  (0 <> 0 -> download = PipelineStageCompleted).
Proof.
  apply (determineScanPodStageStatuses_download PodRunning
    [mkContainerStatus sidecarInitContainerName (Some 0)] (mkContainerStatus "downloader-git" (Some 0))
    [mkContainerStatus "scanner-a" None] 0); [discriminate|reflexivity].
Defined.

(** While the downloader runs, the containers of the uploaders wait, and their
    stage is reported as in progress. *)
Example upload_in_progress_while_downloading :
  determineScanPodStageStatuses (mkPod zero_ObjectMeta zero_PodSpec (mkPodStatus PodPending
    [mkContainerStatus "downloader-git" None]
    [mkContainerStatus "scanner-a" None; mkContainerStatus "uploader-b" None]))
  = (PipelineStageInProgress, PipelineStageNotStarted, PipelineStageInProgress).
Proof. reflexivity. Qed.

(** Between two updates of the pod whose phase stays, the stages may change:
    such an update does not cause a reconciliation. *)
Example stage_change_unseen :
  let pod scanner := mkPod zero_ObjectMeta zero_PodSpec (mkPodStatus PodRunning
    [mkContainerStatus "downloader-git" (Some 1)]
    [mkContainerStatus "scanner-a" scanner; mkContainerStatus "uploader-b" None]) in
  determineScanPodStageStatuses (pod None)
    = (PipelineStageCompleted, PipelineStageInProgress, PipelineStageNotStarted) /\
  determineScanPodStageStatuses (pod (Some 0))
    = (PipelineStageCompleted, PipelineStageCompleted, PipelineStageInProgress) /\
  podStateChangedPredicate (Some (pod None)) (Some (pod (Some 0))) = false.
Proof. repeat split. Qed.

(** ** A concrete pipeline *)

Module Example.

Definition named_container (name : string) (command : list string) : Container :=
  with_c_command (with_c_name zero_Container name) command [].

Definition pipeline : Pipeline :=
  mkPipeline (meta_named "p" "ns")
    (mkPipelineSpec (mkReference "git" "" [])
       (mkReference "default" "" [mkParameterSetting "DEEP" "yes" None])
       (mkTarget "repo" "main") "runner" None None None [] None)
    zero_PipelineStatus.

Definition profile : Invocation ProfileSpec :=
  mkInvocation (mkProfileSpec
    [mkConditionalContainer (named_container "a" ["/scan"]) None;
     mkConditionalContainer (named_container "b" ["/deep"]) (Some (mkContainerCondition "DEEP"));
     mkConditionalContainer (named_container "c" ["/wide"]) (Some (mkContainerCondition "WIDE"))]
    ["out.json"] [] [mkReference "s3" "" []]
    [mkParameterDefinition "DEEP" "" None; mkParameterDefinition "WIDE" "" (Some "")] [])
    [mkParameterSetting "DEEP" "yes" None]
    (with_labels (meta_named "default" "ns") {[ProfileLabelKey := "spoofed"; "team" := "sec"]}).

Definition downloader : Invocation DownloaderSpec :=
  mkInvocation (mkDownloaderSpec (named_container "git" ["/clone"]) [] ["meta.json"] [] [])
    [] (meta_named "git" "ns").

Definition uploader : Invocation UploaderSpec :=
  mkInvocation (mkUploaderSpec (named_container "s3" ["/upload"]) [mkVolume "cache" EmptyDir] [] [])
    [] (meta_named "s3" "ns").

Definition reconciler : PipelineReconciler := mkPipelineReconciler "ocular/sidecar" "IfNotPresent".

#[local] Instance controller_util : ControllerUtil := controller_util_model.
#[local] Instance range : MapRange string := map_range_canonical.

Definition populate (pod : Pod) : result GoError Pod :=
  populateScanPod reconciler pod pipeline profile downloader [uploader].
Definition new_pod : Pod := pod_named "pipeline-p" "ns".
Definition scan_pod : Pod := match populate new_pod with Ok pod => pod | Err _ => new_pod end.
Definition old_pod : Pod :=
  mkPod (mkObjectMeta "pipeline-p" "" "ns" "u" ∅ ∅ (5 * Second) None [] []) zero_PodSpec zero_PodStatus.

Lemma populate_new : populate new_pod = Ok scan_pod.
Proof. vm_compute. reflexivity. Qed.

Example scan_pod_names :
  C_Name <$> PS_Containers (Pod_Spec scan_pod) = ["scanner-a"; "scanner-b"; "uploader-s3"].
Proof. vm_compute. reflexivity. Qed.

Lemma populateScanPod_containers_witness :
  length (PS_Containers (Pod_Spec scan_pod)) = 3%nat /\
  exists c', PS_Containers (Pod_Spec scan_pod) !! 2%nat = Some c' /\
    is_uploader_for ["scanner-a"; "scanner-b"]
      ["--"; "/mnt/results/out.json"; "/mnt/metadata/meta.json"] uploader c'.
Proof.
  destruct (populateScanPod_containers reconciler new_pod pipeline profile downloader [uploader]
    scan_pod populate_new eq_refl) as (Hlen & _ & Hup).
  split; [exact Hlen|]. destruct (Hup 0%nat uploader eq_refl) as (c' & Hc' & Hu & _).
  exists c'. split; [exact Hc'|exact Hu].
Defined.

Lemma populateScanPod_metadata_witness :
  PS_RestartPolicy (Pod_Spec scan_pod) = "Never" /\
  Labels (Pod_Meta scan_pod) !! ProfileLabelKey = Some "default".
Proof.
  destruct (populateScanPod_metadata reconciler new_pod pipeline profile downloader [uploader]
    scan_pod populate_new eq_refl) as (Hnever & _ & _ & _ & Hprofile & _).
  split; [exact Hnever|exact Hprofile].
Defined.

Lemma populateScanPod_existing_witness :
  exists pod', populate old_pod = Ok pod' /\ Pod_Spec pod' = Pod_Spec old_pod /\
    OwnerReferences (Pod_Meta pod') <> [].
Proof.
  destruct (populate old_pod) as [pod'|e] eqn:E; [|vm_compute in E; discriminate E].
  exists pod'. split; [reflexivity|].
  pose proof (populateScanPod_existing reconciler old_pod pipeline profile downloader [uploader]
    pod' E eq_refl) as ->. split; [reflexivity|].
  vm_compute in E. injection E as <-. discriminate.
Defined.

Lemma scan_container_names_roundtrip_witness :
  strings_split "scanner-a,scanner-b" ","%char = ["scanner-a"; "scanner-b"].
Proof.
  apply (scan_container_names_roundtrip pipeline profile); [discriminate|].
  repeat constructor.
Defined.

Lemma determineScanPodStageStatuses_coherent_witness :
  PipelineStageCompleted = PipelineStageCompleted /\
  Forall (fun cs => has_prefix (CS_Name cs) scanContainerPrefix = true -> succeeded cs)
    [mkContainerStatus "scanner-a" (Some 0); mkContainerStatus "uploader-b" None].
Proof.
  split; [reflexivity|].
  destruct (determineScanPodStageStatuses_coherent
    (mkPod zero_ObjectMeta zero_PodSpec (mkPodStatus PodRunning []
      [mkContainerStatus "scanner-a" (Some 0); mkContainerStatus "uploader-b" None]))
    PipelineStageEmpty PipelineStageCompleted PipelineStageInProgress eq_refl)
    as (_ & _ & _ & _ & [Hscan _] & _).
  destruct (Hscan eq_refl) as (_ & _ & Hall). exact Hall.
Defined.

End Example.
