(* ===== verification/SearchController.v ===== *)
(** * The search reconciler (internal/controller/search_controller.go)

    [Reconcile] and everything it calls, as programs over the client
    operations. *)

From Stdlib Require Import ZArith Lia String Ascii.
From S2P Require Import Prelude Effects GoStd K8s Api Client Resources Containers ControllerCommon.

Local Open Scope string_scope.
Local Open Scope Z_scope.
Local Open Scope list_scope.
Local Open Scope prog_scope.

(** [json.Marshal] and [json.Unmarshal] of a [PipelineTemplate]; the code
    relies on a template surviving the trip through an annotation. *)
Class TemplateJSON : Type := {
  marshal_template : PipelineTemplate -> result GoError string;
  unmarshal_template : string -> result GoError PipelineTemplate;
  template_roundtrip t s : marshal_template t = Ok s -> unmarshal_template s = Ok t
}.

Record SearchReconciler := mkSearchReconciler {
  SearchClusterRole : string;
  SchedulerImage : string;        (* SidecarImage *)
  SchedulerPullPolicy : string    (* SidecarPullPolicy *)
}.

Definition with_search_spec (s : Search) (spec : SearchSpec) : Search :=
  mkSearch (Search_Meta s) spec (Search_Status s).
Definition with_search_status (s : Search) (st : SearchStatus) : Search :=
  mkSearch (Search_Meta s) (Search_Spec s) st.
Definition with_service_account (spec : SearchSpec) (name : string) : SearchSpec :=
  mkSearchSpec (SearchS_CrawlerRef spec) (SearchS_TTLSecondsAfterFinished spec) name
    (SearchS_RuntimeClassName spec) (SearchS_Scheduler spec) (SearchS_Resources spec).

(** ** The objects of a search *)

Section populate.
Context `{ControllerUtil}.

(** A service account that exists may be the user's own, and is left alone. *)
Definition populateServiceAccount (search : Search) (sa : ServiceAccount) :
    result GoError ServiceAccount :=
  let meta := SA_Meta sa in
  if time_is_zero (CreationTimestamp meta) then
    let labels := <[SearchLabelKey := Name (Search_Meta search)]> (Labels meta) in
    let labels := <[TypeLabelKey := SearchServiceAccountType]> labels in
    match SetControllerReference "Search" (Search_Meta search) (with_labels meta labels) with
    | Err e => Err e
    | Ok m => Ok (mkServiceAccount m (SA_rest sa))
    end
  else Ok sa.

Definition populateRoleBinding (r : SearchReconciler) (search : Search) (sa : ServiceAccount)
    (rb : RoleBinding) : result GoError RoleBinding :=
  let meta := RB_Meta rb in
  let labels := <[SearchLabelKey := Name (Search_Meta search)]> (Labels meta) in
  let labels := <[TypeLabelKey := SearchRoleBindingType]> labels in
  match SetControllerReference "Search" (Search_Meta search) (with_labels meta labels) with
  | Err e => Err e
  | Ok m => Ok (mkRoleBinding m
      (mkRoleRef "rbac.authorization.k8s.io" "ClusterRole" (SearchClusterRole r))
      [mkSubject "ServiceAccount" (Name (SA_Meta sa)) (Namespace (SA_Meta sa))])
  end.

End populate.

Definition generateBaseSearchEnvironment (search : Search) : list EnvVar :=
  let schedulerInterval :=
    match Sched_IntervalSeconds (SearchS_Scheduler (Search_Spec search)) with
    | Some seconds => seconds
    | None => 60
    end in
  [ env_value EnvVarSearchName (Name (Search_Meta search));
    env_field EnvVarPodName "metadata.name";
    env_value EnvVarCrawlerName (Ref_name (SearchS_CrawlerRef (Search_Spec search)));
    env_field EnvVarNamespaceName "metadata.namespace";
    env_value EnvVarPipelineTemplatePath pipelineTemplatePath;
    env_value EnvVarPipelineFIFO pipelineFIFOPath;
    env_value EnvVarSearchFIFO searchFIFOPath;
    env_value EnvVarPipelineSchedulerIntervalSeconds (itoa schedulerInterval);
    env_value EnvVarSchedulerParentUID (UID (Search_Meta search));
    env_value EnvVarSchedulerPath schedulerBinaryPath ].

(** The path of an annotation in the downward API. *)
Definition annotation_field (key : string) : string :=
  "metadata.annotations['" +:+ key +:+ "']".

Definition templateVolume : Volume :=
  mkVolume searchTemplatesVolumeName
    (DownwardAPI [(pipelineTemplateName, annotation_field PipelineTemplateAnnotation)]).
Definition fifoVolume : Volume := mkVolume searchFIFOVolumeName EmptyDir.
Definition searchBinaryVolume : Volume := mkVolume runtimeBinaryVolumeName EmptyDir.

Definition containerOpts (search : Search) : list Option :=
  [ WithAdditionalEnvVars
      [env_field EnvVarSchedulerSearchTTL (annotation_field TTLSecondsAnnotation);
       env_field EnvVarSchedulerServiceAccount (annotation_field ServiceAccountNameAnnotation)];
    WithAdditionalVolumeMounts
      [volume_mount (Vol_Name templateVolume) configDirectory;
       volume_mount (Vol_Name fifoVolume) fifoDirectory;
       volume_mount (Vol_Name searchBinaryVolume) binaryDirectory];
    WithAdditionalEnvVars (generateBaseSearchEnvironment search) ].

Definition schedulerContainer (r : SearchReconciler) (search : Search) : Container :=
  ApplyOptionsTo
    (mkContainer schedulerInitContainerName (SchedulerImage r) (SchedulerPullPolicy r) [] ["init"]
       "" [] [] (Some (mkSecurityContext (Some true) None None None ""))
       schedulerInitResourceRequirements "")
    (containerOpts search).

Definition crawlerOptions `{MapRange string} (search : Search) (crawler : Invocation CrawlerSpec) :
    list Option :=
  containerOpts search ++
    [ WithNamePrefix crawlerContainerPrefix;
      WrapCommand [schedulerBinaryPath; "crawler"];
      WithAdditionalEnvVars (ParseParameterEnvVars (Crawl_Parameters (Inv_Spec crawler))
        (Inv_Parameters crawler) None) ].

(** The labels and annotations of the pod. *)
Definition search_pod_labels (search : Search) (crawler : Invocation CrawlerSpec)
    (labels : gmap string string) : gmap string string :=
  let labels := maps_copy labels
    (PropagateMetadata [Labels (Search_Meta search); Labels (Inv_Metadata crawler)]) in
  let labels := <[SearchLabelKey := Name (Search_Meta search)]> labels in
  let labels := <[TypeLabelKey := SearchPodType]> labels in
  <[CrawlerLabelKey := Ref_name (SearchS_CrawlerRef (Search_Spec search))]> labels.

Definition search_pod_annotations (search : Search) (crawler : Invocation CrawlerSpec)
    (pipelineTemplateJSON : string) (annotations : gmap string string) : gmap string string :=
  let annotations := maps_copy annotations
    (PropagateMetadata [Annotations (Search_Meta search); Annotations (Inv_Metadata crawler)]) in
  let annotations := <[PipelineTemplateAnnotation := pipelineTemplateJSON]> annotations in
  let annotations :=
    <[ServiceAccountNameAnnotation := SearchS_ServiceAccountName (Search_Spec search)]> annotations in
  match SearchS_TTLSecondsAfterFinished (Search_Spec search) with
  | Some seconds => <[TTLSecondsAnnotation := itoa seconds]> annotations
  | None => <[TTLSecondsAnnotation := ""]> annotations
  end.

Section populate_pod.
Context `{ControllerUtil} `{MapRange string} `{TemplateJSON}.

Definition populateSearchPod (r : SearchReconciler) (search : Search) (pod : Pod)
    (crawler : Invocation CrawlerSpec) : result GoError Pod :=
  let meta := Pod_Meta pod in
  let spec := Search_Spec search in
  let cspec := Inv_Spec crawler in
  let pod :=
    if time_is_zero (CreationTimestamp meta) then
      match marshal_template (Sched_PipelineTemplate (SearchS_Scheduler spec)) with
      | Err e => Err (Wrapped "unable to marshal pipeline template" e)
      | Ok pipelineTemplateJSON => Ok (mkPod
          (with_annotations (with_labels meta (search_pod_labels search crawler (Labels meta)))
             (search_pod_annotations search crawler pipelineTemplateJSON (Annotations meta)))
          (mkPodSpec
             (Crawl_Volumes cspec ++ [templateVolume; fifoVolume; searchBinaryVolume])
             (ApplyStandardOptions [schedulerContainer r search])
             (ApplyStandardOptions [ApplyOptionsTo (Crawl_Container cspec)
                (crawlerOptions search crawler)])
             (SearchS_ServiceAccountName spec)
             (SearchS_RuntimeClassName spec)
             "Never"
             (Crawl_ImagePullSecrets cspec)
             (SearchS_Resources spec)
             (PS_rest (Pod_Spec pod)))
          (Pod_Status pod))
      end
    else Ok pod in
  match pod with
  | Err e => Err e
  | Ok pod =>
      match SetControllerReference "Search" (Search_Meta search) (Pod_Meta pod) with
      | Err e => Err e
      | Ok m => Ok (mkPod m (Pod_Spec pod) (Pod_Status pod))
      end
  end.

End populate_pod.

(** ** Completion *)

Definition is_none {A} (o : option A) : bool := match o with None => true | Some _ => false end.

(** The pipelines and searches this search has scheduled that are not
    complete. *)
Definition retrieveRunningScheduledResources (search : Search) :
    prog (result GoError (list Pipeline * list Search)) :=
  let opts := mkListOptions (Namespace (Search_Meta search))
    (Some (ScheduledByLabelKey, Name (Search_Meta search))) None in
  let* res := op (ListObjects KPipeline opts) in
  match res with
  | Err e => Ret (Err e)
  | Ok pipelineList =>
      let* res := op (ListObjects KSearch opts) in
      match res with
      | Err e => Ret (Err e)
      | Ok searchList => Ret (Ok
          (List.filter (fun p => is_none (PipeSt_CompletionTime (Pipeline_Status p))) pipelineList,
           List.filter (fun s => is_none (SearchSt_CompletionTime (Search_Status s))) searchList))
      end
  end.

Definition search_metric_labels (search : Search) : gmap string string :=
  {[ "namespace" := Namespace (Search_Meta search);
     "crawler" := Ref_name (SearchS_CrawlerRef (Search_Spec search)) ]}.

Definition completed_search_status (st : SearchStatus) (t : Time) (status : ConditionStatus)
    (reason message : string) : SearchStatus :=
  mkSearchStatus
    (SearchSt_Conditions st ++
      [mkCondition CompletedSuccessfullyConditionType status reason message t])
    (SearchSt_StartTime st) (Some t) (SearchSt_CronSearchControllerName st).

(** Mark the search as complete, unless it is. *)
Definition mark_complete (search : Search) (status : ConditionStatus) (reason message : string) :
    prog Search :=
  match SearchSt_CompletionTime (Search_Status search) with
  | None =>
      let* t := op Now in
      Ret (with_search_status search
        (completed_search_status (Search_Status search) t status reason message))
  | Some _ => Ret search
  end.

(** The end of [handleCompletion]: write the status and observe how long the
    search took. *)
Definition record_completion (metricLabels : gmap string string) (search : Search) : prog Outcome :=
  let* res := updateStatus KSearch search in
  match res with
  | Err e => Ret (emptyResult, Some e)
  | Ok search =>
      match SearchSt_CompletionTime (Search_Status search) with
      | Some completion =>
          deref (SearchSt_StartTime (Search_Status search)) (fun start =>
          let duration := time_sub completion start in
          let* _ := op (UpdateMetric searchDurationSeconds metricLabels (MetricObserve duration)) in
          Ret (emptyResult, None))
      | None => Ret (emptyResult, None)
      end
  end.

Definition handleCompletion (search : Search) (pod : Pod) : prog Outcome :=
  let* res := retrieveRunningScheduledResources search in
  match res with
  | Err e => Ret (emptyResult, Some e)
  | Ok (childPipelines, childSearches) =>
      if ((0 <? length childPipelines)%nat || (0 <? length childSearches)%nat)%bool
      then Ret (requeue_after (Second * 10), None)
      else
        let metricLabels := search_metric_labels search in
        match Pod_Phase (Pod_Status pod) with
        | PodFailed =>
            let* search := mark_complete search ConditionFalse "SearchJobFailed"
              "Search reported a container failure." in
            record_completion metricLabels search
        | PodSucceeded =>
            let* search := mark_complete search ConditionTrue "SearchPodSucceeded"
              "Search completed successfully." in
            record_completion metricLabels search
        | PodPending | PodRunning => Ret (emptyResult, None)
        | PodUnknown | PodPhaseEmpty => Ret (requeue_after (10 * Second), None)
        end
  end.

Definition handlePostCompletion (search : Search) : prog Outcome :=
  match SearchS_TTLSecondsAfterFinished (Search_Spec search) with
  | Some seconds =>
      deref (SearchSt_CompletionTime (Search_Status search)) (fun finishTime =>
      let ttl := duration_mul seconds Second in
      let deleteTime := time_add finishTime ttl in
      let* now := op Now in
      if time_after now deleteTime then
        let* r := op (Delete KSearch search) in
        Ret (emptyResult, err_of r)
      else
        let* now := op Now in
        Ret (requeue_after (time_sub deleteTime now), None))
  | None => Ret (emptyResult, None)
  end.

(** ** Reconcile *)

(** The status of a search whose pod was just created. *)
Definition started_search_status (st : SearchStatus) (searchPod : Pod) (startTime : Time) :
    SearchStatus :=
  mkSearchStatus
    [mkCondition StartedConditionType ConditionTrue "SearchPodCreated"
       ("The scan pod " +:+ Name (Pod_Meta searchPod) +:+ " has been created.") startTime]
    (Some startTime) (SearchSt_CompletionTime st) (SearchSt_CronSearchControllerName st).

Section reconcile.
Context `{ControllerUtil} `{MapRange string} `{TemplateJSON}.
Variable r : SearchReconciler.

(** From the creation or update of the service account on. *)
Definition reconcile_objects (search : Search) (crawler : Invocation CrawlerSpec) : prog Outcome :=
  let name := Name (Search_Meta search) in
  let namespace := Namespace (Search_Meta search) in
  let* res := op (CreateOrUpdate KServiceAccount
    (mkServiceAccount (meta_named (SearchS_ServiceAccountName (Search_Spec search)) namespace) "")
    (fun sa => populateServiceAccount search sa)) in
  match res with
  | Err e => Ret (emptyResult, Some (Wrapped "unable to generate service account" e))
  | Ok (serviceAccount, _) =>
  let* res := op (CreateOrUpdate KRoleBinding
    (mkRoleBinding (meta_named (searchResourcePrefix +:+ name) namespace) (mkRoleRef "" "" "") [])
    (fun rb => populateRoleBinding r search serviceAccount rb)) in
  match res with
  | Err e => Ret (emptyResult, ignore_already_exists (Some e))
  | Ok _ =>
  let* res := op (CreateOrUpdate KPod (pod_named (searchResourcePrefix +:+ name) namespace)
    (fun pod => populateSearchPod r search pod crawler)) in
  match res with
  | Err e => Ret (emptyResult, ignore_already_exists (Some e))
  | Ok (searchPod, _) =>
  match SearchSt_StartTime (Search_Status search) with
  | None =>
      let* startTime := op Now in
      let* res := updateStatus KSearch (with_search_status search
        (started_search_status (Search_Status search) searchPod startTime)) in
      Ret (emptyResult, err_of res)
  | Some _ => handleCompletion search searchPod
  end end end end.

Definition Reconcile (req : ObjectKey) : prog Outcome :=
  let* res := op (Get KSearch req) in
  match res with
  | Err e => Ret (emptyResult, ignore_not_found (Some e))
  | Ok search =>
  match SearchSt_CompletionTime (Search_Status search) with
  | Some _ => handlePostCompletion search
  | None =>
  let* ' (crawler, err) :=
    CrawlerInvocationFromReference (Key_Namespace req) (SearchS_CrawlerRef (Search_Spec search)) in
  match err with
  | Some e => Ret (emptyResult, Some e)
  | None =>
  if String.eqb (SearchS_ServiceAccountName (Search_Spec search)) "" then
    let* res := patchResource KSearch search (with_search_spec search
      (with_service_account (Search_Spec search) ("search-" +:+ Name (Search_Meta search)))) in
    Ret (emptyResult, err_of res)
  else reconcile_objects search crawler
  end end end.

End reconcile.
