(* ===== verification/CronSearchController.v ===== *)
(** * The cron search reconciler (internal/controller/cronsearch_controller.go)

    A cron search creates a search at each activation time of its schedule,
    under its concurrency policy, and keeps a bounded history of them. *)

From Stdlib Require Import ZArith Lia String Ascii.
From S2P Require Import Prelude Effects GoStd K8s Api Client ControllerCommon.

Local Open Scope string_scope.
Local Open Scope Z_scope.
Local Open Scope list_scope.
Local Open Scope prog_scope.

(** ** What the reconciler uses of other packages *)

(** The schedules of [github.com/robfig/cron/v3]: [parse_standard] is
    [cron.ParseStandard] and [sched_next s t] is [s.Next(t)]. *)
Class CronLibrary : Type := {
  schedule : Type;
  parse_standard : string -> result GoError schedule;
  sched_next : schedule -> Time -> Time
}.

(** [t.Format(time.RFC3339)] and [time.Parse(time.RFC3339, s)] of package
    time.  The format has whole seconds and years of four digits, and the
    offset of the time's location, of which a time here has no trace: parsing
    gives back the instant. *)
Definition year_10000 : Time := 315537897600 * Second.
Class RFC3339 : Type := {
  format_rfc3339 : Time -> string;
  parse_rfc3339 : string -> result GoError Time;
  format_rfc3339_nonempty t : format_rfc3339 t <> "";
  parse_format_rfc3339 t :
    zero_time <= t < year_10000 -> parse_rfc3339 (format_rfc3339 t) = Ok (truncate_to_second t)
}.

(** [ref.GetReference] of client-go. *)
Class References : Type := { get_reference : Search -> result GoError ObjectReference }.

(** ** Child searches *)

Definition scheduledTimeAnnotation : string := "ocular.crashoverride.run/scheduled-at".
Definition searchOwnerKey : string := "status.cronSearchControllerName".

(** [metav1.GetControllerOf]: the owner reference marked as the controller. *)
Definition get_controller_of (m : ObjectMeta) : option OwnerReference :=
  List.find (fun ref => bool_decide (OR_Controller ref = Some true)) (OwnerReferences m).

(** The index [SetupWithManager] registers, by which child searches are
    listed. *)
Definition search_owner_index (search : Search) : list string :=
  match get_controller_of (Search_Meta search) with
  | None => []
  | Some owner =>
      if (negb (String.eqb (OR_APIVersion owner) GroupVersion)
          || negb (String.eqb (OR_Kind owner) "CronSearch"))%bool
      then [] else [OR_Name owner]
  end.

(** Whether a search is finished, and the status of the condition that says
    so: the first one of that type. *)
Definition isSearchFinished (search : Search) : bool * ConditionStatus :=
  match List.find (fun c => String.eqb (Cond_Type c) CompletedSuccessfullyConditionType)
          (SearchSt_Conditions (Search_Status search)) with
  | Some c => (true, Cond_Status c)
  | None => (false, ConditionStatusEmpty)
  end.

Definition getScheduledTimeForSearch `{RFC3339} (search : Search) : result GoError (option Time) :=
  let timeRaw := default "" (Annotations (Search_Meta search) !! scheduledTimeAnnotation) in
  if len timeRaw =? 0 then Ok None
  else match parse_rfc3339 timeRaw with
       | Err e => Err e
       | Ok timeParsed => Ok (Some timeParsed)
       end.

Record categorizedSearches := mkCategorized {
  cat_active : list Search;
  cat_failed : list Search;
  cat_successful : list Search
}.

(** One turn of the loop of [findExistingSearches]. *)
Definition categorize (cat : categorizedSearches) (search : Search) : categorizedSearches :=
  match isSearchFinished search with
  | (false, _) => mkCategorized (cat_active cat ++ [search]) (cat_failed cat) (cat_successful cat)
  | (true, ConditionFalse) =>
      mkCategorized (cat_active cat) (cat_failed cat ++ [search]) (cat_successful cat)
  | (true, ConditionTrue) =>
      mkCategorized (cat_active cat) (cat_failed cat) (cat_successful cat ++ [search])
  | (true, _) => cat
  end.

Definition more_recent `{RFC3339} (mostRecentTime : option Time) (search : Search) : option Time :=
  match getScheduledTimeForSearch search with
  | Err _ | Ok None => mostRecentTime
  | Ok (Some t) =>
      match mostRecentTime with
      | None => Some t
      | Some m => if time_before m t then Some t else mostRecentTime
      end
  end.

Definition findExistingSearches `{RFC3339} (childSearches : list Search) :
    categorizedSearches * option Time :=
  fold_left (fun '(cat, mostRecentTime) search =>
      (categorize cat search, more_recent mostRecentTime search))
    childSearches (mkCategorized [] [] [], None).

(** ** The schedule *)

(** The loop over the activation times from [t] on that are not after [now],
    with the last one seen and their number; at most 101 turns are taken. *)
Fixpoint missed_starts `{CronLibrary} (fuel : nat) (sched : schedule) (now t lastMissed : Time)
    (starts : Z) : option (result GoError Time) :=
  match fuel with
  | O => None
  | S fuel =>
      if time_after t now then Some (Ok lastMissed)
      else
        let starts := starts + 1 in
        if 100 <? starts then
          Some (Err (ErrorString "Too many missed start times (> 100). Set or decrease .spec.startingDeadlineSeconds or check clock skew."))
        else missed_starts fuel sched now (sched_next sched t) t starts
  end.

Definition missed_starts_fuel : nat := 101.

(** The time after which starts are looked for. *)
Definition earliest_time (cronSearch : CronSearch) (now : Time) : Time :=
  let earliestTime :=
    match CronSt_LastScheduleTime (CronSearch_Status cronSearch) with
    | Some t => t
    | None => CreationTimestamp (CronSearch_Meta cronSearch)
    end in
  match CronS_StartingDeadlineSeconds (CronSearch_Spec cronSearch) with
  | Some seconds =>
      let schedulingDeadline := time_add now (duration_mul (- Second) seconds) in
      if time_after schedulingDeadline earliestTime then schedulingDeadline else earliestTime
  | None => earliestTime
  end.

(** The last missed start (the zero time when there is none) and the next
    activation time.  [None] is out of fuel, which does not happen. *)
Definition getNextSchedule `{CronLibrary} (cronSearch : CronSearch) (now : Time) :
    option (result GoError (Time * Time)) :=
  match parse_standard (CronS_Schedule (CronSearch_Spec cronSearch)) with
  | Err e => Some (Err (Wrapped "unparseable schedule" e))
  | Ok sched =>
      let earliestTime := earliest_time cronSearch now in
      if time_after earliestTime now then Some (Ok (zero_time, sched_next sched now))
      else
        match missed_starts missed_starts_fuel sched now (sched_next sched earliestTime) zero_time 0 with
        | None => None
        | Some (Err e) => Some (Err e)
        | Some (Ok lastMissed) => Some (Ok (lastMissed, sched_next sched now))
        end
  end.

(** ** The search of an activation time *)

Definition constructSearchForCronSearch `{ControllerUtil} `{RFC3339} (cronSearch : CronSearch)
    (scheduledTime : Time) : result GoError Search :=
  let name := Name (CronSearch_Meta cronSearch) +:+ "-" +:+ itoa (time_unix scheduledTime) in
  let template := CronS_SearchTemplate (CronSearch_Spec cronSearch) in
  let meta := meta_named name (Namespace (CronSearch_Meta cronSearch)) in
  let annotations := maps_copy ∅ (Annotations (ST_Meta template)) in
  let annotations := <[scheduledTimeAnnotation := format_rfc3339 scheduledTime]> annotations in
  let labels := maps_copy ∅ (Labels (ST_Meta template)) in
  match SetControllerReference "CronSearch" (CronSearch_Meta cronSearch)
          (with_annotations (with_labels meta labels) annotations) with
  | Err e => Err e
  | Ok m => Ok (mkSearch m (ST_Spec template) zero_SearchStatus)
  end.

(** ** The history *)

(** The order of [sort.Slice]: searches that have not started come first, the
    others by their start time. *)
Definition started_before (s1 s2 : Search) : bool :=
  match SearchSt_StartTime (Search_Status s1), SearchSt_StartTime (Search_Status s2) with
  | None, None => false
  | None, Some _ => true
  | Some t1, Some t2 => time_before t1 t2
  | Some _, None => false
  end.

(** The loop that deletes the oldest searches until [limit] remain; [i] and
    [n] are converted to [int32] for the test.  A failed deletion is only
    logged. *)
Fixpoint delete_oldest (i n limit : Z) (searches : list Search) : prog unit :=
  match searches with
  | [] => Ret tt
  | search :: rest =>
      if int32 (int32 n - limit) <=? int32 i then Ret tt
      else
        let* _ := op (Delete KSearch search) in
        delete_oldest (i + 1) n limit rest
  end.

Definition trim_history `{SortSlice} (limit : option Z) (searches : list Search) : prog unit :=
  match limit with
  | None => Ret tt
  | Some limit =>
      let searches := sort_slice started_before searches in
      delete_oldest 0 (Z.of_nat (length searches)) limit searches
  end.

(** ** Reconcile *)

Definition with_cron_status (c : CronSearch) (st : CronSearchStatus) : CronSearch :=
  mkCronSearch (CronSearch_Meta c) (CronSearch_Spec c) st.

(** The references to the active searches that can be made. *)
Definition active_references `{References} (active : list Search) : list ObjectReference :=
  fold_left (fun refs search =>
    match get_reference search with Ok ref => refs ++ [ref] | Err _ => refs end) active [].

(** The policy [ReplaceConcurrent] deletes the active searches first; the
    error of one ends it. *)
Fixpoint delete_active (searches : list Search) : prog (option GoError) :=
  match searches with
  | [] => Ret None
  | search :: rest =>
      let* res := op (Delete KSearch search) in
      match ignore_not_found (err_of res) with
      | Some e => Ret (Some e)
      | None => delete_active rest
      end
  end.

(** Whether the deadline to start the missed run has passed; the clock is read
    only when there is one. *)
Definition too_late (cronSearch : CronSearch) (missedRun : Time) : prog bool :=
  match CronS_StartingDeadlineSeconds (CronSearch_Spec cronSearch) with
  | None => Ret false
  | Some seconds =>
      let* now := op Now in
      Ret (time_before (time_add missedRun (duration_mul seconds Second)) now)
  end.

Definition nonempty {A} (l : list A) : bool := match l with [] => false | _ => true end.

Section reconcile.
Context `{ControllerUtil} `{CronLibrary} `{RFC3339} `{References} `{SortSlice}.

(** From the check of the concurrency policy on. *)
Definition start_missed_run (cronSearch : CronSearch) (active : list Search) (missedRun : Time)
    (scheduledResult : Result) : prog Outcome :=
  let policy := CronS_ConcurrencyPolicy (CronSearch_Spec cronSearch) in
  if bool_decide (policy = ForbidConcurrent) && nonempty active then Ret (scheduledResult, None)
  else
    let* err :=
      if decide (policy = ReplaceConcurrent) then delete_active active else Ret None in
    match err with
    | Some e => Ret (emptyResult, Some e)
    | None =>
        match constructSearchForCronSearch cronSearch missedRun with
        | Err _ => Ret (scheduledResult, None)
        | Ok search =>
            let* res := op (Create KSearch search) in
            match res with
            | Err e => Ret (emptyResult, Some e)
            | Ok _ => Ret (scheduledResult, None)
            end
        end
    end.

(** From the computation of the schedule on. *)
Definition schedule_next (cronSearch : CronSearch) (active : list Search) : prog Outcome :=
  let* now := op Now in
  match getNextSchedule cronSearch now with
  | None | Some (Err _) => Ret (emptyResult, None)
  | Some (Ok (missedRun, nextRun)) =>
      let* now := op Now in
      let scheduledResult := requeue_after (time_sub nextRun now) in
      let* _ := op Now in   (* for the log *)
      if time_is_zero missedRun then Ret (scheduledResult, None)
      else
        let* tooLate := too_late cronSearch missedRun in
        if tooLate : bool then Ret (scheduledResult, None)
        else start_missed_run cronSearch active missedRun scheduledResult
  end.

Definition Reconcile (req : ObjectKey) : prog Outcome :=
  let* res := op (Get KCronSearch req) in
  match res with
  | Err e => Ret (emptyResult, ignore_not_found (Some e))
  | Ok cronSearch =>
  let* res := op (ListObjects KSearch
    (mkListOptions (Key_Namespace req) None (Some (searchOwnerKey, Key_Name req)))) in
  match res with
  | Err e => Ret (emptyResult, Some e)
  | Ok childSearches =>
  let '(categorized, mostRecentTime) := findExistingSearches childSearches in
  let* res := op (StatusUpdate KCronSearch (with_cron_status cronSearch
    (mkCronSearchStatus (active_references (cat_active categorized)) mostRecentTime
       (CronSt_Conditions (CronSearch_Status cronSearch))))) in
  match res with
  | Err e => Ret (emptyResult, Some e)
  | Ok cronSearch =>
  let spec := CronSearch_Spec cronSearch in
  let* _ := trim_history (CronS_FailedJobsHistoryLimit spec) (cat_failed categorized) in
  let* _ := trim_history (CronS_SuccessfulJobsHistoryLimit spec) (cat_successful categorized) in
  if default false (CronS_Suspend spec) then Ret (emptyResult, None)
  else schedule_next cronSearch (cat_active categorized)
  end end end.

End reconcile.
