(* ===== verification/CronSchedule.v ===== *)
(** * The schedule of cron searches

    [getNextSchedule] always answers, with the latest missed activation time
    or the error that there are too many; and the history it starts from, read
    back from the searches that were created. *)

From Stdlib Require Import ZArith Lia String Ascii.
From S2P Require Import Prelude Effects GoStd K8s Api Client ControllerCommon CronSearchController.

Local Open Scope string_scope.
Local Open Scope Z_scope.
Local Open Scope list_scope.

(** ** Termination *)

Lemma missed_starts_total `{CronLibrary} fuel sched now t lastMissed starts :
  (0 < fuel)%nat -> 0 <= starts <= 100 -> 101 <= starts + Z.of_nat fuel ->
  missed_starts fuel sched now t lastMissed starts <> None.
Proof.
  revert t lastMissed starts; induction fuel as [|fuel IH]; intros t lastMissed starts Hf Hs Hsum;
    [lia|]. simpl. destruct (time_after t now); [done|].
  destruct (Z.ltb_spec 100 (starts + 1)); [done|]. apply IH; lia.
Qed.

Lemma getNextSchedule_fuel `{CronLibrary} cronSearch now : getNextSchedule cronSearch now <> None.
Proof.
  unfold getNextSchedule. destruct (parse_standard _) as [sched|e]; [|done].
  destruct (time_after _ _); [done|].
  pose proof (missed_starts_total missed_starts_fuel sched now
    (sched_next sched (earliest_time cronSearch now)) zero_time 0) as Htotal.
  destruct (missed_starts _ _ _ _ _ _) as [[m|e]|]; [done..|].
  exfalso. apply Htotal; [unfold missed_starts_fuel; lia|lia|unfold missed_starts_fuel; lia|done].
Qed.

(** The computation of the next schedule always answers, whatever the
    cron library returns: the loop over missed starts ends by its own bound. *)
Theorem getNextSchedule_total `{CronLibrary} cronSearch now :
  exists res, getNextSchedule cronSearch now = Some res.
Proof.
  destruct (getNextSchedule cronSearch now) eqn:E; [eauto|]. by apply getNextSchedule_fuel in E.
Qed.

(** ** The latest missed start *)

(** A schedule of one activation per period, to run the code on. *)
#[refine] Definition periodic : CronLibrary :=
  {| schedule := { p : Z | 0 < p };
     parse_standard s := Ok (exist _ (60 * Second) _);
     sched_next p t := (t / proj1_sig p + 1) * proj1_sig p |}.
Proof. done. Defined.

Section starts.
Context `{CronLibrary}.

(** The [n]-th start after [t]: what [Next] gives when it is asked again and
    again.  Nothing is assumed of the library: [Next] of a schedule that never
    activates again is the zero time. *)
Definition nth_start (s : schedule) (t : Time) (n : nat) : Time := Nat.iter n (sched_next s) t.

Lemma nth_start_S s t n : nth_start s t (S n) = nth_start s (sched_next s t) n.
Proof. unfold nth_start. by rewrite Nat.iter_succ_r. Qed.

Lemma missed_starts_answer fuel s now t lastMissed starts :
  0 <= starts <= 100 -> 101 <= starts + Z.of_nat fuel ->
  match missed_starts fuel s now t lastMissed starts with
  | Some (Ok m) => exists n, starts + Z.of_nat n <= 100 /\ (forall k, (k < n)%nat -> nth_start s t k <= now) /\
      now < nth_start s t n /\ m = match n with O => lastMissed | S n => nth_start s t n end
  | Some (Err _) => forall k, starts + Z.of_nat k <= 100 -> nth_start s t k <= now
  | None => False
  end.
Proof.
  revert t lastMissed starts; induction fuel as [|fuel IH]; intros t lastMissed starts Hs Hf; [simpl in Hf; lia|].
  simpl. unfold time_after. destruct (Z.ltb_spec now t) as [Hlt|Hge].
  - exists 0%nat. split; [lia|]. split; [lia|]. by split.
  - destruct (Z.ltb_spec 100 (starts + 1)) as [Hover|Hs'].
    + intros k Hk. assert (k = 0%nat) as -> by lia. exact Hge.
    + specialize (IH (sched_next s t) t (starts + 1) ltac:(lia) ltac:(lia)).
      destruct (missed_starts _ _ _ _ _ _) as [[m|e]|]; [| |done].
      * destruct IH as (n & Hn & Hbefore & Hafter & ->). exists (S n). split; [lia|]. split; [|split].
        -- intros [|k] Hk; [exact Hge|]. rewrite nth_start_S. apply Hbefore. lia.
        -- by rewrite nth_start_S.
        -- destruct n as [|n]; [done|]. by rewrite nth_start_S.
      * intros [|k] Hk; [exact Hge|]. rewrite nth_start_S. apply IH. lia.
Qed.

(** What [getNextSchedule] answers for a schedule that parses: an error when a
    hundred and one starts after the earliest time are not after [now]; else the
    last start before the first one that is after [now], if any. *)
Definition schedule_answer (s : schedule) (earliest now : Time) (res : result GoError (Time * Time)) :
    Prop :=
  match res with
  | Err _ => earliest <= now /\ forall k, (k <= 101)%nat -> nth_start s earliest k <= now
  | Ok (missed, next) => next = sched_next s now /\
      (now < earliest /\ missed = zero_time \/
       exists n, (n <= 100)%nat /\ (forall k, (k <= n)%nat -> nth_start s earliest k <= now) /\
         now < nth_start s earliest (S n) /\
         missed = match n with O => zero_time | S _ => nth_start s earliest n end)
  end.

Lemma getNextSchedule_answer cronSearch now s :
  parse_standard (CronS_Schedule (CronSearch_Spec cronSearch)) = Ok s ->
  exists res, getNextSchedule cronSearch now = Some res /\
    schedule_answer s (earliest_time cronSearch now) now res.
Proof.
  intros Hs. unfold getNextSchedule. rewrite Hs. set (e := earliest_time cronSearch now).
  unfold time_after. destruct (Z.ltb_spec now e) as [Hlt|Hge].
  { eexists. split; [done|]. split; [done|]. by left. }
  pose proof (missed_starts_answer missed_starts_fuel s now (sched_next s e) zero_time 0
    ltac:(lia) ltac:(unfold missed_starts_fuel; lia)) as Hans.
  destruct (missed_starts _ _ _ _ _ _) as [[m|err]|]; [| |done]; (eexists; split; [done|]).
  - destruct Hans as (n & Hn & Hbefore & Hafter & ->). split; [done|]. right. exists n. split; [lia|].
    rewrite nth_start_S. split; [|split; [done|]].
    + intros [|k] Hk; [exact Hge|]. rewrite nth_start_S. apply Hbefore. lia.
    + destruct n as [|n]; [done|]. by rewrite nth_start_S.
  - split; [done|]. intros [|k] Hk; [exact Hge|]. rewrite nth_start_S. apply Hans. lia.
Qed.

(** *** Schedules that activate at given times *)

(** [A] are the activation times of the schedule, and [Next] finds the next one
    of each time from [from] to [to].  Schedules of five fields are of this kind
    as long as they activate again within five years; those of [@every] are not,
    their starts depend on the time that is asked for. *)
Definition activates (s : schedule) (A : Time -> Prop) (from to : Time) : Prop :=
  forall t, from <= t <= to ->
    A (sched_next s t) /\ t < sched_next s t /\ forall u, A u -> t < u -> sched_next s t <= u.

(** The starts after [t], up to the [n]-th, are the activation times up to it. *)
Definition starts_upto (s : schedule) (t : Time) (n : nat) : list Time :=
  (fun k => nth_start s t (S k)) <$> seq 0 n.

Lemma starts_upto_activations s A t now n :
  activates s A t now -> (forall k, (k < n)%nat -> nth_start s t k <= now) ->
  t <= nth_start s t n /\ NoDup (starts_upto s t n) /\
  (forall u, u ∈ starts_upto s t n <-> A u /\ t < u <= nth_start s t n).
Proof.
  intros Hact. induction n as [|n IH]; intros Hbefore.
  { simpl. split; [done|]. split; [constructor|]. intros u. split; [by intros Hu%elem_of_nil|lia]. }
  destruct IH as (Hge & Hnd & Hin); [intros k Hk; apply Hbefore; lia|].
  destruct (Hact (nth_start s t n)) as (HA & Hlt & Hleast); [split; [done|apply Hbefore; lia]|].
  change (sched_next s (nth_start s t n)) with (nth_start s t (S n)) in *.
  unfold starts_upto in *. rewrite seq_S, fmap_app. simpl seq. cbn [fmap list_fmap Nat.add].
  split; [lia|]. split.
  - apply NoDup_app. split; [done|]. split; [|apply NoDup_singleton].
    intros u Hu ->%list_elem_of_singleton. apply Hin in Hu. lia.
  - intros u. rewrite elem_of_app, list_elem_of_singleton, Hin. split.
    + intros [[Hu Hr]| ->]; (split; [done|lia]).
    + intros [Hu Hr]. destruct (Z.le_gt_cases u (nth_start s t n)) as [Hle|Hgt]; [left; split; [done|lia]|right].
      specialize (Hleast u Hu ltac:(lia)). lia.
Qed.

(** What [getNextSchedule] answers then: an error when more than a hundred
    activation times lie after the earliest time and up to [now]; else the next
    one after [now], with the latest of those up to [now]. *)
Definition activation_answer (A : Time -> Prop) (earliest now : Time) (res : result GoError (Time * Time)) : Prop :=
  match res with
  | Err _ => exists l, NoDup l /\ length l = 101%nat /\ forall u, u ∈ l -> A u /\ earliest < u <= now
  | Ok (missed, next) =>
      (exists l, NoDup l /\ (length l <= 100)%nat /\ (forall u, u ∈ l <-> A u /\ earliest < u <= now) /\
        (l = [] /\ missed = zero_time \/ missed ∈ l /\ forall u, u ∈ l -> u <= missed)) /\
      A next /\ now < next /\ forall u, A u -> now < u -> next <= u
  end.

Lemma schedule_activations s A earliest now res :
  activates s A (Z.min earliest now) now -> schedule_answer s earliest now res ->
  activation_answer A earliest now res.
Proof.
  intros Hact Hans.
  assert (earliest <= now -> activates s A earliest now) as Hact'
    by (intros He t Ht; apply Hact; lia).
  destruct res as [[missed next]|e].
  - destruct Hans as [-> Hans]. split; [|apply Hact; lia].
    destruct Hans as [[Hlt ->]|(n & Hn & Hbefore & Hafter & ->)].
    { exists []. split; [constructor|]. split; [simpl; lia|]. split; [|by left].
      intros u. split; [by intros ?%elem_of_nil|lia]. }
    pose proof (Hbefore 0%nat ltac:(lia)) as He. simpl in He.
    destruct (starts_upto_activations s A earliest now n) as (Hge & Hnd & Hin); [by apply Hact'|intros k Hk; apply Hbefore; lia|].
    pose proof (Hbefore n ltac:(lia)) as Hle.
    destruct (Hact' He (nth_start s earliest n)) as (_ & _ & Hleast); [lia|].
    change (sched_next s (nth_start s earliest n)) with (nth_start s earliest (S n)) in Hleast.
    assert (forall u, u ∈ starts_upto s earliest n <-> A u /\ earliest < u <= now) as Hin'.
    { intros u. rewrite Hin. split; [intros [? ?]; split; [done|lia]|]. intros [Hu Hr]. split; [done|].
      destruct (Z.le_gt_cases u (nth_start s earliest n)); [lia|]. specialize (Hleast u Hu ltac:(lia)). lia. }
    exists (starts_upto s earliest n). split; [done|]. split; [unfold starts_upto; by rewrite length_fmap, length_seq|].
    split; [done|]. destruct n as [|n]; [by left|]. right. split; [|intros u Hu; apply Hin in Hu; lia].
    unfold starts_upto. rewrite seq_S, fmap_app. apply elem_of_app. right. by apply list_elem_of_singleton.
  - destruct Hans as [He Hbefore].
    destruct (starts_upto_activations s A earliest now 101) as (Hge & Hnd & Hin); [by apply Hact'|intros k Hk; apply Hbefore; lia|].
    exists (starts_upto s earliest 101). split; [done|]. split; [unfold starts_upto; by rewrite length_fmap, length_seq|].
    intros u [Hu Hr]%Hin. split; [done|]. specialize (Hbefore 101%nat ltac:(lia)). lia.
Qed.

(** C22: for a schedule that parses, whatever its [Next] answers, the starts are
    those that [Next] gives one after the other from the earliest time on: the
    answer is the error exactly when a hundred and one of them are not after
    [now], else the last one before the first that is after [now], or none, and
    what [Next] gives for [now].  When [Next] finds the next activation time of
    each time in question, these are the activation times between the earliest
    time and [now], the latest of them, and the first after [now]. *)
Theorem getNextSchedule_correct cronSearch now s :
  parse_standard (CronS_Schedule (CronSearch_Spec cronSearch)) = Ok s ->
  let earliest := earliest_time cronSearch now in
  exists res, getNextSchedule cronSearch now = Some res /\ schedule_answer s earliest now res /\
    forall A, activates s A (Z.min earliest now) now -> activation_answer A earliest now res.
Proof.
  intros Hs earliest. destruct (getNextSchedule_answer cronSearch now s Hs) as (res & Hres & Hans).
  exists res. split; [done|]. split; [done|]. intros A Hact. by apply (schedule_activations s A).
Qed.

(** A schedule that never activates again - the thirtieth of February - is taken
    for one of which too many starts were missed: [Next] answers the zero time,
    which is not after [now]. *)
Theorem never_activates cronSearch now s :
  parse_standard (CronS_Schedule (CronSearch_Spec cronSearch)) = Ok s ->
  (forall t, sched_next s t = zero_time) -> zero_time <= now -> earliest_time cronSearch now <= now ->
  exists e, getNextSchedule cronSearch now = Some (Err e).
Proof.
  intros Hs Hzero Hnow He. destruct (getNextSchedule_answer cronSearch now s Hs) as ([[missed next]|e] & Hres & Hans);
    [|by exists e].
  destruct Hans as [_ [[? _]|(n & _ & _ & Hafter & _)]]; [lia|].
  unfold nth_start in Hafter. simpl in Hafter. rewrite Hzero in Hafter. lia.
Qed.

(** No start is missed when the next one after every time from the last is
    after [now]. *)
Lemma no_start_missed cronSearch now s t :
  parse_standard (CronS_Schedule (CronSearch_Spec cronSearch)) = Ok s ->
  t <= earliest_time cronSearch now -> (forall u, t <= u <= now -> now < sched_next s u) ->
  exists next, getNextSchedule cronSearch now = Some (Ok (zero_time, next)).
Proof.
  intros Hs Ht Hnone. destruct (getNextSchedule_answer cronSearch now s Hs) as (res & -> & Hans).
  set (e := earliest_time cronSearch now) in *.
  destruct res as [[missed next]|err].
  - destruct Hans as [_ [[_ ->]|([|n] & _ & Hbefore & _ & ->)]]; [by exists next..|].
    pose proof (Hbefore 0%nat ltac:(lia)) as He. pose proof (Hbefore 1%nat ltac:(lia)) as Hfirst.
    unfold nth_start in *. simpl in *. specialize (Hnone e ltac:(lia)). lia.
  - destruct Hans as [He Hbefore]. pose proof (Hbefore 1%nat ltac:(lia)) as Hfirst.
    unfold nth_start in Hfirst. simpl in Hfirst. specialize (Hnone e ltac:(lia)). lia.
Qed.

(** After the latest missed start none is missed until the next one. *)
Lemma no_start_until_next cronSearch now s A t next :
  parse_standard (CronS_Schedule (CronSearch_Spec cronSearch)) = Ok s ->
  getNextSchedule cronSearch now = Some (Ok (t, next)) -> time_is_zero t = false -> activates s A t next ->
  forall now' u, t <= u <= now' -> now' < next -> now' < sched_next s u.
Proof.
  intros Hs Hn Hz Hact now' u Hu Hnow'.
  destruct (getNextSchedule_answer cronSearch now s Hs) as (res & Hres & Hans).
  rewrite Hn in Hres. injection Hres as <-.
  destruct Hans as [Hnext [[_ ->]|([|n] & _ & Hbefore & Hafter & Ht)]]; [done|by rewrite Ht in Hz|].
  pose proof (Hbefore (S n) ltac:(lia)) as Hle. rewrite <-Ht in Hle.
  change (nth_start s (earliest_time cronSearch now) (S (S n))) with
    (sched_next s (nth_start s (earliest_time cronSearch now) (S n))) in Hafter. rewrite <-Ht in Hafter.
  destruct (Hact u) as (HA & Hlt & _); [lia|]. destruct (Hact t) as (_ & _ & Hleast); [lia|].
  specialize (Hleast _ HA ltac:(lia)). destruct (Z.lt_ge_cases now' (sched_next s u)) as [|Hge]; [done|].
  destruct (Hact now) as (_ & _ & Hleast'); [lia|]. specialize (Hleast' _ HA ltac:(lia)). lia.
Qed.

(** A missed start is an activation of the schedule, not after [now]. *)
Definition start_of (spec : CronSearchSpec) (t now : Time) : Prop :=
  exists s u, parse_standard (CronS_Schedule spec) = Ok s /\ t = sched_next s u /\ t <= now.

Lemma missed_start_of cronSearch now missed next :
  getNextSchedule cronSearch now = Some (Ok (missed, next)) -> time_is_zero missed = false ->
  start_of (CronSearch_Spec cronSearch) missed now.
Proof.
  intros Hn Hz. destruct (parse_standard (CronS_Schedule (CronSearch_Spec cronSearch))) as [s|e] eqn:Hs;
    [|unfold getNextSchedule in Hn; by rewrite Hs in Hn].
  destruct (getNextSchedule_answer cronSearch now s Hs) as (res & Hres & Hans).
  rewrite Hn in Hres. injection Hres as <-.
  destruct Hans as [_ [[_ ->]|([|n] & _ & Hbefore & _ & ->)]]; [done|done|].
  exists s, (nth_start s (earliest_time cronSearch now) n). split; [done|]. split; [done|]. by apply Hbefore.
Qed.
End starts.

(** The multiples of the period. *)
Lemma periodic_activates (p : @schedule periodic) from to :
  activates (H := periodic) p (fun t => t mod proj1_sig (p : { p : Z | 0 < p }) = 0) from to.
Proof.
  destruct p as [p Hp]. intros t _. simpl. split; [apply Z_mod_mult|]. split.
  - pose proof (Z_div_mod_eq_full t p). pose proof (Z.mod_pos_bound t p Hp). nia.
  - intros u Hu Htu. apply Z.mod_divide in Hu as [k ->]; [|lia].
    assert (t / p < k) by (apply Z.div_lt_upper_bound; lia). nia.
Qed.

(** A cron search with an hourly schedule that last ran at second 7200, at
    second 14500. *)
Definition example_cron (last : option Time) (deadline : option Z) : CronSearch :=
  mkCronSearch (mkObjectMeta "nightly" "" "ns" "uid" ∅ ∅ (3600 * Second) None [] [])
    (mkCronSearchSpec (mkSearchTemplateSpec zero_ObjectMeta zero_SearchSpec) "0 * * * *" None None
       None ForbidConcurrent deadline)
    (mkCronSearchStatus [] last []).

Lemma getNextSchedule_correct_witness :
  exists res, getNextSchedule (H := periodic) (example_cron (Some (7200 * Second)) None) (14500 * Second)
      = Some res /\
    activation_answer (fun t => t mod (60 * Second) = 0) (7200 * Second) (14500 * Second) res.
Proof.
  destruct (getNextSchedule_correct (H := periodic) (example_cron (Some (7200 * Second)) None)
    (14500 * Second) (exist _ (60 * Second) eq_refl) eq_refl) as (res & Hres & _ & Hact).
  exists res. split; [exact Hres|]. apply Hact.
  exact (periodic_activates (exist _ (60 * Second) eq_refl) (7200 * Second) (14500 * Second)).
Defined.

(** A schedule that never activates. *)
Definition never : CronLibrary :=
  {| schedule := unit; parse_standard s := Ok tt; sched_next _ _ := zero_time |}.
Lemma never_activates_witness :
  exists e, getNextSchedule (H := never) (example_cron None None) (14500 * Second) = Some (Err e).
Proof. apply (never_activates (H := never) _ _ tt); [reflexivity|reflexivity|discriminate|discriminate]. Defined.

(** A minute's schedule: a hundred starts are made up, a hundred and one are
    too many. *)
Example hundred_starts :
  getNextSchedule (H := periodic) (example_cron (Some 0) None) (6000 * Second)
  = Some (Ok (6000 * Second, 6060 * Second)).
Proof. vm_compute. reflexivity. Qed.
Example too_many_starts :
  match getNextSchedule (H := periodic) (example_cron (Some 0) None) (6060 * Second) with
  | Some (Err _) => true | _ => false end = true.
Proof. vm_compute. reflexivity. Qed.

(** With a deadline no start before it is looked for; a deadline so large that
    its multiplication by a second overflows moves the limit into the
    future, and nothing is started. *)
Example deadline_limits_starts :
  earliest_time (example_cron (Some 0) (Some 100)) (6060 * Second) = 5960 * Second.
Proof. vm_compute. reflexivity. Qed.
Example deadline_overflow :
  (6060 * Second <? earliest_time (example_cron (Some 0) (Some 9300000000)) (6060 * Second)) = true.
Proof. vm_compute. reflexivity. Qed.

(** ** Child searches *)

(** Whether a child search is running, has failed or has succeeded. *)
Definition is_active (search : Search) : bool := negb (isSearchFinished search).1.
Definition ended_with (status : ConditionStatus) (search : Search) : bool :=
  (isSearchFinished search).1 && bool_decide ((isSearchFinished search).2 = status).

Lemma isSearchFinished_active search status :
  isSearchFinished search = (false, status) -> status = ConditionStatusEmpty.
Proof. unfold isSearchFinished. destruct (List.find _ _); congruence. Qed.

Lemma categorize_all searches cat :
  fold_left categorize searches cat = mkCategorized
    (cat_active cat ++ List.filter is_active searches)
    (cat_failed cat ++ List.filter (ended_with ConditionFalse) searches)
    (cat_successful cat ++ List.filter (ended_with ConditionTrue) searches).
Proof.
  revert cat; induction searches as [|s searches IH]; intros cat; simpl.
  - rewrite !app_nil_r. by destruct cat.
  - rewrite IH. unfold categorize, is_active, ended_with.
    destruct (isSearchFinished s) as [[] []]; simpl; by rewrite <-?app_assoc.
Qed.

Section recent.
Context `{RFC3339}.

(** The time a child search was scheduled at, when its annotation can be
    read. *)
Definition scheduled_at (search : Search) : option Time :=
  match getScheduledTimeForSearch search with Ok t => t | Err _ => None end.

Lemma more_recent_spec m search :
  (forall t, scheduled_at search = Some t -> exists t', more_recent m search = Some t' /\ t <= t') /\
  (forall t, m = Some t -> exists t', more_recent m search = Some t' /\ t <= t') /\
  (more_recent m search = m \/ more_recent m search = scheduled_at search).
Proof.
  unfold more_recent, scheduled_at, time_before.
  assert (forall (m : option Time) t, m = Some t -> exists t', m = Some t' /\ t <= t') as Hsame.
  { intros m' t ->. exists t. split; [done|lia]. }
  destruct (getScheduledTimeForSearch search) as [[t|]|e];
    [|split; [done|split; [apply Hsame|by left]]..].
  destruct m as [m|]; [|split; [apply Hsame|split; [done|by right]]].
  destruct (Z.ltb_spec m t); (split; [|split]).
  - apply Hsame.
  - intros ? [= <-]. exists t. split; [done|lia].
  - by right.
  - intros ? [= <-]. exists m. split; [done|lia].
  - apply Hsame.
  - by left.
Qed.

Lemma most_recent_spec searches m :
  let m' := fold_left more_recent searches m in
  (forall t, m = Some t -> exists t', m' = Some t' /\ t <= t') /\
  (forall s t, s ∈ searches -> scheduled_at s = Some t -> exists t', m' = Some t' /\ t <= t') /\
  (m' = m \/ exists s, s ∈ searches /\ m' = scheduled_at s).
Proof.
  revert m; induction searches as [|s searches IH]; intros m; simpl.
  - split; [intros t ->; eexists; split; [done|lia]|]. split; [|by left].
    intros s t Hs. by apply elem_of_nil in Hs.
  - destruct (more_recent_spec m s) as (Hs & Hm & Hor). destruct (IH (more_recent m s)) as (H1 & H2 & H3).
    split; [|split].
    + intros t Ht. destruct (Hm t Ht) as (t' & Ht' & Hle). destruct (H1 t' Ht') as (t'' & ? & ?).
      exists t''. split; [done|lia].
    + intros s' t [->|Hin]%elem_of_cons Ht; [|by apply (H2 s')].
      destruct (Hs t Ht) as (t' & Ht' & Hle). destruct (H1 t' Ht') as (t'' & ? & ?).
      exists t''. split; [done|lia].
    + destruct H3 as [->|(s' & Hin & ->)].
      * destruct Hor as [->| ->]; [by left|right]. exists s. split; [|done]. apply elem_of_cons. by left.
      * right. exists s'. split; [|done]. apply elem_of_cons. by right.
Qed.

Lemma findExistingSearches_eq searches :
  findExistingSearches searches =
    (fold_left categorize searches (mkCategorized [] [] []), fold_left more_recent searches None).
Proof.
  unfold findExistingSearches.
  generalize (mkCategorized [] [] []) as cat, (@None Time) as m.
  induction searches as [|s searches IH]; intros cat m; simpl; [done|]. apply IH.
Qed.

(** The child searches are sorted, in their order, into those without a
    completion condition, those whose first one is false and those whose
    first one is true, and the last schedule time is the latest time that can
    be read from an annotation, if there is any. *)
Theorem findExistingSearches_correct searches :
  let '(cat, mostRecentTime) := findExistingSearches searches in
  cat = mkCategorized (List.filter is_active searches)
    (List.filter (ended_with ConditionFalse) searches)
    (List.filter (ended_with ConditionTrue) searches) /\
  match mostRecentTime with
  | Some m => (exists s, s ∈ searches /\ scheduled_at s = Some m) /\
      forall s t, s ∈ searches -> scheduled_at s = Some t -> t <= m
  | None => forall s, s ∈ searches -> scheduled_at s = None
  end.
Proof.
  rewrite findExistingSearches_eq. split; [apply categorize_all|].
  destruct (most_recent_spec searches None) as (_ & Hall & Hor).
  destruct (fold_left more_recent searches None) as [m|].
  - split.
    + destruct Hor as [?|(s & Hs & ->)]; [done|eauto].
    + intros s t Hs Ht. destruct (Hall s t Hs Ht) as (t' & [= <-] & ?). done.
  - intros s Hs. destruct (scheduled_at s) as [t|] eqn:Et; [|done].
    by destruct (Hall s t Hs Et) as (t' & ? & ?).
Qed.

End recent.

(** ** The search of an activation time *)

Section construct.
Context `{ControllerUtil} `{RFC3339}.

Lemma constructSearch_shape c t s :
  constructSearchForCronSearch c t = Ok s ->
  Name (Search_Meta s) = Name (CronSearch_Meta c) +:+ "-" +:+ itoa (time_unix t) /\
  Namespace (Search_Meta s) = Namespace (CronSearch_Meta c) /\
  Annotations (Search_Meta s) !! scheduledTimeAnnotation = Some (format_rfc3339 t) /\
  Search_Spec s = ST_Spec (CronS_SearchTemplate (CronSearch_Spec c)) /\
  Search_Status s = zero_SearchStatus.
Proof.
  unfold constructSearchForCronSearch. destruct (SetControllerReference _ _ _) as [m|e] eqn:E; [|done].
  intros [= <-]. apply SetControllerReference_only in E as [-> _]. simpl. repeat split.
  by rewrite lookup_insert_eq.
Qed.

Lemma constructSearch_scheduled_at c t s :
  zero_time <= t < year_10000 -> constructSearchForCronSearch c t = Ok s ->
  scheduled_at s = Some (truncate_to_second t).
Proof.
  intros Ht Hs. apply constructSearch_shape in Hs as (_ & _ & Ha & _).
  unfold scheduled_at, getScheduledTimeForSearch. rewrite Ha. simpl.
  pose proof (format_rfc3339_nonempty t).
  destruct (Z.eqb_spec (len (format_rfc3339 t)) 0) as [Hl|_]; [|by rewrite parse_format_rfc3339].
  unfold len in Hl. destruct (format_rfc3339 t); [done|]. simpl in Hl. lia.
Qed.

(** The search of an activation time is recognised afterwards: it is
    listed among the children of its cron search, it is active, and the time
    read back from it is the time it was scheduled at, in whole seconds; its
    specification is the template's. *)
Theorem constructSearch_roundtrip c t :
  zero_time <= t < year_10000 ->
  exists s, constructSearchForCronSearch c t = Ok s /\
    search_owner_index s = [Name (CronSearch_Meta c)] /\
    isSearchFinished s = (false, ConditionStatusEmpty) /\
    getScheduledTimeForSearch s = Ok (Some (truncate_to_second t)) /\
    Search_Spec s = ST_Spec (CronS_SearchTemplate (CronSearch_Spec c)).
Proof.
  intros Ht. unfold constructSearchForCronSearch.
  rewrite SetControllerReference_fresh by done. eexists. split; [done|].
  split; [done|].
  split; [done|]. split; [|done].
  unfold getScheduledTimeForSearch. simpl. rewrite lookup_insert_eq. simpl.
  pose proof (format_rfc3339_nonempty t).
  destruct (Z.eqb_spec (len (format_rfc3339 t)) 0) as [Hl|_]; [|by rewrite parse_format_rfc3339].
  unfold len in Hl. destruct (format_rfc3339 t); [done|]. simpl in Hl. lia.
Qed.

(** The name of a search is a function of its activation time, injective
    on whole seconds: creating the search of the same start twice is a
    conflict of names, and different starts never conflict. *)
Theorem constructSearch_name c t1 t2 s1 s2 :
  constructSearchForCronSearch c t1 = Ok s1 -> constructSearchForCronSearch c t2 = Ok s2 ->
  Name (Search_Meta s1) = Name (Search_Meta s2) <-> time_unix t1 = time_unix t2.
Proof.
  intros (H1 & _)%constructSearch_shape (H2 & _)%constructSearch_shape. rewrite H1, H2.
  split; [|by intros ->]. intros E. do 2 apply string_app_inj_l in E. by apply itoa_inj.
Qed.

(** A start is never made up again while its search exists: when the last
    schedule time comes from child searches that include the one made for the
    activation time [t], the missed start found is later than [t]. *)
Theorem no_second_start `{CronLibrary} c searches t s cat last now sched missed next :
  parse_standard (CronS_Schedule (CronSearch_Spec c)) = Ok sched ->
  (forall u, t <= u <= now -> u < sched_next sched u) ->
  zero_time <= t < year_10000 -> truncate_to_second t = t ->
  constructSearchForCronSearch c t = Ok s -> s ∈ searches ->
  findExistingSearches searches = (cat, last) ->
  getNextSchedule (with_cron_status c (mkCronSearchStatus [] last [])) now = Some (Ok (missed, next)) ->
  missed <> zero_time -> t < missed.
Proof.
  intros Hsched Hlater Ht Hsec Hs Hin Hfind Hnext Hmissed.
  pose proof (constructSearch_scheduled_at c t s Ht Hs) as Hat. rewrite Hsec in Hat.
  rewrite findExistingSearches_eq in Hfind. injection Hfind as _ Hlast.
  destruct (most_recent_spec searches None) as (_ & Hall & _).
  destruct (Hall s t Hin Hat) as (m & Hm & Hle). rewrite Hlast in Hm.
  set (c' := with_cron_status c (mkCronSearchStatus [] last [])) in *.
  destruct (getNextSchedule_answer c' now sched Hsched) as (res & Hres & Hanswer).
  rewrite Hnext in Hres. injection Hres as <-.
  assert (t <= earliest_time c' now) as He.
  { unfold earliest_time. simpl. rewrite Hm. destruct (CronS_StartingDeadlineSeconds _); [|lia].
    unfold time_after. destruct (Z.ltb_spec m (time_add now (duration_mul (- Second) z))); lia. }
  destruct Hanswer as [_ [[_ ?]|([|n] & _ & Hbefore & _ & ->)]]; [done..|].
  assert (forall k, (k <= n)%nat -> t <= nth_start sched (earliest_time c' now) k) as Hge.
  { intros k. induction k as [|k IH]; intros Hk; [exact He|].
    specialize (IH ltac:(lia)). pose proof (Hlater _ (conj IH (Hbefore k ltac:(lia)))).
    unfold nth_start in *. simpl. lia. }
  pose proof (Hge n ltac:(lia)) as Hn. pose proof (Hlater _ (conj Hn (Hbefore n ltac:(lia)))).
  change (nth_start sched (earliest_time c' now) (S n)) with
    (sched_next sched (nth_start sched (earliest_time c' now) n)). lia.
Qed.

End construct.

(** ** Instances to run on *)

(** A format with the laws of RFC 3339: the whole seconds in binary digits, the
    least significant first. *)
Fixpoint bits (p : positive) : string :=
  match p with
  | xH => "1"
  | xO p => String "0" (bits p)
  | xI p => String "1" (bits p)
  end.
Fixpoint bits_value (s : string) : Z :=
  match s with
  | EmptyString => 0
  | String c s => (if Ascii.eqb c "1" then 1 else 0) + 2 * bits_value s
  end.
Definition binary_format (t : Time) : string :=
  String "t" (match t / Second with Zpos p => bits p | _ => "" end).
Definition binary_parse (s : string) : result GoError Time :=
  match s with
  | EmptyString => Err (ErrorString "cannot parse")
  | String _ s => Ok (bits_value s * Second)
  end.

Lemma bits_value_bits p : bits_value (bits p) = Zpos p.
Proof. induction p as [p IH|p IH|]; simpl; [rewrite IH|rewrite IH|]; lia. Qed.

#[refine] Definition binary_rfc3339 : RFC3339 :=
  {| format_rfc3339 := binary_format; parse_rfc3339 := binary_parse |}.
Proof.
  - done.
  - intros t [Ht _]. unfold binary_parse, binary_format, truncate_to_second. f_equal.
    assert (0 <= t / Second) as Hpos by (apply Z.div_pos; [exact Ht|done]).
    pose proof (Z_div_mod_eq_full t Second) as Hmod.
    destruct (t / Second) as [|p|p]; [simpl bits_value| |lia].
    + lia.
    + rewrite bits_value_bits. lia.
Defined.

Lemma constructSearch_roundtrip_witness :
  exists s, constructSearchForCronSearch (H := controller_util_model) (H0 := binary_rfc3339)
      (example_cron None None) (60 * Second) = Ok s /\
    search_owner_index s = ["nightly"] /\
    getScheduledTimeForSearch (H := binary_rfc3339) s = Ok (Some (60 * Second)).
Proof.
  destruct (constructSearch_roundtrip (H := controller_util_model) (H0 := binary_rfc3339)
    (example_cron None None) (60 * Second)) as (s & Hs & Hidx & _ & Ht & _).
  - split; [discriminate|reflexivity].
  - exists s. split; [exact Hs|]. split; [exact Hidx|exact Ht].
Defined.

Definition example_search (t : Time) : Search :=
  match constructSearchForCronSearch (H := controller_util_model) (H0 := binary_rfc3339)
          (example_cron None None) t with
  | Ok s => s
  | Err _ => mkSearch zero_ObjectMeta zero_SearchSpec zero_SearchStatus
  end.

Lemma constructSearch_name_witness :
  Name (Search_Meta (example_search (60 * Second)))
    = Name (Search_Meta (example_search (60 * Second + 5)))
  <-> time_unix (60 * Second) = time_unix (60 * Second + 5).
Proof.
  apply (constructSearch_name (H := controller_util_model) (H0 := binary_rfc3339)
    (example_cron None None) (60 * Second) (60 * Second + 5)); reflexivity.
Defined.

(** With the search of the start at minute 2 among the children, the start at
    minute 4 is the one found at minute 4. *)
Lemma no_second_start_witness :
  getNextSchedule (H := periodic)
    (with_cron_status (example_cron None None) (mkCronSearchStatus [] (Some (120 * Second)) []))
    (240 * Second) = Some (Ok (240 * Second, 300 * Second)) /\
  120 * Second < 240 * Second.
Proof.
  split; [vm_compute; reflexivity|].
  apply (no_second_start (H := controller_util_model) (H0 := binary_rfc3339) (H1 := periodic)
    (example_cron None None) [example_search (120 * Second)] (120 * Second)
    (example_search (120 * Second)) (mkCategorized [example_search (120 * Second)] [] [])
    (Some (120 * Second)) (240 * Second) (exist _ (60 * Second) eq_refl) (240 * Second) (300 * Second)).
  - reflexivity.
  - intros u _. apply (periodic_activates (exist _ (60 * Second) eq_refl) u u). lia.
  - split; [discriminate|reflexivity].
  - reflexivity.
  - reflexivity.
  - apply list_elem_of_singleton. reflexivity.
  - vm_compute. reflexivity.
  - vm_compute. reflexivity.
  - discriminate.
Defined.
