(* ===== verification/CronSafety.v ===== *)
(** * Safety of the cron search reconciler

    What holds on every path through [Reconcile]: what it creates and when,
    what it deletes, and the history it keeps. *)

From Stdlib Require Import ZArith Lia String Ascii.
From stdpp Require Import sorting.
From S2P Require Import Prelude Effects GoStd K8s Api Client ControllerCommon CronSearchController CronSchedule.

Local Open Scope string_scope.
Local Open Scope Z_scope.
Local Open Scope list_scope.
Local Open Scope prog_scope.

(** ** Reading the events *)

(** The searches created, and those a deletion was asked of, in order. *)
Definition creations (tr : list Event) : list Search := omap (create_of KSearch) tr.
Definition deletions (tr : list Event) : list (Search * result GoError unit) :=
  omap (delete_of KSearch) tr.

Lemma creations_app tr tr' : creations (tr ++ tr') = creations tr ++ creations tr'.
Proof. apply omap_app. Qed.
Lemma deletions_app tr tr' : deletions (tr ++ tr') = deletions tr ++ deletions tr'.
Proof. apply omap_app. Qed.

Lemma deletions_delete s a tr : deletions (event (Delete KSearch s) a :: tr) = (s, a) :: deletions tr.
Proof. done. Qed.
Lemma creations_delete s a tr : creations (event (Delete KSearch s) a :: tr) = creations tr.
Proof. done. Qed.

(** A deletion that the server did, or had already done. *)
Definition is_deleted (search : Search) (d : Search * result GoError unit) : Prop :=
  d.1 = search /\ ignore_not_found (err_of d.2) = None.

(** ** The history *)

#[export] Instance started_before_order : StrictWeakOrder started_before.
Proof.
  unfold started_before, time_before. split.
  - intros x. destruct (SearchSt_StartTime _); [apply Z.ltb_irrefl|done].
  - intros x y z. destruct (SearchSt_StartTime (Search_Status x)), (SearchSt_StartTime (Search_Status y)),
      (SearchSt_StartTime (Search_Status z)); try done. rewrite !Z.ltb_lt. lia.
  - intros x y z. destruct (SearchSt_StartTime (Search_Status x)), (SearchSt_StartTime (Search_Status y)),
      (SearchSt_StartTime (Search_Status z)); try done. rewrite !Z.ltb_ge. lia.
Qed.

Lemma delete_oldest_deletions i n limit searches :
  0 <= i -> 0 <= limit -> is_int32 limit -> n = i + Z.of_nat (length searches) -> is_int32 n ->
  always (delete_oldest i n limit searches) (fun tr _ =>
    (deletions tr).*1 = take (Z.to_nat (n - limit - i)) searches /\ creations tr = []).
Proof.
  revert i; induction searches as [|s searches IH]; intros i Hi Hl Hli Hn Hni; simpl.
  - by rewrite take_nil.
  - assert (int32 n = n) as -> by (by apply int32_id).
    unfold is_int32 in *. simpl in Hn. rewrite (int32_id i) by (unfold is_int32; lia).
    rewrite int32_id by (unfold is_int32; lia).
    destruct (Z.leb_spec (n - limit) i); simpl.
    + by replace (Z.to_nat (n - limit - i)) with 0%nat by lia.
    + intros a. eapply always_impl; [apply (IH (i + 1)); unfold is_int32; lia|].
      intros tr _ [Htr Hc]. split; [|exact Hc].
      change ((s :: (deletions tr).*1) = take (Z.to_nat (n - limit - i)) (s :: searches)).
      rewrite Htr.
      by replace (Z.to_nat (n - limit - i)) with (S (Z.to_nat (n - limit - (i + 1)))) by lia.
Qed.

(** Of two parts of a sorted list no element of the second comes before one of
    the first. *)
Lemma sorted_take_drop (l : list Search) k s1 s2 :
  StronglySorted (fun x y => started_before y x = false) l ->
  s1 ∈ take k l -> s2 ∈ drop k l -> started_before s2 s1 = false.
Proof.
  intros Hl H1 H2. rewrite <-(take_drop k l) in Hl.
  revert Hl H1. generalize (take k l) as t. induction t as [|x t IH]; intros Hl H1.
  - by apply elem_of_nil in H1.
  - inversion_clear Hl as [|? ? Ht Hx]. apply elem_of_cons in H1 as [->|H1]; [|by apply IH].
    rewrite Forall_forall in Hx. apply Hx. apply elem_of_app. by right.
Qed.

Lemma trim_history_deletions `{SortSlice} limit searches :
  0 <= limit -> is_int32 limit -> is_int32 (Z.of_nat (length searches)) ->
  always (trim_history (Some limit) searches) (fun tr _ =>
    (deletions tr).*1 = take (length searches - Z.to_nat limit) (sort_slice started_before searches)
    /\ creations tr = []).
Proof.
  intros Hl Hi Hn. unfold trim_history.
  assert (length (sort_slice started_before searches) = length searches) as Hlen
    by (apply Permutation_length, sort_slice_perm).
  rewrite Hlen. eapply always_impl; [apply delete_oldest_deletions; [done..| |done]; rewrite Hlen; lia|].
  intros tr _ [Htr Hc]. split; [|done]. rewrite Htr. f_equal. lia.
Qed.

(** C31: trimming the history to [limit] searches asks for the deletion of all
    but [limit] of them (of none when there are no more), each once, and no
    search that is kept started before one that is deleted. *)
Theorem trim_history_keeps_newest `{SortSlice} limit searches :
  0 <= limit -> is_int32 limit -> is_int32 (Z.of_nat (length searches)) ->
  always (trim_history (Some limit) searches) (fun tr _ => exists kept,
    (deletions tr).*1 ++ kept ≡ₚ searches /\
    Z.of_nat (length kept) = Z.min limit (Z.of_nat (length searches)) /\
    (forall d k, d ∈ (deletions tr).*1 -> k ∈ kept -> started_before k d = false) /\
    creations tr = []).
Proof.
  intros Hl Hi Hn. eapply always_impl; [by apply trim_history_deletions|].
  intros tr _ [-> Hc]. set (n := (length searches - Z.to_nat limit)%nat).
  exists (drop n (sort_slice started_before searches)).
  rewrite take_drop. split; [apply sort_slice_perm|]. split; [|split; [|done]].
  - rewrite length_drop, (Permutation_length (sort_slice_perm started_before searches)). lia.
  - intros d k Hd Hk. eapply sorted_take_drop; [|exact Hd|exact Hk].
    apply sort_slice_sorted. apply started_before_order.
Qed.

(** ** What a reconciliation creates and deletes *)

Section cron.
Context `{ControllerUtil} `{CronLibrary} `{RFC3339} `{References} `{SortSlice}.

Lemma delete_active_events searches :
  always (delete_active searches) (fun tr err =>
    creations tr = [] /\ Forall (fun d => d.1 ∈ searches) (deletions tr) /\
    (err = None -> Forall2 is_deleted searches (deletions tr))).
Proof.
  induction searches as [|s searches IH]; simpl.
  - split; [done|]. split; constructor.
  - intros a. destruct (ignore_not_found (err_of a)) as [e|] eqn:E; simpl.
    + split; [done|]. split; [|done]. constructor; [|constructor]. apply elem_of_cons. by left.
    + eapply always_impl; [exact IH|]. intros tr err (Hc & Hin & Hdel). split; [exact Hc|].
      split.
      * constructor; [apply elem_of_cons; by left|]. eapply Forall_impl; [exact Hin|].
        intros d Hd. apply elem_of_cons. by right.
      * intros He. constructor; [by split|by apply Hdel].
Qed.

Lemma delete_oldest_events i n limit searches :
  always (delete_oldest i n limit searches) (fun tr _ =>
    creations tr = [] /\ Forall (fun d => d.1 ∈ searches) (deletions tr)).
Proof.
  revert i; induction searches as [|s searches IH]; intros i; simpl.
  - split; [done|constructor].
  - destruct (_ <=? _); simpl; [by split|]. intros a.
    eapply always_impl; [apply IH|]. intros tr _ [Hc Hd]. split; [exact Hc|].
    constructor; [apply elem_of_cons; by left|]. eapply Forall_impl; [exact Hd|].
    intros d Hin. apply elem_of_cons. by right.
Qed.

Lemma trim_history_events limit searches :
  always (trim_history limit searches) (fun tr _ =>
    creations tr = [] /\ Forall (fun d => d.1 ∈ searches) (deletions tr)).
Proof.
  destruct limit as [limit|]; simpl; [|by split].
  eapply always_impl; [apply delete_oldest_events|]. intros tr _ [Hc Hd]. split; [done|].
  eapply Forall_impl; [exact Hd|]. intros d. simpl. by rewrite sort_slice_perm.
Qed.

(** A start under the policy of [c]: at most one search is created, the one of
    the start, as the last thing done; not when the policy forbids it, and
    after the active ones are deleted when the policy replaces them. *)
Definition starts_under_policy (c : CronSearch) (active : list Search) (missed : Time)
    (tr : list Event) : Prop :=
  let policy := CronS_ConcurrencyPolicy (CronSearch_Spec c) in
  creations tr = [] \/
  exists before search answer,
    tr = before ++ [event (Create KSearch search) answer] /\ creations before = [] /\
    constructSearchForCronSearch c missed = Ok search /\
    (policy = ForbidConcurrent -> active = []) /\
    (policy = ReplaceConcurrent -> Forall2 is_deleted active (deletions before)) /\
    (policy <> ReplaceConcurrent -> before = []).

Lemma start_missed_run_events c active missed scheduled :
  always (start_missed_run c active missed scheduled) (fun tr _ =>
    starts_under_policy c active missed tr /\
    Forall (fun d => d.1 ∈ active /\
      CronS_ConcurrencyPolicy (CronSearch_Spec c) = ReplaceConcurrent) (deletions tr)).
Proof.
  unfold start_missed_run, starts_under_policy. set (policy := CronS_ConcurrencyPolicy _).
  destruct (bool_decide (policy = ForbidConcurrent) && nonempty active) eqn:Ef; simpl.
  { split; [by left|constructor]. }
  assert (policy = ForbidConcurrent -> active = []) as Hforbid.
  { intros Hp. rewrite (bool_decide_true _ Hp) in Ef. by destruct active. }
  destruct (decide (policy = ReplaceConcurrent)) as [Hr|Hr].
  - apply always_bind. eapply always_impl; [apply delete_active_events|].
    intros tr err (Hc & Hin & Hdel).
    assert (Forall (fun d => d.1 ∈ active /\ policy = ReplaceConcurrent) (deletions tr)) as Hin'.
    { eapply Forall_impl; [exact Hin|]. by intros d Hd. }
    destruct err as [e|]; simpl; [by rewrite app_nil_r; split; [left|]|].
    destruct (constructSearchForCronSearch c missed) as [search|e] eqn:Es; simpl;
      [|by rewrite app_nil_r; split; [left|]].
    intros a. destruct a as [o|e]; simpl;
      (split; [|rewrite deletions_app; apply Forall_app; split; [done|constructor]]);
      right; exists tr, search; eexists; (split; [reflexivity|]); (split; [done|]);
      (split; [done|]); (split; [exact Hforbid|]); (split; [intros _; by apply Hdel|done]).
  - simpl. destruct (constructSearchForCronSearch c missed) as [search|e] eqn:Es; simpl;
      [|by split; [left|]].
    intros a. destruct a as [o|e]; simpl; (split; [|constructor]);
      right; exists [], search; eexists; (split; [reflexivity|]); (split; [done|]);
      (split; [done|]); (split; [exact Hforbid|]); (split; [by intros Hp; destruct (Hr Hp)|done]).
Qed.

(** The concurrency policy is kept on every path: at most one search is
    created, as the last thing done; under the policy that forbids concurrent
    runs only when no search is active; under the one that replaces them only
    after the deletion of every active one was accepted (or it was gone). *)
Theorem start_missed_run_policy c active missed scheduled :
  always (start_missed_run c active missed scheduled)
    (fun tr _ => starts_under_policy c active missed tr).
Proof.
  eapply always_impl; [apply start_missed_run_events|]. by intros tr _ [Htr _].
Qed.

(** What a reconciliation may write after it read the children and wrote the
    status: it deletes children only, and of the active ones only those its
    policy replaces; it creates at most one search, for a missed start its
    schedule gives, when it is not suspended. *)
Definition cron_writes (children : list Search) (c : CronSearch) (tr : list Event) : Prop :=
  let policy := CronS_ConcurrencyPolicy (CronSearch_Spec c) in
  Forall (fun d => d.1 ∈ children /\ (is_active d.1 = true -> policy = ReplaceConcurrent))
    (deletions tr) /\
  (creations tr = [] \/ exists search now missed next,
     creations tr = [search] /\ CronS_Suspend (CronSearch_Spec c) <> Some true /\
     getNextSchedule c now = Some (Ok (missed, next)) /\ time_is_zero missed = false /\
     constructSearchForCronSearch c missed = Ok search /\
     (policy = ForbidConcurrent -> List.filter is_active children = [])).

(** The first three events read the cron search, list its children and write
    its status; the others satisfy [P]. *)
Definition after_status (P : list Search -> CronSearch -> list Event -> Prop) (tr : list Event) : Prop :=
  match tr with
  | v1 :: v2 :: v3 :: rest =>
      match get_of KCronSearch v1, list_of KSearch v2, status_update_of KCronSearch v3 with
      | Some (Ok _), Some (Ok children), Some (_, Ok c) => P children c rest
      | Some (Ok _), Some (Ok _), Some (_, Err _) => rest = []
      | _, _, _ => False
      end
  | [v1; v2] =>
      match get_of KCronSearch v1, list_of KSearch v2 with
      | Some (Ok _), Some (Err _) => True
      | _, _ => False
      end
  | [v1] => match get_of KCronSearch v1 with Some (Err _) => True | _ => False end
  | [] => False
  end.

Lemma too_late_events c missed :
  always (too_late c missed) (fun tr _ => creations tr = [] /\ deletions tr = []).
Proof. unfold too_late. destruct (CronS_StartingDeadlineSeconds _); simpl; by intros. Qed.

Lemma schedule_next_events c active :
  always (schedule_next c active) (fun tr _ =>
    Forall (fun d => d.1 ∈ active /\
      CronS_ConcurrencyPolicy (CronSearch_Spec c) = ReplaceConcurrent) (deletions tr) /\
    (creations tr = [] \/ exists search now missed next,
       creations tr = [search] /\
       getNextSchedule c now = Some (Ok (missed, next)) /\ time_is_zero missed = false /\
       constructSearchForCronSearch c missed = Ok search /\
       (CronS_ConcurrencyPolicy (CronSearch_Spec c) = ForbidConcurrent -> active = []))).
Proof.
  unfold schedule_next. intros now. simpl.
  destruct (getNextSchedule c now) as [[[missed next]|e]|] eqn:En; simpl;
    [|split; [constructor|by left]..].
  intros now2 now3. destruct (time_is_zero missed) eqn:Ez; simpl; [split; [constructor|by left]|].
  apply always_bind. eapply always_impl; [apply too_late_events|].
  intros tr [] [Hc Hd]; simpl.
  { rewrite app_nil_r. split; [|left; exact Hc].
    change (Forall (fun d => d.1 ∈ active /\ CronS_ConcurrencyPolicy (CronSearch_Spec c) = ReplaceConcurrent)
      (deletions tr)). rewrite Hd. constructor. }
  eapply always_impl; [apply start_missed_run_events|]. intros tr' _ [Hs Hf].
  change (deletions (event Now now :: event Now now2 :: event Now now3 :: tr ++ tr'))
    with (deletions (tr ++ tr')).
  change (creations (event Now now :: event Now now2 :: event Now now3 :: tr ++ tr'))
    with (creations (tr ++ tr')).
  rewrite deletions_app, creations_app, Hc, Hd. simpl. split; [exact Hf|].
  destruct Hs as [Hs|(before & search & a & -> & Hb & Hcon & Hforbid & _)]; [by left|right].
  exists search, now, missed, next. rewrite creations_app, Hb. by repeat split.
Qed.

Lemma filter_elem (f : Search -> bool) l s : s ∈ List.filter f l <-> s ∈ l /\ f s = true.
Proof. by rewrite !list_elem_of_In, filter_In. Qed.

Lemma ended_not_active status s : ended_with status s = true -> is_active s = false.
Proof. unfold ended_with, is_active. by destruct (isSearchFinished s) as [[] ?]. Qed.

(** The deletions of the history, whatever they answer, are allowed. *)
Lemma trim_then {A} limit children status c (f : unit -> prog A) :
  (forall u, always (f u) (fun tr _ => cron_writes children c tr)) ->
  always (bind (trim_history limit (List.filter (ended_with status) children)) f)
    (fun tr _ => cron_writes children c tr).
Proof.
  intros Hf. apply always_bind. eapply always_impl; [apply trim_history_events|].
  intros tr u [Hc Hd]. eapply always_impl; [apply Hf|]. intros tr' a [Hd' Hc'].
  unfold cron_writes. rewrite deletions_app, creations_app, Hc. split; [|exact Hc'].
  apply Forall_app. split; [|exact Hd']. eapply Forall_impl; [exact Hd|].
  intros d [Hin Hend]%filter_elem. split; [done|].
  rewrite (ended_not_active _ _ Hend). done.
Qed.

(** C12: on every path a reconciliation deletes only searches it listed as
    children of its cron search, an active one only to replace it; and it
    creates at most one search, only when the cron search is not suspended,
    for a missed start that its schedule gives, and under the policy that
    forbids concurrent runs only when no child is active. *)
Theorem Reconcile_writes req : always (Reconcile req) (fun tr _ => after_status cron_writes tr).
Proof.
  unfold Reconcile. intros [c0|e]; simpl; [|done]. intros [children|e]; simpl; [|done].
  pose proof (findExistingSearches_eq children) as E. rewrite categorize_all in E. simpl in E.
  rewrite E. simpl. intros [c|e]; simpl; [|done].
  match goal with |- always ?p _ =>
    enough (always p (fun tr _ => cron_writes children c tr)) as Hp end.
  { exact Hp. }
  apply trim_then. intros _. apply trim_then. intros _.
  destruct (CronS_Suspend (CronSearch_Spec c)) as [[]|] eqn:Es.
  { simpl. split; [constructor|by left]. }
  all: eapply always_impl; [apply schedule_next_events|]; intros tr a [Hd Hc]; split.
  1,3: eapply Forall_impl; [exact Hd|]; intros d [[Hin _]%filter_elem Hp]; by split.
  all: destruct Hc as [Hc|(search & now & missed & next & Hc & Hn & Hz & Hcon & Hf)]; [by left|right];
    exists search, now, missed, next; rewrite Es; by repeat split.
Qed.

End cron.

(** ** A history of three searches *)

Definition started_search (name : string) (start : option Time) : Search :=
  mkSearch (meta_named name "ns") zero_SearchSpec (mkSearchStatus [] start None None).

Lemma trim_history_keeps_newest_witness :
  let searches := [started_search "b" (Some 20); started_search "c" (Some 30);
                   started_search "a" (Some 10)] in
  always (trim_history (H := sort_slice_insertion) (Some 1) searches) (fun tr _ => exists kept,
    (deletions tr).*1 ++ kept ≡ₚ searches /\
    Z.of_nat (length kept) = Z.min 1 (Z.of_nat (length searches)) /\
    (forall d k, d ∈ (deletions tr).*1 -> k ∈ kept -> started_before k d = false) /\
    creations tr = []).
Proof.
  apply (trim_history_keeps_newest (H := sort_slice_insertion) 1
    [started_search "b" (Some 20); started_search "c" (Some 30); started_search "a" (Some 10)]);
    unfold is_int32; simpl; lia.
Defined.
