(* ===== verification/SearchSafety.v ===== *)
(** * Safety of the search reconciler

    What holds on every path through [Reconcile] of a search, the objects it
    makes, and when it deletes the search. *)

From Stdlib Require Import ZArith Lia String Ascii.
From S2P Require Import Prelude Effects GoStd K8s Api Client Resources Containers ControllerCommon SearchController.

Local Open Scope string_scope.
Local Open Scope Z_scope.
Local Open Scope list_scope.
Local Open Scope prog_scope.

(** ** The life of a search *)

(** A search starts once and completes once, after it started; it keeps its
    start time, and the name of the cron search it belongs to. *)
Inductive search_step (st : SearchStatus) : SearchStatus -> Prop :=
| search_starts t c :
    SearchSt_StartTime st = None -> SearchSt_CompletionTime st = None ->
    Cond_Type c = StartedConditionType ->
    search_step st (mkSearchStatus [c] (Some t) None (SearchSt_CronSearchControllerName st))
| search_completes t c :
    SearchSt_StartTime st <> None -> SearchSt_CompletionTime st = None ->
    Cond_Type c = CompletedSuccessfullyConditionType -> Cond_LastTransitionTime c = t ->
    search_step st (mkSearchStatus (SearchSt_Conditions st ++ [c]) (SearchSt_StartTime st) (Some t)
      (SearchSt_CronSearchControllerName st)).

(** ** The events of a reconciliation of [s] *)

Inductive search_event (s : Search) : Event -> Prop :=
| se_read v : is_read v -> search_event s v
| se_patch a :
    SearchS_ServiceAccountName (Search_Spec s) = "" ->
    search_event s (event (Patch KSearch s (with_search_spec s
      (with_service_account (Search_Spec s) ("search-" +:+ Name (Search_Meta s))))) a)
| se_service_account f a :
    SearchS_ServiceAccountName (Search_Spec s) <> "" ->
    search_event s (event (CreateOrUpdate KServiceAccount
      (mkServiceAccount (meta_named (SearchS_ServiceAccountName (Search_Spec s))
        (Namespace (Search_Meta s))) "") f) a)
| se_role_binding f a :
    search_event s (event (CreateOrUpdate KRoleBinding (mkRoleBinding
      (meta_named (searchResourcePrefix +:+ Name (Search_Meta s)) (Namespace (Search_Meta s)))
      (mkRoleRef "" "" "") []) f) a)
| se_pod f a :
    search_event s (event (CreateOrUpdate KPod
      (pod_named (searchResourcePrefix +:+ Name (Search_Meta s)) (Namespace (Search_Meta s))) f) a)
| se_status st a :
    search_step (Search_Status s) st ->
    search_event s (event (StatusUpdate KSearch (with_search_status s st)) a)
| se_duration d x :
    search_event s (event
      (UpdateMetric searchDurationSeconds (search_metric_labels s) (MetricObserve d)) x)
| se_delete a : search_event s (event (Delete KSearch s) a).

(** The first event reads a search, of which the others are. *)
Definition after_search_read (P : Search -> Event -> Prop) (tr : list Event) : Prop :=
  match tr with
  | v :: tr =>
      match get_of KSearch v with
      | Some (Ok s) => Forall (P s) tr
      | Some (Err _) => tr = []
      | None => False
      end
  | [] => False
  end.

Lemma search_reads_events {A} s (p : prog A) : all_events is_read p -> all_events (search_event s) p.
Proof. intros Hp. eapply all_events_impl; [exact Hp|]. by constructor. Qed.

Lemma search_handlePostCompletion_events s : all_events (search_event s) (handlePostCompletion s).
Proof.
  unfold handlePostCompletion, deref. destruct (SearchS_TTLSecondsAfterFinished _); [|constructor].
  destruct (SearchSt_CompletionTime _); [|constructor].
  apply all_events_vis; [by constructor|]. intros now. simpl. destruct (time_after _ _).
  - apply all_events_vis; [by constructor|]. constructor.
  - apply all_events_vis; [by constructor|]. constructor.
Qed.

Lemma retrieveRunning_reads s : all_events is_read (retrieveRunningScheduledResources s).
Proof.
  unfold retrieveRunningScheduledResources. apply all_events_vis; [done|].
  intros [ps|e]; simpl; [|constructor]. apply all_events_vis; [done|].
  intros [ss|e]; constructor.
Qed.

Lemma record_completion_events s st :
  search_step (Search_Status s) st ->
  all_events (search_event s) (record_completion (search_metric_labels s) (with_search_status s st)).
Proof.
  intros Hst. unfold record_completion. apply all_events_vis; [by constructor|].
  intros [s'|e]; simpl; [|constructor]. destruct (SearchSt_CompletionTime _); [|constructor].
  unfold deref. destruct (SearchSt_StartTime _); [|constructor].
  apply all_events_vis; [by constructor|]. constructor.
Qed.

Lemma completed_step st t status reason message :
  SearchSt_StartTime st <> None -> SearchSt_CompletionTime st = None ->
  search_step st (completed_search_status st t status reason message).
Proof. intros. by apply search_completes. Qed.

Lemma search_handleCompletion_events s pod :
  SearchSt_StartTime (Search_Status s) <> None -> SearchSt_CompletionTime (Search_Status s) = None ->
  all_events (search_event s) (handleCompletion s pod).
Proof.
  intros Hs Hc. unfold handleCompletion.
  apply all_events_bind; [apply search_reads_events, retrieveRunning_reads|].
  intros [[ps ss]|e]; [|constructor]. destruct (_ || _); [constructor|].
  unfold mark_complete. rewrite Hc.
  destruct (Pod_Phase _); try constructor; simpl;
    (apply all_events_vis; [by constructor|]; intros t; apply record_completion_events, completed_step; done).
Qed.

Section search_reconcile.
Context `{ControllerUtil} `{MapRange string} `{TemplateJSON}.
Implicit Types (r : SearchReconciler).

Lemma Reconcile_search_events r req :
  always (Reconcile r req) (fun tr _ => after_search_read search_event tr).
Proof.
  unfold Reconcile. intros [s|e]; simpl; [|done].
  match goal with |- always ?p _ => change (all_events (search_event s) p) end.
  destruct (SearchSt_CompletionTime _) eqn:Ec; [apply search_handlePostCompletion_events|].
  apply all_events_bind; [apply search_reads_events; auto with ocular|].
  intros [crawler [e|]]; [constructor|].
  destruct (String.eqb_spec (SearchS_ServiceAccountName (Search_Spec s)) "") as [E|E].
  { apply all_events_vis; [by constructor|]. constructor. }
  unfold reconcile_objects. apply all_events_vis; [by constructor|]. intros [[sa ?]|e]; [|constructor].
  apply all_events_vis; [by constructor|]. intros [rb|e]; [|constructor].
  apply all_events_vis; [by constructor|]. intros [[pod ?]|e]; [|constructor].
  destruct (SearchSt_StartTime (Search_Status s)) eqn:Es.
  - apply search_handleCompletion_events; [by rewrite Es|done].
  - apply all_events_vis; [by constructor|]. intros t. simpl.
    apply all_events_vis; [|constructor]. intros a. apply se_status. unfold started_search_status.
    rewrite Ec. by apply search_starts.
Qed.

Lemma after_search_read_impl P Q tr :
  after_search_read P tr -> (forall s v, P s v -> Q s v) -> after_search_read Q tr.
Proof.
  intros HP HPQ. destruct tr as [|v tr]; [done|]. simpl in *.
  destruct (get_of KSearch v) as [[s|e]|]; [|done..].
  eapply Forall_impl; [exact HP|apply HPQ].
Qed.

(** The writes of a reconciliation of [s] other than of metrics. *)
Definition search_writes_ok (s : Search) (v : Event) : Prop :=
  match v with
  | event e x =>
      match e in Op X return X -> Prop with
      | Get _ _ | ListObjects _ _ | Now => fun _ => True
      | UpdateMetric m labels _ => fun _ => dom labels = metric_label_names m
      | CreateOrUpdate k o _ => fun _ =>
          Key_Namespace (key_of k o) = Namespace (Search_Meta s) /\
          ((k = KServiceAccount /\
              Key_Name (key_of k o) = SearchS_ServiceAccountName (Search_Spec s) /\
              Key_Name (key_of k o) <> "") \/
           ((k = KRoleBinding \/ k = KPod) /\
              Key_Name (key_of k o) = searchResourcePrefix +:+ Name (Search_Meta s)))
      | Patch k _ _ => fun _ => k = KSearch
      | StatusUpdate k _ => fun _ => k = KSearch
      | Delete k _ => fun _ => k = KSearch
      | _ => fun _ => False
      end x
  end.

(** A reconciliation writes nothing but the search it read and, in its
    namespace, its service account - of the name the search asks for, which
    is never empty -, its role binding and its pod; and metrics get the
    labels they are declared with. *)
Theorem Reconcile_search_footprint r req :
  always (Reconcile r req) (fun tr _ => after_search_read search_writes_ok tr).
Proof.
  eapply always_impl; [apply Reconcile_search_events|]. intros tr a Htr.
  eapply after_search_read_impl; [exact Htr|]. intros s v [v' Hv| | | | | | |]; [|done| | | |done| |done].
  - by destruct v' as [X [] x].
  - split; [done|]. left. by repeat split.
  - split; [done|]. right. split; [by left|done].
  - split; [done|]. right. split; [by right|done].
  - simpl. unfold search_metric_labels. set_solver.
Qed.

(** Every write to the status of a search is a step of its life and
    leaves its metadata and its specification alone. *)
Theorem Reconcile_search_status r req :
  always (Reconcile r req) (fun tr _ => after_search_read (fun s v =>
    match status_update_of KSearch v with
    | Some (s', _) => search_step (Search_Status s) (Search_Status s') /\
        Search_Meta s' = Search_Meta s /\ Search_Spec s' = Search_Spec s
    | None => True
    end) tr).
Proof.
  eapply always_impl; [apply Reconcile_search_events|]. intros tr a Htr.
  eapply after_search_read_impl; [exact Htr|]. intros s v [v' Hv| | | | | | |]; try done.
  by destruct v' as [X [] x].
Qed.

End search_reconcile.

(** ** Completion *)

Definition status_writes (tr : list Event) : list Search :=
  fst <$> omap (status_update_of KSearch) tr.

Definition pipeline_complete (p : Pipeline) : Prop :=
  PipeSt_CompletionTime (Pipeline_Status p) <> None.
Definition search_complete (s : Search) : Prop :=
  SearchSt_CompletionTime (Search_Status s) <> None.

(** The listing of what search [s] has scheduled. *)
Definition scheduled_by (s : Search) : ListOptions :=
  mkListOptions (Namespace (Search_Meta s)) (Some (ScheduledByLabelKey, Name (Search_Meta s))) None.

Lemma filter_none_complete {A} (f : A -> option Time) (l : list A) :
  List.filter (fun x => is_none (f x)) l = [] -> Forall (fun x => f x <> None) l.
Proof.
  intros Hl. apply Forall_forall. intros x Hx. rewrite filter_nil_iff in Hl.
  specialize (Hl x Hx). by destruct (f x).
Qed.

Lemma record_completion_writes labels s :
  always (record_completion labels s) (fun tr _ => status_writes tr = [s]).
Proof.
  unfold record_completion. intros [s'|e]; simpl; [|done].
  destruct (SearchSt_CompletionTime _); simpl; [|done]. unfold deref.
  by destruct (SearchSt_StartTime _); simpl.
Qed.

(** A search completes only after everything it has scheduled: on every
    path [handleCompletion] writes the status only when the pod has succeeded
    or failed and the pipelines and searches it listed are all complete, and
    then once, with the completion time read from the clock and a condition
    that says which of the two it was. *)
Theorem handleCompletion_waits s pod :
  SearchSt_CompletionTime (Search_Status s) = None ->
  always (handleCompletion s pod) (fun tr _ => status_writes tr = [] \/
    exists ps ss now rest,
      tr = event (ListObjects KPipeline (scheduled_by s)) (Ok ps)
        :: event (ListObjects KSearch (scheduled_by s)) (Ok ss) :: event Now now :: rest /\
      Forall pipeline_complete ps /\ Forall search_complete ss /\
      exists status reason message,
        status_writes tr = [with_search_status s
          (completed_search_status (Search_Status s) now status reason message)] /\
        ((Pod_Phase (Pod_Status pod) = PodSucceeded /\ status = ConditionTrue) \/
         (Pod_Phase (Pod_Status pod) = PodFailed /\ status = ConditionFalse))).
Proof.
  intros Hc. unfold handleCompletion, retrieveRunningScheduledResources, mark_complete.
  fold (scheduled_by s). rewrite Hc. intros [ps|e]; simpl; [|by left].
  intros [ss|e]; simpl; [|by left].
  destruct (List.filter (fun p => is_none (PipeSt_CompletionTime (Pipeline_Status p))) ps) as [|p0 ps'] eqn:Eps; simpl; [|by left].
  destruct (List.filter (fun s => is_none (SearchSt_CompletionTime (Search_Status s))) ss) as [|s0 ss'] eqn:Ess; simpl; [|by left].
  apply filter_none_complete in Eps, Ess.
  destruct (Pod_Phase (Pod_Status pod)) eqn:Ep; try (by left); intros now;
    (eapply always_impl; [apply record_completion_writes|]); intros tr a Htr; right;
    exists ps, ss, now, tr; (split; [done|]); (split; [done|]); (split; [done|]);
    do 3 eexists; (split; [exact Htr|]); auto.
Qed.

(** ** After the completion *)

(** A completed search with a time to live of [n] seconds is deleted when
    the clock reads a time strictly after its end; otherwise nothing is
    written, and the next reconciliation is asked for after the time that
    remains at a second reading of the clock.  That is at most the time that
    remained at the first one; when the end passes between the two it is not
    positive, and no reconciliation is asked for. *)
Theorem search_ttl_outcome s n t :
  SearchS_TTLSecondsAfterFinished (Search_Spec s) = Some n -> is_int32 n ->
  SearchSt_CompletionTime (Search_Status s) = Some t ->
  always (handlePostCompletion s) (fun tr out => exists now,
    (t + n * Second < now /\ exists a,
      tr = [event Now now; event (Delete KSearch s) a] /\ out = (emptyResult, err_of a))
    \/ (now <= t + n * Second /\ exists now', tr = [event Now now; event Now now'] /\ exists d,
      out = (requeue_after d, None) /\ (0 < d <-> now' < t + n * Second))).
Proof.
  intros Hn Hi Ht. unfold handlePostCompletion, deref. rewrite Hn, Ht. intros now. simpl.
  rewrite duration_mul_int32 by done. unfold time_add, time_after.
  destruct (Z.ltb_spec (t + n * Second) now); simpl.
  - intros a. exists now. left. split; [done|]. eauto.
  - intros now'. exists now. right. split; [done|]. exists now'. split; [done|].
    eexists. split; [done|]. apply time_sub_pos.
Qed.

(** ** The objects of a search *)

Section objects.
Context `{ControllerUtil}.

(** The role binding grants the configured cluster role to the service
    account of the search and to nothing else, whatever it granted before, and
    is controlled by the search. *)
Theorem populateRoleBinding_grants r s sa rb rb' :
  populateRoleBinding r s sa rb = Ok rb' ->
  RB_RoleRef rb' = mkRoleRef "rbac.authorization.k8s.io" "ClusterRole" (SearchClusterRole r) /\
  RB_Subjects rb' = [mkSubject "ServiceAccount" (Name (SA_Meta sa)) (Namespace (SA_Meta sa))] /\
  (exists ref, ref ∈ OwnerReferences (RB_Meta rb') /\ OR_UID ref = UID (Search_Meta s) /\
    OR_Controller ref = Some true) /\
  Labels (RB_Meta rb') !! SearchLabelKey = Some (Name (Search_Meta s)).
Proof.
  unfold populateRoleBinding. destruct (SetControllerReference _ _ _) as [m|e] eqn:E; [|done].
  intros [= <-]. apply SetControllerReference_only in E as (Hm & ref & Href).
  split; [done|]. split; [done|]. split; [exists ref; tauto|].
  simpl. rewrite Hm. simpl. rewrite lookup_insert_ne by done. by rewrite lookup_insert_eq.
Qed.

Lemma populateServiceAccount_existing s sa :
  time_is_zero (CreationTimestamp (SA_Meta sa)) = false -> populateServiceAccount s sa = Ok sa.
Proof. unfold populateServiceAccount. by intros ->. Qed.

Context `{MapRange string} `{TemplateJSON}.

(** C36: the pod of a search runs one container, the crawler's behind the
    scheduler, restricted - also when the pipeline template is omitted, for which
    the comment on the field says that the sidecar container is disabled
    (search_types.go).  Its annotations hold the pipeline template, which the
    scheduler reads back, and the service account; the labels that tie it to the
    search and the crawler cannot be overridden by theirs. *)
Theorem populateSearchPod_new r s pod crawler pod' :
  populateSearchPod r s pod crawler = Ok pod' ->
  time_is_zero (CreationTimestamp (Pod_Meta pod)) = true ->
  let annotations := Annotations (Pod_Meta pod') in
  let labels := Labels (Pod_Meta pod') in
  (exists json, annotations !! PipelineTemplateAnnotation = Some json /\
    unmarshal_template json = Ok (Sched_PipelineTemplate (SearchS_Scheduler (Search_Spec s)))) /\
  annotations !! ServiceAccountNameAnnotation = Some (SearchS_ServiceAccountName (Search_Spec s)) /\
  labels !! SearchLabelKey = Some (Name (Search_Meta s)) /\
  labels !! TypeLabelKey = Some SearchPodType /\
  labels !! CrawlerLabelKey = Some (Ref_name (SearchS_CrawlerRef (Search_Spec s))) /\
  exists c, PS_Containers (Pod_Spec pod') = [c] /\ restricted c /\
    argv c = [schedulerBinaryPath; "crawler"] ++ argv (Crawl_Container (Inv_Spec crawler)) /\
    C_Name c = crawlerContainerPrefix +:+ C_Name (Crawl_Container (Inv_Spec crawler)).
Proof.
  unfold populateSearchPod. intros Hpod Hnew. rewrite Hnew in Hpod.
  destruct (marshal_template _) as [json|e] eqn:Ej; [|done].
  destruct (SetControllerReference _ _ _) as [m|e] eqn:E; [|done].
  injection Hpod as <-. apply SetControllerReference_only in E as [Hm _].
  simpl. rewrite Hm. simpl. clear Hm. unfold search_pod_annotations, search_pod_labels.
  split; [exists json; split; [|by apply template_roundtrip]|split; [|split; [|split; [|split]]]].
  - destruct (SearchS_TTLSecondsAfterFinished _); rewrite !lookup_insert_ne by done;
      apply lookup_insert_eq.
  - destruct (SearchS_TTLSecondsAfterFinished _); rewrite lookup_insert_ne by done;
      apply lookup_insert_eq.
  - rewrite !lookup_insert_ne by done. apply lookup_insert_eq.
  - rewrite lookup_insert_ne by done. apply lookup_insert_eq.
  - apply lookup_insert_eq.
  - eexists. split; [reflexivity|]. split; [by eexists|]. done.
Qed.

End objects.

(** ** A concrete search *)

Module Search_example.

(** An encoder that knows one template. *)
Definition template : PipelineTemplate :=
  mkPipelineTemplate zero_ObjectMeta zero_PipelineSpec.

#[refine] Definition one_template : TemplateJSON := {|
  marshal_template t := if decide (t = template) then Ok "{}" else Err (ErrorString "unknown");
  unmarshal_template s := Ok template
|}.
Proof. intros t s. destruct (decide (t = template)) as [->|]; [done|discriminate]. Defined.

#[local] Existing Instance controller_util_model.
#[local] Existing Instance one_template.
#[local] Instance search_range : MapRange string := map_range_canonical.

Definition search (start completion : option Time) : Search :=
  mkSearch (meta_named "s" "ns")
    (mkSearchSpec (mkReference "github" "" []) (Some 60) "search-s" None
       (mkSearchSchedulerSpec template None) None)
    (mkSearchStatus [] start completion None).
Definition crawler : Invocation CrawlerSpec :=
  mkInvocation (mkCrawlerSpec (with_c_command (with_c_name zero_Container "github") ["/crawl"] [])
    [] [] []) [] (meta_named "github" "ns").
Definition searchReconciler : SearchReconciler := mkSearchReconciler "runner" "img" "Always".
Definition service_account : ServiceAccount := mkServiceAccount (meta_named "search-s" "ns") "".
Definition finished_pod : Pod :=
  mkPod (meta_named "search-s" "ns") zero_PodSpec (mkPodStatus PodSucceeded [] []).

Lemma handleCompletion_waits_witness :
  always (handleCompletion (search (Some 5) None) finished_pod) (fun tr _ => status_writes tr = [] \/
    exists ps ss now rest,
      tr = event (ListObjects KPipeline (scheduled_by (search (Some 5) None))) (Ok ps)
        :: event (ListObjects KSearch (scheduled_by (search (Some 5) None))) (Ok ss)
        :: event Now now :: rest /\
      Forall pipeline_complete ps /\ Forall search_complete ss /\
      exists status reason message,
        status_writes tr = [with_search_status (search (Some 5) None)
          (completed_search_status (Search_Status (search (Some 5) None)) now status reason message)] /\
        ((PodSucceeded = PodSucceeded /\ status = ConditionTrue) \/
         (PodSucceeded = PodFailed /\ status = ConditionFalse))).
Proof. exact (handleCompletion_waits (search (Some 5) None) finished_pod eq_refl). Defined.

Lemma search_ttl_outcome_witness :
  is_int32 60 /\
  always (handlePostCompletion (search (Some 5) (Some 10))) (fun tr out => exists now,
    (10 + 60 * Second < now /\ exists a,
      tr = [event Now now; event (Delete KSearch (search (Some 5) (Some 10))) a] /\
      out = (emptyResult, err_of a))
    \/ (now <= 10 + 60 * Second /\ exists now', tr = [event Now now; event Now now'] /\ exists d,
      out = (requeue_after d, None) /\ (0 < d <-> now' < 10 + 60 * Second))).
Proof.
  assert (is_int32 60) as H60 by (unfold is_int32; lia). split; [exact H60|].
  exact (search_ttl_outcome (search (Some 5) (Some 10)) 60 10 eq_refl H60 eq_refl).
Defined.

(** The second reading of the clock comes after the end of the time to live:
    the search is not deleted, and not looked at again. *)
Example search_ttl_missed :
  path (handlePostCompletion (search (Some 5) (Some 10)))
    [event Now (10 + 60 * Second); event Now (11 + 60 * Second)] (requeue_after (-1), None).
Proof. by repeat eexists. Qed.

Definition role_binding : RoleBinding :=
  mkRoleBinding (meta_named "search-s" "ns") (mkRoleRef "" "" "") [mkSubject "User" "eve" ""].

Lemma populateRoleBinding_grants_witness :
  exists rb', populateRoleBinding searchReconciler (search None None) service_account role_binding
      = Ok rb' /\ RB_Subjects rb' = [mkSubject "ServiceAccount" "search-s" "ns"].
Proof.
  destruct (populateRoleBinding searchReconciler (search None None) service_account role_binding)
    as [rb'|e] eqn:E; [|vm_compute in E; discriminate E].
  exists rb'. split; [reflexivity|].
  exact (proj1 (proj2 (populateRoleBinding_grants searchReconciler (search None None)
    service_account role_binding rb' E))).
Defined.

Lemma populateSearchPod_new_witness :
  exists pod' c, populateSearchPod searchReconciler (search None None) (pod_named "search-s" "ns") crawler
      = Ok pod' /\ PS_Containers (Pod_Spec pod') = [c] /\
    argv c = ["/var/run/ocular/bin/scheduler"; "crawler"; "/crawl"].
Proof.
  destruct (populateSearchPod searchReconciler (search None None) (pod_named "search-s" "ns") crawler)
    as [pod'|e] eqn:E; [|vm_compute in E; discriminate E].
  destruct (populateSearchPod_new searchReconciler (search None None) (pod_named "search-s" "ns")
    crawler pod' E eq_refl) as (_ & _ & _ & _ & _ & c & Hc & _ & Hargv & _).
  exists pod', c. split; [reflexivity|]. split; [exact Hc|exact Hargv].
Defined.

End Search_example.
