(* ===== verification/Metrics.v ===== *)
(** * The metrics of the reconcilers (pipeline_controller.go, search_controller.go)

    The metrics as they are declared and registered, and that no update of one
    panics: a collector of prometheus panics when it is given labels it was not
    declared with, a counter when it is decreased, and a registry when a name is
    registered twice. *)

From Stdlib Require Import ZArith Lia String.
From S2P Require Import Prelude Effects GoStd K8s Api Client PipelineController PipelineSafety SearchController SearchSafety.

Local Open Scope string_scope.
Local Open Scope Z_scope.
Local Open Scope list_scope.

(** ** Declarations *)

Inductive Collector := CounterVec | GaugeVec | SummaryVec.

(** What [prometheus.NewCounterVec] and the like are given. *)
Record MetricVec := mkMetricVec {
  Vec_Collector : Collector;
  Vec_Name : string;
  Vec_Help : string;
  Vec_Labels : list string
}.

Definition pipelinesCompleted_vec : MetricVec :=
  mkMetricVec CounterVec "pipelines_completed_total" "Number of ocular pipelines created"
    ["profile"; "downloader"; "namespace"; "phase"].
Definition pipelinesRunning_vec : MetricVec :=
  mkMetricVec GaugeVec "pipelines_active" "Number of ocular pipelines running currently"
    ["profile"; "downloader"; "namespace"].
Definition pipelinePodsCreated_vec : MetricVec :=
  mkMetricVec CounterVec "pipeline_pods_total" "Number of scan pods ocular has created"
    ["profile"; "downloader"; "namespace"].
Definition pipelineDurationSeconds_vec : MetricVec :=
  mkMetricVec SummaryVec "pipeline_duration_seconds" "Duration in seconds of pipeline execution, by terminal phase."
    ["profile"; "downloader"; "namespace"; "phase"].
Definition searchPodsCreated_vec : MetricVec :=
  mkMetricVec CounterVec "search_pods_total" "Number of search pods ocular has created" ["crawler"; "namespace"].
Definition searchDurationSeconds_vec : MetricVec :=
  mkMetricVec SummaryVec "search_duration_seconds" "Number of seconds it took the ocular search to complete"
    ["crawler"; "namespace"].

Definition metric_vec (m : Metric) : MetricVec :=
  match m with
  | pipelinesCompleted => pipelinesCompleted_vec
  | pipelinesRunning => pipelinesRunning_vec
  | pipelinePodsCreated => pipelinePodsCreated_vec
  | pipelineDurationSeconds => pipelineDurationSeconds_vec
  | searchPodsCreated => searchPodsCreated_vec
  | searchDurationSeconds => searchDurationSeconds_vec
  end.

(** ** Registration *)

(** The names a registry has; [None] is the panic of [MustRegister]. *)
Fixpoint MustRegister (ms : list Metric) (names : list string) : option (list string) :=
  match ms with
  | [] => Some names
  | m :: ms =>
      if bool_decide (Vec_Name (metric_vec m) ∈ names) then None
      else MustRegister ms (Vec_Name (metric_vec m) :: names)
  end.

(** The [init] functions of the two files, on the registry of the manager. *)
Definition init_pipeline_metrics : list string -> option (list string) :=
  MustRegister [pipelinesCompleted; pipelinesRunning; pipelinePodsCreated; pipelineDurationSeconds].
Definition init_search_metrics : list string -> option (list string) :=
  MustRegister [searchPodsCreated; searchDurationSeconds].

(** Go runs them in the order of the names of their files. *)
Definition init_metrics (names : list string) : option (list string) :=
  names ← init_pipeline_metrics names; init_search_metrics names.

(** Registering does not panic when the registry has none of the names, and
    every metric is registered then. *)
Lemma init_metrics_registers names :
  (forall m, Vec_Name (metric_vec m) ∉ names) ->
  exists names', init_metrics names = Some names' /\
    (forall m, Vec_Name (metric_vec m) ∈ names') /\ names ⊆ names'.
Proof.
  intros Hnames. unfold init_metrics, init_pipeline_metrics, init_search_metrics. cbn [MustRegister].
  pose proof (Hnames pipelinesCompleted). pose proof (Hnames pipelinesRunning).
  pose proof (Hnames pipelinePodsCreated). pose proof (Hnames pipelineDurationSeconds).
  pose proof (Hnames searchPodsCreated). pose proof (Hnames searchDurationSeconds). simpl in *.
  repeat (rewrite bool_decide_false by set_solver; simpl). eexists. split; [reflexivity|].
  split; [intros []; set_solver|set_solver].
Qed.

(** ** Updates *)

(** [With] gets the labels of the declaration, and the collector takes the
    operation. *)
Definition collector_takes (c : Collector) (op : MetricOp) : Prop :=
  match c, op with
  | CounterVec, MetricAdd n => 0 <= n
  | GaugeVec, MetricAdd _ => True
  | SummaryVec, MetricObserve _ => True
  | _, _ => False
  end.

Definition metric_update_ok (v : Event) : Prop :=
  match v with
  | event (UpdateMetric m labels op) _ =>
      dom labels = list_to_set (Vec_Labels (metric_vec m)) /\ collector_takes (Vec_Collector (metric_vec m)) op
  | _ => True
  end.

Lemma metric_label_names_declared m : metric_label_names m = list_to_set (Vec_Labels (metric_vec m)).
Proof. destruct m; simpl; set_solver. Qed.

Lemma read_updates_nothing v : is_read v -> metric_update_ok v.
Proof. by destruct v as [X [] x]. Qed.

Lemma pipeline_event_metrics `{ControllerUtil} p v : reconcile_event p v -> metric_update_ok v.
Proof.
  destruct 1; try done; try (by apply read_updates_nothing); unfold metric_update_ok;
    rewrite <-metric_label_names_declared; (split; [|simpl; done]); simpl; auto with ocular.
Qed.

Lemma search_event_metrics s v : search_event s v -> metric_update_ok v.
Proof.
  destruct 1; try done. by apply read_updates_nothing.
Qed.

(** On every path of a reconciliation of a pipeline or of a search, whatever the
    answers, every update of a metric has the labels it is declared with and is
    one its collector takes: none panics. *)
Lemma metrics_never_panic `{ControllerUtil} `{MapRange string} `{TemplateJSON} r r' key :
  all_events metric_update_ok (PipelineController.Reconcile r key) /\
  all_events metric_update_ok (SearchController.Reconcile r' key).
Proof.
  split.
  - eapply always_impl; [apply PipelineSafety.Reconcile_events|]. intros [|v tr] a Htr; [done|]. simpl in Htr.
    destruct (get_of KPipeline v) as [res|] eqn:E; [|done].
    constructor; [by destruct v as [X [] x]|]. destruct res as [p|e]; [|subst; constructor].
    eapply Forall_impl; [exact Htr|apply pipeline_event_metrics].
  - eapply always_impl; [apply Reconcile_search_events|]. intros [|v tr] a Htr; [done|]. simpl in Htr.
    destruct (get_of KSearch v) as [res|] eqn:E; [|done].
    constructor; [by destruct v as [X [] x]|]. destruct res as [s|e]; [|subst; constructor].
    eapply Forall_impl; [exact Htr|apply search_event_metrics].
Qed.
