(* ===== verification/HelmPatch.v ===== *)
(** * The patches of the Helm chart (hack/kubebuilder-helm-patch)

    A plugin of kubebuilder.  From a request that holds the files of a generated
    chart it makes a response with the three files it changes: two templates, by
    replacements of patterns and a prefix, and the description of the chart.

    Of regexp, the two forms of pattern the plugin uses are modelled: a literal,
    and an indented literal at the beginning of a line, with or without the rest
    of the line; of text/template, the actions that print a field. *)

From Stdlib Require Import ZArith Lia String Ascii.
From S2P Require Import Prelude GoStd K8s Api Client.

Local Open Scope string_scope.
Local Open Scope Z_scope.
Local Open Scope list_scope.

(** ** Strings *)

Definition newline : ascii := "010"%char.
Definition nl : string := String newline "".

Fixpoint string_drop (n : nat) (s : string) : string :=
  match n, s with
  | O, _ => s
  | S n, String _ s => string_drop n s
  | S _, EmptyString => EmptyString
  end.

(** [strings.TrimLeft(s, "v")]. *)
Fixpoint trim_left (c : ascii) (s : string) : string :=
  match s with
  | String d r => if Ascii.eqb d c then trim_left c r else s
  | EmptyString => EmptyString
  end.

(** The spaces at the beginning of a string, and what follows. *)
Fixpoint span_spaces (s : string) : string * string :=
  match s with
  | String " " r => let '(spaces, rest) := span_spaces r in (String " " spaces, rest)
  | _ => ("", s)
  end.

(** ** Patterns (package regexp) *)

(** A pattern [(?m)^([ ]+)literal], with [.*$] at its end or not; or a literal
    alone. *)
Inductive Pattern :=
| LineStart (literal : string) (to_end : bool)
| Literal (literal : string).

(** A line that matches gives the group of spaces and what stays behind the
    match.  No literal begins with a space, so that the group is all of them. *)
Definition match_line (literal : string) (to_end : bool) (line : string) : option (string * string) :=
  let '(spaces, rest) := span_spaces line in
  if String.eqb spaces "" then None
  else if has_prefix rest literal
       then Some (spaces, if to_end then "" else string_drop (String.length literal) rest)
       else None.

(** [Regexp.Expand] of [$$] and [${1}]. *)
Fixpoint expand (group : string) (template : string) : string :=
  match template with
  | String "$" (String "$" r) => String "$" (expand group r)
  | String "$" (String "{" (String "1" (String "}" r))) => group +:+ expand group r
  | String c r => String c (expand group r)
  | EmptyString => EmptyString
  end.

(** Whether a literal occurs, and the replacement of its occurrences from the
    left; [skip] counts the bytes left of the last one. *)
Fixpoint occurs (literal s : string) : bool :=
  has_prefix s literal || match s with String _ r => occurs literal r | EmptyString => false end.

Fixpoint replace_literal (literal by_ : string) (skip : nat) (s : string) : string :=
  match s with
  | EmptyString => EmptyString
  | String c r =>
      match skip with
      | S skip => replace_literal literal by_ skip r
      | O => if has_prefix s literal
             then by_ +:+ replace_literal literal by_ (String.length literal - 1) r
             else String c (replace_literal literal by_ 0 r)
      end
  end.

Definition lines (s : string) : list string := strings_split s newline.
Definition unlines (ls : list string) : string := strings_join ls nl.

Definition MatchString (p : Pattern) (content : string) : bool :=
  match p with
  | LineStart literal to_end => existsb (fun l => bool_decide (is_Some (match_line literal to_end l))) (lines content)
  | Literal literal => occurs literal content
  end.

Definition ReplaceAllString (p : Pattern) (content template : string) : string :=
  match p with
  | LineStart literal to_end =>
      unlines ((fun l => match match_line literal to_end l with
                         | Some (group, rest) => expand group template +:+ rest
                         | None => l
                         end) <$> lines content)
  | Literal literal => replace_literal literal (expand "" template) 0 content
  end.

(** ** Errors, requests and responses *)

Inductive PatchError :=
| NoMatch (pattern : Pattern)
| NoFile (path : string)
| TemplateError (name : string)
| UnknownCommand (command : string)
| ConfigError (message : string).

(** A decoded JSON value. *)
Inductive JSON :=
| JString (s : string)
| JObject (fields : list (string * JSON))
| JOther.

Record PluginRequest := mkPluginRequest {
  Req_APIVersion : string;
  Req_Command : string;
  Req_Universe : gmap string string;
  Req_Config : list (string * JSON)
}.

Record PluginResponse := mkPluginResponse {
  Resp_APIVersion : string;
  Resp_Command : string;
  Resp_Universe : gmap string string;
  Resp_Error : option PatchError            (* Error and ErrorMsgs *)
}.

(** ** Paths, replacements and paddings *)

Definition chartDir : string := "chart/".
Definition templatesDir : string := chartDir +:+ "templates/".
Definition chartPath : string := chartDir +:+ "Chart.yaml".
Definition managerPath : string := templatesDir +:+ "manager/manager.yaml".
Definition configmapPath : string := templatesDir +:+ "extras/controller-manager-config.yaml".

Record replacement := mkReplacement { Replace_Pattern : Pattern; Replacement : string }.
Record textPadding := mkTextPadding { Prefix : string; Suffix : string }.

Definition manager_replacements : list replacement :=
  [ mkReplacement (LineStart "labels:" false)
      ("${1}labels:" +:+ nl +:+
       "${1}  {{- range $$key, $$val := .Values.manager.labels }}" +:+ nl +:+
       "${1}  {{ $$key }}: {{ $$val | quote }}" +:+ nl +:+
       "${1}  {{- end}}");
    mkReplacement (LineStart "annotations:" false)
      ("${1}annotations:" +:+ nl +:+
       "${1}  {{- range $$key, $$val := .Values.manager.annotations }}" +:+ nl +:+
       "${1}  {{ $$key }}: {{ $$val | quote }}" +:+ nl +:+
       "${1}  {{- end}}");
    mkReplacement (LineStart "env: []" false)
      ("${1}env:" +:+ nl +:+
       "${1}  {{- if .Values.manager.env }}" +:+ nl +:+
       "${1}  {{- toYaml .Values.manager.env | nindent 8 }}" +:+ nl +:+
       "${1}  {{- else}}" +:+ nl +:+
       "${1}  []" +:+ nl +:+
       "${1}  {{- end}}");
    mkReplacement (LineStart "volumeMounts:" false)
      ("${1}volumeMounts:" +:+ nl +:+
       "${1}  {{- if .Values.manager.volumeMounts }}" +:+ nl +:+
       "${1}  {{- toYaml .Values.manager.volumeMounts | nindent 8}}" +:+ nl +:+
       "${1}  {{- end}}");
    mkReplacement (LineStart "volumes:" false)
      ("${1}volumes:" +:+ nl +:+
       "${1}  {{- if .Values.manager.volumes }}" +:+ nl +:+
       "${1}  {{- toYaml .Values.manager.volumes | nindent 6}}" +:+ nl +:+
       "${1}  {{- end}}");
    mkReplacement (Literal ".Values") "$$values" ].

Definition configmap_replacements : list replacement :=
  [ mkReplacement (LineStart "OCULAR_SIDECAR_IMG:" true)
      "${1}OCULAR_SIDECAR_IMG: {{ .Values.sidecar.image.repository }}:{{ .Values.sidecar.image.tag }}";
    mkReplacement (LineStart "OCULAR_SIDECAR_PULLPOLICY:" true)
      "${1}OCULAR_SIDECAR_PULLPOLICY: {{ .Values.sidecar.image.pullPolicy }}";
    mkReplacement (LineStart "OCULAR_SCHEDULER_IMG:" true)
      "${1}OCULAR_SCHEDULER_IMG: {{ .Values.scheduler.image.repository }}:{{ .Values.scheduler.image.tag }}";
    mkReplacement (LineStart "OCULAR_SCHEDULER_PULLPOLICY:" true)
      "${1}OCULAR_SCHEDULER_PULLPOLICY: {{ .Values.scheduler.image.pullPolicy }}";
    mkReplacement (Literal ".Values") "$$values" ].

Definition replacements : gmap string (list replacement) :=
  {[ managerPath := manager_replacements; configmapPath := configmap_replacements ]}.

Definition values_prefix : string :=
  nl +:+ "{{- $values := (tpl (.Values | toYaml) $) | fromYaml }}" +:+ nl +:+
  "{{- $values := (tpl ($values | toYaml) $) | fromYaml }}" +:+ nl +:+ "---" +:+ nl.

Definition paddings : gmap string textPadding :=
  {[ managerPath := mkTextPadding values_prefix ""; configmapPath := mkTextPadding values_prefix "" ]}.

(** ** Operations *)

Definition replacement_apply (r : replacement) (content : string) : result PatchError string :=
  if negb (MatchString (Replace_Pattern r) content) then Err (NoMatch (Replace_Pattern r))
  else Ok (ReplaceAllString (Replace_Pattern r) content (Replacement r)).

Definition padding_apply (t : textPadding) (content : string) : string :=
  Prefix t +:+ content +:+ Suffix t.

Definition getFileContents (path : string) (req resp : gmap string string) : result PatchError string :=
  match resp !! path with
  | Some content => Ok content
  | None => match req !! path with Some content => Ok content | None => Err (NoFile path) end
  end.

(** The replacements of one file, in their order. *)
Fixpoint apply_all (rs : list replacement) (content : string) : result PatchError string :=
  match rs with
  | [] => Ok content
  | r :: rs => match replacement_apply r content with Ok content => apply_all rs content | Err e => Err e end
  end.

(** A loop over the files to change: the response gets the changed content of
    each, up to the first error. *)
Fixpoint change_files {A} (outputDir : string) (change : A -> string -> result PatchError string)
    (files : list (string * A)) (req resp : gmap string string) : gmap string string * option PatchError :=
  match files with
  | [] => (resp, None)
  | (path, a) :: files =>
      let fPath := path_join [outputDir; path] in
      match getFileContents fPath req resp with
      | Err e => (resp, Some e)
      | Ok content =>
          match change a content with
          | Err e => (resp, Some e)
          | Ok content => change_files outputDir change files req (<[fPath := content]> resp)
          end
      end
  end.

Section ranges.
Context `{MapRange (list replacement)} `{MapRange textPadding}.

Definition applyReplacements (outputDir : string) (req resp : gmap string string) :
    gmap string string * option PatchError :=
  change_files outputDir apply_all (map_range replacements) req resp.

Definition applyPaddings (outputDir : string) (req resp : gmap string string) :
    gmap string string * option PatchError :=
  change_files outputDir (fun t content => Ok (padding_apply t content)) (map_range paddings) req resp.

(** *** The description of the chart *)

Definition dq : string := String "034" "".

(** Chart.yaml.template, which is embedded in the binary. *)
Definition chartTmpl : string :=
  unlines
    ["apiVersion: v2 # -*- yaml -*-";
     "name: ocular";
     "version: {{.ChartVersion}}";
     "appVersion: {{.AppVersion}}";
     "kubeVersion: " +:+ dq +:+ ">=1.26.0-0" +:+ dq;
     "description: An API for mass scanning static software assets";
     "type: application";
     "icon: " +:+ dq +:+ "https://ocularproject.io/favicon-32x32.png" +:+ dq;
     "keywords:";
     "  - git";
     "  - kubernetes";
     "  - scanning";
     "  - sast";
     "  - secrets";
     "  - sca";
     "  - security";
     "home: https://ocularproject.io";
     "sources:";
     "  - https://github.com/crashappsec/ocular";
     "maintainers:";
     "  - name: Bryce Thuiot";
     "    email: bryce@crashoverride.com";
     "annotations:";
     "  artifacthub.io/category: security";
     "  artifacthub.io/license: GPL-3.0";
     ""].

Definition is_alnum (c : ascii) : bool :=
  let n := nat_of_ascii c in
  ((48 <=? n) && (n <=? 57) || (65 <=? n) && (n <=? 90) || (97 <=? n) && (n <=? 122))%nat%bool.

(** [template.New(name).Parse(content)] and [t.Execute(builder, values)] for a
    template whose actions are [{{.Field}}], [field] being the one that is read;
    an absent field prints as no value. *)
Fixpoint template_execute (name : string) (values : gmap string string) (field : option string) (s : string) :
    result PatchError string :=
  match field, s with
  | None, EmptyString => Ok ""
  | None, String "{" (String "{" (String "." r)) => template_execute name values (Some "") r
  | None, String "{" (String "{" r) => Err (TemplateError name)
  | None, String c r =>
      match template_execute name values None r with
      | Ok out => Ok (String c out)
      | Err e => Err e
      end
  | Some f, String "}" (String "}" r) =>
      match template_execute name values None r with
      | Ok out => Ok (default "<no value>" (values !! f) +:+ out)
      | Err e => Err e
      end
  | Some f, String c r =>
      if is_alnum c then template_execute name values (Some (f +:+ String c "")) r
      else Err (TemplateError name)
  | Some _, EmptyString => Err (TemplateError name)
  end.

Definition templateContent (name content : string) (values : gmap string string) : result PatchError string :=
  template_execute name values None content.

(** *** The plugin *)

Variable env : string -> string.

Definition chart_values : gmap string string :=
  {[ "ChartVersion" := trim_left "v" (env "OCULAR_HELM_VERSION");
     "AppVersion" := trim_left "v" (env "OCULAR_VERSION") ]}.

(** The universe of the response, and the error. *)
Definition patchHelmChart (outputDir : string) (req : PluginRequest) : gmap string string * option PatchError :=
  let universe := ∅ in
  let '(universe, err) := applyReplacements outputDir (Req_Universe req) universe in
  match err with
  | Some e => (universe, Some e)
  | None =>
      let '(universe, err) := applyPaddings outputDir (Req_Universe req) universe in
      match err with
      | Some e => (universe, Some e)
      | None =>
          match templateContent "Chart.yaml" chartTmpl chart_values with
          | Err e => (universe, Some e)
          | Ok chart => (<[path_join [outputDir; chartPath] := chart]> universe, None)
          end
      end
  end.

Definition helmPluginName : string := "helm.kubebuilder.io/v2-alpha".

Fixpoint json_field (name : string) (fields : list (string * JSON)) : option JSON :=
  match fields with
  | [] => None
  | (n, v) :: fields => if String.eqb n name then Some v else json_field name fields
  end.

Definition getOutputDir (req : PluginRequest) : result PatchError string :=
  match json_field "plugins" (Req_Config req) with
  | Some (JObject plugins) =>
      match json_field helmPluginName plugins with
      | Some (JObject config) =>
          match json_field "output" config with
          | Some (JString outputDir) =>
              match Req_Universe req !! path_join [outputDir; chartPath] with
              | Some _ => Ok outputDir
              | None => Err (ConfigError "did not find chart in universe")
              end
          | _ => Err (ConfigError "no output dir found in config")
          end
      | _ => Err (ConfigError "unable to read kubebuilder helm config")
      end
  | _ => Err (ConfigError "unable to list plugins from request")
  end.

(** [main], from the request that was decoded to the response it prints. *)
Definition plugin_main (req : PluginRequest) : PluginResponse :=
  let '(universe, err) :=
    if existsb (String.eqb (Req_Command req)) ["init"; "flags"; "metadata"] then (∅, None)
    else if String.eqb (Req_Command req) "edit" then
      match getOutputDir req with
      | Ok outputDir => patchHelmChart outputDir req
      | Err e => (∅, Some e)
      end
    else (∅, Some (UnknownCommand (Req_Command req))) in
  mkPluginResponse (Req_APIVersion req) (Req_Command req) universe err.

(** *** The process *)

(** [json.Unmarshal] into a request, [json.Marshal] of a response. *)
Class PluginJSON := {
  Unmarshal : string -> result GoError PluginRequest;
  Marshal : PluginResponse -> result GoError string
}.

(** What the process leaves: its standard output, or that it ended with
    [log.Fatalf] and this message. *)
Inductive PluginOutcome :=
| Printed (output : string)
| Fatal (message : string) (err : GoError).

(** [main], from what the reading of the standard input gives. *)
Definition main `{PluginJSON} (input : result GoError string) : PluginOutcome :=
  match input with
  | Err err => Fatal "error will reading standard in: %s" err
  | Ok input =>
      match Unmarshal input with
      | Err err => Fatal "failed to unmarshal STDIN to JSON: %s" err
      | Ok pluginRequest =>
          match Marshal (plugin_main pluginRequest) with
          | Err err => Fatal "unable to marshal response to JSON: %s" err
          | Ok output => Printed output
          end
      end
  end.

(** Whatever is in the request, an error of the plugin itself is told in the
    response it prints, never by its exit: it ends otherwise only when the input
    cannot be read or is no request, or the response cannot be written. *)
Lemma main_outcome `{PluginJSON} input :
  match main input with
  | Printed output => exists text req, input = Ok text /\ Unmarshal text = Ok req /\
      Marshal (plugin_main req) = Ok output
  | Fatal _ err => input = Err err \/ (exists text, input = Ok text /\ Unmarshal text = Err err) \/
      exists text req, input = Ok text /\ Unmarshal text = Ok req /\ Marshal (plugin_main req) = Err err
  end.
Proof.
  unfold main. destruct input as [text|err]; [|by left].
  destruct (Unmarshal text) as [req|err] eqn:Eu; [|right; left; by exists text].
  destruct (Marshal (plugin_main req)) as [output|err] eqn:Em; [|right; right]; by exists text, req.
Qed.
End ranges.

(** ** Paths of the response *)

Lemma strings_split_cons s c : exists x xs, strings_split s c = x :: xs.
Proof.
  destruct s as [|d s]; simpl; [by eexists _, _|]. destruct (Ascii.eqb d c); [by eexists _, _|].
  destruct (strings_split s c); by eexists _, _.
Qed.

Lemma split_app s c t :
  strings_split (s +:+ String c t) c = strings_split s c ++ strings_split t c.
Proof.
  induction s as [|d s IH]; simpl; [by rewrite Ascii.eqb_refl|]. rewrite IH.
  destruct (Ascii.eqb d c); [done|]. destruct (strings_split_cons s c) as (x & xs & ->). done.
Qed.

(** Elements that cleaning keeps. *)
Definition plain (e : string) : bool := negb (String.eqb e "" || String.eqb e "." || String.eqb e "..").

Lemma clean_plain rooted es l :
  forallb plain l = true -> clean_elems rooted (es ++ l) = clean_elems rooted es ++ l.
Proof.
  unfold clean_elems. rewrite fold_left_app. generalize (fold_left (clean_step rooted) es []).
  induction l as [|e l IH]; intros stack; simpl; [by rewrite app_nil_r|].
  intros [He Hl]%andb_true_iff. rewrite IH by done. unfold clean_step, plain in *.
  destruct (String.eqb e ""), (String.eqb e "."), (String.eqb e ".."); try done. simpl. by rewrite <-app_assoc.
Qed.

Lemma string_app_assoc (s t u : string) : (s +:+ t) +:+ u = s +:+ (t +:+ u).
Proof. induction s as [|c s IH]; [done|]. exact (f_equal (String c) IH). Qed.

Lemma join_app (l k : list string) sep :
  l <> [] -> k <> [] -> strings_join (l ++ k) sep = strings_join l sep +:+ sep +:+ strings_join k sep.
Proof.
  unfold strings_join. intros Hl Hk. induction l as [|x l IH]; [done|]. destruct l as [|y l].
  - simpl. by destruct k.
  - simpl in *. rewrite IH by done. by rewrite !string_app_assoc.
Qed.

(** Joining one directory with two plain paths gives two paths. *)
Lemma path_join_inj d p q :
  p <> "" -> q <> "" -> path_is_abs p = false -> path_is_abs q = false ->
  forallb plain (strings_split p "/") = true -> forallb plain (strings_split q "/") = true ->
  strings_join (strings_split p "/") "/" <> strings_join (strings_split q "/") "/" ->
  path_join [d; p] <> path_join [d; q].
Proof.
  intros Hp Hq Hpa Hqa Hpp Hqp Hne. unfold path_join. simpl.
  rewrite (proj2 (String.eqb_neq p "") Hp), (proj2 (String.eqb_neq q "") Hq). simpl.
  destruct (String.eqb_spec d "") as [->|Hd]; simpl.
  - unfold path_clean. rewrite Hpa, Hqa.
    pose proof (clean_plain false [] (strings_split p "/") Hpp) as Cp.
    pose proof (clean_plain false [] (strings_split q "/") Hqp) as Cq.
    simpl in Cp, Cq. change (strings_join [p] "/") with p. change (strings_join [q] "/") with q. rewrite Cp, Cq. destruct (strings_split_cons p "/") as (x & xs & Ep), (strings_split_cons q "/") as (y & ys & Eq).
    rewrite Ep, Eq in *. exact Hne.
  - assert (forall r, path_clean (d +:+ String "/" r) =
      let rooted := path_is_abs d in
      let es := clean_elems rooted (strings_split d "/" ++ strings_split r "/") in
      if rooted then String "/" (strings_join es "/")
      else match es with [] => "." | _ => strings_join es "/" end) as Hclean.
    { intros r. unfold path_clean. rewrite split_app.
      assert (path_is_abs (d +:+ String "/" r) = path_is_abs d) as ->; [|done].
      unfold path_is_abs, has_prefix. destruct d as [|a [|b d]]; [done|done|]. simpl. by destruct (ascii_dec "/" a). }
    change ("/" +:+ ?r) with (String "/" r).
    rewrite !Hclean. cbv zeta. rewrite !clean_plain by done.
    set (es := clean_elems _ _). destruct (strings_split_cons p "/") as (x & xs & Ep), (strings_split_cons q "/") as (y & ys & Eq).
    rewrite Ep, Eq in *. intros E. apply Hne.
    destruct es as [|e es]; [by destruct (path_is_abs d); [injection E|]|].
    rewrite !join_app in E by done. destruct (path_is_abs d); [injection E as E|]; simpl in E.
    + by apply string_app_inj_l, (string_app_inj_l "/") in E.
    + by apply string_app_inj_l, (string_app_inj_l "/") in E.
Qed.

(** ** Literal replacement *)

Lemma has_prefix_nil s : has_prefix s "" = true.
Proof. by destruct s. Qed.

Lemma has_prefix_cons c s d p : has_prefix (String c s) (String d p) = Ascii.eqb d c && has_prefix s p.
Proof. unfold has_prefix. simpl. destruct (ascii_dec d c) as [->|Hn]; [by rewrite Ascii.eqb_refl|].
  by apply Ascii.eqb_neq in Hn as ->. Qed.

Notation replace_values := (replace_literal ".Values" "$values").

(** A prefix with neither a dot nor a dollar sign was there before. *)
Lemma replaced_prefix w s :
  has_byte "." w = false -> has_byte "$" w = false ->
  has_prefix (replace_values 0 s) w = true -> has_prefix s w = true.
Proof.
  revert w. induction s as [|c r IH]; intros w Hdot Hdollar; [done|].
  destruct w as [|d w]; [done|]. cbn [replace_literal].
  assert (forall b, has_byte b (String d w) = Ascii.eqb b d || has_byte b w) as Hb by done.
  rewrite Hb in Hdot, Hdollar. apply orb_false_iff in Hdot as [_ Hdot], Hdollar as [Hd Hdollar].
  destruct (has_prefix (String c r) ".Values").
  - change ("$values" +:+ ?x) with (String "$" ("values" +:+ x)). rewrite has_prefix_cons, Ascii.eqb_sym, Hd. done.
  - rewrite !has_prefix_cons. intros [-> Hw]%andb_true_iff. by apply IH.
Qed.

Lemma replaced_no_values skip s : occurs ".Values" (replace_values skip s) = false.
Proof.
  revert skip. induction s as [|c r IH]; intros skip; [done|]. destruct skip as [|skip]; [|apply IH].
  cbn [replace_literal]. destruct (has_prefix (String c r) ".Values") eqn:Hm.
  - exact (IH 6%nat).
  - cbn [occurs]. rewrite IH, orb_false_r. rewrite has_prefix_cons in *.
    destruct (Ascii.eqb "." c); [|done]. simpl in *. apply not_true_is_false. intros E.
    rewrite (replaced_prefix "Values" r eq_refl eq_refl E) in Hm. discriminate Hm.
Qed.

(** ** The response *)

Lemma apply_all_app rs rs' content :
  apply_all (rs ++ rs') content =
  match apply_all rs content with Ok content => apply_all rs' content | Err e => Err e end.
Proof.
  revert content. induction rs as [|r rs IH]; intros content; simpl; [done|].
  destruct (replacement_apply r content); [apply IH|done].
Qed.

(** The replacements of each file end with that of [.Values]. *)
Lemma apply_all_no_values rs content out :
  apply_all (rs ++ [mkReplacement (Literal ".Values") "$$values"]) content = Ok out ->
  occurs ".Values" out = false.
Proof.
  rewrite apply_all_app. destruct (apply_all rs content) as [c|e]; [|done]. simpl.
  unfold replacement_apply. destruct (negb _); [done|]. intros [= <-]. apply replaced_no_values.
Qed.

Section plugin.
Context `{MapRange (list replacement)} `{MapRange textPadding}.
Variable env : string -> string.

(** Two files to change, in whichever order the range takes them. *)
Lemma change_two {A} dir (change : A -> string -> result PatchError string) p q a b files req resp resp' :
  files ≡ₚ [(p, a); (q, b)] -> path_join [dir; p] <> path_join [dir; q] ->
  change_files dir change files req resp = (resp', None) <->
  exists x y x' y', getFileContents (path_join [dir; p]) req resp = Ok x /\
    getFileContents (path_join [dir; q]) req resp = Ok y /\ change a x = Ok x' /\ change b y = Ok y' /\
    resp' = <[path_join [dir; p] := x']> (<[path_join [dir; q] := y']> resp).
Proof.
  intros Hfiles Hne. set (fp := path_join [dir; p]) in *. set (fq := path_join [dir; q]) in *.
  assert (forall f g v, f <> g -> getFileContents f req (<[g := v]> resp) = getFileContents f req resp) as Hget.
  { intros f g v Hfg. unfold getFileContents. by rewrite lookup_insert_ne. }
  symmetry in Hfiles. apply Permutation_length_2_inv in Hfiles as [-> | ->]; simpl; fold fp fq.
  - destruct (getFileContents fp req resp) as [x|e]; [|split; [done|by intros (? & ? & ? & ? & ? & _)]].
    destruct (change a x) as [x'|e] eqn:Ha; [|split; [done|intros (? & ? & ? & ? & [= <-] & _ & E & _); congruence]].
    rewrite Hget by done.
    destruct (getFileContents fq req resp) as [y|e]; [|split; [done|by intros (? & ? & ? & ? & _ & ? & _)]].
    destruct (change b y) as [y'|e] eqn:Hb; [|split; [done|intros (? & ? & ? & ? & _ & [= <-] & _ & E & _); congruence]].
    split.
    + intros [= <-]. exists x, y, x', y'. rewrite insert_insert_ne by done. done.
    + intros (? & ? & ? & ? & [= <-] & [= <-] & E1 & E2 & ->). rewrite insert_insert_ne by done. congruence.
  - destruct (getFileContents fq req resp) as [y|e]; [|split; [done|by intros (? & ? & ? & ? & _ & ? & _)]].
    destruct (change b y) as [y'|e] eqn:Hb; [|split; [done|intros (? & ? & ? & ? & _ & [= <-] & _ & E & _); congruence]].
    rewrite Hget by done.
    destruct (getFileContents fp req resp) as [x|e]; [|split; [done|by intros (? & ? & ? & ? & ? & _)]].
    destruct (change a x) as [x'|e] eqn:Ha; [|split; [done|intros (? & ? & ? & ? & [= <-] & _ & E & _); congruence]].
    split.
    + intros [= <-]. exists x, y, x', y'. done.
    + intros (? & ? & ? & ? & [= <-] & [= <-] & E1 & E2 & ->). congruence.
Qed.

Lemma range_two {A} `{MapRange A} p q (a b : A) :
  p <> q -> map_range {[ p := a; q := b ]} ≡ₚ [(p, a); (q, b)].
Proof.
  intros Hne. rewrite map_range_perm. rewrite map_to_list_insert by by rewrite lookup_singleton_ne.
  by rewrite map_to_list_singleton.
Qed.

Lemma insert_twice {A} (m : gmap string A) p q x y x' y' :
  p <> q -> <[p := x']> (<[q := y']> (<[p := x]> (<[q := y]> m))) = <[p := x']> (<[q := y']> m).
Proof. intros Hne. by rewrite (insert_insert_ne _ q p), insert_insert_eq, insert_insert_eq by done. Qed.

Lemma padding_values content :
  padding_apply (mkTextPadding values_prefix "") content = values_prefix +:+ content.
Proof.
  unfold padding_apply. cbn [Prefix Suffix]. f_equal. induction content as [|c s IH]; [done|].
  exact (f_equal (String c) IH).
Qed.

Lemma managerPath_configmapPath : managerPath <> configmapPath.
Proof. discriminate. Qed.

Lemma chart_paths dir :
  path_join [dir; managerPath] <> path_join [dir; configmapPath] /\
  path_join [dir; chartPath] <> path_join [dir; managerPath] /\
  path_join [dir; chartPath] <> path_join [dir; configmapPath].
Proof. split_and!; by apply path_join_inj. Qed.

Lemma patch_stages dir req universe :
  patchHelmChart env dir req = (universe, None) <->
  exists u1 u2 chart, applyReplacements dir (Req_Universe req) ∅ = (u1, None) /\
    applyPaddings dir (Req_Universe req) u1 = (u2, None) /\
    templateContent "Chart.yaml" chartTmpl (chart_values env) = Ok chart /\
    universe = <[path_join [dir; chartPath] := chart]> u2.
Proof.
  unfold patchHelmChart. destruct (applyReplacements _ _ _) as [u1 [e|]].
  { split; [done|]. by intros (? & ? & ? & [= ] & _). }
  destruct (applyPaddings _ _ u1) as [u2 [e|]] eqn:Hp.
  { split; [done|]. intros (? & ? & ? & [= <-] & E & _). congruence. }
  destruct (templateContent _ _ _) as [chart|e].
  - split; [intros [= <-]; by exists u1, u2, chart|]. intros (? & ? & ? & [= <-] & E & [= <-] & ->). congruence.
  - split; [done|]. by intros (? & ? & ? & _ & _ & [= ] & _).
Qed.

(** What the plugin makes of the two templates. *)
Definition patched_file (rs : list replacement) (content out : string) : Prop :=
  exists body, apply_all rs content = Ok body /\ out = values_prefix +:+ body.

(** C39: the plugin succeeds exactly when the request has both templates and each
    of their patterns is found; then the response has three files: the patched
    templates and the description of the chart.  That does not depend on the
    order in which the maps are ranged over.  Below its prefix a patched template
    reads the values of the chart only through the variable the prefix sets. *)
Theorem patchHelmChart_correct dir req universe :
  let fm := path_join [dir; managerPath] in
  let fc := path_join [dir; configmapPath] in
  (patchHelmChart env dir req = (universe, None) <->
   exists m c m' c' chart, Req_Universe req !! fm = Some m /\ Req_Universe req !! fc = Some c /\
     patched_file manager_replacements m m' /\ patched_file configmap_replacements c c' /\
     templateContent "Chart.yaml" chartTmpl (chart_values env) = Ok chart /\
     universe = {[ path_join [dir; chartPath] := chart; fm := m'; fc := c' ]}) /\
  (forall content out, patched_file manager_replacements content out \/ patched_file configmap_replacements content out ->
     exists body, out = values_prefix +:+ body /\ occurs ".Values" body = false).
Proof.
  intros fm fc. destruct (chart_paths dir) as (Hmc & Hhm & Hhc). fold fm fc in Hmc, Hhm, Hhc. split.
  - rewrite patch_stages. unfold applyReplacements, applyPaddings, patched_file.
    pose proof (fun u => change_two dir apply_all managerPath configmapPath _ _ _ (Req_Universe req) ∅ u
      (range_two _ _ manager_replacements configmap_replacements managerPath_configmapPath) Hmc) as HR.
    pose proof (fun u1 u2 => change_two dir (fun t content => Ok (padding_apply t content)) managerPath configmapPath
      _ _ _ (Req_Universe req) u1 u2
      (range_two _ _ (mkTextPadding values_prefix "") (mkTextPadding values_prefix "") managerPath_configmapPath) Hmc) as HP.
    fold fm fc in HR, HP. split.
    + intros (u1 & u2 & chart & (m & c & m' & c' & Gm & Gc & Am & Ac & ->)%HR
        & (x & y & x' & y' & Gx & Gy & [= <-] & [= <-] & ->)%HP & Hchart & ->).
      unfold getFileContents in *. rewrite lookup_insert_eq in Gx. rewrite lookup_insert_ne, lookup_insert_eq in Gy by done.
      injection Gx as <-. injection Gy as <-. rewrite lookup_empty in Gm, Gc.
      destruct (Req_Universe req !! fm) as [m0|]; [injection Gm as ->|done].
      destruct (Req_Universe req !! fc) as [c0|]; [injection Gc as ->|done].
      exists m, c, (values_prefix +:+ m'), (values_prefix +:+ c'), chart. split_and!; [done|done|by exists m'|by exists c'|done|].
      rewrite !padding_values. by rewrite insert_twice.
    + intros (m & c & ? & ? & chart & Rm & Rc & (m' & Am & ->) & (c' & Ac & ->) & Hchart & ->).
      eexists _, _, chart. split; [apply HR; exists m, c, m', c'|].
      { unfold getFileContents. by rewrite !lookup_empty, Rm, Rc. }
      split; [apply HP; exists m', c', (values_prefix +:+ m'), (values_prefix +:+ c')|].
      { unfold getFileContents. rewrite lookup_insert_eq, lookup_insert_ne, lookup_insert_eq by done.
        by rewrite !padding_values. }
      split; [done|]. by rewrite insert_twice.
  - intros content out [(body & Hb & ->)|(body & Hb & ->)]; (exists body; split; [done|]).
    + exact (apply_all_no_values (take 5 manager_replacements) content body Hb).
    + exact (apply_all_no_values (take 4 configmap_replacements) content body Hb).
Qed.
End plugin.

Module HelmPatch_example.
#[local] Instance replacement_range : MapRange (list replacement) := map_range_canonical.
#[local] Instance padding_range : MapRange textPadding := map_range_canonical.

Definition manager : string :=
  unlines ["metadata:"; "  labels:"; "    app: ocular"; "  annotations:"; "spec:"; "    env: []";
           "    volumeMounts: []"; "  volumes: []"].
Definition configmap : string :=
  unlines ["data:"; "  OCULAR_SCHEDULER_IMG: a"; "  OCULAR_SCHEDULER_PULLPOLICY: b";
           "  OCULAR_SIDECAR_IMG: c"; "  OCULAR_SIDECAR_PULLPOLICY: d"].

Definition request (universe : gmap string string) : PluginRequest :=
  mkPluginRequest "v1alpha1" "edit" universe
    [("plugins", JObject [(helmPluginName, JObject [("output", JString "dist")])])].

Definition generated : gmap string string :=
  {[ "dist/chart/Chart.yaml" := ""; "dist/chart/templates/manager/manager.yaml" := manager;
     "dist/chart/templates/extras/controller-manager-config.yaml" := configmap ]}.

Definition response : PluginResponse := plugin_main (fun _ => "v1.0") (request generated).

Example patched_configmap :
  Resp_Error response = None /\
  Resp_Universe response !! "dist/chart/templates/extras/controller-manager-config.yaml" =
    Some (values_prefix +:+ unlines ["data:";
      "  OCULAR_SCHEDULER_IMG: {{ $values.scheduler.image.repository }}:{{ $values.scheduler.image.tag }}";
      "  OCULAR_SCHEDULER_PULLPOLICY: {{ $values.scheduler.image.pullPolicy }}";
      "  OCULAR_SIDECAR_IMG: {{ $values.sidecar.image.repository }}:{{ $values.sidecar.image.tag }}";
      "  OCULAR_SIDECAR_PULLPOLICY: {{ $values.sidecar.image.pullPolicy }}"]).
Proof. split; vm_compute; reflexivity. Qed.

(** A template without one of the patterns is an error. *)
Example missing_pattern :
  Resp_Error (plugin_main (fun _ => "") (request (<["dist/chart/templates/extras/controller-manager-config.yaml" := "data:"]> generated)))
  = Some (NoMatch (LineStart "OCULAR_SIDECAR_IMG:" true)).
Proof. vm_compute. reflexivity. Qed.
End HelmPatch_example.
