(* ===== verification/Manager.v ===== *)
(** * The controller manager (cmd/controller, the registrations of the controllers and webhooks)

    The binary that runs the reconcilers and the webhooks: what it makes of its
    flags and its environment, and the calls to controller-runtime that build
    the manager, in their order, each of which can fail. *)

From Stdlib Require Import ZArith Lia String Ascii.
From S2P Require Import Prelude Effects GoStd K8s Api Client ControllerCommon PipelineController SearchController CronSearchController.

Local Open Scope string_scope.
Local Open Scope Z_scope.
Local Open Scope list_scope.
Local Open Scope prog_scope.

(** ** Options *)

(** The fields of [tls.Config] that are set, and the functions that set them. *)
Record TLSConfig := mkTLSConfig { NextProtos : list string }.
Definition TLSOption : Type := TLSConfig -> TLSConfig.

Record WebhookOptions := mkWebhookOptions {
  WO_TLSOpts : list TLSOption;
  WO_CertDir : string;
  WO_CertName : string;
  WO_KeyName : string
}.

(** [FilterProvider] is whether [filters.WithAuthenticationAndAuthorization] is
    set. *)
Record MetricsOptions := mkMetricsOptions {
  MO_BindAddress : string;
  MO_SecureServing : bool;
  MO_TLSOpts : list TLSOption;
  MO_FilterProvider : bool;
  MO_CertDir : string;
  MO_CertName : string;
  MO_KeyName : string
}.

Record ManagerOptions := mkManagerOptions {
  Metrics : MetricsOptions;
  UsePriorityQueue : option bool;
  WebhookServer : WebhookOptions;
  HealthProbeBindAddress : string;
  LeaderElection : bool;
  LeaderElectionID : string
}.

(** The flags of the command line. *)
Record Flags := mkFlags {
  metricsAddr : string;
  probeAddr : string;
  enableLeaderElection : bool;
  secureMetrics : bool;
  webhookCertPath : string;
  webhookCertName : string;
  webhookCertKey : string;
  metricsCertPath : string;
  metricsCertName : string;
  metricsCertKey : string;
  enableHTTP2 : bool
}.

(** Their values when none is given. *)
Definition default_flags : Flags :=
  mkFlags "0" ":8081" false true "" "tls.crt" "tls.key" "" "tls.crt" "tls.key" false.

Record CronSearchReconciler := mkCronSearchReconciler { CronSearchClusterRole : string }.

(** ** Calls *)

(** What a controller watches besides its own kind, with the predicate on the
    updates. *)
Inductive Predicate := NoPredicate | PodStateChanged | GenerationChanged.

Inductive Reconciler :=
| ForPipelines (r : PipelineReconciler)
| ForSearches (r : SearchReconciler)
| ForCronSearches (r : CronSearchReconciler).

(** The calls to controller-runtime; all of them answer with an error or none.
    [GetConfigOrDie] exits itself when it has an error. *)
Inductive ManagerCall :=
| GetConfigOrDie
| NewManager (opts : ManagerOptions)
| IndexField (k : Kind) (key : string)
| CompleteController (r : Reconciler) (watches : Kind) (named : string) (owns : list (Kind * Predicate))
| CompleteWebhook (k : Kind) (defaulter : bool)
| AddHealthzCheck (name : string)
| AddReadyzCheck (name : string)
| StartManager.

Inductive ManagerOp : Type -> Type :=
| Call (c : ManagerCall) : ManagerOp (option GoError).

Notation manager_prog := (free ManagerOp).

(** ** Registrations *)

Definition PipelineReconciler_SetupWithManager (r : PipelineReconciler) : manager_prog (option GoError) :=
  op (Call (CompleteController (ForPipelines r) KPipeline "pipeline" [(KPod, PodStateChanged)])).

Definition SearchReconciler_SetupWithManager (r : SearchReconciler) : manager_prog (option GoError) :=
  op (Call (CompleteController (ForSearches r) KSearch "search"
    [(KPod, NoPredicate); (KServiceAccount, GenerationChanged); (KRoleBinding, GenerationChanged)])).

Definition CronSearchReconciler_SetupWithManager (r : CronSearchReconciler) : manager_prog (option GoError) :=
  let* err := op (Call (IndexField KSearch searchOwnerKey)) in
  match err with
  | Some e => Ret (Some e)
  | None => op (Call (CompleteController (ForCronSearches r) KCronSearch "cronsearch" [(KSearch, NoPredicate)]))
  end.

Definition SetupPipelineWebhookWithManager : manager_prog (option GoError) :=
  op (Call (CompleteWebhook KPipeline true)).
Definition SetupProfileWebhookWithManager : manager_prog (option GoError) :=
  op (Call (CompleteWebhook KProfile true)).
Definition SetupDownloaderWebhookWithManager : manager_prog (option GoError) :=
  op (Call (CompleteWebhook KDownloader false)).
Definition SetupUploaderWebhookWithManager : manager_prog (option GoError) :=
  op (Call (CompleteWebhook KUploader false)).
Definition SetupCrawlerWebhookWithManager : manager_prog (option GoError) :=
  op (Call (CompleteWebhook KCrawler false)).
Definition SetupSearchWebhookWithManager : manager_prog (option GoError) :=
  op (Call (CompleteWebhook KSearch true)).
Definition SetupCronSearchWebhookWithManager : manager_prog (option GoError) :=
  op (Call (CompleteWebhook KCronSearch true)).
Definition SetupClusterDownloaderWebhookWithManager : manager_prog (option GoError) :=
  op (Call (CompleteWebhook KClusterDownloader false)).
Definition SetupClusterCrawlerWebhookWithManager : manager_prog (option GoError) :=
  op (Call (CompleteWebhook KClusterCrawler false)).
Definition SetupClusterUploaderWebhookWithManager : manager_prog (option GoError) :=
  op (Call (CompleteWebhook KClusterUploader false)).

(** ** The program *)

Definition disableHTTP2 : TLSOption := fun c => mkTLSConfig ["http/1.1"].

Section manager.
Variables (flags : Flags) (env : string -> string).

Definition tlsOpts : list TLSOption := if enableHTTP2 flags then [] else [disableHTTP2].

Definition webhookServerOptions : WebhookOptions :=
  let opts := mkWebhookOptions tlsOpts "" "" "" in
  if 0 <? len (webhookCertPath flags)
  then mkWebhookOptions (WO_TLSOpts opts) (webhookCertPath flags) (webhookCertName flags) (webhookCertKey flags)
  else opts.

Definition metricsServerOptions : MetricsOptions :=
  let opts := mkMetricsOptions (metricsAddr flags) (secureMetrics flags) tlsOpts (secureMetrics flags) "" "" "" in
  if 0 <? len (metricsCertPath flags)
  then mkMetricsOptions (MO_BindAddress opts) (MO_SecureServing opts) (MO_TLSOpts opts) (MO_FilterProvider opts)
         (metricsCertPath flags) (metricsCertName flags) (metricsCertKey flags)
  else opts.

Definition managerOptions : ManagerOptions :=
  mkManagerOptions metricsServerOptions (Some true) webhookServerOptions (probeAddr flags)
    (enableLeaderElection flags) "e7468ef2.ocular.crashoverride.run".

Definition pull_policies : list string := ["Always"; "IfNotPresent"; "Never"].

Definition sidecarPullPolicy : string :=
  let policy := env "OCULAR_SIDECAR_PULLPOLICY" in
  if bool_decide (policy ∈ pull_policies) then policy else "IfNotPresent".

Definition pipelineReconciler : PipelineReconciler :=
  mkPipelineReconciler (env "OCULAR_SIDECAR_IMG") sidecarPullPolicy.
Definition searchReconciler : SearchReconciler :=
  mkSearchReconciler (env "OCULAR_SEARCH_CLUSTER_ROLE") (env "OCULAR_SCHEDULER_IMG") sidecarPullPolicy.
Definition cronSearchReconciler : CronSearchReconciler :=
  mkCronSearchReconciler (env "OCULAR_SEARCH_CLUSTER_ROLE").

(** A step of [main] whose error ends the process with code 1. *)
Definition or_exit (step : manager_prog (option GoError)) (rest : manager_prog Z) : manager_prog Z :=
  let* err := step in
  match err with
  | Some _ => Ret 1
  | None => rest
  end.

(** One that is taken when the webhooks are enabled. *)
Definition webhook_or_exit (step : manager_prog (option GoError)) (rest : manager_prog Z) : manager_prog Z :=
  if negb (String.eqb (env "ENABLE_WEBHOOKS") "false") then or_exit step rest else rest.

(** [main]: the exit code. *)
Definition main : manager_prog Z :=
  or_exit (op (Call GetConfigOrDie)) (
  or_exit (op (Call (NewManager managerOptions))) (
  or_exit (PipelineReconciler_SetupWithManager pipelineReconciler) (
  or_exit (SearchReconciler_SetupWithManager searchReconciler) (
  or_exit (CronSearchReconciler_SetupWithManager cronSearchReconciler) (
  webhook_or_exit SetupPipelineWebhookWithManager (
  webhook_or_exit SetupProfileWebhookWithManager (
  webhook_or_exit SetupDownloaderWebhookWithManager (
  webhook_or_exit SetupUploaderWebhookWithManager (
  webhook_or_exit SetupCrawlerWebhookWithManager (
  webhook_or_exit SetupSearchWebhookWithManager (
  webhook_or_exit SetupCronSearchWebhookWithManager (
  webhook_or_exit SetupClusterDownloaderWebhookWithManager (
  webhook_or_exit SetupClusterCrawlerWebhookWithManager (
  webhook_or_exit SetupClusterUploaderWebhookWithManager (
  or_exit (op (Call (AddHealthzCheck "healthz"))) (
  or_exit (op (Call (AddReadyzCheck "readyz"))) (
  or_exit (op (Call StartManager)) (
  Ret 0)))))))))))))))))).

(** ** What is registered before the manager starts *)

(** The kinds that have a webhook. *)
Definition webhook_kinds : list (Kind * bool) :=
  [(KPipeline, true); (KProfile, true); (KDownloader, false); (KUploader, false); (KCrawler, false);
   (KSearch, true); (KCronSearch, true); (KClusterDownloader, false); (KClusterCrawler, false);
   (KClusterUploader, false)].

(** All calls, when none fails. *)
Definition plan : list ManagerCall :=
  [GetConfigOrDie; NewManager managerOptions;
   CompleteController (ForPipelines pipelineReconciler) KPipeline "pipeline" [(KPod, PodStateChanged)];
   CompleteController (ForSearches searchReconciler) KSearch "search"
     [(KPod, NoPredicate); (KServiceAccount, GenerationChanged); (KRoleBinding, GenerationChanged)];
   IndexField KSearch searchOwnerKey;
   CompleteController (ForCronSearches cronSearchReconciler) KCronSearch "cronsearch" [(KSearch, NoPredicate)]]
  ++ (if String.eqb (env "ENABLE_WEBHOOKS") "false" then []
      else (fun '(k, defaulter) => CompleteWebhook k defaulter) <$> webhook_kinds)
  ++ [AddHealthzCheck "healthz"; AddReadyzCheck "readyz"; StartManager].
End manager.

Definition call_of (v : event_of ManagerOp) : ManagerCall * bool :=
  match v with
  | event e x =>
      match e in ManagerOp X return X -> ManagerCall * bool with
      | Call c => fun err => (c, match err with None => true | Some _ => false end)
      end x
  end.

(** A list of calls made one after the other up to the first that fails. *)
Definition follows (plan : list ManagerCall) (done : list (ManagerCall * bool)) (code : Z) : Prop :=
  exists n, done.*1 = take n plan /\
    ((code = 0 /\ n = length plan /\ Forall (fun d => d.2 = true) done) \/
     (code = 1 /\ exists before c, done = before ++ [(c, false)] /\ Forall (fun d => d.2 = true) before)).

Lemma follows_failed c plan : follows (c :: plan) [(c, false)] 1.
Proof. exists 1%nat. split; [done|]. right. split; [done|]. by exists [], c. Qed.

Lemma follows_next c plan tr code :
  follows plan tr code -> follows (c :: plan) ((c, true) :: tr) code.
Proof.
  intros (n & Hn & [(-> & -> & Hall)|(-> & before & d & -> & Hall)]).
  - exists (S (length plan)). simpl. rewrite <-Hn. split; [done|]. left. split; [done|]. split; [done|].
    by constructor.
  - exists (S n). simpl. rewrite <-Hn. split; [done|]. right. split; [done|].
    exists ((c, true) :: before), d. split; [done|]. by constructor.
Qed.

(** One call that ends the process when it fails, and the rest. *)
Lemma follows_step c rest plan :
  always rest (fun tr code => follows plan (call_of <$> tr) code) ->
  always (or_exit (op (Call c)) rest) (fun tr code => follows (c :: plan) (call_of <$> tr) code).
Proof.
  intros Hrest [e|]; simpl; [apply follows_failed|].
  eapply always_impl; [exact Hrest|]. intros tr code Htr. by apply follows_next.
Qed.

Lemma follows_cron r rest plan :
  always rest (fun tr code => follows plan (call_of <$> tr) code) ->
  always (or_exit (CronSearchReconciler_SetupWithManager r) rest) (fun tr code =>
    follows (IndexField KSearch searchOwnerKey
      :: CompleteController (ForCronSearches r) KCronSearch "cronsearch" [(KSearch, NoPredicate)] :: plan)
      (call_of <$> tr) code).
Proof.
  intros Hrest [e|]; simpl; [apply follows_failed|]. intros [e|]; simpl; [apply follows_next, follows_failed|].
  eapply always_impl; [exact Hrest|]. intros tr code Htr. by do 2 apply follows_next.
Qed.

(** C21: the process makes the planned calls one after the other; it exits with 1
    after the first that fails, and with 0 only when the manager has run and
    stopped.  So it never serves without its controllers, nor, unless they are
    disabled, without the webhooks of all ten kinds. *)
Theorem main_follows_plan flags env :
  always (main flags env) (fun tr code => follows (plan flags env) (call_of <$> tr) code).
Proof.
  unfold main, plan, webhook_or_exit. destruct (String.eqb _ _); cbn [negb app];
    do 4 apply follows_step; apply follows_cron; repeat apply follows_step;
    (exists 0%nat; split; [done|]; left; by repeat split).
Qed.

(** ** Settings *)

(** What a server's TLS configuration becomes. *)
Definition tls_config (opts : list TLSOption) (c : TLSConfig) : TLSConfig := fold_left (fun c o => o c) opts c.

(** Unless it is asked for, no server offers HTTP/2; the metrics are behind
    authentication exactly when they are served securely; and the pull policy of
    the reconcilers is one Kubernetes knows, whatever the environment says. *)
Theorem manager_settings flags env :
  (enableHTTP2 flags = false -> forall c,
    NextProtos (tls_config (WO_TLSOpts (WebhookServer (managerOptions flags))) c) = ["http/1.1"] /\
    NextProtos (tls_config (MO_TLSOpts (Metrics (managerOptions flags))) c) = ["http/1.1"]) /\
  MO_FilterProvider (Metrics (managerOptions flags)) = MO_SecureServing (Metrics (managerOptions flags)) /\
  SidecarPullPolicy (pipelineReconciler env) ∈ pull_policies /\
  SchedulerPullPolicy (searchReconciler env) ∈ pull_policies.
Proof.
  assert (sidecarPullPolicy env ∈ pull_policies) as Hp.
  { unfold sidecarPullPolicy. case_bool_decide; [done|]. vm_compute. by repeat constructor. }
  split; [|split; [|by split]].
  - intros Hh c. unfold managerOptions, webhookServerOptions, metricsServerOptions, tlsOpts. rewrite Hh. simpl.
    by destruct (0 <? _), (0 <? _).
  - unfold managerOptions, metricsServerOptions. simpl. by destruct (0 <? _).
Qed.

(** The pull policy of the scheduler, which the configuration of the manager
    sets, is never read: the searches get that of the sidecar. *)
Lemma scheduler_policy_ignored flags (env : string -> string) policy :
  plan flags (fun n => if String.eqb n "OCULAR_SCHEDULER_PULLPOLICY" then policy else env n) = plan flags env.
Proof. done. Qed.
