(* ===== verification/Webhooks.v ===== *)
(** * The admission webhooks (internal/webhook/v1beta1)

    The defaults the mutating webhooks set and the checks of the validating
    ones.  A check is a program that answers the error the request is refused
    with, or none; no check returns warnings.  The definitions of one kind
    carry its name as a prefix. *)

From Stdlib Require Import ZArith Lia String Ascii.
From S2P Require Import Prelude Effects GoStd K8s Api Client Resources Containers Validators CronSearchController.

Local Open Scope string_scope.
Local Open Scope Z_scope.
Local Open Scope list_scope.
Local Open Scope prog_scope.

(** ** Shared (common.go) *)

Definition parseNewRequiredParameters (old new : list ParameterDefinition) :
    list ParameterDefinition :=
  let oldParamSet := name_set (Def_Name <$> old) in
  fold_left (fun introduced newParam =>
      if decide ((Def_Name newParam ∉ oldParamSet) /\ Def_Default newParam = None)
      then introduced ++ [newParam] else introduced) new [].

Definition refMatches (ref : ParameterizedLocalObjectReference) (obj : ObjectMeta)
    (objKind : string) : bool :=
  String.eqb (Ref_name ref) (Name obj) && String.eqb (Ref_kind ref) objKind.

(** A loop that appends the items that satisfy a test, and one that stops
    after the first of them. *)
Definition collect {A} (test : A -> bool) (items : list A) : list A :=
  fold_left (fun found item => if test item then found ++ [item] else found) items [].
Fixpoint collect_first {A} (test : A -> bool) (items : list A) : list A :=
  match items with
  | [] => []
  | item :: rest => if test item then [item] else collect_first test rest
  end.

(** The listing of a [getDependant...] function, in a namespace or in all. *)
Definition list_dependants (k : Kind) (namespace message : string)
    (select : list (obj k) -> list (obj k)) : prog (result GoError (list (obj k))) :=
  let* res := op (ListObjects k (in_namespace namespace)) in
  Ret match res with
      | Ok items => Ok (select items)
      | Err e => Err (Wrapped message e)
      end.

(** The refusal of an update whose new required parameters a dependant does
    not set. *)
Definition missing_parameters (newRequiredParams : list ParameterDefinition) (resource prefix : string)
    (ref : ParameterizedLocalObjectReference) : option GoError :=
  let '(_, unset) := ParseSetParameters ref newRequiredParams in
  match unset with
  | [] => None
  | _ => Some (StatusForbidden resource resource
      (prefix +:+ " does not define newly required parameters: ["
        +:+ strings_join (Def_Name <$> unset) "," +:+ "]"))
  end.

(** The loop over the dependants of an update. *)
Fixpoint check_dependants {A} (check : A -> option GoError) (dependants : list A) : option GoError :=
  match dependants with
  | [] => None
  | d :: rest => match check d with Some e => Some e | None => check_dependants check rest end
  end.

(** The refusal of a deletion that has dependants. *)
Definition refuse_deletion (resource message : string) (names : list string) : option GoError :=
  match names with
  | [] => None
  | _ => Some (StatusForbidden resource resource
      (message +:+ ": [" +:+ strings_join names "," +:+ "]"))
  end.

(** The check of the container, the last one of a create or an update. *)
Definition check_container (kind name : string) (c : Container) : option GoError :=
  match ValidateContainerDefinition [Child "spec"; Child "container"] c with
  | [] => None
  | fieldErrs => Some (StatusInvalid kind name fieldErrs)
  end.

Definition namespaced_name (m : ObjectMeta) : string := Namespace m +:+ "/" +:+ Name m.

(** ** Pipelines (pipeline_webhook.go) *)

Definition Pipeline_Default (pipeline : Pipeline) : Pipeline :=
  let spec := Pipeline_Spec pipeline in
  let st := Pipeline_Status pipeline in
  mkPipeline (Pipeline_Meta pipeline)
    (mkPipelineSpec (ReferenceDefaulter (PipeS_DownloaderRef spec) "Downloader")
       (ReferenceDefaulter (PipeS_ProfileRef spec) "Profile")
       (PipeS_Target spec)
       (if String.eqb (PipeS_ServiceAccountName spec) "" then "default"
        else PipeS_ServiceAccountName spec)
       (PipeS_RuntimeClassName spec) (PipeS_TTLSecondsAfterFinished spec)
       (PipeS_TTLSecondsMaxLifetime spec) (PipeS_Parameters spec) (PipeS_Resources spec))
    (mkPipelineStatus (PipeSt_Conditions st) (PipeSt_StartTime st) (PipeSt_CompletionTime st)
       PipelinePending
       (mkStageStatuses PipelineStageNotStarted PipelineStageNotStarted PipelineStageNotStarted)).

Definition Pipeline_ValidateCreate (pipeline : Pipeline) : prog (option GoError) :=
  ValidatePipeline pipeline.
Definition Pipeline_ValidateUpdate (_ newPipeline : Pipeline) : prog (option GoError) :=
  ValidatePipeline newPipeline.
Definition Pipeline_ValidateDelete (_ : Pipeline) : prog (option GoError) := Ret None.

(** ** Profiles (profile_webhook.go) *)

Definition Profile_Default (profile : Profile) : Profile :=
  let spec := Profile_Spec profile in
  mkProfile (Profile_Meta profile)
    (mkProfileSpec (Prof_Containers spec) (Prof_Artifacts spec) (Prof_Volumes spec)
       (map (fun uploaderRef => ReferenceDefaulter uploaderRef "Uploader") (Prof_UploaderRefs spec))
       (Prof_Parameters spec) (Prof_ImagePullSecrets spec)).

Definition Profile_ValidateCreate (profile : Profile) : prog (option GoError) :=
  ValidateProfile profile.

Definition getPipelineReferences (profile : Profile) : prog (result GoError (list Pipeline)) :=
  let meta := Profile_Meta profile in
  list_dependants KPipeline (Namespace meta)
    ("failed to list pipelines in namespace " +:+ Namespace meta)
    (collect (fun pipeline =>
      String.eqb (Ref_name (PipeS_ProfileRef (Pipeline_Spec pipeline))) (Name meta)
      && String.eqb (Namespace (Pipeline_Meta pipeline)) (Namespace meta))).

Definition Profile_ValidateUpdate (oldProfile newProfile : Profile) : prog (option GoError) :=
  let* err := ValidateProfile newProfile in
  match err with
  | Some e => Ret (Some e)
  | None =>
      let newRequiredParams := parseNewRequiredParameters
        (Prof_Parameters (Profile_Spec oldProfile)) (Prof_Parameters (Profile_Spec newProfile)) in
      let* res := getPipelineReferences oldProfile in
      match res with
      | Err e => Ret (Some (StatusInternalError e))
      | Ok dependantPipelines =>
          Ret (check_dependants (fun pipeline =>
              missing_parameters newRequiredParams (Name (Profile_Meta newProfile))
                ("dependant pipeline " +:+ Name (Pipeline_Meta pipeline))
                (PipeS_ProfileRef (Pipeline_Spec pipeline)))
            dependantPipelines)
      end
  end.

Definition Profile_ValidateDelete (profile : Profile) : prog (option GoError) :=
  let* res := getPipelineReferences profile in
  match res with
  | Err e => Ret (Some e)
  | Ok pipelines =>
      match pipelines with
      | [] => Ret None
      | _ => Ret (Some (StatusForbidden (Name (Profile_Meta profile)) (Name (Profile_Meta profile))
          ("cannot delete profile still used by active pipelines in namespace "
            +:+ Namespace (Profile_Meta profile) +:+ ": ["
            +:+ strings_join ((fun p => Name (Pipeline_Meta p)) <$> pipelines) ", " +:+ "]")))
      end
  end.

(** ** Downloaders (downloader_webhook.go, clusterdownloader_webhook.go)

    The functions of the two kinds differ in the kind, and in how a pipeline
    is named. *)

Definition downloader_dependants (objKind : string) (downloader : ObjectMeta) :
    prog (result GoError (list Pipeline)) :=
  list_dependants KPipeline (Namespace downloader)
    ("failed to list pipelines in namespace " +:+ Namespace downloader)
    (collect_first (fun pipeline =>
      refMatches (PipeS_DownloaderRef (Pipeline_Spec pipeline)) downloader objKind)).

Definition downloader_update (objKind : string) (name_of : ObjectMeta -> string)
    (oldMeta : ObjectMeta) (oldSpec : DownloaderSpec) (newMeta : ObjectMeta) (newSpec : DownloaderSpec) :
    prog (option GoError) :=
  let newRequiredParams :=
    parseNewRequiredParameters (Down_Parameters oldSpec) (Down_Parameters newSpec) in
  let* res := downloader_dependants objKind oldMeta in
  match res with
  | Err e => Ret (Some (StatusInternalError e))
  | Ok dependantPipelines =>
      match check_dependants (fun pipeline =>
          missing_parameters newRequiredParams (Name newMeta)
            ("dependant pipeline " +:+ name_of (Pipeline_Meta pipeline))
            (PipeS_DownloaderRef (Pipeline_Spec pipeline))) dependantPipelines with
      | Some e => Ret (Some e)
      | None => Ret (check_container objKind (Name newMeta) (Down_Container newSpec))
      end
  end.

Definition downloader_delete (objKind : string) (name_of : ObjectMeta -> string) (message : string)
    (downloader : ObjectMeta) : prog (option GoError) :=
  let* res := downloader_dependants objKind downloader in
  match res with
  | Err e => Ret (Some (StatusInternalError e))
  | Ok dependantPipelines => Ret (refuse_deletion (Name downloader) message
      ((fun p => name_of (Pipeline_Meta p)) <$> dependantPipelines))
  end.

Definition Downloader_ValidateCreate (downloader : Downloader) : prog (option GoError) :=
  Ret (check_container "Downloader" (Name (Downloader_Meta downloader))
    (Down_Container (Downloader_Spec downloader))).
Definition Downloader_getDependantPipelines (downloader : Downloader) :
    prog (result GoError (list Pipeline)) :=
  downloader_dependants "Downloader" (Downloader_Meta downloader).
Definition Downloader_ValidateUpdate (oldDownloader newDownloader : Downloader) :
    prog (option GoError) :=
  downloader_update "Downloader" Name (Downloader_Meta oldDownloader) (Downloader_Spec oldDownloader)
    (Downloader_Meta newDownloader) (Downloader_Spec newDownloader).
Definition Downloader_ValidateDelete (downloader : Downloader) : prog (option GoError) :=
  downloader_delete "Downloader" Name "cannot delete downloader with dependant pipelines"
    (Downloader_Meta downloader).

Definition ClusterDownloader_ValidateCreate (downloader : ClusterDownloader) : prog (option GoError) :=
  Ret (check_container "ClusterDownloader" (Name (ClusterDownloader_Meta downloader))
    (Down_Container (ClusterDownloader_Spec downloader))).
Definition ClusterDownloader_getDependantPipelines (downloader : ClusterDownloader) :
    prog (result GoError (list Pipeline)) :=
  downloader_dependants "ClusterDownloader" (ClusterDownloader_Meta downloader).
Definition ClusterDownloader_ValidateUpdate (oldDownloader newDownloader : ClusterDownloader) :
    prog (option GoError) :=
  downloader_update "ClusterDownloader" namespaced_name
    (ClusterDownloader_Meta oldDownloader) (ClusterDownloader_Spec oldDownloader)
    (ClusterDownloader_Meta newDownloader) (ClusterDownloader_Spec newDownloader).
Definition ClusterDownloader_ValidateDelete (downloader : ClusterDownloader) : prog (option GoError) :=
  downloader_delete "ClusterDownloader" namespaced_name
    "cannot delete cluster downloader with dependant pipelines" (ClusterDownloader_Meta downloader).

(** ** Uploaders (uploader_webhook.go, clusteruploader_webhook.go) *)

(** The profiles with a matching reference, each once. *)
Definition uploader_dependants (objKind namespace message : string) (uploader : ObjectMeta) :
    prog (result GoError (list Profile)) :=
  list_dependants KProfile namespace message
    (collect (fun profile =>
      existsb (fun ref => refMatches ref uploader objKind) (Prof_UploaderRefs (Profile_Spec profile)))).

(** The inner loop of an update, over the references of a profile. *)
Definition check_uploader_refs (objKind : string) (oldMeta : ObjectMeta)
    (newRequiredParams : list ParameterDefinition) (prefix : string)
    (refs : list ParameterizedLocalObjectReference) : option GoError :=
  check_dependants (fun uploaderRef =>
    if negb (refMatches uploaderRef oldMeta objKind) then None
    else missing_parameters newRequiredParams (Name oldMeta) prefix uploaderRef) refs.

Definition uploader_update (objKind : string) (prefix_of : ObjectMeta -> string)
    (dependants : prog (result GoError (list Profile)))
    (oldMeta : ObjectMeta) (oldSpec : UploaderSpec) (newMeta : ObjectMeta) (newSpec : UploaderSpec) :
    prog (option GoError) :=
  let newRequiredParams :=
    parseNewRequiredParameters (Up_Parameters oldSpec) (Up_Parameters newSpec) in
  let* res := dependants in
  match res with
  | Err e => Ret (Some (StatusInternalError e))
  | Ok dependantProfiles =>
      match check_dependants (fun profile =>
          check_uploader_refs objKind oldMeta newRequiredParams (prefix_of (Profile_Meta profile))
            (Prof_UploaderRefs (Profile_Spec profile))) dependantProfiles with
      | Some e => Ret (Some e)
      | None => Ret (check_container objKind (Name newMeta) (Up_Container newSpec))
      end
  end.

Definition uploader_delete (message : string) (dependants : prog (result GoError (list Profile)))
    (uploader : ObjectMeta) : prog (option GoError) :=
  let* res := dependants in
  match res with
  | Err e => Ret (Some (StatusInternalError e))
  | Ok dependantProfiles => Ret (refuse_deletion (Name uploader) message
      ((fun p => Name (Profile_Meta p)) <$> dependantProfiles))
  end.

Definition Uploader_getDependantProfiles (uploader : Uploader) : prog (result GoError (list Profile)) :=
  let meta := Uploader_Meta uploader in
  uploader_dependants "Uploader" (Namespace meta)
    ("failed to list profiles in namespace " +:+ Namespace meta) meta.
Definition Uploader_ValidateCreate (uploader : Uploader) : prog (option GoError) :=
  Ret (check_container "Uploader" (Name (Uploader_Meta uploader))
    (Up_Container (Uploader_Spec uploader))).
Definition Uploader_ValidateUpdate (oldUploader newUploader : Uploader) : prog (option GoError) :=
  uploader_update "Uploader" (fun m => "dependant profile " +:+ Name m)
    (Uploader_getDependantProfiles oldUploader)
    (Uploader_Meta oldUploader) (Uploader_Spec oldUploader)
    (Uploader_Meta newUploader) (Uploader_Spec newUploader).
Definition Uploader_ValidateDelete (uploader : Uploader) : prog (option GoError) :=
  uploader_delete "cannot delete uploader with dependant profiles"
    (Uploader_getDependantProfiles uploader) (Uploader_Meta uploader).

Definition ClusterUploader_getDependantProfiles (uploader : ClusterUploader) :
    prog (result GoError (list Profile)) :=
  uploader_dependants "ClusterUploader" "" "failed to list profiles" (ClusterUploader_Meta uploader).
Definition ClusterUploader_ValidateCreate (uploader : ClusterUploader) : prog (option GoError) :=
  Ret (check_container "ClusterUploader" (Name (ClusterUploader_Meta uploader))
    (Up_Container (ClusterUploader_Spec uploader))).
Definition ClusterUploader_ValidateUpdate (oldUploader newUploader : ClusterUploader) :
    prog (option GoError) :=
  uploader_update "ClusterUploader" (fun m => "dependant pipeline " +:+ namespaced_name m)
    (ClusterUploader_getDependantProfiles oldUploader)
    (ClusterUploader_Meta oldUploader) (ClusterUploader_Spec oldUploader)
    (ClusterUploader_Meta newUploader) (ClusterUploader_Spec newUploader).
Definition ClusterUploader_ValidateDelete (uploader : ClusterUploader) : prog (option GoError) :=
  uploader_delete "cannot delete uploader with dependant profiles"
    (ClusterUploader_getDependantProfiles uploader) (ClusterUploader_Meta uploader).

(** ** Crawlers (crawler_webhook.go, clustercrawler_webhook.go) *)

Definition crawler_ref_of_search (search : Search) : ParameterizedLocalObjectReference :=
  SearchS_CrawlerRef (Search_Spec search).
Definition crawler_ref_of_cron (cronSearch : CronSearch) : ParameterizedLocalObjectReference :=
  SearchS_CrawlerRef (ST_Spec (CronS_SearchTemplate (CronSearch_Spec cronSearch))).

Definition crawler_update (objKind : string)
    (searches : prog (result GoError (list Search)))
    (cronSearches : prog (result GoError (list CronSearch)))
    (oldSpec : CrawlerSpec) (newMeta : ObjectMeta) (newSpec : CrawlerSpec) : prog (option GoError) :=
  let newRequiredParams :=
    parseNewRequiredParameters (Crawl_Parameters oldSpec) (Crawl_Parameters newSpec) in
  let* res := searches in
  match res with
  | Err e => Ret (Some (StatusInternalError e))
  | Ok dependantSearches =>
  match check_dependants (fun search =>
      missing_parameters newRequiredParams (Name newMeta)
        ("dependant search " +:+ Name (Search_Meta search)) (crawler_ref_of_search search))
    dependantSearches with
  | Some e => Ret (Some e)
  | None =>
  let* res := cronSearches in
  match res with
  | Err e => Ret (Some (StatusInternalError e))
  | Ok dependantCronSearches =>
  match check_dependants (fun cronsearch =>
      missing_parameters newRequiredParams (Name newMeta)
        ("dependant cronsearch " +:+ Name (CronSearch_Meta cronsearch)) (crawler_ref_of_cron cronsearch))
    dependantCronSearches with
  | Some e => Ret (Some e)
  | None => Ret (check_container objKind (Name newMeta) (Crawl_Container newSpec))
  end end end end.

Definition crawler_delete (message cron_message : string)
    (searches : prog (result GoError (list Search)))
    (cronSearches : prog (result GoError (list CronSearch)))
    (crawler : ObjectMeta) : prog (option GoError) :=
  let* res := searches in
  match res with
  | Err e => Ret (Some (StatusInternalError e))
  | Ok dependantSearches =>
  match refuse_deletion (Name crawler) message
          ((fun s => Name (Search_Meta s)) <$> dependantSearches) with
  | Some e => Ret (Some e)
  | None =>
  let* res := cronSearches in
  match res with
  | Err e => Ret (Some (StatusInternalError e))
  | Ok dependantCronSearches => Ret (refuse_deletion (Name crawler) cron_message
      ((fun s => Name (CronSearch_Meta s)) <$> dependantCronSearches))
  end end end.

Definition Crawler_getDependantSearches (crawler : Crawler) : prog (result GoError (list Search)) :=
  let meta := Crawler_Meta crawler in
  list_dependants KSearch (Namespace meta) ("failed to list searches in namespace " +:+ Namespace meta)
    (collect_first (fun s => refMatches (crawler_ref_of_search s) meta "Crawler")).
Definition Crawler_getDependantCronSearches (crawler : Crawler) :
    prog (result GoError (list CronSearch)) :=
  let meta := Crawler_Meta crawler in
  list_dependants KCronSearch (Namespace meta)
    ("failed to list cronSearches in namespace " +:+ Namespace meta)
    (collect_first (fun s => refMatches (crawler_ref_of_cron s) meta "Crawler")).
Definition Crawler_ValidateCreate (crawler : Crawler) : prog (option GoError) :=
  Ret (check_container "Crawler" (Name (Crawler_Meta crawler)) (Crawl_Container (Crawler_Spec crawler))).
Definition Crawler_ValidateUpdate (oldCrawler newCrawler : Crawler) : prog (option GoError) :=
  crawler_update "Crawler" (Crawler_getDependantSearches oldCrawler)
    (Crawler_getDependantCronSearches oldCrawler)
    (Crawler_Spec oldCrawler) (Crawler_Meta newCrawler) (Crawler_Spec newCrawler).
Definition Crawler_ValidateDelete (crawler : Crawler) : prog (option GoError) :=
  crawler_delete "cannot delete crawler with dependant searches"
    "cannot delete crawler with dependant cron searches"
    (Crawler_getDependantSearches crawler) (Crawler_getDependantCronSearches crawler)
    (Crawler_Meta crawler).

Definition ClusterCrawler_getDependantSearches (crawler : ClusterCrawler) :
    prog (result GoError (list Search)) :=
  list_dependants KSearch "" "failed to list searches"
    (collect_first (fun s =>
      refMatches (crawler_ref_of_search s) (ClusterCrawler_Meta crawler) "ClusterCrawler")).
Definition ClusterCrawler_getDependantCronSearches (crawler : ClusterCrawler) :
    prog (result GoError (list CronSearch)) :=
  list_dependants KCronSearch "" "failed to list cronSearches"
    (collect_first (fun s =>
      refMatches (crawler_ref_of_cron s) (ClusterCrawler_Meta crawler) "ClusterCrawler")).
Definition ClusterCrawler_ValidateCreate (crawler : ClusterCrawler) : prog (option GoError) :=
  Ret (check_container "ClusterCrawler" (Name (ClusterCrawler_Meta crawler))
    (Crawl_Container (ClusterCrawler_Spec crawler))).
Definition ClusterCrawler_ValidateUpdate (oldCrawler newCrawler : ClusterCrawler) :
    prog (option GoError) :=
  crawler_update "ClusterCrawler" (ClusterCrawler_getDependantSearches oldCrawler)
    (ClusterCrawler_getDependantCronSearches oldCrawler)
    (ClusterCrawler_Spec oldCrawler) (ClusterCrawler_Meta newCrawler) (ClusterCrawler_Spec newCrawler).
Definition ClusterCrawler_ValidateDelete (crawler : ClusterCrawler) : prog (option GoError) :=
  crawler_delete "cannot delete cluster crawler with dependant searches"
    "cannot delete crawler with dependant cron searches"
    (ClusterCrawler_getDependantSearches crawler) (ClusterCrawler_getDependantCronSearches crawler)
    (ClusterCrawler_Meta crawler).

(** ** Searches (search_webhook.go) *)

Definition Search_Default (search : Search) : Search :=
  let spec := Search_Spec search in
  mkSearch (Search_Meta search)
    (mkSearchSpec (ReferenceDefaulter (SearchS_CrawlerRef spec) "Crawler")
       (SearchS_TTLSecondsAfterFinished spec) (SearchS_ServiceAccountName spec)
       (SearchS_RuntimeClassName spec) (SearchS_Scheduler spec) (SearchS_Resources spec))
    (Search_Status search).

Definition validateSearch (search : Search) : prog (option GoError) :=
  let ref := SearchS_CrawlerRef (Search_Spec search) in
  let crawlerRefPath := spec_path ++ [Child "crawlerRef"] in
  let* ' (crawler, err) := CrawlerInvocationFromReference (Namespace (Search_Meta search)) ref in
  match
    match err with
    | None => Ok ([] : list FieldError)
    | Some e =>
        match as_invalid_reference e with
        | Some message => Ok [field_invalid crawlerRefPath (BadReference ref) message]
        | None =>
            if is_not_found e
            then Ok [field_invalid crawlerRefPath (BadReference ref) "referenced crawler could not be found"]
            else Err e
        end
    end
  with
  | Err e => Ret (Some e)
  | Ok allErrs =>
      let allErrs := allErrs
        ++ ValidateParameterReference crawlerRefPath ref (Crawl_Parameters (Inv_Spec crawler)) in
      let allErrs := allErrs ++ ValidateNoParentParameters crawlerRefPath ref in
      match allErrs with
      | [] => Ret None
      | _ => Ret (Some (StatusInvalid "Search" (Name (Search_Meta search)) allErrs))
      end
  end.

Definition Search_ValidateCreate (search : Search) : prog (option GoError) := validateSearch search.

Definition Search_ValidateUpdate (oldSearch newSearch : Search) : prog (option GoError) :=
  let old := SearchS_ServiceAccountName (Search_Spec oldSearch) in
  let new := SearchS_ServiceAccountName (Search_Spec newSearch) in
  if negb (String.eqb old "") && negb (String.eqb old new) then
    Ret (Some (StatusInvalid "Search" (Name (Search_Meta newSearch))
      [field_invalid (spec_path ++ [Child "serviceAccountName"]) (BadString new)
         "serviceAccountName cannot be changed once set"]))
  else validateSearch newSearch.

Definition Search_ValidateDelete (_ : Search) : prog (option GoError) := Ret None.

(** ** Cron searches (cronsearch_webhook.go) *)

Record CronSearchCustomDefaulter := mkCronSearchCustomDefaulter {
  DefaultConcurrencyPolicy : ConcurrencyPolicy;
  DefaultSuspend : bool;
  DefaultSuccessfulJobsHistoryLimit : Z;   (* int32 *)
  DefaultFailedJobsHistoryLimit : Z        (* int32 *)
}.

(** The one [SetupCronSearchWebhookWithManager] registers. *)
Definition cron_search_defaulter : CronSearchCustomDefaulter :=
  mkCronSearchCustomDefaulter AllowConcurrent false 3 1.

Definition applyDefaults (d : CronSearchCustomDefaulter) (cronSearch : CronSearch) : CronSearch :=
  let spec := CronSearch_Spec cronSearch in
  let template := CronS_SearchTemplate spec in
  let search := ST_Spec template in
  mkCronSearch (CronSearch_Meta cronSearch)
    (mkCronSearchSpec
       (mkSearchTemplateSpec (ST_Meta template)
          (mkSearchSpec (ReferenceDefaulter (SearchS_CrawlerRef search) "Crawler")
             (SearchS_TTLSecondsAfterFinished search) (SearchS_ServiceAccountName search)
             (SearchS_RuntimeClassName search) (SearchS_Scheduler search) (SearchS_Resources search)))
       (CronS_Schedule spec)
       (match CronS_Suspend spec with None => Some (DefaultSuspend d) | Some b => Some b end)
       (match CronS_SuccessfulJobsHistoryLimit spec with
        | None => Some (DefaultSuccessfulJobsHistoryLimit d) | Some n => Some n end)
       (match CronS_FailedJobsHistoryLimit spec with
        | None => Some (DefaultFailedJobsHistoryLimit d) | Some n => Some n end)
       (match CronS_ConcurrencyPolicy spec with
        | ConcurrencyPolicyEmpty => DefaultConcurrencyPolicy d | p => p end)
       (CronS_StartingDeadlineSeconds spec))
    (CronSearch_Status cronSearch).

Definition CronSearch_Default (d : CronSearchCustomDefaulter) (cronSearch : CronSearch) : CronSearch :=
  applyDefaults d cronSearch.

Definition validateCronSearchName (cronSearch : CronSearch) : option FieldError :=
  if DNS1035LabelMaxLength - 11 <? len (Name (CronSearch_Meta cronSearch)) then
    Some (field_invalid [Child "metadata"; Child "name"] (BadString (Name (CronSearch_Meta cronSearch)))
      "must be no more than 52 characters")
  else None.

(** [err.Error()] of an error of the cron library is a parameter. *)
Section cron_validation.
Context `{CronLibrary} (error_string : GoError -> string).

Definition validateCronSearchSpec (cronSearch : CronSearch) : result FieldError schedule :=
  match parse_standard (CronS_Schedule (CronSearch_Spec cronSearch)) with
  | Err err => Err (field_invalid (spec_path ++ [Child "schedule"]) BadSchedule (error_string err))
  | Ok schedule => Ok schedule
  end.

Definition validateCronSearch (cronSearch : CronSearch) : option GoError :=
  let allErrs : list FieldError := [] in
  let allErrs :=
    match validateCronSearchName cronSearch with Some err => allErrs ++ [err] | None => allErrs end in
  let allErrs :=
    match validateCronSearchSpec cronSearch with Err err => allErrs ++ [err] | Ok _ => allErrs end in
  let ttl := SearchS_TTLSecondsAfterFinished
    (ST_Spec (CronS_SearchTemplate (CronSearch_Spec cronSearch))) in
  let allErrs :=
    match ttl with
    | Some seconds => allErrs ++
        [field_invalid [Child "spec.searchTemplate.spec.ttlSecondsAfterFinished"] (BadInt seconds)
           "ttlSecondsAfterFinished should not be set for CronSearch template"]
    | None => allErrs
    end in
  match allErrs with
  | [] => None
  | _ => Some (StatusInvalid "CronSearch" (Name (CronSearch_Meta cronSearch)) allErrs)
  end.

Definition CronSearch_ValidateCreate (cronSearch : CronSearch) : option GoError :=
  validateCronSearch cronSearch.
Definition CronSearch_ValidateUpdate (_ newCronSearch : CronSearch) : option GoError :=
  validateCronSearch newCronSearch.
Definition CronSearch_ValidateDelete (_ : CronSearch) : option GoError := None.

End cron_validation.
