(* ===== verification/WebhookSafety.v ===== *)
(** * What the admission webhooks guarantee

    The updates and deletions they let through leave no dependant without a
    parameter or a resource - as far as they look -, the profiles they accept
    have no colliding volumes, and their defaults change nothing twice. *)

From Stdlib Require Import ZArith Lia String Ascii.
From S2P Require Import Prelude Effects GoStd K8s Api Client Resources Containers Validators CronSearchController CronSchedule Webhooks.

Local Open Scope string_scope.
Local Open Scope Z_scope.
Local Open Scope list_scope.
Local Open Scope prog_scope.

#[local] Arguments check_container : simpl never.
#[local] Arguments refuse_deletion : simpl never.

(** ** The shared loops *)

Lemma collect_filter {A} (test : A -> bool) items : collect test items = List.filter test items.
Proof.
  transitivity (fold_left (fun found x => if test x then found ++ [id x] else found) items []); [done|].
  rewrite fold_left_app_if. simpl. apply list_fmap_id.
Qed.

Lemma collect_first_nil {A} (test : A -> bool) items :
  collect_first test items = [] <-> forall x, x ∈ items -> test x = false.
Proof.
  rewrite <-filter_nil_iff. induction items as [|x items IH]; simpl; [done|].
  by destruct (test x).
Qed.

Lemma check_dependants_none {A} (check : A -> option GoError) dependants :
  check_dependants check dependants = None <-> forall d, d ∈ dependants -> check d = None.
Proof.
  induction dependants as [|d rest IH]; simpl.
  - split; [|done]. intros _ d Hd. by apply elem_of_nil in Hd.
  - destruct (check d) as [e|] eqn:E.
    + split; [done|]. intros H. rewrite <-E. apply H, elem_of_cons. by left.
    + rewrite IH. split.
      * intros H d' [->|Hd]%elem_of_cons; [done|by apply H].
      * intros H d' Hd. apply H, elem_of_cons. by right.
Qed.

Lemma refuse_deletion_none resource message names :
  refuse_deletion resource message names = None <-> names = [].
Proof. by destruct names. Qed.

Lemma check_container_none kind name c :
  check_container kind name c = None <->
  ValidateContainerDefinition [Child "spec"; Child "container"] c = [].
Proof. unfold check_container. by destruct (ValidateContainerDefinition _ _). Qed.

(** A parameter of the new definitions that is required and that the old
    definitions do not have. *)
Definition newly_required (old new : list ParameterDefinition) (d : ParameterDefinition) : Prop :=
  d ∈ new /\ Def_Default d = None /\ Def_Name d ∉ (Def_Name <$> old).

Lemma parseNewRequiredParameters_elem old new d :
  d ∈ parseNewRequiredParameters old new <-> newly_required old new d.
Proof.
  unfold parseNewRequiredParameters, newly_required.
  set (test := fun p => bool_decide ((Def_Name p ∉ name_set (Def_Name <$> old)) /\ Def_Default p = None)).
  rewrite (fold_left_ext _ (fun introduced newParam =>
    if test newParam then introduced ++ [id newParam] else introduced)).
  2: { intros introduced newParam _. unfold test. case_bool_decide as Hd; case_decide; done. }
  rewrite fold_left_app_if, list_fmap_id. simpl.
  rewrite list_elem_of_In, filter_In, <-list_elem_of_In. unfold test.
  rewrite bool_decide_eq_true, elem_of_name_set. tauto.
Qed.

Lemma missing_parameters_none new_required resource prefix ref :
  missing_parameters new_required resource prefix ref = None <->
  forall d, d ∈ new_required -> sets (Ref_Parameters ref) (Def_Name d) = true.
Proof.
  unfold missing_parameters. rewrite ParseSetParameters_eq.
  pose proof (filter_nil_iff (fun d => negb (sets (Ref_Parameters ref) (Def_Name d))) new_required)
    as Hnil.
  destruct (List.filter _ _) as [|d l].
  - split; [|done]. intros _ d Hd. apply negb_false_iff. by apply Hnil.
  - split; [done|]. intros H. exfalso.
    assert (d :: l = []) as Hdl; [|done]. apply Hnil. intros x Hx. apply negb_false_iff. by apply H.
Qed.

(** ** Updates *)

(** Every new required parameter is set by the reference. *)
Definition sets_new_required (old new : list ParameterDefinition)
    (ref : ParameterizedLocalObjectReference) : Prop :=
  forall d, newly_required old new d -> sets (Ref_Parameters ref) (Def_Name d) = true.

Lemma missing_new_required old new resource prefix ref :
  missing_parameters (parseNewRequiredParameters old new) resource prefix ref = None <->
  sets_new_required old new ref.
Proof.
  rewrite missing_parameters_none. unfold sets_new_required.
  split; intros H d Hd; apply H; by apply parseNewRequiredParameters_elem.
Qed.

(** What an update of an uploader must leave true of the profiles of its
    namespace. *)
Definition uploader_update_safe (old new : Uploader) (profiles : list Profile) : Prop :=
  ValidateContainerDefinition [Child "spec"; Child "container"] (Up_Container (Uploader_Spec new)) = []
  /\ forall profile ref, profile ∈ profiles -> ref ∈ Prof_UploaderRefs (Profile_Spec profile) ->
    refMatches ref (Uploader_Meta old) "Uploader" = true ->
    sets_new_required (Up_Parameters (Uploader_Spec old)) (Up_Parameters (Uploader_Spec new)) ref.

Lemma check_uploader_profiles old new prefix profiles :
  check_dependants (fun profile => check_uploader_refs "Uploader" (Uploader_Meta old)
      (parseNewRequiredParameters (Up_Parameters (Uploader_Spec old)) (Up_Parameters (Uploader_Spec new)))
      (prefix (Profile_Meta profile)) (Prof_UploaderRefs (Profile_Spec profile)))
    (List.filter (fun profile => existsb (fun ref => refMatches ref (Uploader_Meta old) "Uploader")
      (Prof_UploaderRefs (Profile_Spec profile))) profiles) = None <->
  forall profile ref, profile ∈ profiles -> ref ∈ Prof_UploaderRefs (Profile_Spec profile) ->
    refMatches ref (Uploader_Meta old) "Uploader" = true ->
    sets_new_required (Up_Parameters (Uploader_Spec old)) (Up_Parameters (Uploader_Spec new)) ref.
Proof.
  rewrite check_dependants_none. unfold check_uploader_refs. split.
  - intros H profile ref Hp Href Hm.
    specialize (H profile). rewrite check_dependants_none in H.
    rewrite list_elem_of_In, filter_In, <-list_elem_of_In, existsb_exists in H.
    specialize (H (conj Hp (ex_intro _ ref (conj (proj1 (list_elem_of_In _ _) Href) Hm))) ref Href).
    rewrite Hm in H. by apply missing_new_required in H.
  - intros H profile Hin. rewrite list_elem_of_In, filter_In, <-list_elem_of_In in Hin.
    apply check_dependants_none. intros ref Href.
    destruct (refMatches ref (Uploader_Meta old) "Uploader") eqn:Hm; simpl; [|done].
    apply missing_new_required. destruct Hin as [Hp _]. exact (H profile ref Hp Href Hm).
Qed.

(** An update of an uploader lists the profiles of its namespace, and is
    accepted exactly when the new container is valid and every reference to
    the uploader in every one of them sets the parameters that are newly
    required. *)
Theorem Uploader_update_protects old new :
  always (Uploader_ValidateUpdate old new) (fun tr out => exists res,
    tr = [event (ListObjects KProfile (in_namespace (Namespace (Uploader_Meta old)))) res] /\
    match res with
    | Ok profiles => out = None <-> uploader_update_safe old new profiles
    | Err _ => out <> None
    end).
Proof.
  intros [profiles|e]; simpl; [|eexists; split; [reflexivity|discriminate]]. rewrite collect_filter.
  pose proof (check_uploader_profiles old new (fun m => "dependant profile " +:+ Name m) profiles)
    as Hcheck.
  unfold uploader_update_safe. destruct (check_dependants _ _) as [e|]; simpl.
  - eexists. split; [done|]. split; [done|]. intros [_ H]. by apply Hcheck in H.
  - eexists. split; [done|]. simpl. rewrite check_container_none.
    split; [|tauto]. intros H. split; [done|]. by apply Hcheck.
Qed.

(** An update of a downloader looks at the first pipeline that refers to it
    and at no other: a second one that does not set a newly required parameter
    is not seen. *)
Definition needs (name : string) : DownloaderSpec :=
  mkDownloaderSpec (with_c_command zero_Container ["/clone"] []) [] []
    [mkParameterDefinition name "" None] [].
Definition free : DownloaderSpec :=
  mkDownloaderSpec (with_c_command zero_Container ["/clone"] []) [] [] [] [].
Definition pipeline_of (name : string) (params : list ParameterSetting) : Pipeline :=
  mkPipeline (meta_named name "ns")
    (mkPipelineSpec (mkReference "git" "Downloader" params) zero_Reference (mkTarget "" "") "" None
       None None [] None) zero_PipelineStatus.

Example downloader_update_first_only :
  path (Downloader_ValidateUpdate (mkDownloader (meta_named "git" "ns") free)
      (mkDownloader (meta_named "git" "ns") (needs "TOKEN")))
    [event (ListObjects KPipeline (in_namespace "ns"))
       (Ok [pipeline_of "a" [mkParameterSetting "TOKEN" "x" None]; pipeline_of "b" []])] None.
Proof. by repeat eexists. Qed.

(** A parameter that was optional and becomes required is not new for
    [parseNewRequiredParameters]; it is for [GetNewRequiredParameters], which
    nothing calls. *)
Example optional_becomes_required :
  let old := [mkParameterDefinition "TOKEN" "" (Some "x")] in
  let new := [mkParameterDefinition "TOKEN" "" None] in
  parseNewRequiredParameters old new = [] /\
  GetNewRequiredParameters (H := map_range_canonical) old new = ["TOKEN"].
Proof. split; vm_compute; reflexivity. Qed.

(** ** Deletions *)

(** A crawler whose deletion is accepted is referred to by no search and
    by no cron search of its namespace, as they are listed. *)
Theorem Crawler_delete_protects crawler :
  always (Crawler_ValidateDelete crawler) (fun tr out => out = None -> exists searches crons,
    tr = [event (ListObjects KSearch (in_namespace (Namespace (Crawler_Meta crawler)))) (Ok searches);
          event (ListObjects KCronSearch (in_namespace (Namespace (Crawler_Meta crawler)))) (Ok crons)] /\
    (forall s, s ∈ searches ->
      refMatches (crawler_ref_of_search s) (Crawler_Meta crawler) "Crawler" = false) /\
    (forall c, c ∈ crons ->
      refMatches (crawler_ref_of_cron c) (Crawler_Meta crawler) "Crawler" = false)).
Proof.
  intros [searches|e]; simpl; [|discriminate].
  destruct (refuse_deletion _ _ _) as [e|] eqn:Es; simpl; [discriminate|].
  apply refuse_deletion_none, fmap_nil_inv in Es. rewrite collect_first_nil in Es.
  intros [crons|e]; simpl; [|discriminate]. intros Ec.
  apply refuse_deletion_none, fmap_nil_inv in Ec. rewrite collect_first_nil in Ec. eauto.
Qed.

(** ** Defaults *)

(** The defaults of a cron search fill in what its reconciliation reads. *)

(** Defaulting changes nothing the second time, fills in all the optional
    settings of a cron search, and never changes what a reference resolves
    to. *)
Theorem defaults_idempotent cron pipeline :
  let cron' := applyDefaults cron_search_defaulter cron in
  let pipeline' := Pipeline_Default pipeline in
  applyDefaults cron_search_defaulter cron' = cron' /\
  CronS_Suspend (CronSearch_Spec cron') <> None /\
  CronS_FailedJobsHistoryLimit (CronSearch_Spec cron') <> None /\
  CronS_SuccessfulJobsHistoryLimit (CronSearch_Spec cron') <> None /\
  CronS_ConcurrencyPolicy (CronSearch_Spec cron') <> ConcurrencyPolicyEmpty /\
  Pipeline_Default pipeline' = pipeline' /\
  (forall ns, ProfileInvocationFromReference ns (PipeS_ProfileRef (Pipeline_Spec pipeline'))
    = ProfileInvocationFromReference ns (PipeS_ProfileRef (Pipeline_Spec pipeline))) /\
  (forall ns, DownloaderInvocationFromReference ns (PipeS_DownloaderRef (Pipeline_Spec pipeline'))
    = DownloaderInvocationFromReference ns (PipeS_DownloaderRef (Pipeline_Spec pipeline))).
Proof.
  assert (forall ref k, k <> "" ->
    ReferenceDefaulter (ReferenceDefaulter ref k) k = ReferenceDefaulter ref k) as Hidem.
  { intros ref k Hk. unfold ReferenceDefaulter. destruct (String.eqb (Ref_kind ref) "") eqn:E; simpl.
    - by destruct (String.eqb_spec k "").
    - by rewrite E. }
  simpl. split; [|split; [|split; [|split; [|split; [|split; [|split]]]]]].
  - unfold applyDefaults; simpl. rewrite Hidem by done.
    destruct cron as [m [template schedule [|] [|] [|] [] deadline] st]; done.
  - by destruct (CronS_Suspend _).
  - by destruct (CronS_FailedJobsHistoryLimit _).
  - by destruct (CronS_SuccessfulJobsHistoryLimit _).
  - by destruct (CronS_ConcurrencyPolicy _).
  - unfold Pipeline_Default; simpl. rewrite !Hidem by done.
    destruct (String.eqb (PipeS_ServiceAccountName (Pipeline_Spec pipeline)) "") eqn:E;
      simpl; rewrite ?E; done.
  - intros ns. apply ReferenceDefaulter_resolves.
  - intros ns. apply ReferenceDefaulter_resolves.
Qed.

(** ** Names of cron searches *)

(** A cron search whose name is accepted never makes a search whose name
    is longer than the 63 bytes of a label, for starts between the epoch and
    the year 2286, whose second has at most ten digits. *)
Theorem cron_search_names_fit `{ControllerUtil} `{RFC3339} cron t s :
  validateCronSearchName cron = None -> constructSearchForCronSearch cron t = Ok s ->
  0 <= time_unix t < 10 ^ 10 -> len (Name (Search_Meta s)) <= DNS1035LabelMaxLength.
Proof.
  unfold validateCronSearchName. intros Hname (Hs & _)%constructSearch_shape Ht.
  destruct (Z.ltb_spec (DNS1035LabelMaxLength - 11) (len (Name (CronSearch_Meta cron)))) as [|Hlen];
    [done|]. rewrite Hs, !len_app.
  pose proof (len_itoa _ Ht).
  change (len "-") with 1. unfold DNS1035LabelMaxLength in *. lia.
Qed.

(** The first second of 2026. *)
Definition new_year : Time := (unix_epoch_seconds + 1767225600) * Second.

Lemma cron_search_names_fit_witness :
  Name (Search_Meta (example_search new_year)) = "nightly-1767225600" /\
  len (Name (Search_Meta (example_search new_year))) <= DNS1035LabelMaxLength.
Proof.
  split; [vm_compute; reflexivity|].
  apply (cron_search_names_fit (H := controller_util_model) (H0 := binary_rfc3339)
    (example_cron None None) new_year).
  - vm_compute; reflexivity.
  - reflexivity.
  - split; [discriminate|reflexivity].
Defined.

(** ** Profiles *)

Lemma add_volumes_spec at_field i volumes names :
  ((add_volumes at_field i volumes names).1 = [] ->
    NoDup (Vol_Name <$> volumes) /\ forall n, n ∈ (Vol_Name <$> volumes) -> n ∉ names) /\
  (forall n, n ∈ (add_volumes at_field i volumes names).2 <-> n ∈ names \/ n ∈ (Vol_Name <$> volumes)).
Proof.
  revert i names; induction volumes as [|v volumes IH]; intros i names; simpl.
  - split; [intros _; split; [constructor|]|].
    + intros n Hn. by apply elem_of_nil in Hn.
    + intros n. rewrite elem_of_nil. tauto.
  - destruct (decide (Vol_Name v ∈ names)) as [Hin|Hnin].
    + destruct (IH (S i) names) as [_ IH2]. destruct (add_volumes _ _ _ _) as [errs names'].
      split; [done|]. intros n. simpl in *. rewrite IH2, elem_of_cons.
      split; [tauto|]. intros [?|[->|?]]; auto.
    + destruct (IH (S i) ({[Vol_Name v]} ∪ names)) as [IH1 IH2]. split.
      * intros E. destruct (IH1 E) as [Hnd Hdis]. split.
        -- constructor; [|done]. intros Hv. apply (Hdis _ Hv), elem_of_union_l. by apply elem_of_singleton.
        -- intros n [->|Hn]%elem_of_cons; [done|]. intros Hnn. apply (Hdis _ Hn). by apply elem_of_union_r.
      * intros n. rewrite IH2, elem_of_union, elem_of_singleton, elem_of_cons. tauto.
Qed.

(** The errors of one setting of a reference. *)
Definition parent_errors (path : FieldPath) (parent : gset string) (p : nat * ParameterSetting) :
    list FieldError :=
  match Set_ValueFrom p.2 with
  | Some src => if negb (String.eqb (Set_Value p.2) "") then
      [field_invalid (path ++ [Child "parameters"; Index p.1]) (BadSetting p.2)
        ("Either one of 'ValueFrom' or 'Value' may be set for the parameter " +:+ Set_Name p.2)]
    else if decide (ParentParam src ∉ parent) then
      [field_invalid (path ++ [Child "parameters"; Index p.1]) (BadSetting p.2)
        ("No parent parameter with name " +:+ ParentParam src +:+ " found")]
    else []
  | None => []
  end.

Lemma ValidateParentParameters_flat_map path ref parentDefs :
  ValidateParentParameters path ref parentDefs =
  flat_map (parent_errors path (name_set (Def_Name <$> parentDefs))) (imap pair (Ref_Parameters ref)).
Proof.
  unfold ValidateParentParameters.
  rewrite (fold_left_ext _ (fun acc p =>
    acc ++ parent_errors path (name_set (Def_Name <$> parentDefs)) p)).
  { by rewrite fold_left_app_flat_map. }
  intros acc [i setting] _. unfold parent_errors. simpl.
  destruct (Set_ValueFrom setting) as [src|]; [|by rewrite app_nil_r].
  destruct (negb _); [done|]. by destruct (decide _); rewrite ?app_nil_r.
Qed.

Lemma ValidateParentParameters_nil path ref parentDefs :
  ValidateParentParameters path ref parentDefs = [] <->
  forall setting src, setting ∈ Ref_Parameters ref -> Set_ValueFrom setting = Some src ->
    Set_Value setting = "" /\ ParentParam src ∈ (Def_Name <$> parentDefs).
Proof.
  rewrite ValidateParentParameters_flat_map, flat_map_nil_iff, Forall_forall. split.
  - intros H setting src Hin Hsrc. apply list_elem_of_lookup in Hin as [i Hi].
    specialize (H (i, setting) (proj2 (elem_of_imap_pair _ _ _) Hi)).
    unfold parent_errors in H. simpl in H.
    rewrite Hsrc in H. destruct (String.eqb_spec (Set_Value setting) ""); [|done]. simpl in H.
    destruct (decide _) as [|Hd] in H; [done|]. split; [done|].
    apply elem_of_name_set. by apply dec_stable.
  - intros H [i setting] Hi%elem_of_imap_pair%list_elem_of_lookup_2. unfold parent_errors. simpl.
    destruct (Set_ValueFrom setting) as [src|] eqn:Hsrc; [|done].
    destruct (H setting src Hi Hsrc) as [-> Hp]. simpl. rewrite decide_False; [done|].
    intros Hn. by apply Hn, elem_of_name_set.
Qed.

(** The specifications of the uploaders that were read. *)
Definition uploader_spec_of (v : Event) : option UploaderSpec :=
  match get_of KUploader v, get_of KClusterUploader v with
  | Some (Ok u), _ => Some (Uploader_Spec u)
  | _, Some (Ok u) => Some (ClusterUploader_Spec u)
  | _, _ => None
  end.
Definition uploader_specs (tr : list Event) : list UploaderSpec := omap uploader_spec_of tr.

Lemma UploaderInvocation_spec ns ref :
  always (UploaderInvocationFromReference ns ref) (fun tr r =>
    r.2 = None -> uploader_specs tr = [Inv_Spec r.1]).
Proof.
  unfold UploaderInvocationFromReference. destruct (_ || _); [by intros [u|e]|].
  destruct (String.eqb _ _); [by intros [u|e]|done].
Qed.

(** A reference to an uploader is accepted: it sets every required parameter,
    and takes from the parent only parameters the parent has. *)
Definition uploader_ref_ok (parentDefs : list ParameterDefinition)
    (ref : ParameterizedLocalObjectReference) (spec : UploaderSpec) : Prop :=
  (forall d, d ∈ Up_Parameters spec -> missing ref d = false) /\
  (forall setting src, setting ∈ Ref_Parameters ref -> Set_ValueFrom setting = Some src ->
    Set_Value setting = "" /\ ParentParam src ∈ (Def_Name <$> parentDefs)).


Lemma uploader_specs_app tr tr' : uploader_specs (tr ++ tr') = uploader_specs tr ++ uploader_specs tr'.
Proof. apply omap_app. Qed.

(** The names of the volumes of uploaders. *)
Definition uploader_volumes (specs : list UploaderSpec) : list string :=
  specs ≫= fun spec => Vol_Name <$> Up_Volumes spec.

(** The loop over the uploaders only adds errors; without one, every reference
    is right and no two volumes collide, among themselves and with those that
    were there. *)
Lemma validate_uploader_refs_accepts ns defs i refs errs (names : gset string) :
  always (validate_uploader_refs ns defs i refs errs names) (fun tr r =>
    forall names', r = Ok ([], names') ->
      errs = [] /\ Forall2 (uploader_ref_ok defs) refs (uploader_specs tr) /\
      NoDup (uploader_volumes (uploader_specs tr)) /\
      forall n, n ∈ uploader_volumes (uploader_specs tr) -> n ∉ names).
Proof.
  revert i errs names; induction refs as [|ref rest IH]; intros i errs names.
  { intros names' [= -> _]. split; [done|]. split; [constructor|]. split; [constructor|].
    intros n Hn. by apply elem_of_nil in Hn. }
  apply always_bind. eapply always_impl; [apply UploaderInvocation_spec|].
  intros tr [inv err] Hspec. cbv beta in *. change (inv, err).2 with err in Hspec.
  change (inv, err).1 with inv in Hspec. destruct err as [e|].
  - assert (forall more, more <> [] -> always (validate_uploader_refs ns defs (S i) rest (errs ++ more) names)
      (fun tr' r => forall names', r <> Ok ([], names'))) as Hgrow.
    { intros more Hmore. eapply always_impl; [apply IH|]. intros tr' r Hr names' E.
      by destruct (Hr names' E) as [[_ ?]%app_eq_nil _]. }
    destruct (as_invalid_reference e) as [msg|]; [|destruct (is_not_found e)].
    + eapply always_impl; [by apply Hgrow|]. intros tr' r Hr names' E. by destruct (Hr names').
    + eapply always_impl; [by apply Hgrow|]. intros tr' r Hr names' E. by destruct (Hr names').
    + intros names' E. done.
  - destruct (add_volumes_spec (fun j => (spec_path ++ [Child "uploaderRefs"; Index i])
      ++ [Child "volumes"; Index j; Child "name"]) 0 (Up_Volumes (Inv_Spec inv)) names) as [Hadd Hnames].
    destruct (add_volumes _ _ _ _) as [verrs vnames].
    eapply always_impl; [apply IH|]. intros tr' r Hr names' E.
    destruct (Hr names' E) as ([[[-> Href]%app_eq_nil Hpar]%app_eq_nil Hv]%app_eq_nil & Hrest & Hnd & Hdis).
    simpl in Hadd, Hnames. destruct (Hadd Hv) as [Hnd0 Hdis0].
    rewrite uploader_specs_app, (Hspec eq_refl). split; [done|]. split.
    { constructor; [|done]. split.
      - by rewrite ValidateParameterReference_nil in Href.
      - by rewrite ValidateParentParameters_nil in Hpar. }
    change (uploader_volumes ([Inv_Spec inv] ++ uploader_specs tr')) with
      ((Vol_Name <$> Up_Volumes (Inv_Spec inv)) ++ uploader_volumes (uploader_specs tr')). split.
    + apply NoDup_app. split; [done|]. split; [|done]. intros n Hn Hn'.
      apply (Hdis n Hn'), Hnames. by right.
    + intros n [Hn|Hn]%elem_of_app; [by apply Hdis0|]. intros Hn'. apply (Hdis n Hn), Hnames. by left.
Qed.

(** The profiles the webhook accepts. No two volumes of the profile and of
    the uploaders it refers to, as they were read, have the same name; each
    reference to an uploader sets every parameter that uploader requires, and
    takes from the profile only parameters the profile declares; every scanner
    has a command and a name that is short enough. *)
Lemma ValidateProfile_accepts profile :
  always (ValidateProfile profile) (fun tr out => out = None ->
    NoDup ((Vol_Name <$> Prof_Volumes (Profile_Spec profile)) ++ uploader_volumes (uploader_specs tr)) /\
    Forall2 (uploader_ref_ok (Prof_Parameters (Profile_Spec profile)))
      (Prof_UploaderRefs (Profile_Spec profile)) (uploader_specs tr) /\
    forall c, c ∈ Prof_Containers (Profile_Spec profile) ->
      C_Command (CC_Container c) <> [] /\
      len (C_Name (CC_Container c)) <= MaxPipelineNameLength).
Proof.
  unfold ValidateProfile.
  destruct (add_volumes_spec (fun j => spec_path ++ [Child "volumes"; Index j; Child "name"]) 0
    (Prof_Volumes (Profile_Spec profile)) ∅) as [Hadd Hnames].
  destruct (add_volumes _ _ _ _) as [verrs vnames]. simpl in Hadd, Hnames.
  apply always_bind. eapply always_impl; [apply validate_uploader_refs_accepts|].
  intros tr [[errs names']|e] Hr; [|done]. cbv beta in *.
  rewrite fold_left_ext with (g := fun errs p => errs ++ ValidateContainerDefinition
    (spec_path ++ [Child "containers"; Index p.1]) (CC_Container p.2)) by by intros ? [].
  rewrite fold_left_app_flat_map. destruct (_ ++ flat_map _ _) as [|] eqn:E; [|done]. intros _.
  apply app_eq_nil in E as [-> Hc]. destruct (Hr _ eq_refl) as (-> & Href & Hnd & Hdis).
  destruct (Hadd eq_refl) as [Hnd0 _]. rewrite app_nil_r. split; [|split; [done|]].
  - apply NoDup_app. split; [done|]. split; [|done]. intros n Hn Hn'.
    apply (Hdis n Hn'), Hnames. by right.
  - intros c [i Hi]%list_elem_of_lookup. rewrite flat_map_nil_iff, Forall_forall in Hc.
    specialize (Hc (i, c) (proj2 (elem_of_imap_pair _ _ _) Hi)).
    by apply ValidateContainerDefinition_accepts in Hc.
Qed.
