(* ===== verification/PodShape.v ===== *)
(** * The shape of the pods

    When the API server accepts the specification of a pod the reconcilers make:
    the names of containers and volumes are distinct, a container name is a
    label, a mount refers to a volume of the pod.  For the scan pod and the
    search pod this is equivalent to conditions on the resources they are made
    from; which of them the webhooks enforce, and which they do not. *)

From Stdlib Require Import ZArith Lia String Ascii.
From S2P Require Import Prelude Effects GoStd K8s Api Client Resources Containers Validators ControllerCommon PipelineController ScanPod SearchController Webhooks WebhookSafety.

Local Open Scope string_scope.
Local Open Scope Z_scope.
Local Open Scope list_scope.

(** ** Well-formed specifications *)

Definition MaxLabelLength : Z := 63.

Definition pod_containers (spec : PodSpec) : list Container := PS_InitContainers spec ++ PS_Containers spec.

(** The mounts of a container refer to volumes with these names. *)
Definition mounts_in (volumes : list string) (c : Container) : Prop :=
  Forall (fun m => VM_Name m ∈ volumes) (C_VolumeMounts c).

Record well_formed (spec : PodSpec) : Prop := {
  wf_containers : NoDup (C_Name <$> pod_containers spec);
  wf_names : Forall (fun n => len n <= MaxLabelLength) (C_Name <$> pod_containers spec);
  wf_volumes : NoDup (Vol_Name <$> PS_Volumes spec);
  wf_mounts : Forall (mounts_in (Vol_Name <$> PS_Volumes spec)) (pod_containers spec)
}.

#[export] Instance mounts_in_dec volumes c : Decision (mounts_in volumes c).
Proof. unfold mounts_in. apply _. Defined.

#[export] Instance well_formed_dec spec : Decision (well_formed spec).
Proof.
  refine (cast_if_and4 (decide (NoDup (C_Name <$> pod_containers spec)))
    (decide (Forall (fun n => len n <= MaxLabelLength) (C_Name <$> pod_containers spec)))
    (decide (NoDup (Vol_Name <$> PS_Volumes spec)))
    (decide (Forall (mounts_in (Vol_Name <$> PS_Volumes spec)) (pod_containers spec))));
  by first [constructor | destruct 1].
Defined.

(** ** Prefixed names *)

(** Prefixing keeps names distinct. *)
Lemma NoDup_prefixed (p : string) (l : list string) : NoDup (append p <$> l) <-> NoDup l.
Proof. apply NoDup_fmap. apply _. Qed.

Lemma Forall_prefixed (p : string) (l : list string) (n : Z) :
  Forall (fun x => len x <= n) (append p <$> l) <-> Forall (fun x => len x <= n - len p) l.
Proof.
  rewrite Forall_fmap. apply Forall_iff. intros x. unfold compose. rewrite len_app. lia.
Qed.

(** Adding to every list of a list what satisfies the condition anyway. *)
Lemma Forall_more {A B} (P : B -> Prop) (f : A -> list B) (more : list B) (l : list A) :
  Forall P more -> Forall (Forall P) ((fun x => f x ++ more) <$> l) <-> Forall (Forall P) (f <$> l).
Proof. intros Hmore. rewrite !Forall_fmap. apply Forall_iff. intros x. unfold compose. rewrite Forall_app. tauto. Qed.

(** ** The scan pod *)

Section scan_pod.
Context `{ControllerUtil} `{MapRange string}.
Variable r : PipelineReconciler.
Variables (p : Pipeline) (profile : Invocation ProfileSpec) (downloader : Invocation DownloaderSpec)
  (uploaders : list (Invocation UploaderSpec)).

(** The scanners that take part, the containers of the user, and the names of
    the volumes. *)
Definition included : list Container :=
  FilterConditionalContainers (Prof_Containers (Inv_Spec profile)) (Prof_Parameters (Inv_Spec profile))
    (Ref_Parameters (PipeS_ProfileRef (Pipeline_Spec p))).
Definition upload_containers : list Container := (fun u => Up_Container (Inv_Spec u)) <$> uploaders.
Definition own_volumes : list string :=
  [pipelineTargetVolumeName; runtimeBinaryVolumeName; pipelineResultsVolumeName;
   pipelineMetadataVolumeName; runtimeProcVolumeName].
Definition volume_names : list string :=
  own_volumes ++ (Vol_Name <$> Down_Volumes (Inv_Spec downloader))
  ++ (Vol_Name <$> Prof_Volumes (Inv_Spec profile))
  ++ uploader_volumes (Inv_Spec <$> uploaders).

(** What the resources have to satisfy. *)
Record resources_fit : Prop := {
  fit_downloader : len (C_Name (Down_Container (Inv_Spec downloader))) <= 52;
  fit_scanners : NoDup (C_Name <$> included) /\ Forall (fun n => len n <= 55) (C_Name <$> included);
  fit_uploaders : NoDup (C_Name <$> upload_containers) /\
    Forall (fun n => len n <= 54) (C_Name <$> upload_containers);
  fit_volumes : NoDup volume_names;
  fit_mounts : Forall (mounts_in volume_names)
    (Down_Container (Inv_Spec downloader) :: included ++ upload_containers)
}.

(** What the options add to the mounts of a container. *)
Definition base_mounts : list VolumeMount :=
  [volume_mount pipelineMetadataVolumeName pipelineMetadataDirectory;
   volume_mount pipelineResultsVolumeName pipelineResultsDirectory;
   volume_mount runtimeProcVolumeName processDirectory;
   volume_mount runtimeBinaryVolumeName binaryDirectory].
Definition target_mount : list VolumeMount :=
  [volume_mount pipelineTargetVolumeName pipelineTargetDirectory].

Lemma scan_pod_container_names :
  (C_Name <$> ApplyStandardOptions (initContainers r p downloader))
    = [sidecarInitContainerName; downloadContainerPrefix +:+ C_Name (Down_Container (Inv_Spec downloader))] /\
  (C_Name <$> ApplyStandardOptions (scannerContainers p profile ++ uploaderContainers p profile downloader uploaders))
    = (append scanContainerPrefix <$> (C_Name <$> included))
      ++ (append uploadContainerPrefix <$> (C_Name <$> upload_containers)).
Proof.
  split; [done|]. unfold ApplyStandardOptions. rewrite ApplyOptionsToAll_app, fmap_app.
  unfold scannerContainers, uploaderContainers, uploader_containers, ApplyOptionsToAll, upload_containers.
  f_equal; (change (map ?f ?l) with (f <$> l)); by rewrite <-!list_fmap_compose.
Qed.

Lemma scan_pod_mounts :
  (C_VolumeMounts <$> ApplyStandardOptions (initContainers r p downloader))
    = [base_mounts; C_VolumeMounts (Down_Container (Inv_Spec downloader)) ++ target_mount ++ base_mounts] /\
  (C_VolumeMounts <$> ApplyStandardOptions (scannerContainers p profile ++ uploaderContainers p profile downloader uploaders))
    = ((fun c => C_VolumeMounts c ++ base_mounts ++ target_mount) <$> included)
      ++ ((fun c => C_VolumeMounts c ++ base_mounts) <$> upload_containers).
Proof.
  split; [simpl; by rewrite <-!app_assoc|]. unfold ApplyStandardOptions. rewrite ApplyOptionsToAll_app, fmap_app.
  unfold scannerContainers, uploaderContainers, uploader_containers, ApplyOptionsToAll, upload_containers.
  f_equal; (change (map ?f ?l) with (f <$> l)); rewrite <-!list_fmap_compose;
    apply list_fmap_ext; intros ? ? _; simpl; by rewrite <-!app_assoc.
Qed.

Lemma pod_volume_names :
  Vol_Name <$> ([targetVolume; binaryVolume; resultsVolume; metadataVolume; processVolume]
    ++ Down_Volumes (Inv_Spec downloader) ++ Prof_Volumes (Inv_Spec profile)
    ++ flat_map (fun u => Up_Volumes (Inv_Spec u)) uploaders) = volume_names.
Proof.
  unfold volume_names, uploader_volumes. rewrite !fmap_app. do 3 f_equal.
  induction uploaders as [|u us IH]; [done|]. simpl. by rewrite fmap_app, IH.
Qed.

(** The names of the pod are distinct when those of the scanners are, and those
    of the uploaders: the prefixes keep the kinds apart. *)
Lemma pod_names_distinct d (ss us : list string) :
  NoDup ([sidecarInitContainerName; downloadContainerPrefix +:+ d]
    ++ (append scanContainerPrefix <$> ss) ++ (append uploadContainerPrefix <$> us))
  <-> NoDup ss /\ NoDup us.
Proof.
  assert (forall n, n ∈ [sidecarInitContainerName; downloadContainerPrefix +:+ d] ->
    n ∉ (append scanContainerPrefix <$> ss) ++ (append uploadContainerPrefix <$> us)) as Hinit.
  { intros n Hn Hin. apply elem_of_app in Hin as [(x & E & _)%list_elem_of_fmap|(x & E & _)%list_elem_of_fmap];
      subst n; apply elem_of_cons in Hn as [Hn|Hn%list_elem_of_singleton]; discriminate Hn. }
  assert (forall n, n ∈ append scanContainerPrefix <$> ss -> n ∉ append uploadContainerPrefix <$> us) as Hsu.
  { intros n (x & -> & _)%list_elem_of_fmap (y & E & _)%list_elem_of_fmap. discriminate E. }
  rewrite !NoDup_app, !NoDup_prefixed. split; [tauto|]. intros [Hs Hu].
  split_and!; try done. apply NoDup_cons. split; [|apply NoDup_singleton].
  intros E%list_elem_of_singleton. discriminate E.
Qed.

Lemma Forall_mounts volumes cs :
  Forall (mounts_in volumes) cs <-> Forall (Forall (fun m => VM_Name m ∈ volumes)) (C_VolumeMounts <$> cs).
Proof. by rewrite Forall_fmap. Qed.

Lemma own_mounts m : m ∈ base_mounts ++ target_mount -> VM_Name m ∈ volume_names.
Proof.
  intros Hm. apply elem_of_app. left.
  repeat (apply elem_of_cons in Hm as [->|Hm]; [vm_compute; by repeat constructor|]). by apply elem_of_nil in Hm.
Qed.

(** The pod is well-formed when its resources fit, and only then. *)
Lemma populated_well_formed pod pod' :
  populateScanPod r pod p profile downloader uploaders = Ok pod' ->
  time_is_zero (CreationTimestamp (Pod_Meta pod)) = true ->
  well_formed (Pod_Spec pod') <-> resources_fit.
Proof.
  intros Hpod Hnew.
  assert (PS_Containers (Pod_Spec pod') = ApplyStandardOptions
      (scannerContainers p profile ++ uploaderContainers p profile downloader uploaders) /\
    PS_InitContainers (Pod_Spec pod') = ApplyStandardOptions (initContainers r p downloader) /\
    (Vol_Name <$> PS_Volumes (Pod_Spec pod')) = volume_names) as (Hc & Hi & Hv).
  { unfold populateScanPod in Hpod. rewrite Hnew in Hpod.
    destruct (SetControllerReference _ _ _) as [m|e]; [|done]. injection Hpod as <-.
    split; [done|]. split; [done|]. apply pod_volume_names. }
  destruct scan_pod_container_names as [Hin Hcn]. destruct scan_pod_mounts as [Him Hcm].
  assert ((C_Name <$> pod_containers (Pod_Spec pod')) =
    [sidecarInitContainerName; downloadContainerPrefix +:+ C_Name (Down_Container (Inv_Spec downloader))]
    ++ (append scanContainerPrefix <$> (C_Name <$> included))
    ++ (append uploadContainerPrefix <$> (C_Name <$> upload_containers))) as Hnames.
  { unfold pod_containers. by rewrite fmap_app, Hc, Hi, Hin, Hcn. }
  assert (Forall (mounts_in volume_names) (pod_containers (Pod_Spec pod')) <->
    Forall (mounts_in volume_names) (Down_Container (Inv_Spec downloader) :: included ++ upload_containers)) as Hmounts.
  { rewrite !Forall_mounts. unfold pod_containers. rewrite fmap_app, Hc, Hi, Him, Hcm.
    assert (Forall (fun m => VM_Name m ∈ volume_names) (base_mounts ++ target_mount)) as Hown
      by (apply Forall_forall; intros m; apply own_mounts).
    assert (Forall (fun m => VM_Name m ∈ volume_names) base_mounts) as Hbase
      by exact (proj1 (proj1 (Forall_app _ _ _) Hown)).
    rewrite Forall_app, fmap_cons, fmap_app, !Forall_cons, Forall_nil, !Forall_app,
      (Forall_more _ C_VolumeMounts (base_mounts ++ target_mount)),
      (Forall_more _ C_VolumeMounts base_mounts) by done.
    rewrite Forall_app in Hown. tauto. }
  split.
  - intros [H1 H2 H3 H4]. rewrite Hnames in H1, H2. rewrite Hv in H3, H4.
    apply pod_names_distinct in H1 as [? ?]. rewrite !Forall_app, !Forall_prefixed in H2.
    destruct H2 as (H2 & Hs & Hu). inversion H2 as [|? ? _ H2']; subst. inversion H2' as [|? ? Hd _]; subst.
    rewrite len_app in Hd. unfold MaxLabelLength in Hd. split; [change (len downloadContainerPrefix) with 11 in Hd; lia|done|done|done|by apply Hmounts].
  - intros [Hd [Hs1 Hs2] [Hu1 Hu2] Hvol Hm]. split; rewrite ?Hnames, ?Hv.
    + by apply pod_names_distinct.
    + rewrite !Forall_app, !Forall_prefixed. split; [|done]. constructor; [done|]. constructor; [|constructor].
      rewrite len_app. unfold MaxLabelLength. change (len downloadContainerPrefix) with 11. lia.
    + done.
    + by apply Hmounts.
Qed.

(** C20: the pod made for a pipeline is well-formed exactly when its resources
    fit: no two scanners that take part, and no two uploaders, share a name; the
    names leave room for their prefixes; the volumes are distinct, from those of
    the pod too, and hold what the containers mount.  Nothing else of the
    pipeline, the profile, the downloader and the uploaders matters. *)
Theorem scan_pod_well_formed pod pod' :
  populateScanPod r pod p profile downloader uploaders = Ok pod' ->
  time_is_zero (CreationTimestamp (Pod_Meta pod)) = true ->
  well_formed (Pod_Spec pod') <-> resources_fit.
Proof. apply populated_well_formed. Qed.
End scan_pod.

(** ** What the webhooks check *)

(** What is left to check when the profile was accepted: the names are distinct,
    those of the downloader and the uploaders are short enough, the volumes of
    the downloader collide neither with each other nor with others, no volume
    has a name of the pod's own, and what is mounted exists. *)
Record not_checked (p : Pipeline) (profile : Invocation ProfileSpec) (downloader : Invocation DownloaderSpec)
    (uploaders : list (Invocation UploaderSpec)) : Prop := {
  nc_scanners : NoDup (C_Name <$> included p profile);
  nc_uploaders : NoDup (C_Name <$> upload_containers uploaders) /\
    Forall (fun n => len n <= 54) (C_Name <$> upload_containers uploaders);
  nc_downloader : len (C_Name (Down_Container (Inv_Spec downloader))) <= 52;
  nc_volumes : let mine := own_volumes ++ (Vol_Name <$> Down_Volumes (Inv_Spec downloader)) in
    NoDup mine /\ forall n, n ∈ mine ->
      n ∉ (Vol_Name <$> Prof_Volumes (Inv_Spec profile)) ++ uploader_volumes (Inv_Spec <$> uploaders);
  nc_mounts : Forall (mounts_in (volume_names profile downloader uploaders))
    (Down_Container (Inv_Spec downloader) :: included p profile ++ upload_containers uploaders)
}.

Lemma FilterConditionalContainers_elem cs defs settings c :
  c ∈ FilterConditionalContainers cs defs settings -> exists cc, cc ∈ cs /\ CC_Container cc = c.
Proof.
  unfold FilterConditionalContainers. rewrite fold_left_app_if. simpl.
  intros (cc & -> & Hcc)%list_elem_of_fmap. exists cc. split; [|done].
  by apply list_elem_of_In, List.filter_In in Hcc as [Hcc%list_elem_of_In _].
Qed.

(** For the resources an accepted profile was checked against, the pod of a
    pipeline is well-formed exactly under the conditions the webhook leaves: it
    has settled the lengths of the names of the scanners, and the collisions
    among the volumes of the profile and its uploaders. *)
Theorem accepted_profile_fits (prof : Profile) :
  always (ValidateProfile prof) (fun tr out => out = None ->
    forall p profile downloader uploaders,
      Inv_Spec profile = Profile_Spec prof -> Inv_Spec <$> uploaders = uploader_specs tr ->
      resources_fit p profile downloader uploaders <-> not_checked p profile downloader uploaders).
Proof.
  eapply always_impl; [apply ValidateProfile_accepts|]. intros tr out Hacc Hout p profile downloader uploaders Hp Hu.
  destruct (Hacc Hout) as (Hvol & _ & Hscan). rewrite <-Hp, <-Hu in Hvol. rewrite <-Hp in Hscan.
  assert (Forall (fun n => len n <= 55) (C_Name <$> included p profile)) as Hlen.
  { apply Forall_fmap, Forall_forall. intros c Hc. destruct (FilterConditionalContainers_elem _ _ _ _ Hc) as (cc & Hcc & <-).
    destruct (Hscan cc Hcc) as [_ Hl]. unfold compose.
    change MaxPipelineNameLength with 54 in Hl. lia. }
  assert (NoDup (volume_names profile downloader uploaders) <->
    let mine := own_volumes ++ (Vol_Name <$> Down_Volumes (Inv_Spec downloader)) in
    NoDup mine /\ forall n, n ∈ mine ->
      n ∉ (Vol_Name <$> Prof_Volumes (Inv_Spec profile)) ++ uploader_volumes (Inv_Spec <$> uploaders)) as Hnd.
  { unfold volume_names. cbv zeta. rewrite app_assoc, NoDup_app. tauto. }
  split.
  - intros [Hd [Hs _] Hup Hv Hm]. split; [done..|by apply Hnd|done].
  - intros [Hs Hup Hd Hv Hm]. split; [done..|by apply Hnd|done].
Qed.

(** ** The search pod *)

Section search_pod.
Context `{ControllerUtil} `{MapRange string} `{TemplateJSON}.

Definition search_volume_names (crawler : Invocation CrawlerSpec) : list string :=
  (Vol_Name <$> Crawl_Volumes (Inv_Spec crawler))
  ++ [searchTemplatesVolumeName; searchFIFOVolumeName; runtimeBinaryVolumeName].

(** The pod made for a search is well-formed exactly when its crawler fits: its
    name has at most 55 bytes, its volumes are distinct and not those of the
    pod, and hold what it mounts. *)
Theorem search_pod_well_formed r search pod crawler pod' :
  populateSearchPod r search pod crawler = Ok pod' ->
  time_is_zero (CreationTimestamp (Pod_Meta pod)) = true ->
  well_formed (Pod_Spec pod') <->
    len (C_Name (Crawl_Container (Inv_Spec crawler))) <= 55 /\
    NoDup (search_volume_names crawler) /\
    mounts_in (search_volume_names crawler) (Crawl_Container (Inv_Spec crawler)).
Proof.
  unfold populateSearchPod. intros Hpod Hnew. rewrite Hnew in Hpod.
  destruct (marshal_template _) as [json|e]; [|done].
  destruct (SetControllerReference _ _ _) as [m|e]; [|done]. injection Hpod as <-. simpl.
  assert (forall n, n ∈ [searchTemplatesVolumeName; searchFIFOVolumeName; runtimeBinaryVolumeName] ->
    n ∈ search_volume_names crawler) as Hown by (intros n Hn; apply elem_of_app; by right).
  assert (Forall (fun m => VM_Name m ∈ search_volume_names crawler)
    [volume_mount searchTemplatesVolumeName configDirectory; volume_mount searchFIFOVolumeName fifoDirectory;
     volume_mount runtimeBinaryVolumeName binaryDirectory]) as Hmore
    by (repeat constructor; apply Hown; vm_compute; by repeat constructor).
  split.
  - intros [_ Hn Hv Hmt]. simpl in *. rewrite fmap_app in Hv, Hmt. split_and!; [|done|].
    + inversion Hn as [|? ? _ Hn']; subst. inversion Hn' as [|? ? Hd _]; subst. rewrite len_app in Hd.
      unfold MaxLabelLength in Hd. change (len crawlerContainerPrefix) with 8 in Hd. lia.
    + inversion Hmt as [|? ? _ Hmt']; subst. inversion Hmt' as [|? ? Hm _]; subst.
      unfold mounts_in in Hm. simpl in Hm. exact (proj1 (proj1 (Forall_app _ _ _) Hm)).
  - intros (Hlen & Hvol & Hm). split; simpl; rewrite ?fmap_app.
    + apply NoDup_cons. split; [|apply NoDup_singleton]. intros E%list_elem_of_singleton. discriminate E.
    + constructor; [done|]. constructor; [|constructor]. rewrite len_app. unfold MaxLabelLength.
      change (len crawlerContainerPrefix) with 8. lia.
    + done.
    + constructor; [exact Hmore|]. constructor; [|constructor]. unfold mounts_in. simpl. by apply Forall_app.
Qed.
End search_pod.

(** ** Concrete pods *)

Module PodShape_example.
Import ScanPod.Example.

#[local] Instance controller_util : ControllerUtil := ScanPod.Example.controller_util.
#[local] Instance range : MapRange string := ScanPod.Example.range.

Ltac by_computation := apply (bool_decide_unpack _); vm_compute; exact I.

Lemma example_fits : resources_fit pipeline profile downloader [uploader].
Proof. split; [discriminate|split; by_computation|split; by_computation|by_computation..]. Qed.

Lemma scan_pod_well_formed_witness : well_formed (Pod_Spec scan_pod).
Proof.
  apply (scan_pod_well_formed reconciler pipeline profile downloader [uploader] new_pod scan_pod
    populate_new eq_refl). exact example_fits.
Defined.

(** The pod of a pipeline whose profile is [prof] and whose downloader is [down]. *)
Definition pod_spec (prof : ProfileSpec) (down : DownloaderSpec) : PodSpec :=
  match populateScanPod reconciler new_pod pipeline (mkInvocation prof [] (meta_named "default" "ns"))
    (mkInvocation down [] (meta_named "git" "ns")) [] with
  | Ok pod => Pod_Spec pod
  | Err _ => zero_PodSpec
  end.
Definition scanners (names : list string) : ProfileSpec :=
  mkProfileSpec ((fun n => mkConditionalContainer (named_container n ["/scan"]) None) <$> names) [] [] [] [] [].
Definition git (name : string) (volumes : list string) : DownloaderSpec :=
  mkDownloaderSpec (named_container name ["/clone"]) ((fun n => mkVolume n EmptyDir) <$> volumes) [] [] [].

Lemma plain_pod_well_formed : well_formed (pod_spec (scanners ["a"; "b"]) (git "git" ["cache"])).
Proof. by_computation. Qed.

(** Accepted by the webhooks: two scanners of one name, a downloader whose
    prefixed name is no label, a volume of the downloader under a name of the
    pod's own.  The pod is not well-formed. *)
Lemma accepted_duplicate_scanners :
  path (ValidateProfile (mkProfile (meta_named "default" "ns") (scanners ["a"; "a"]))) [] None /\
  ~ well_formed (pod_spec (scanners ["a"; "a"]) (git "git" [])).
Proof. split; [by vm_compute|]. apply (bool_decide_unpack _). vm_compute. exact I. Qed.

Definition long_name : string := "a-downloader-with-a-name-of-exactly-fifty-three-bytes".

Lemma accepted_long_downloader :
  path (Downloader_ValidateCreate (mkDownloader (meta_named "git" "ns") (git long_name []))) [] None /\
  ~ well_formed (pod_spec (scanners ["a"]) (git long_name [])).
Proof. split; [by vm_compute|]. apply (bool_decide_unpack _). vm_compute. exact I. Qed.

Lemma accepted_reserved_volume :
  path (Downloader_ValidateCreate (mkDownloader (meta_named "git" "ns") (git "git" [pipelineResultsVolumeName]))) [] None /\
  ~ well_formed (pod_spec (scanners ["a"]) (git "git" [pipelineResultsVolumeName])).
Proof. split; [by vm_compute|]. apply (bool_decide_unpack _). vm_compute. exact I. Qed.
End PodShape_example.
