(* ===== verification/PipelineWebhook.v ===== *)
(** * What the webhook of pipelines accepts

    The outcome of [ValidatePipeline] on every path - accepted, rejected with a
    list of errors, or an internal error -, and what an accepted pipeline lacks
    for its pod to be well-formed. *)

From Stdlib Require Import ZArith Lia String Ascii.
From S2P Require Import Prelude Effects GoStd K8s Api Client Resources Containers Validators ControllerCommon PipelineController ScanPod Webhooks WebhookSafety PodShape.

Local Open Scope string_scope.
Local Open Scope Z_scope.
Local Open Scope list_scope.

(** ** What was read *)

Definition profile_spec_of (v : Event) : option ProfileSpec :=
  match get_of KProfile v with Some (Ok p) => Some (Profile_Spec p) | _ => None end.
Definition downloader_spec_of (v : Event) : option DownloaderSpec :=
  match get_of KDownloader v, get_of KClusterDownloader v with
  | Some (Ok d), _ => Some (Downloader_Spec d)
  | _, Some (Ok d) => Some (ClusterDownloader_Spec d)
  | _, _ => None
  end.
Definition account_of (v : Event) : option ServiceAccount :=
  match get_of KServiceAccount v with Some (Ok sa) => Some sa | _ => None end.

(** The profile, the downloader and the service account a path has found. *)
Definition found (tr : list Event) : list ProfileSpec * list DownloaderSpec * list ServiceAccount :=
  (omap profile_spec_of tr, omap downloader_spec_of tr, omap account_of tr).

Lemma found_app tr tr' ps ds sas :
  found tr = (ps, ds, sas) ->
  found (tr ++ tr') = (ps ++ (found tr').1.1, ds ++ (found tr').1.2, sas ++ (found tr').2).
Proof. unfold found. rewrite !omap_app. by intros [= -> -> ->]. Qed.

Lemma ProfileInvocation_found ns ref :
  always (ProfileInvocationFromReference ns ref) (fun tr r =>
    found tr = (match r.2 with None => [Inv_Spec r.1] | Some _ => [] end, [], [])).
Proof. unfold ProfileInvocationFromReference. destruct (_ && _); [done|]. by intros [u|e]. Qed.

Lemma DownloaderInvocation_found ns ref :
  always (DownloaderInvocationFromReference ns ref) (fun tr r =>
    found tr = ([], match r.2 with None => [Inv_Spec r.1] | Some _ => [] end, [])).
Proof.
  unfold DownloaderInvocationFromReference. destruct (_ || _); [by intros [u|e]|].
  destruct (String.eqb _ _); [by intros [u|e]|done].
Qed.

(** ** The stages of the validation *)

(** A reference that does not resolve is an error in the list, another failure
    of the call ends the validation. *)
Definition resolution (err : option GoError) (errs : list FieldError) (invalid : string -> FieldError)
    (missing : FieldError) : result GoError (list FieldError) :=
  match err with
  | None => Ok errs
  | Some e =>
      match as_invalid_reference e with
      | Some msg => Ok (errs ++ [invalid msg])
      | None => if is_not_found e then Ok (errs ++ [missing]) else Err (StatusInternalError e)
      end
  end.

Definition report (p : Pipeline) (res : result GoError (list FieldError)) : prog (option GoError) :=
  match res with
  | Err e => Ret (Some e)
  | Ok [] => Ret None
  | Ok errs => Ret (Some (StatusInvalid "Pipeline" (Name (Pipeline_Meta p)) errs))
  end.

Definition profileRefPath : FieldPath := spec_path ++ [Child "profileRef"].
Definition downloaderRefPath : FieldPath := spec_path ++ [Child "downloaderRef"].

Section stages.
Variable p : Pipeline.
Notation spec := (Pipeline_Spec p).

Definition name_checked : list FieldError :=
  if MaxPipelineNameLength <? len (Name (Pipeline_Meta p))
  then [field_invalid [Child "metadata"; Child "name"] (BadString (Name (Pipeline_Meta p)))
          "must be no more than 52 characters"]
  else [].

(** The scanners of a profile that take part in the pipeline. *)
Definition scanners_of (prof : ProfileSpec) : list Container :=
  FilterConditionalContainers (Prof_Containers prof) (Prof_Parameters prof) (Ref_Parameters (PipeS_ProfileRef spec)).

Definition profile_checked (prof : ProfileSpec) (errs : list FieldError) : list FieldError :=
  let errs := errs ++ ValidateParameterReference profileRefPath (PipeS_ProfileRef spec) (Prof_Parameters prof) in
  let errs := errs ++ ValidateNoParentParameters profileRefPath (PipeS_ProfileRef spec) in
  match scanners_of prof with
  | [] => errs ++ [field_invalid profileRefPath (BadReference (PipeS_ProfileRef spec))
      "No scanners were included, ensure that at least one scanner's `includeIf` is true"]
  | _ => errs
  end.

Definition downloader_checked (prof : ProfileSpec) (down : DownloaderSpec) (errs : list FieldError) : list FieldError :=
  let errs := errs ++ ValidateParameterReference downloaderRefPath (PipeS_DownloaderRef spec) (Down_Parameters down) in
  let errs := errs ++ ValidateNoParentParameters downloaderRefPath (PipeS_DownloaderRef spec) in
  fold_left (fun errs vol =>
    if decide (Vol_Name vol ∈ name_set (Vol_Name <$> Prof_Volumes prof)) then
      errs ++ [field_invalid downloaderRefPath (BadReference (PipeS_DownloaderRef spec))
        ("downloader volume " +:+ Vol_Name vol +:+ " conflicts with profile volume with the same name")]
    else errs) (Down_Volumes down) errs.

Definition account_checked (errs : list FieldError) : prog (option GoError) :=
  bind (op (Get KServiceAccount (mkObjectKey (Namespace (Pipeline_Meta p)) (PipeS_ServiceAccountName spec)))) (fun sa =>
    report p
      match sa with
      | Ok _ => Ok errs
      | Err e =>
          if negb (is_not_found e) then Err (StatusInternalError e)
          else Ok (errs ++ [field_not_found (spec_path ++ [Child "serviceAccountName"])
                     (BadString (PipeS_ServiceAccountName spec))])
      end).

Definition downloader_stage (prof : ProfileSpec) (errs : list FieldError) : prog (option GoError) :=
  bind (DownloaderInvocationFromReference (Namespace (Pipeline_Meta p)) (PipeS_DownloaderRef spec)) (fun '(downloader, err) =>
    match resolution err errs (field_invalid downloaderRefPath (BadReference (PipeS_DownloaderRef spec)))
      (field_invalid downloaderRefPath (BadReference (PipeS_DownloaderRef spec)) "referenced downloader could not be found") with
    | Err e => Ret (Some e)
    | Ok errs => account_checked (downloader_checked prof (Inv_Spec downloader) errs)
    end).

Definition profile_stage : prog (option GoError) :=
  bind (ProfileInvocationFromReference (Namespace (Pipeline_Meta p)) (PipeS_ProfileRef spec)) (fun '(profile, err) =>
    match resolution err name_checked (field_invalid profileRefPath (BadReference (PipeS_ProfileRef spec)))
      (field_not_found profileRefPath (BadReference (PipeS_ProfileRef spec))) with
    | Err e => Ret (Some e)
    | Ok errs => downloader_stage (Inv_Spec profile) (profile_checked (Inv_Spec profile) errs)
    end).

(** What an accepted pipeline has: a name that leaves room for the prefix of its
    pod; references that set every required parameter, none of them from a
    parent; a scanner that takes part; no volume of the downloader under the
    name of one of the profile. *)
Definition ref_ok (ref : ParameterizedLocalObjectReference) (defs : list ParameterDefinition) : Prop :=
  (forall d, d ∈ defs -> missing ref d = false) /\
  (forall setting, setting ∈ Ref_Parameters ref -> Set_ValueFrom setting = None).

Record pipeline_ok (prof : ProfileSpec) (down : DownloaderSpec) : Prop := {
  ok_name : len (pipelineResourcePrefix +:+ Name (Pipeline_Meta p)) <= DNS1035LabelMaxLength;
  ok_profile : ref_ok (PipeS_ProfileRef spec) (Prof_Parameters prof);
  ok_downloader : ref_ok (PipeS_DownloaderRef spec) (Down_Parameters down);
  ok_scanners : scanners_of prof <> [];
  ok_volumes : forall n, n ∈ (Vol_Name <$> Down_Volumes down) -> n ∉ (Vol_Name <$> Prof_Volumes prof)
}.

Lemma ValidatePipeline_stages : ValidatePipeline p = profile_stage.
Proof. reflexivity. Qed.
End stages.

(** ** Its outcome *)

Lemma resolution_nil err errs invalid missing errs' :
  resolution err errs invalid missing = Ok errs' -> errs' = [] <-> err = None /\ errs = [].
Proof.
  unfold resolution. destruct err as [e|]; [|intros [= <-]; naive_solver].
  destruct (as_invalid_reference e); [intros [= <-]; by split; [intros [_ ?]%app_eq_nil|intros []]|].
  destruct (is_not_found e); [|done]. intros [= <-]. by split; [intros [_ ?]%app_eq_nil|intros []].
Qed.

Lemma ValidateNoParentParameters_nil path ref :
  ValidateNoParentParameters path ref = [] <->
  forall setting, setting ∈ Ref_Parameters ref -> Set_ValueFrom setting = None.
Proof.
  unfold ValidateNoParentParameters.
  rewrite (fold_left_ext _ (fun acc p => if match Set_ValueFrom p.2 with Some _ => true | None => false end
    then acc ++ [field_invalid (path ++ [Child "parameters"; Index p.1]) (BadSetting p.2)
      "parameter setting 'ValueFrom' is not allowed for this resource"] else acc)).
  2: { intros acc [i s] _. simpl. by destruct (Set_ValueFrom s). }
  rewrite fold_left_app_if. simpl. rewrite fmap_nil_iff, filter_nil_iff. split.
  - intros Hall s [i Hi]%list_elem_of_lookup.
    specialize (Hall (i, s) (proj2 (elem_of_imap_pair _ _ _) Hi)). simpl in Hall. by destruct (Set_ValueFrom s).
  - intros Hall [i s] Hi%elem_of_imap_pair. simpl. rewrite Hall; [done|]. by eapply list_elem_of_lookup_2.
Qed.

Section outcome.
Variable p : Pipeline.

Lemma app_nil_iff {A} (l k : list A) : l ++ k = [] <-> l = [] /\ k = [].
Proof. split; [apply app_eq_nil|by intros [-> ->]]. Qed.

Lemma ref_checked_nil path ref defs errs :
  (errs ++ ValidateParameterReference path ref defs) ++ ValidateNoParentParameters path ref = [] <->
  errs = [] /\ ref_ok ref defs.
Proof.
  rewrite !app_nil_iff, ValidateParameterReference_nil, ValidateNoParentParameters_nil. unfold ref_ok. tauto.
Qed.

Lemma profile_checked_nil prof errs :
  profile_checked p prof errs = [] <->
  errs = [] /\ ref_ok (PipeS_ProfileRef (Pipeline_Spec p)) (Prof_Parameters prof) /\ scanners_of p prof <> [].
Proof.
  unfold profile_checked. cbv zeta.
  pose proof (ref_checked_nil profileRefPath (PipeS_ProfileRef (Pipeline_Spec p)) (Prof_Parameters prof) errs) as Href.
  destruct (scanners_of p prof); [rewrite app_nil_iff; naive_solver|]. rewrite Href. naive_solver.
Qed.

Lemma downloader_checked_nil prof down errs :
  downloader_checked p prof down errs = [] <->
  errs = [] /\ ref_ok (PipeS_DownloaderRef (Pipeline_Spec p)) (Down_Parameters down) /\
  forall n, n ∈ (Vol_Name <$> Down_Volumes down) -> n ∉ (Vol_Name <$> Prof_Volumes prof).
Proof.
  unfold downloader_checked. cbv zeta.
  rewrite (fold_left_ext _ (fun acc vol => if bool_decide (Vol_Name vol ∈ (Vol_Name <$> Prof_Volumes prof)) then
    acc ++ [field_invalid downloaderRefPath (BadReference (PipeS_DownloaderRef (Pipeline_Spec p)))
      ("downloader volume " +:+ Vol_Name vol +:+ " conflicts with profile volume with the same name")] else acc)).
  2: { intros acc vol _. case_decide as Hv; rewrite elem_of_name_set in Hv; [by rewrite bool_decide_true|by rewrite bool_decide_false]. }
  rewrite fold_left_app_if, app_nil_iff, ref_checked_nil, fmap_nil_iff, filter_nil_iff.
  cut ((forall vol, vol ∈ Down_Volumes down -> bool_decide (Vol_Name vol ∈ (Vol_Name <$> Prof_Volumes prof)) = false) <->
    forall n, n ∈ (Vol_Name <$> Down_Volumes down) -> n ∉ (Vol_Name <$> Prof_Volumes prof)); [tauto|]. split.
  - intros Hall n (v & -> & Hv)%list_elem_of_fmap. specialize (Hall v Hv). by apply bool_decide_eq_false in Hall.
  - intros Hall v Hv. apply bool_decide_eq_false, Hall, list_elem_of_fmap. by exists v.
Qed.

Lemma name_checked_nil : name_checked p = [] <->
  len (pipelineResourcePrefix +:+ Name (Pipeline_Meta p)) <= DNS1035LabelMaxLength.
Proof.
  unfold name_checked. rewrite len_app. change (len pipelineResourcePrefix) with 9.
  change MaxPipelineNameLength with 54. unfold DNS1035LabelMaxLength.
  destruct (Z.ltb_spec 54 (len (Name (Pipeline_Meta p)))); split; try done; lia.
Qed.

(** How a validation can end. *)
Definition outcome (out : option GoError) : Prop :=
  match out with
  | None => True
  | Some (StatusInvalid kind name errs) => kind = "Pipeline" /\ name = Name (Pipeline_Meta p) /\ errs <> []
  | Some (StatusInternalError e) => is_not_found e = false
  | Some _ => False
  end.

Lemma account_checked_outcome errs : always (account_checked p errs) (fun tr out =>
  outcome out /\ exists sas, found tr = ([], [], sas) /\ (out = None <-> errs = [] /\ exists sa, sas = [sa])).
Proof.
  intros [sa|e]; cbn.
  - destruct errs as [|x errs]; cbn; (split; [done|]); exists [sa]; (split; [done|]); naive_solver.
  - destruct (is_not_found e) eqn:E; cbn.
    + destruct (errs ++ _) as [|x l] eqn:El; [by apply app_eq_nil in El as [_ ?]|]. cbn. split; [done|].
      exists []. split; [done|]. naive_solver.
    + split; [done|]. exists []. split; [done|]. naive_solver.
Qed.

Lemma downloader_stage_outcome prof errs : always (downloader_stage p prof errs) (fun tr out =>
  outcome out /\ exists ds sas, found tr = ([], ds, sas) /\
    (out = None <-> errs = [] /\ exists down sa, ds = [down] /\ sas = [sa] /\
      ref_ok (PipeS_DownloaderRef (Pipeline_Spec p)) (Down_Parameters down) /\
      forall n, n ∈ (Vol_Name <$> Down_Volumes down) -> n ∉ (Vol_Name <$> Prof_Volumes prof))).
Proof.
  apply always_bind. eapply always_impl; [apply DownloaderInvocation_found|].
  intros tr [downloader err] Hfound. cbn [fst snd] in Hfound.
  destruct (resolution err errs _ _) as [errs'|e] eqn:E.
  - eapply always_impl; [apply account_checked_outcome|]. intros tr' out (Hout & sas & Hf & Hnone).
    split; [done|]. rewrite (found_app _ tr' _ _ _ Hfound), Hf. cbn [fst snd app]. do 2 eexists. split; [done|].
    rewrite Hnone, downloader_checked_nil, (resolution_nil _ _ _ _ _ E).
    destruct err as [e|]; simpl; naive_solver.
  - assert (exists e', err = Some e' /\ e = StatusInternalError e' /\ is_not_found e' = false) as (e' & -> & -> & Hnf).
    { unfold resolution in E. destruct err as [e'|]; [|done]. destruct (as_invalid_reference e'); [done|].
      destruct (is_not_found e') eqn:En; [done|]. injection E as <-. eauto. }
    split; [done|]. rewrite app_nil_r, Hfound. do 2 eexists. split; [done|]. naive_solver.
Qed.

Lemma ValidatePipeline_outcome : always (ValidatePipeline p) (fun tr out =>
  outcome out /\
  (out = None <-> exists prof down sa, found tr = ([prof], [down], [sa]) /\ pipeline_ok p prof down)).
Proof.
  rewrite ValidatePipeline_stages. apply always_bind. eapply always_impl; [apply ProfileInvocation_found|].
  intros tr [profile err] Hfound. cbn [fst snd] in Hfound.
  destruct (resolution err _ _ _) as [errs'|e] eqn:E.
  - eapply always_impl; [apply downloader_stage_outcome|]. intros tr' out (Hout & ds & sas & Hf & Hnone).
    split; [done|]. rewrite (found_app _ tr' _ _ _ Hfound), Hf. cbn [fst snd app].
    rewrite Hnone, profile_checked_nil, (resolution_nil _ _ _ _ _ E), name_checked_nil. split.
    + intros (((-> & Hname) & Href & Hscan) & down & sa & -> & -> & Hd & Hv).
      exists (Inv_Spec profile), down, sa. by split.
    + intros (prof & down & sa & [= Hp -> ->] & [Hname Href Hd Hscan Hv]). destruct err; [done|].
      injection Hp as <-. split; [done|]. by exists down, sa.
  - assert (exists e', err = Some e' /\ e = StatusInternalError e' /\ is_not_found e' = false) as (e' & -> & -> & Hnf).
    { unfold resolution in E. destruct err as [e'|]; [|done]. destruct (as_invalid_reference e'); [done|].
      destruct (is_not_found e') eqn:En; [done|]. injection E as <-. eauto. }
    split; [done|]. rewrite app_nil_r, Hfound. naive_solver.
Qed.
(** C40: on every path the validation of a pipeline accepts it, rejects it with a
    list of errors that is not empty, or fails because a call failed otherwise
    than by finding nothing.  It accepts the pipeline exactly when the profile,
    the downloader and the service account were found, the name leaves room for
    the prefix of the pod, both references set every required parameter and take
    none from a parent, a scanner of the profile takes part, and the volumes of
    the downloader do not clash with those of the profile. *)
Theorem ValidatePipeline_accepts : always (ValidatePipeline p) (fun tr out =>
  outcome out /\
  (out = None <-> exists prof down sa, found tr = ([prof], [down], [sa]) /\ pipeline_ok p prof down)).
Proof. apply ValidatePipeline_outcome. Qed.
End outcome.

(** ** Up to the pod *)

Section pod.
Context `{ControllerUtil} `{MapRange string}.

(** An uploader that its webhook has accepted, when it was created or, with the
    same check, updated. *)
Definition uploader_accepted (spec : UploaderSpec) : Prop :=
  (exists u, Uploader_Spec u = spec /\ path (Uploader_ValidateCreate u) [] None) \/
  (exists u, ClusterUploader_Spec u = spec /\ path (ClusterUploader_ValidateCreate u) [] None).

Lemma uploader_accepted_name spec : uploader_accepted spec -> len (C_Name (Up_Container spec)) <= 54.
Proof.
  assert (forall kind name c, check_container kind name c = None -> len (C_Name c) <= 54) as Hcheck.
  { intros kind name c. unfold check_container, ValidateContainerDefinition. change MaxPipelineNameLength with 54.
    destruct (Z.ltb_spec 54 (len (C_Name c))); [|done]. by destruct (C_Command c). }
  intros [(u & <- & [_ Hu])|(u & <- & [_ Hu])]; symmetry in Hu; by eapply Hcheck.
Qed.

(** What no webhook checks of accepted resources. *)
Record left_open (p : Pipeline) (profile : Invocation ProfileSpec) (downloader : Invocation DownloaderSpec)
    (uploaders : list (Invocation UploaderSpec)) : Prop := {
  lo_scanners : NoDup (C_Name <$> included p profile);
  lo_uploaders : NoDup (C_Name <$> upload_containers uploaders);
  lo_downloader : len (C_Name (Down_Container (Inv_Spec downloader))) <= 52;
  lo_own : forall n, n ∈ own_volumes -> n ∉ (Vol_Name <$> Down_Volumes (Inv_Spec downloader))
    ++ (Vol_Name <$> Prof_Volumes (Inv_Spec profile)) ++ uploader_volumes (Inv_Spec <$> uploaders);
  lo_downloader_volumes : NoDup (Vol_Name <$> Down_Volumes (Inv_Spec downloader));
  lo_uploader_volumes : forall n, n ∈ (Vol_Name <$> Down_Volumes (Inv_Spec downloader)) ->
    n ∉ uploader_volumes (Inv_Spec <$> uploaders);
  lo_mounts : Forall (mounts_in (volume_names profile downloader uploaders))
    (Down_Container (Inv_Spec downloader) :: included p profile ++ upload_containers uploaders)
}.

Lemma own_volumes_distinct : NoDup own_volumes.
Proof. apply (bool_decide_unpack _). vm_compute. exact I. Qed.

Lemma not_checked_left_open p profile downloader uploaders :
  pipeline_ok p (Inv_Spec profile) (Inv_Spec downloader) ->
  Forall (fun u => uploader_accepted (Inv_Spec u)) uploaders ->
  not_checked p profile downloader uploaders <-> left_open p profile downloader uploaders.
Proof.
  intros Hok Hacc. pose proof (ok_volumes _ _ _ Hok) as Hv.
  assert (Forall (fun n => len n <= 54) (C_Name <$> upload_containers uploaders)) as Hlen.
  { unfold upload_containers. rewrite !Forall_fmap. eapply Forall_impl; [exact Hacc|].
    intros u Hu. by apply uploader_accepted_name. }
  split.
  - intros [Hs [Hup _] Hd Hvol Hm]. cbv zeta in Hvol. destruct Hvol as [(_ & Hown & Hnd)%NoDup_app Hcross].
    split; [done..| |done| |done].
    + intros n Hn [Hin|Hin]%elem_of_app; [by apply (Hown n)|]. revert Hin. apply Hcross, elem_of_app. by left.
    + intros n Hn Hin. apply (Hcross n); [apply elem_of_app; by right|]. apply elem_of_app. by right.
  - intros [Hs Hup Hd Hown Hnd Hcross Hm]. split; [done|done|done| |done]. cbv zeta. split.
    + apply NoDup_app. split; [apply own_volumes_distinct|]. split; [|done].
      intros n Hn Hin. apply (Hown n Hn), elem_of_app. by left.
    + intros n [Hn|Hn]%elem_of_app Hin.
      * apply (Hown n Hn), elem_of_app. by right.
      * apply elem_of_app in Hin as [Hin|Hin]; [by apply (Hv n)|by apply (Hcross n)].
Qed.

(** C37: when the webhooks have accepted a profile, a pipeline that found it, and
    the uploaders of the profile, and nothing was changed since, the pod made
    for the pipeline has a container that runs one of the user's scanners behind
    the sidecar, and it is well-formed exactly under the conditions of
    [left_open], none of which a webhook checks: that scanners have distinct
    names, and uploaders; that the name of the downloader leaves room for its
    prefix; that the volumes of the downloader are distinct and not those of an
    uploader; that no volume has a name of the pod's own; and that what is
    mounted exists. *)
Theorem accepted_pipeline_fits (prof : Profile) p :
  always (ValidateProfile prof) (fun tr out => out = None ->
  always (ValidatePipeline p) (fun tr' out' => out' = None ->
    forall r pod profile downloader uploaders pod',
      (found tr').1 = ([Inv_Spec profile], [Inv_Spec downloader]) -> Inv_Spec profile = Profile_Spec prof ->
      Inv_Spec <$> uploaders = uploader_specs tr -> Forall (fun u => uploader_accepted (Inv_Spec u)) uploaders ->
      populateScanPod r pod p profile downloader uploaders = Ok pod' ->
      time_is_zero (CreationTimestamp (Pod_Meta pod)) = true ->
      (exists c c', c ∈ included p profile /\ c' ∈ PS_Containers (Pod_Spec pod') /\ is_scanner_for p c c') /\
      (well_formed (Pod_Spec pod') <-> left_open p profile downloader uploaders))).
Proof.
  eapply always_impl; [apply accepted_profile_fits|]. intros tr out Hacc Hout.
  eapply always_impl; [apply ValidatePipeline_outcome|]. intros tr' out' [_ Hpipe] Hout'.
  intros r pod profile downloader uploaders pod' Hfound Hp Hu Hups Hpod Hnew.
  apply Hpipe in Hout' as (spec & down & sa & Hf & Hok). rewrite Hf in Hfound. injection Hfound as -> ->.
  split.
  - destruct (included p profile) as [|c cs] eqn:Ei; [by apply ok_scanners in Hok|].
    destruct (scannerContainers_lookup p profile 0 c) as (c' & Hc' & Hs); [unfold included in Ei; by rewrite Ei|].
    exists c, c'. split; [apply list_elem_of_here|]. split; [|exact (proj1 Hs)].
    rewrite (populateScanPod_fresh _ _ _ _ _ _ _ Hpod Hnew). unfold ApplyStandardOptions. rewrite ApplyOptionsToAll_app.
    apply elem_of_app. left. by eapply list_elem_of_lookup_2.
  - rewrite (populated_well_formed _ _ _ _ _ _ _ Hpod Hnew), (Hacc Hout p profile downloader uploaders Hp Hu).
    by apply not_checked_left_open.
Qed.
End pod.

(** ** Concrete pipelines *)

Module PipelineWebhook_example.
Import ScanPod.Example PodShape.PodShape_example.
#[local] Existing Instance ScanPod.Example.controller_util.
#[local] Existing Instance ScanPod.Example.range.

(** The answers to the calls of the two webhooks. *)
Definition prof : Profile := mkProfile (meta_named "default" "ns") (Inv_Spec profile).
Definition down (volumes : list string) : Downloader := mkDownloader (meta_named "git" "ns") (git "git" volumes).
Definition s3 : Uploader := mkUploader (meta_named "s3" "ns") (Inv_Spec uploader).
Definition profile_calls : list Event :=
  [event (Get KUploader (mkObjectKey "ns" "s3")) (Ok s3)].
Definition pipeline_calls (volumes : list string) : list Event :=
  [event (Get KProfile (mkObjectKey "ns" "default")) (Ok prof);
   event (Get KDownloader (mkObjectKey "ns" "git")) (Ok (down volumes));
   event (Get KServiceAccount (mkObjectKey "ns" "runner")) (Ok (mkServiceAccount (meta_named "runner" "ns") ""))].

Lemma profile_accepted : path (ValidateProfile prof) profile_calls None.
Proof. by repeat eexists. Qed.
Lemma pipeline_accepted volumes : volumes = [] \/ volumes = ["cache"] ->
  path (ValidatePipeline pipeline) (pipeline_calls volumes) None.
Proof. intros [-> | ->]; by repeat eexists. Qed.

Definition downloader_with (volumes : list string) : Invocation DownloaderSpec :=
  mkInvocation (git "git" volumes) [] (meta_named "git" "ns").

(** The witnesses: the pipeline of the example is accepted, and its pod is
    well-formed. *)
Lemma ValidatePipeline_accepts_witness : pipeline_ok pipeline (Inv_Spec profile) (git "git" []).
Proof.
  pose proof (ValidatePipeline_accepts pipeline) as Hall. rewrite always_path in Hall.
  destruct (Hall _ _ (pipeline_accepted [] (or_introl eq_refl))) as [_ [Hacc _]].
  destruct (Hacc eq_refl) as (p & d & sa & Hf & Hok). vm_compute in Hf. injection Hf as <- <- <-. exact Hok.
Defined.

Lemma example_ok : pipeline_ok pipeline (Inv_Spec profile) (git "git" []).
Proof.
  split; [by vm_compute|split; apply Forall_forall; by_computation|split; apply Forall_forall; by_computation|done|].
  apply Forall_forall. by_computation.
Qed.

Definition example_pod : Pod :=
  match populateScanPod reconciler new_pod pipeline profile (downloader_with []) [uploader] with
  | Ok pod => pod
  | Err _ => new_pod
  end.

Lemma accepted_pipeline_fits_witness :
  (exists c', c' ∈ PS_Containers (Pod_Spec example_pod) /\ has_prefix (C_Name c') scanContainerPrefix = true) /\
  well_formed (Pod_Spec example_pod).
Proof.
  pose proof (accepted_pipeline_fits prof pipeline) as Hall. rewrite always_path in Hall.
  specialize (Hall _ _ profile_accepted eq_refl). rewrite always_path in Hall.
  destruct (Hall _ _ (pipeline_accepted [] (or_introl eq_refl)) eq_refl reconciler new_pod profile (downloader_with []) [uploader]
    example_pod) as [(c & c' & _ & Hin & Hs) Hfit].
  - vm_compute. reflexivity.
  - reflexivity.
  - reflexivity.
  - constructor; [|constructor]. left. exists s3. split; [reflexivity|]. by vm_compute.
  - vm_compute. reflexivity.
  - reflexivity.
  - split; [|apply Hfit; split; try by_computation].
    + exists c'. split; [exact Hin|]. rewrite (proj1 Hs). by destruct (C_Name c).
    + apply Forall_forall. by_computation.
    + intros n Hn _. by apply elem_of_nil in Hn.
Defined.

(** A downloader and an uploader with a volume of one name: every webhook
    accepts, and the pod is rejected. *)
Lemma accepted_shared_volume :
  path (ValidateProfile prof) profile_calls None /\
  path (ValidatePipeline pipeline) (pipeline_calls ["cache"]) None /\
  ~ NoDup (volume_names profile (downloader_with ["cache"]) [uploader]).
Proof.
  split; [apply profile_accepted|]. split; [apply pipeline_accepted; by right|].
  apply (bool_decide_unpack _). vm_compute. exact I.
Qed.
End PipelineWebhook_example.
