(* ===== verification/AdmissionSystem.v ===== *)
(** * The admission webhooks and the objects of the cluster

    The webhooks at work: a store of objects, the requests of users, of the
    controllers and of the scheduler, and the mutating and the validating webhook
    that each of them passes, for the resources and the verbs that the markers
    of internal/webhook/v1beta1 register them for.  What they keep true of the
    store: references that resolve go on resolving. *)

From Stdlib Require Import ZArith Lia String Ascii.
From S2P Require Import Prelude Effects GoStd K8s Api Client Resources Validators CronSearchController CronSchedule Webhooks WebhookSafety PipelineWebhook.

Local Open Scope string_scope.
Local Open Scope Z_scope.
Local Open Scope list_scope.
Local Open Scope prog_scope.

(** ** The store *)

#[export] Instance ObjectKey_countable : Countable ObjectKey.
Proof.
  refine (inj_countable' (fun key => (Key_Namespace key, Key_Name key))
    (fun p => mkObjectKey p.1 p.2) _). by intros [].
Defined.

Definition Store : Type := forall k : Kind, gmap ObjectKey (obj k).

Definition empty_store : Store := fun k => ∅.

(** The store with the objects of one kind changed. *)
Definition change (k : Kind) (f : gmap ObjectKey (obj k) -> gmap ObjectKey (obj k)) (st : Store) : Store :=
  fun k' =>
    match decide (k = k') with
    | left H => eq_rect k (fun k => gmap ObjectKey (obj k)) (f (st k)) k' H
    | right _ => st k'
    end.
Definition put (k : Kind) (o : obj k) (st : Store) : Store := change k (<[key_of k o := o]>) st.
Definition drop (k : Kind) (key : ObjectKey) (st : Store) : Store := change k (delete key) st.

(** The answers to the reads of a webhook from the objects that the cache of the
    manager has; webhooks do not write. *)
Definition listed (st : Store) (k : Kind) (ns : string) : list (obj k) :=
  List.filter (fun o => String.eqb ns "" || String.eqb (Namespace (meta_of k o)) ns) (map_to_list (st k)).*2.

Definition answer (st : Store) {X} (e : Op X) : X :=
  match e in Op X return X with
  | Get k key => match st k !! key with Some o => Ok o | None => Err APINotFound end
  | ListObjects k opts => Ok (listed st k (LO_Namespace opts))
  | Create _ _ | Patch _ _ _ | StatusPatch _ _ _ | StatusUpdate _ _ => Err (APIError "Forbidden")
  | CreateOrUpdate _ _ _ => Err (APIError "Forbidden")
  | Delete _ _ => Err (APIError "Forbidden")
  | Now => 0
  | UpdateMetric _ _ _ => tt
  end.
Definition serve_reads : handler Store := fun X e st => (answer st e, st).

(** ** Admission *)

(** The resource of a kind, as the markers name it. *)
Definition resource_of (k : Kind) : string :=
  match k with
  | KPipeline => "pipelines" | KProfile => "profiles" | KDownloader => "downloaders"
  | KClusterDownloader => "clusterdownloaders" | KUploader => "uploaders"
  | KClusterUploader => "clusteruploaders" | KCrawler => "crawlers" | KClusterCrawler => "clustercrawlers"
  | KSearch => "searches" | KCronSearch => "cronsearches"
  | KPod => "pods" | KServiceAccount => "serviceaccounts" | KRoleBinding => "rolebindings"
  end.

(** The resources of the markers of mutating webhooks. *)
Definition mutating_resources : list string := ["pipelines"; "profile"; "searches"; "cronsearches"].

(** The defaulter of a kind. *)
Definition default_of (k : Kind) : obj k -> obj k :=
  match k with
  | KPipeline => Pipeline_Default
  | KProfile => Profile_Default
  | KSearch => Search_Default
  | KCronSearch => CronSearch_Default cron_search_defaulter
  | _ => fun o => o
  end.

Section admission.
Context `{CronLibrary} (error_string : GoError -> string).
(** The resources with a mutating webhook. *)
Variable mutating : list string.

Definition mutate (k : Kind) (o : obj k) : obj k :=
  if bool_decide (resource_of k ∈ mutating) then default_of k o else o.

(** The validator of each kind; objects of other groups have none. *)
Definition validate_create (k : Kind) : obj k -> prog (option GoError) :=
  match k with
  | KPipeline => Pipeline_ValidateCreate
  | KProfile => Profile_ValidateCreate
  | KDownloader => Downloader_ValidateCreate
  | KClusterDownloader => ClusterDownloader_ValidateCreate
  | KUploader => Uploader_ValidateCreate
  | KClusterUploader => ClusterUploader_ValidateCreate
  | KCrawler => Crawler_ValidateCreate
  | KClusterCrawler => ClusterCrawler_ValidateCreate
  | KSearch => Search_ValidateCreate
  | KCronSearch => fun cronSearch => Ret (CronSearch_ValidateCreate error_string cronSearch)
  | KPod | KServiceAccount | KRoleBinding => fun _ => Ret None
  end.

Definition validate_update (k : Kind) : obj k -> obj k -> prog (option GoError) :=
  match k with
  | KPipeline => Pipeline_ValidateUpdate
  | KProfile => Profile_ValidateUpdate
  | KDownloader => Downloader_ValidateUpdate
  | KClusterDownloader => ClusterDownloader_ValidateUpdate
  | KUploader => Uploader_ValidateUpdate
  | KClusterUploader => ClusterUploader_ValidateUpdate
  | KCrawler => Crawler_ValidateUpdate
  | KClusterCrawler => ClusterCrawler_ValidateUpdate
  | KSearch => Search_ValidateUpdate
  | KCronSearch => fun old new => Ret (CronSearch_ValidateUpdate error_string old new)
  | KPod | KServiceAccount | KRoleBinding => fun _ _ => Ret None
  end.

(** Pipelines, searches and cron searches are not registered for the verb. *)
Definition validate_delete (k : Kind) : obj k -> prog (option GoError) :=
  match k with
  | KProfile => Profile_ValidateDelete
  | KDownloader => Downloader_ValidateDelete
  | KClusterDownloader => ClusterDownloader_ValidateDelete
  | KUploader => Uploader_ValidateDelete
  | KClusterUploader => ClusterUploader_ValidateDelete
  | KCrawler => Crawler_ValidateDelete
  | KClusterCrawler => ClusterCrawler_ValidateDelete
  | KPipeline | KSearch | KCronSearch | KPod | KServiceAccount | KRoleBinding => fun _ => Ret None
  end.

Definition admits (st : Store) (p : prog (option GoError)) : Prop := (exec serve_reads p st).1 = None.

(** The namespace of an object is empty when its kind is cluster-scoped. *)
Definition cluster_scoped (k : Kind) : bool :=
  match k with KClusterDownloader | KClusterUploader | KClusterCrawler => true | _ => false end.
Definition well_scoped (k : Kind) (o : obj k) : Prop :=
  cluster_scoped k = true -> Namespace (meta_of k o) = "".

(** ** References *)

(** What a reference is for; the default of its kind. *)
Inductive Role := RoleProfile | RoleDownloader | RoleUploader | RoleCrawler.

(** The object a reference in the namespace [ns] stands for. *)
Definition target (role : Role) (ns : string) (ref : ParameterizedLocalObjectReference) :
    option (Kind * ObjectKey) :=
  let either k name ck cname :=
    if String.eqb (Ref_kind ref) name || String.eqb (Ref_kind ref) "" then Some (k, mkObjectKey ns (Ref_name ref))
    else if String.eqb (Ref_kind ref) cname then Some (ck, mkObjectKey "" (Ref_name ref))
    else None in
  match role with
  | RoleProfile =>
      if negb (String.eqb (Ref_kind ref) "Profile") && negb (String.eqb (Ref_kind ref) "") then None
      else Some (KProfile, mkObjectKey ns (Ref_name ref))
  | RoleDownloader => either KDownloader "Downloader" KClusterDownloader "ClusterDownloader"
  | RoleUploader => either KUploader "Uploader" KClusterUploader "ClusterUploader"
  | RoleCrawler => either KCrawler "Crawler" KClusterCrawler "ClusterCrawler"
  end.

(** The references of an object that its validator resolves. *)
Definition references (k : Kind) : obj k -> list (Role * ParameterizedLocalObjectReference) :=
  match k with
  | KPipeline => fun p => [(RoleProfile, PipeS_ProfileRef (Pipeline_Spec p));
                           (RoleDownloader, PipeS_DownloaderRef (Pipeline_Spec p))]
  | KProfile => fun p => pair RoleUploader <$> Prof_UploaderRefs (Profile_Spec p)
  | KSearch => fun s => [(RoleCrawler, crawler_ref_of_search s)]
  | _ => fun _ => []
  end.

Definition exists_in (st : Store) (t : Kind * ObjectKey) : Prop := is_Some (st t.1 !! t.2).

Definition resolves (st : Store) (role : Role) (ns : string) (ref : ParameterizedLocalObjectReference) : Prop :=
  exists t, target role ns ref = Some t /\ exists_in st t.

(** ** Requests *)

(** The webhooks read through the client of the manager, from its cache.  It may
    have earlier versions of the objects, but has seen which of them there are
    and what they refer to. *)
Record up_to_date (seen st : Store) : Prop := {
  seen_exists k key : is_Some (seen k !! key) -> is_Some (st k !! key);
  seen_references k key o : st k !! key = Some o -> exists o', seen k !! key = Some o' /\
    key_of k o' = key_of k o /\ references k o' = references k o
}.

Lemma up_to_date_refl st : up_to_date st st.
Proof. constructor; [done|]. intros k key o Ho. by exists o. Qed.

(** A request that is admitted against what the cache has; a write of a
    controller to the status or the metadata of an object, which no webhook
    sees. *)
Inductive admission_step : Store -> Store -> Prop :=
| step_create st seen k o :
    let o' := mutate k o in
    up_to_date seen st ->
    st k !! key_of k o' = None -> well_scoped k o' -> admits seen (validate_create k o') ->
    admission_step st (put k o' st)
| step_update st seen k old o :
    let o' := mutate k o in
    up_to_date seen st ->
    st k !! key_of k o' = Some old -> admits seen (validate_update k old o') ->
    admission_step st (put k o' st)
| step_delete st seen k key old :
    up_to_date seen st ->
    st k !! key = Some old -> admits seen (validate_delete k old) ->
    admission_step st (drop k key st)
| step_status st k old o :
    st k !! key_of k o = Some old -> references k o = references k old ->
    admission_step st (put k o st).
End admission.

(** ** Requests, executed *)

Inductive Request :=
| CreateRequest (k : Kind) (o : obj k)
| UpdateRequest (k : Kind) (o : obj k)
| DeleteRequest (k : Kind) (key : ObjectKey).

Section requests.
Context `{CronLibrary} (error_string : GoError -> string) (mutating : list string).

Definition accepts (st : Store) (p : prog (option GoError)) : bool :=
  match (exec serve_reads p st).1 with None => true | Some _ => false end.

(** The store after the request, when it is admitted. *)
Definition perform (r : Request) (st : Store) : option Store :=
  match r with
  | CreateRequest k o =>
      let o := mutate mutating k o in
      match st k !! key_of k o with
      | Some _ => None
      | None =>
          if implb (cluster_scoped k) (String.eqb (Namespace (meta_of k o)) "")
             && accepts st (validate_create error_string k o)
          then Some (put k o st) else None
      end
  | UpdateRequest k o =>
      let o := mutate mutating k o in
      match st k !! key_of k o with
      | Some old => if accepts st (validate_update error_string k old o) then Some (put k o st) else None
      | None => None
      end
  | DeleteRequest k key =>
      match st k !! key with
      | Some old => if accepts st (validate_delete k old) then Some (drop k key st) else None
      | None => None
      end
  end.

Fixpoint perform_all (rs : list Request) (st : Store) : option Store :=
  match rs with
  | [] => Some st
  | r :: rs => match perform r st with Some st => perform_all rs st | None => None end
  end.

Lemma accepts_admits st p : accepts st p = true -> admits st p.
Proof. unfold accepts, admits. by destruct (exec serve_reads p st).1. Qed.

Lemma perform_step r st st' : perform r st = Some st' -> admission_step error_string mutating st st'.
Proof.
  destruct r as [k o|k o|k key]; simpl.
  - destruct (st k !! _) eqn:E; [done|]. destruct (implb _ _ && _) eqn:Ht; [|done]. intros [= <-].
    apply andb_true_iff in Ht as [Hscope Hadm].
    apply (step_create _ _ st st k o); [apply up_to_date_refl|done| |by apply accepts_admits].
    intros Hs. rewrite Hs in Hscope. by apply String.eqb_eq.
  - destruct (st k !! _) eqn:E; [|done]. destruct (accepts _ _) eqn:Ht; [|done]. intros [= <-].
    by eapply step_update; [apply up_to_date_refl| |apply accepts_admits].
  - destruct (st k !! _) eqn:E; [|done]. destruct (accepts _ _) eqn:Ht; [|done]. intros [= <-].
    by eapply step_delete; [apply up_to_date_refl| |apply accepts_admits].
Qed.

Lemma perform_all_steps rs st st' :
  perform_all rs st = Some st' -> rtc (admission_step error_string mutating) st st'.
Proof.
  revert st. induction rs as [|r rs IH]; intros st; simpl; [by intros [= <-]|].
  destruct (perform r st) as [st1|] eqn:E; [|done]. intros Hrest.
  eapply rtc_l; [by eapply perform_step|by apply IH].
Qed.
End requests.

(** ** Reads *)

Definition answered (st : Store) (v : Event) : Prop :=
  match v with event e x => x = answer st e end.

Lemma run_answered {A} st (p : prog A) :
  (run serve_reads p st).1.2 = st /\ Forall (answered st) (run serve_reads p st).2.
Proof.
  induction p as [a|X e k IH]; simpl; [by repeat constructor|].
  destruct (IH (answer st e)) as [IH1 IH2].
  destruct (run serve_reads (k (answer st e)) st) as [[a w] tr]. simpl in *. by repeat constructor.
Qed.

Lemma admits_always st p (Q : list Event -> option GoError -> Prop) :
  always p Q -> admits st p -> exists tr, Q tr None /\ Forall (answered st) tr.
Proof.
  intros Hp Hadm. exists (run serve_reads p st).2. split; [|apply run_answered].
  rewrite always_path in Hp. apply Hp. unfold admits in Hadm. rewrite exec_run in Hadm. rewrite <- Hadm.
  apply run_path.
Qed.

Lemma answered_get st tr k key o :
  Forall (answered st) tr -> event (Get k key) (Ok o) ∈ tr -> st k !! key = Some o.
Proof.
  intros Hall Hin. rewrite Forall_forall in Hall. specialize (Hall _ Hin). simpl in Hall.
  destruct (st k !! key); congruence.
Qed.

Lemma answered_list st tr k ns l :
  Forall (answered st) tr -> event (ListObjects k (in_namespace ns)) (Ok l) ∈ tr -> l = listed st k ns.
Proof.
  intros Hall Hin. rewrite Forall_forall in Hall. specialize (Hall _ Hin). simpl in Hall. congruence.
Qed.

Lemma elem_of_listed st k ns key o :
  st k !! key = Some o -> ns = "" \/ Namespace (meta_of k o) = ns -> o ∈ listed st k ns.
Proof.
  intros Ho Hns. unfold listed. rewrite list_elem_of_In, filter_In, <- list_elem_of_In. split.
  - apply list_elem_of_fmap. exists (key, o). split; [done|]. by apply elem_of_map_to_list.
  - apply orb_true_iff. rewrite !String.eqb_eq. done.
Qed.

(** *** Resolved references *)

(** The object a reference stands for was read. *)
Definition fetched (tr : list Event) (role : Role) (ns : string) (ref : ParameterizedLocalObjectReference) : Prop :=
  exists k key o, target role ns ref = Some (k, key) /\ event (Get k key) (Ok o) ∈ tr.

Lemma fetched_app_l tr tr' role ns ref : fetched tr role ns ref -> fetched (tr ++ tr') role ns ref.
Proof. intros (k & key & o & Ht & Hin). exists k, key, o. split; [done|]. apply elem_of_app. by left. Qed.
Lemma fetched_app_r tr tr' role ns ref : fetched tr' role ns ref -> fetched (tr ++ tr') role ns ref.
Proof. intros (k & key & o & Ht & Hin). exists k, key, o. split; [done|]. apply elem_of_app. by right. Qed.

Lemma fetched_resolves st tr role ns ref :
  Forall (answered st) tr -> fetched tr role ns ref -> resolves st role ns ref.
Proof.
  intros Hall (k & key & o & Ht & Hin). exists (k, key). split; [done|].
  exists o. by eapply answered_get.
Qed.

Lemma get_invocation_fetches {S} k key (spec : obj k -> S) zero params role ns ref :
  target role ns ref = Some (k, key) ->
  always (get_invocation k key spec zero params) (fun tr r => r.2 = None -> fetched tr role ns ref).
Proof. intros Ht [o|e]; simpl; [|done]. intros _. exists k, key, o. by split; [|left]. Qed.

(** For a reference to a kind or to its cluster-wide kind. *)
Ltac fetches_either name :=
  destruct (_ || _) eqn:E; [apply get_invocation_fetches; unfold target; by rewrite E|];
  destruct (String.eqb _ name) eqn:E'; [|done];
  apply get_invocation_fetches; unfold target; by rewrite E, E'.

Lemma ProfileInvocation_fetches ns ref :
  always (ProfileInvocationFromReference ns ref) (fun tr r => r.2 = None -> fetched tr RoleProfile ns ref).
Proof.
  unfold ProfileInvocationFromReference. destruct (_ && _) eqn:E; [done|].
  apply get_invocation_fetches. unfold target. by rewrite E.
Qed.
Lemma DownloaderInvocation_fetches ns ref :
  always (DownloaderInvocationFromReference ns ref) (fun tr r => r.2 = None -> fetched tr RoleDownloader ns ref).
Proof. unfold DownloaderInvocationFromReference. fetches_either "ClusterDownloader". Qed.
Lemma UploaderInvocation_fetches ns ref :
  always (UploaderInvocationFromReference ns ref) (fun tr r => r.2 = None -> fetched tr RoleUploader ns ref).
Proof. unfold UploaderInvocationFromReference. fetches_either "ClusterUploader". Qed.
Lemma CrawlerInvocation_fetches ns ref :
  always (CrawlerInvocationFromReference ns ref) (fun tr r => r.2 = None -> fetched tr RoleCrawler ns ref).
Proof. unfold CrawlerInvocationFromReference. fetches_either "ClusterCrawler". Qed.

(** *** What an accepted object has resolved *)

Lemma downloader_stage_fetches p prof errs :
  always (downloader_stage p prof errs) (fun tr out =>
    out = None -> fetched tr RoleDownloader (Namespace (Pipeline_Meta p)) (PipeS_DownloaderRef (Pipeline_Spec p))).
Proof.
  apply always_bind. eapply always_impl; [apply DownloaderInvocation_fetches|].
  intros tr [downloader err] Hf. destruct (resolution err errs _ _) as [errs'|e] eqn:E; [|done].
  eapply always_impl; [apply account_checked_outcome|]. intros tr' out (_ & sas & _ & Hnone) Hout.
  apply fetched_app_l, Hf. apply Hnone in Hout as [[-> _]%downloader_checked_nil _].
  by apply (resolution_nil _ _ _ _ _ E).
Qed.

Lemma ValidatePipeline_fetches p :
  always (ValidatePipeline p) (fun tr out => out = None -> forall role ref,
    (role, ref) ∈ references KPipeline p -> fetched tr role (Namespace (Pipeline_Meta p)) ref).
Proof.
  rewrite ValidatePipeline_stages. apply always_bind. eapply always_impl; [apply ProfileInvocation_fetches|].
  intros tr [profile err] Hf. destruct (resolution err _ _ _) as [errs'|e] eqn:E; [|done].
  eapply always_impl; [apply always_and; [apply downloader_stage_fetches|apply downloader_stage_outcome]|].
  intros tr' out [Hd (_ & ds & sas & _ & Hnone)] Hout role ref.
  intros [[= -> ->]|[[= -> ->]|Hin%elem_of_nil]%elem_of_cons]%elem_of_cons; [| |done].
  - apply fetched_app_l, Hf. apply Hnone in Hout as [[-> _]%profile_checked_nil _].
    by apply (resolution_nil _ _ _ _ _ E).
  - by apply fetched_app_r, Hd.
Qed.

Lemma uploader_refs_fetched ns defs i refs errs names :
  always (validate_uploader_refs ns defs i refs errs names) (fun tr r =>
    forall names' ref, r = Ok ([], names') -> ref ∈ refs -> fetched tr RoleUploader ns ref).
Proof.
  revert i errs names. induction refs as [|ref refs IH]; intros i errs names.
  { intros names' ref _ Hin. by apply elem_of_nil in Hin. }
  assert (forall i errs names, always (validate_uploader_refs ns defs i refs errs names) (fun tr r =>
      forall names', r = Ok ([], names') -> errs = [] /\ forall ref, ref ∈ refs -> fetched tr RoleUploader ns ref))
    as Hrest.
  { intros j errs' names0. eapply always_impl; [apply always_and; [apply IH|apply validate_uploader_refs_accepts]|].
    intros tr r [Hf Ha] names' Hr. split; [by destruct (Ha names' Hr)|]. intros ref' Hin. by eapply Hf. }
  assert (forall errs', errs' <> [] -> forall j names tr0, always (validate_uploader_refs ns defs j refs errs' names)
      (fun tr r => forall names' ref', r = Ok ([], names') -> ref' ∈ ref :: refs -> fetched (tr0 ++ tr) RoleUploader ns ref'))
    as Hbad.
  { intros errs' Hne j names0 tr0. eapply always_impl; [apply Hrest|].
    intros tr r Hr names' ref' E. by destruct (Hr names' E). }
  apply always_bind. eapply always_impl; [apply UploaderInvocation_fetches|].
  intros tr [inv err] Hf. cbv beta in Hf. destruct err as [e|].
  - destruct (as_invalid_reference e); [apply Hbad; by intros [_ ?]%app_eq_nil|].
    destruct (is_not_found e); [apply Hbad; by intros [_ ?]%app_eq_nil|done].
  - destruct (add_volumes _ _ _ _) as [verrs vnames]. eapply always_impl; [apply Hrest|].
    intros tr' r Hr names' ref' E [->|Hin]%elem_of_cons; [by apply fetched_app_l, Hf|].
    apply fetched_app_r. by apply (Hr names' E).
Qed.

Lemma ValidateProfile_fetches profile :
  always (ValidateProfile profile) (fun tr out => out = None -> forall role ref,
    (role, ref) ∈ references KProfile profile -> fetched tr role (Namespace (Profile_Meta profile)) ref).
Proof.
  unfold ValidateProfile. destruct (add_volumes _ _ _ _) as [verrs vnames].
  apply always_bind. eapply always_impl; [apply uploader_refs_fetched|].
  intros tr [[errs names']|e] Hr; [|done]. cbv beta in *.
  rewrite fold_left_ext with (g := fun errs p => errs ++ ValidateContainerDefinition
    (spec_path ++ [Child "containers"; Index p.1]) (CC_Container p.2)) by by intros ? [].
  rewrite fold_left_app_flat_map. destruct (_ ++ flat_map _ _) as [|] eqn:E; [|done]. intros _ role ref.
  apply app_eq_nil in E as [-> _]. simpl. intros (ref' & [= -> ->] & Hin)%list_elem_of_fmap.
  apply fetched_app_l. by apply (Hr names').
Qed.

Lemma validateSearch_fetches search :
  always (validateSearch search) (fun tr out => out = None ->
    fetched tr RoleCrawler (Namespace (Search_Meta search)) (crawler_ref_of_search search)).
Proof.
  unfold validateSearch. apply always_bind. eapply always_impl; [apply CrawlerInvocation_fetches|].
  intros tr [crawler err] Hf. cbv beta in Hf. destruct err as [e|].
  - destruct (as_invalid_reference e); [|destruct (is_not_found e)]; [| |done];
      by destruct ((_ ++ _) ++ _) eqn:E; [apply app_eq_nil in E as [[? _]%app_eq_nil _]|].
  - destruct ((_ ++ _) ++ _); [|done]. intros _. by apply fetched_app_l, Hf.
Qed.

Section validators.
Context `{CronLibrary} (error_string : GoError -> string).

(** What the validators of a create and of an update agree on: the references
    of what they accept resolve. *)
Lemma validated_resolves st k o role ref :
  admits st (validate_create error_string k o) \/ (exists old, admits st (validate_update error_string k old o)) ->
  (role, ref) ∈ references k o -> resolves st role (Namespace (meta_of k o)) ref.
Proof.
  intros Hadm Hin.
  assert (forall p, admits st p -> always p (fun tr out => out = None ->
    fetched tr role (Namespace (meta_of k o)) ref) -> resolves st role (Namespace (meta_of k o)) ref) as Hfetch.
  { intros p Hp Hf. destruct (admits_always _ _ _ Hf Hp) as (tr & Htr & Hall). eapply fetched_resolves; eauto. }
  destruct k; try (by apply elem_of_nil in Hin); simpl in *.
  - assert (forall p, p = ValidatePipeline o -> admits st p -> resolves st role (Namespace (Pipeline_Meta o)) ref) as Hp.
    { intros p -> Hp. eapply Hfetch; [exact Hp|]. eapply always_impl; [apply ValidatePipeline_fetches|].
      intros tr out Ht Hout. by apply Ht. }
    destruct Hadm as [Hadm|[old Hadm]]; by eapply Hp.
  - destruct Hadm as [Hadm|[old Hadm]].
    + eapply Hfetch; [exact Hadm|]. eapply always_impl; [apply ValidateProfile_fetches|].
      intros tr out Ht Hout. by apply Ht.
    + eapply Hfetch; [exact Hadm|]. apply always_bind. eapply always_impl; [apply ValidateProfile_fetches|].
      intros tr [e|] Ht; [done|]. eapply always_impl; [apply always_trivial|].
      intros tr' out _ _. by apply fetched_app_l, Ht.
  - apply list_elem_of_singleton in Hin as [= -> ->].
    destruct Hadm as [Hadm|[old Hadm]].
    + eapply Hfetch; [exact Hadm|apply validateSearch_fetches].
    + eapply Hfetch; [exact Hadm|]. unfold Search_ValidateUpdate. destruct (_ && _); [done|apply validateSearch_fetches].
Qed.
End validators.

(** ** Deletions *)

(** The kinds that references are to: their role, and the name of the kind. *)
Definition role_of (k : Kind) : option Role :=
  match k with
  | KProfile => Some RoleProfile
  | KDownloader | KClusterDownloader => Some RoleDownloader
  | KUploader | KClusterUploader => Some RoleUploader
  | KCrawler | KClusterCrawler => Some RoleCrawler
  | _ => None
  end.

Definition kind_name (k : Kind) : string :=
  match k with
  | KProfile => "Profile" | KDownloader => "Downloader" | KClusterDownloader => "ClusterDownloader"
  | KUploader => "Uploader" | KClusterUploader => "ClusterUploader"
  | KCrawler => "Crawler" | KClusterCrawler => "ClusterCrawler"
  | _ => ""
  end.

(** The kind of the objects that have references of a role. *)
Definition holder (role : Role) : Kind :=
  match role with RoleProfile | RoleDownloader => KPipeline | RoleUploader => KProfile | RoleCrawler => KSearch end.

Lemma references_holder k o role ref : (role, ref) ∈ references k o -> k = holder role.
Proof.
  destruct k; simpl; try (by intros ?%elem_of_nil).
  - by intros [[= -> _]|[[= -> _]|?%elem_of_nil]%elem_of_cons]%elem_of_cons.
  - by intros (r & [= -> _] & _)%list_elem_of_fmap.
  - by intros [= -> _]%list_elem_of_singleton.
Qed.

(** A reference that names its kind stands for one object. *)
Lemma target_inv role ns ref k key :
  Ref_kind ref <> "" -> target role ns ref = Some (k, key) ->
  role_of k = Some role /\ Ref_kind ref = kind_name k /\
  key = mkObjectKey (if cluster_scoped k then "" else ns) (Ref_name ref).
Proof.
  intros Hkind. unfold target. destruct (String.eqb_spec (Ref_kind ref) "") as [|_]; [done|].
  destruct role; simpl; rewrite ?orb_false_r, ?andb_true_r;
    repeat (match goal with |- context [String.eqb (Ref_kind ref) ?name] =>
              destruct (String.eqb_spec (Ref_kind ref) name) as [->|_] end; simpl);
    try done; by intros [= <- <-].
Qed.

(** What the validator of a deletion has seen: no object in the namespaces it
    looked at refers to the object. *)
Definition unused (tr : list Event) (k : Kind) (o : ObjectMeta) : Prop :=
  match role_of k with
  | None => True
  | Some role => exists l, event (ListObjects (holder role) (in_namespace (Namespace o))) (Ok l) ∈ tr /\
      forall user ref, user ∈ l -> (role, ref) ∈ references (holder role) user ->
        Ref_name ref = Name o -> Ref_kind ref = kind_name k ->
        (cluster_scoped k = false -> Namespace (meta_of (holder role) user) = Namespace o) -> False
  end.

Lemma refMatches_true ref o name : Ref_name ref = Name o -> Ref_kind ref = name -> refMatches ref o name = true.
Proof. intros Hn Hk. unfold refMatches. by rewrite Hn, Hk, !String.eqb_refl. Qed.

Lemma downloader_delete_unused name name_of message o k :
  role_of k = Some RoleDownloader -> name = kind_name k ->
  always (downloader_delete name name_of message o) (fun tr out => out = None -> unused tr k o).
Proof.
  intros Hrole ->. intros [pipelines|e]; simpl; [|done].
  rewrite refuse_deletion_none. intros Hnone%fmap_nil_inv. rewrite collect_first_nil in Hnone.
  unfold unused. rewrite Hrole. exists pipelines. split; [by left|].
  intros p ref Hp [[=]|[[= ->]|?%elem_of_nil]%elem_of_cons]%elem_of_cons Hname Hkind _; [|done].
  specialize (Hnone p Hp). cbv beta in Hnone. by rewrite (refMatches_true _ _ _ Hname Hkind) in Hnone.
Qed.

Lemma uploader_delete_unused name namespace failure message o k :
  role_of k = Some RoleUploader -> name = kind_name k -> namespace = Namespace o ->
  always (uploader_delete message (uploader_dependants name namespace failure o) o)
    (fun tr out => out = None -> unused tr k o).
Proof.
  intros Hrole -> ->. intros [profiles|e]; simpl; [|done].
  rewrite refuse_deletion_none, collect_filter. intros Hnone%fmap_nil_inv. rewrite filter_nil_iff in Hnone.
  unfold unused. rewrite Hrole. exists profiles. split; [by left|].
  intros p ref Hp (r & [= ->] & Hr)%list_elem_of_fmap Hname Hkind _.
  specialize (Hnone p Hp). cbv beta in Hnone. apply not_true_iff_false in Hnone. apply Hnone.
  apply existsb_exists. exists r. rewrite <- list_elem_of_In. by rewrite refMatches_true.
Qed.

Lemma crawler_delete_unused name message cron_message failure crons o k (ns : string) :
  role_of k = Some RoleCrawler -> name = kind_name k -> ns = Namespace o ->
  always (crawler_delete message cron_message
      (list_dependants KSearch ns failure (collect_first (fun s => refMatches (crawler_ref_of_search s) o name)))
      crons o) (fun tr out => out = None -> unused tr k o).
Proof.
  intros Hrole -> ->. intros [searches|e]; simpl; [|done].
  destruct (refuse_deletion _ _ _) as [e|] eqn:E; [done|].
  apply refuse_deletion_none, fmap_nil_inv in E. rewrite collect_first_nil in E.
  eapply always_impl; [apply always_trivial|]. intros tr out _ _.
  unfold unused. rewrite Hrole. exists searches. split; [by left|].
  intros s ref Hs [= ->]%list_elem_of_singleton Hname Hkind _.
  specialize (E s Hs). cbv beta in E. by rewrite (refMatches_true _ _ _ Hname Hkind) in E.
Qed.

Lemma Profile_delete_unused profile :
  always (Profile_ValidateDelete profile) (fun tr out => out = None -> unused tr KProfile (Profile_Meta profile)).
Proof.
  intros [pipelines|e]; simpl; [|done]. rewrite collect_filter.
  match goal with |- context [List.filter ?f ?l] => destruct (List.filter f l) eqn:E end; [|done].
  intros _. rewrite filter_nil_iff in E.
  exists pipelines. split; [by left|].
  intros p ref Hp [[= ->]|[[=]|?%elem_of_nil]%elem_of_cons]%elem_of_cons Hname _ Hns; [|done].
  specialize (E p Hp). cbv beta in E. simpl in Hns. by rewrite Hname, (Hns eq_refl), !String.eqb_refl in E.
Qed.

Lemma validate_delete_unused k (o : obj k) :
  well_scoped k o ->
  always (validate_delete k o) (fun tr out => out = None -> unused tr k (meta_of k o)).
Proof.
  intros Hscope. destruct k; try (by intros _).
  - apply Profile_delete_unused.
  - by apply downloader_delete_unused.
  - by apply downloader_delete_unused.
  - by apply uploader_delete_unused.
  - apply uploader_delete_unused; [done..|]. by rewrite Hscope.
  - by apply (crawler_delete_unused "Crawler" _ _ _ _ _ KCrawler (Namespace (Crawler_Meta o))).
  - apply (crawler_delete_unused "ClusterCrawler" _ _ _ _ _ KClusterCrawler ""); [done..|]. by rewrite Hscope.
Qed.

(** ** The invariant *)

(** An object is stored under its key, and its namespace fits its kind. *)
Definition well_keyed (st : Store) : Prop :=
  forall k key o, st k !! key = Some o -> key_of k o = key /\ well_scoped k o.

(** Every reference of the objects of a kind names a kind and resolves. *)
Definition references_resolve (st : Store) (k : Kind) : Prop :=
  forall key o, st k !! key = Some o -> forall role ref, (role, ref) ∈ references k o ->
    Ref_kind ref <> "" /\ resolves st role (Namespace (meta_of k o)) ref.

Lemma change_same k f st : change k f st k = f (st k).
Proof.
  unfold change. destruct (decide (k = k)) as [H|]; [|done]. by rewrite (proof_irrel H eq_refl).
Qed.
Lemma change_other k k' f st : k <> k' -> change k f st k' = st k'.
Proof. intros Hne. unfold change. by destruct (decide (k = k')). Qed.

(** The objects after a write, and after a deletion. *)
Lemma put_cases k o st (P : forall k, ObjectKey -> obj k -> Prop) :
  P k (key_of k o) o -> (forall k' key o', st k' !! key = Some o' -> P k' key o') ->
  forall k' key o', put k o st k' !! key = Some o' -> P k' key o'.
Proof.
  intros Hnew Hold k' key o' Hlook. unfold put in Hlook.
  destruct (decide (k = k')) as [<-|Hne]; [|rewrite change_other in Hlook by done; by apply Hold].
  rewrite change_same in Hlook. apply lookup_insert_Some in Hlook as [[<- <-]|[_ Hlook]]; auto.
Qed.

Lemma drop_cases k key0 st k' key o :
  drop k key0 st k' !! key = Some o -> st k' !! key = Some o.
Proof.
  unfold drop. destruct (decide (k = k')) as [<-|Hne]; [|by rewrite change_other].
  rewrite change_same. by intros [_ ?]%lookup_delete_Some.
Qed.

Lemma exists_put k o st t : exists_in st t -> exists_in (put k o st) t.
Proof.
  destruct t as [k' key]. unfold exists_in, put. simpl.
  destruct (decide (k = k')) as [<-|Hne]; [|by rewrite change_other].
  rewrite change_same. intros H. destruct (decide (key_of k o = key)) as [<-|].
  - rewrite lookup_insert_eq. by eexists.
  - by rewrite lookup_insert_ne.
Qed.

Lemma exists_drop k key st t : t <> (k, key) -> exists_in st t -> exists_in (drop k key st) t.
Proof.
  destruct t as [k' key']. unfold exists_in, drop. simpl. intros Hne H.
  destruct (decide (k = k')) as [<-|]; [|by rewrite change_other].
  rewrite change_same, lookup_delete_ne; [done|]. intros ->. by apply Hne.
Qed.

Lemma well_keyed_put k o st : well_keyed st -> well_scoped k o -> well_keyed (put k o st).
Proof. 
  intros Hwf Hs. exact (put_cases k o st (fun k key o => key_of k o = key /\ well_scoped k o) (conj eq_refl Hs) Hwf).
Qed.

Lemma well_keyed_drop k key st : well_keyed st -> well_keyed (drop k key st).
Proof. intros Hwf k' key' o Ho%drop_cases. by apply Hwf. Qed.

(** Writing an object keeps the references of a kind, if those of the object
    resolve. *)
Lemma references_put k o st k0 :
  references_resolve st k0 ->
  (k = k0 -> forall role ref, (role, ref) ∈ references k o ->
    Ref_kind ref <> "" /\ resolves st role (Namespace (meta_of k o)) ref) ->
  references_resolve (put k o st) k0.
Proof.
  intros Hst Ho key o0 Hlook role ref Hin.
  assert (forall k' key o', put k o st k' !! key = Some o' -> k' = k0 -> forall role ref,
      (role, ref) ∈ references k' o' -> Ref_kind ref <> "" /\ resolves st role (Namespace (meta_of k' o')) ref) as H.
  { refine (put_cases k o st (fun k' _ o' => k' = k0 -> forall role ref, (role, ref) ∈ references k' o' ->
      Ref_kind ref <> "" /\ resolves st role (Namespace (meta_of k' o')) ref) Ho _).
    intros k' key' o' Hl -> role' ref'. by eapply Hst. }
  destruct (H _ _ _ Hlook eq_refl _ _ Hin) as [Hk (t & Ht & Hex)].
  split; [done|]. exists t. split; [done|]. by apply exists_put.
Qed.

Lemma resolves_seen seen st role ns ref : up_to_date seen st -> resolves seen role ns ref -> resolves st role ns ref.
Proof. intros Hseen (t & Ht & Hex). exists t. split; [done|]. by apply (seen_exists _ _ Hseen). Qed.

(** An accepted deletion does, too. *)
Lemma references_drop seen st k key old k0 :
  up_to_date seen st ->
  well_keyed st -> st k !! key = Some old -> admits seen (validate_delete k old) ->
  references_resolve st k0 -> references_resolve (drop k key st) k0.
Proof.
  intros Hseen Hwf Hold Hadm Hst key' o Ho%drop_cases role ref Hin.
  destruct (Hst _ _ Ho _ _ Hin) as [Hkind (t & Ht & Hex)]. split; [done|]. exists t. split; [done|].
  apply exists_drop; [|done]. intros ->.
  destruct (target_inv _ _ _ _ _ Hkind Ht) as (Hrole & Hname & Hkey).
  destruct (Hwf _ _ _ Hold) as [Hok Hscope].
  destruct (admits_always _ _ _ (validate_delete_unused _ _ Hscope) Hadm) as (tr & Hunused & Hall).
  specialize (Hunused eq_refl). unfold unused in Hunused. rewrite Hrole in Hunused.
  destruct Hunused as (l & Hl & Hnone). pose proof (references_holder _ _ _ _ Hin). subst k0.
  apply (answered_list _ _ _ _ _ Hall) in Hl. subst l. rewrite Hkey in Hok. injection Hok as Hns Hnm.
  destruct (seen_references _ _ Hseen _ _ _ Ho) as (o' & Ho' & Hko & Hrefs).
  assert (Namespace (meta_of (holder role) o') = Namespace (meta_of (holder role) o)) as Hns' by (by injection Hko).
  eapply (Hnone o' ref); [|by rewrite Hrefs|done|done|].
  - eapply elem_of_listed; [exact Ho'|]. rewrite Hns', Hns. destruct (cluster_scoped k); auto.
  - rewrite Hns', Hns. by intros ->.
Qed.

Section invariant.
Context `{CronLibrary} (error_string : GoError -> string).
Variable mutating : list string.
Notation step := (admission_step error_string mutating).

(** A defaulter leaves no reference without a kind. *)
Lemma mutate_named k o role ref :
  resource_of k ∈ mutating -> (role, ref) ∈ references k (mutate mutating k o) -> Ref_kind ref <> "".
Proof.
  intros Hmut. unfold mutate. rewrite bool_decide_true by done.
  assert (forall r name, name <> "" -> Ref_kind (ReferenceDefaulter r name) <> "") as Hdef.
  { intros r name Hname. unfold ReferenceDefaulter. by destruct (String.eqb_spec (Ref_kind r) ""). }
  destruct k; simpl; try (by intros ?%elem_of_nil).
  - intros [[= _ ->]|[[= _ ->]|?%elem_of_nil]%elem_of_cons]%elem_of_cons; [by apply Hdef..|done].
  - rewrite <- list_fmap_compose. intros (r & [= _ ->] & _)%list_elem_of_fmap. by apply Hdef.
  - intros [= _ ->]%list_elem_of_singleton. by apply Hdef.
Qed.

Lemma same_scope st k old (o : obj k) :
  well_keyed st -> st k !! key_of k o = Some old -> well_scoped k o.
Proof.
  intros Hwf Hold Hs. destruct (Hwf _ _ _ Hold) as [[= <- _] Hscope]. by apply Hscope.
Qed.

Lemma admission_step_keeps st st' k :
  step st st' -> resource_of k ∈ mutating -> well_keyed st -> references_resolve st k ->
  well_keyed st' /\ references_resolve st' k.
Proof.
  intros Hstep Hmut Hwf Hk.
  destruct Hstep as [st seen k' o o' Hseen Hnew Hscope Hadm|st seen k' old o o' Hseen Hold Hadm
    |st seen k' key old Hseen Hold Hadm|st k' old o Hold Hrefs].
  - split; [by apply well_keyed_put|]. apply references_put; [done|]. intros -> role ref Hin.
    split; [by eapply mutate_named|]. eapply resolves_seen; [done|]. eapply validated_resolves; [by left|done].
  - split; [apply well_keyed_put; [done|by eapply same_scope]|]. apply references_put; [done|].
    intros -> role ref Hin. split; [by eapply mutate_named|].
    eapply resolves_seen; [done|]. eapply validated_resolves; [right; by exists old|done].
  - split; [by apply well_keyed_drop|]. by eapply references_drop.
  - split; [apply well_keyed_put; [done|by eapply same_scope]|]. apply references_put; [done|].
    intros -> role ref. rewrite Hrefs. destruct (Hwf _ _ _ Hold) as [[= <- _] _]. by eapply Hk.
Qed.

(** C16: requests that are admitted and written one after the other, each by webhooks
    whose cache has seen which objects there are and what they refer to, never
    leave a reference of a kind dangling, when the defaulter of that kind is
    registered: as long as the profile and the downloader of every pipeline, the
    crawler of every search - and, were its webhook registered for the right
    resource, the uploaders of every profile - exist, they go on existing,
    whatever is created, updated, deleted and written to statuses.  A cache that
    lags behind breaks it ([lagging_cache_dangles]), and so do requests at the
    same time ([concurrent_requests_dangle]). *)
Theorem admission_keeps_references st st' k :
  rtc step st st' -> resource_of k ∈ mutating -> well_keyed st -> references_resolve st k ->
  well_keyed st' /\ references_resolve st' k.
Proof.
  intros Hrtc Hmut. induction Hrtc as [|st st1 st' Hstep _ IH]; [done|]. intros Hwf Hk.
  destruct (admission_step_keeps _ _ _ Hstep Hmut Hwf Hk). by apply IH.
Qed.
End invariant.

Module AdmissionSystem_example.
#[local] Existing Instance periodic.

Definition command (name : string) : Container := with_c_command (with_c_name zero_Container name) ["/run"] [].

Definition git : Downloader := mkDownloader (meta_named "git" "ns") (mkDownloaderSpec (command "git") [] [] [] []).
Definition s3 : Uploader := mkUploader (meta_named "s3" "ns") (mkUploaderSpec (command "s3") [] [] []).
Definition profile (uploader_kind : string) : Profile :=
  mkProfile (meta_named "default" "ns")
    (mkProfileSpec [mkConditionalContainer (command "scan") None] [] [] [mkReference "s3" uploader_kind []] [] []).
Definition pipeline : Pipeline :=
  mkPipeline (meta_named "run" "ns")
    (mkPipelineSpec (mkReference "git" "" []) (mkReference "default" "" []) (mkTarget "repo" "") "" None None None [] None)
    zero_PipelineStatus.
Definition account : ServiceAccount := mkServiceAccount (meta_named "default" "ns") "".

(** The resources, and then a pipeline that refers to them. *)
Definition setup (uploader_kind : string) : list Request :=
  [CreateRequest KServiceAccount account; CreateRequest KDownloader git; CreateRequest KUploader s3;
   CreateRequest KProfile (profile uploader_kind); CreateRequest KPipeline pipeline].

Definition no_message : GoError -> string := fun _ => "".
Definition play (rs : list Request) (st : Store) : option Store := perform_all no_message mutating_resources rs st.

Definition succeeds (rs : list Request) : bool := match play rs empty_store with Some _ => true | None => false end.
Definition after (rs : list Request) : Store := default empty_store (play rs empty_store).

Lemma play_after rs : succeeds rs = true -> play rs empty_store = Some (after rs).
Proof. unfold succeeds, after. by destruct (play rs empty_store). Qed.

(** What is referred to cannot be deleted before what refers to it. *)
Definition teardown : list Request :=
  [DeleteRequest KPipeline (mkObjectKey "ns" "run"); DeleteRequest KProfile (mkObjectKey "ns" "default");
   DeleteRequest KUploader (mkObjectKey "ns" "s3"); DeleteRequest KDownloader (mkObjectKey "ns" "git")].

Example teardown_in_order : succeeds (setup "Uploader" ++ teardown) = true.
Proof. vm_compute. reflexivity. Qed.
Example profile_kept : succeeds (setup "Uploader" ++ [DeleteRequest KProfile (mkObjectKey "ns" "default")]) = false.
Proof. vm_compute. reflexivity. Qed.
Example downloader_kept : succeeds (setup "Uploader" ++ [DeleteRequest KDownloader (mkObjectKey "ns" "git")]) = false.
Proof. vm_compute. reflexivity. Qed.
Example uploader_kept : succeeds (setup "Uploader" ++ [DeleteRequest KUploader (mkObjectKey "ns" "s3")]) = false.
Proof. vm_compute. reflexivity. Qed.

Lemma admission_keeps_references_witness :
  after (setup "Uploader") KPipeline !! mkObjectKey "ns" "run" = Some (Pipeline_Default pipeline) /\
  references_resolve (after (setup "Uploader")) KPipeline.
Proof.
  split; [vm_compute; reflexivity|].
  apply (admission_keeps_references no_message mutating_resources empty_store (after (setup "Uploader")) KPipeline).
  - apply (perform_all_steps no_message mutating_resources (setup "Uploader")).
    apply (play_after (setup "Uploader")). vm_compute. reflexivity.
  - left.
  - intros k key o Ho. destruct k; discriminate Ho.
  - intros key o Ho. discriminate Ho.
Defined.

(** The marker of the mutating webhook of profiles names the resource
    "profile", which does not exist: the reference of a profile to an uploader
    keeps its empty kind, which the validators resolve, but the deletion of the
    uploader does not see: the profile is left with a dangling reference. *)
Definition kindless : list Request :=
  [CreateRequest KUploader s3; CreateRequest KProfile (profile ""); DeleteRequest KUploader (mkObjectKey "ns" "s3")].

Lemma profile_left_dangling :
  succeeds kindless = true /\
  after kindless KProfile !! mkObjectKey "ns" "default" = Some (profile "") /\
  ~ resolves (after kindless) RoleUploader "ns" (mkReference "s3" "" []).
Proof.
  split; [vm_compute; reflexivity|]. split; [vm_compute; reflexivity|].
  intros (t & [= <-] & [o Ho]). vm_compute in Ho. discriminate Ho.
Qed.

(** With the resource named as it is, the deletion is refused. *)
Example profile_defaulted :
  perform_all no_message (resource_of KProfile :: mutating_resources) kindless empty_store = None.
Proof. vm_compute. reflexivity. Qed.

(** The pipeline is created; the deletion of its downloader is admitted by a
    webhook whose cache has not seen it. *)
Lemma lagging_cache_dangles :
  let created := after (setup "Uploader") in
  let seen := after (removelast (setup "Uploader")) in
  let deleted := drop KDownloader (mkObjectKey "ns" "git") created in
  admits seen (validate_delete KDownloader git) /\ ~ admits created (validate_delete KDownloader git) /\
  deleted KPipeline !! mkObjectKey "ns" "run" = Some (Pipeline_Default pipeline) /\
  ~ resolves deleted RoleDownloader "ns" (mkReference "git" "Downloader" []).
Proof.
  split; [vm_compute; reflexivity|]. split; [by vm_compute|]. split; [vm_compute; reflexivity|].
  intros (t & [= <-] & [o Ho]). vm_compute in Ho. discriminate Ho.
Qed.

(** Admission and write are not one step in a cluster.  A deletion that is
    admitted while the creation of a pipeline is admitted, too, but not yet
    written, leaves the pipeline with a dangling reference. *)
Definition resources : Store := after (removelast (setup "Uploader")).
Definition both_written : Store :=
  put KPipeline (Pipeline_Default pipeline) (drop KDownloader (mkObjectKey "ns" "git") resources).

Lemma concurrent_requests_dangle :
  admits resources (validate_create no_message KPipeline (mutate mutating_resources KPipeline pipeline)) /\
  admits resources (validate_delete KDownloader git) /\
  both_written KPipeline !! mkObjectKey "ns" "run" = Some (Pipeline_Default pipeline) /\
  ~ resolves both_written RoleDownloader "ns" (mkReference "git" "Downloader" []).
Proof.
  split; [vm_compute; reflexivity|]. split; [vm_compute; reflexivity|]. split; [vm_compute; reflexivity|].
  intros (t & [= <-] & [o Ho]). vm_compute in Ho. discriminate Ho.
Qed.
End AdmissionSystem_example.
