(* ===== verification/Os.v ===== *)
(** * The operating system (internal/process/files.go, logging.go; internal/utils/readers.go)

    The calls the binaries make while they install themselves and start: their
    operations, as those of the API client branching on every answer; the
    helpers around them; and the file system of a container, to run them on. *)

From Stdlib Require Import ZArith Lia String Ascii.
From Stdlib Require Import SpecFloat.
From S2P Require Import Prelude Effects GoStd K8s Api Client Scheme.

Local Open Scope string_scope.
Local Open Scope Z_scope.
Local Open Scope list_scope.
Local Open Scope prog_scope.

(** ** Operations *)

(** An open file. *)
Definition Handle : Type := Z.

(** [exec.Cmd]: its standard streams and its environment are those of the
    sidecar. *)
Record Cmd := mkCmd {
  Cmd_Path : string;
  Cmd_Args : list string;
  Cmd_WaitDelay : Duration
}.

(** [syscall.WaitStatus]: how a process ended. *)
Inductive WaitStatus :=
| Exited (code : Z)
| Signaled (signal : Z).

(** The error of [cmd.Wait]: an [exec.ExitError] for a process that did not
    succeed, anything else for a failure of the call itself, of the copying of
    the streams, or of the context. *)
Inductive WaitError :=
| ExitError (ws : WaitStatus)
| OtherError (e : GoError).

(** Calls of the packages os, io, syscall and of client-go; the answer of a call
    that can fail is a [result].  [DecodeTemplate] is
    [json.NewDecoder(f).Decode(&template)]. *)
Inductive OsOp : Type -> Type :=
| Executable : OsOp (result GoError string)
| Open (path : string) : OsOp (result GoError Handle)
| CreateFile (path : string) : OsOp (result GoError Handle)
| IoCopy (dst src : Handle) : OsOp (result GoError unit)
| Sync (f : Handle) : OsOp (result GoError unit)
| Close (f : Handle) : OsOp (result GoError unit)
| Chmod (path : string) (mode : Z) : OsOp (result GoError unit)
| MkdirAll (path : string) (mode : Z) : OsOp (result GoError unit)
| Mkfifo (path : string) (mode : Z) : OsOp (result GoError unit)
| Remove (path : string) : OsOp (result GoError unit)
| DecodeTemplate (f : Handle) : OsOp (result GoError PipelineTemplate)
| InClusterConfig : OsOp (result GoError ClientConfig)
| HomeDir : OsOp string
| BuildConfigFromFlags (kubeconfig : string) : OsOp (result GoError ClientConfig)
| DefaultKubernetesUserAgent : OsOp string
| NewTokenBucketRateLimiter (qps : spec_float) (burst : Z) : OsOp RateLimiter
| HTTPClientFor (config : ClientConfig) : OsOp (result GoError HttpClient)
| RESTClientForConfigAndClient (config : ClientConfig) (h : HttpClient) : OsOp (result GoError RESTClient)
| NewDiscoveryClientForConfigAndClient (config : ClientConfig) (h : HttpClient) :
    OsOp (result GoError DiscoveryClient)
| NewDiscoveryClient (c : option RESTClient) : OsOp DiscoveryClient
(** [cmd.Start()] and [cmd.Wait()] *)
| StartCommand (cmd : Cmd) : OsOp (result GoError unit)
| WaitCommand (cmd : Cmd) : OsOp (option WaitError)
(** [cmd.ProcessState], which [cmd.Wait()] sets; [f.WriteString(s)] *)
| CommandState : OsOp (option WaitStatus)
| WriteString (f : Handle) (s : string) : OsOp (result GoError unit)
(** the calls of [g.Go] for the scanners, and [g.Wait()], in [AwaitScans] *)
| GoScanners (scanners : list string) : OsOp unit
| JoinScanners : OsOp (option GoError)
(** the four goroutines of [Schedule] begin, creating resources from the
    template with the clients; [crawlerCancel()]; [wg.Wait()] *)
| StartWorkers (cs : Clientset) (template : PipelineTemplate) : OsOp unit
| CancelWorkers : OsOp unit
| WaitWorkers : OsOp unit.

Notation os_prog := (free OsOp).

#[export] Instance OsOp_answerable : Answerable OsOp.
Proof. intros X e. destruct e; first [exact (Err (ErrorString ""))|exact ""|exact tt|exact None|exact 0]. Defined.

(** ** Helpers *)

(** [process.CloseAndLog]: a failure to close is only logged. *)
Definition CloseAndLog (c : option Handle) : os_prog unit :=
  match c with
  | None => Ret tt
  | Some c => let* _ := op (Close c) in Ret tt
  end.

(** For a [Close] that also returns a value, which is ignored. *)
Definition CloseIgnoreAndLog (c : option Handle) : os_prog unit :=
  match c with
  | None => Ret tt
  | Some c => let* _ := op (Close c) in Ret tt
  end.

(** [utils.RemoveAndLog] and [process.RemovePathAndLog]. *)
Definition RemoveAndLog (path : string) : os_prog unit :=
  let* _ := op (Remove path) in Ret tt.
Definition RemovePathAndLog (path : string) : os_prog unit :=
  let* _ := op (Remove path) in Ret tt.

(** [process.CopyFile]; the deferred calls close what was opened. *)
Definition CopyFile (src dst : string) : os_prog (option GoError) :=
  let* source := op (Open src) in
  match source with
  | Err e => Ret (Some (Wrapped "failed to open source file" e))
  | Ok source =>
      let* err :=
        let* destination := op (CreateFile dst) in
        match destination with
        | Err e => Ret (Some (Wrapped "failed to create destination file" e))
        | Ok destination =>
            let* err :=
              let* copied := op (IoCopy destination source) in
              match copied with
              | Err e => Ret (Some (Wrapped "failed to copy data" e))
              | Ok _ =>
                  let* synced := op (Sync destination) in
                  match synced with
                  | Err e => Ret (Some (Wrapped "failed to sync destination file" e))
                  | Ok _ => Ret None
                  end
              end in
            let* _ := CloseAndLog (Some destination) in
            Ret err
        end in
      let* _ := CloseAndLog (Some source) in
      Ret err
  end.

(** The command [init] of both binaries up to the change of the mode: it copies
    the binary it is to [runtimePath]; the answer is the exit code when it ends
    the process. *)
Definition install (runtimePath : string) : os_prog (option Z) :=
  let* execPath := op Executable in
  match execPath with
  | Err _ => Ret (Some 1)
  | Ok execPath =>
      let* err := CopyFile execPath runtimePath in
      match err with
      | Some _ => Ret (Some 1)
      | None =>
          let* _ := op (Chmod runtimePath 0x1ed) in   (* 0o755 *)
          Ret None
      end
  end.

(** ** Commands (internal/process/subprocess.go) *)

Definition BuildUserCommand (userCmd : list string) : result GoError Cmd :=
  match userCmd with
  | [] => Err (ErrorString "no user command provided")
  | entrypoint :: args => Ok (mkCmd entrypoint args (duration_mul 10 Second))
  end.

(** [os.ProcessState.ExitCode], [-1] for a process that was not started, or was
    terminated by a signal. *)
Definition ProcessState_ExitCode (st : option WaitStatus) : Z :=
  match st with Some (Exited code) => code | _ => -1 end.

(** What [HookCommand] returns after [cmd.Wait]. *)
Definition exit_code_of_wait (err : option WaitError) : Z * option GoError :=
  match err with
  | None => (0, None)
  | Some (OtherError e) => (-1, Some (Wrapped "failed to run command" e))
  | Some (ExitError (Signaled signal)) => (128 + signal, None)
  | Some (ExitError (Exited code)) => (code, None)
  end.

(** A hook; what it does to the command it gets is nothing here. *)
Definition Hook : Type := os_prog (option GoError).

(** A hook that may be [nil]; its error is only logged. *)
Definition run_hook (hook : option Hook) : os_prog unit :=
  match hook with
  | None => Ret tt
  | Some hook => let* _ := hook in Ret tt
  end.

(** [process.HookCommand]; [postStop] is deferred, before the command starts. *)
Definition HookCommand (cmd : Cmd) (preStart postStop : option Hook) : os_prog (Z * option GoError) :=
  let* _ := run_hook preStart in
  let* res :=
    let* err := op (StartCommand cmd) in
    match err with
    | Err e => Ret (-1, Some (Wrapped "unable to start command" e))
    | Ok _ =>
        let* err := op (WaitCommand cmd) in
        Ret (exit_code_of_wait err)
    end in
  let* _ := run_hook postStop in
  Ret res.

(** ** The handles of a path *)

(** The handles opened, and those closed, in order. *)
Definition handle_opened (v : event_of OsOp) : option Handle :=
  match v with
  | event e x =>
      match e in OsOp X return X -> option Handle with
      | Open _ | CreateFile _ => fun r => match r with Ok f => Some f | Err _ => None end
      | _ => fun _ => None
      end x
  end.
Definition handle_closed (v : event_of OsOp) : option Handle :=
  match v with
  | event e x => match e with Close f => Some f | _ => None end
  end.
Definition opened (tr : list (event_of OsOp)) : list Handle := omap handle_opened tr.
Definition closed (tr : list (event_of OsOp)) : list Handle := omap handle_closed tr.

(** Whatever fails, copying a file closes every file it opened, the last one
    first; it reports success only when the data was copied and synced. *)
Theorem CopyFile_closes src dst :
  always (CopyFile src dst) (fun tr err =>
    closed tr = rev (opened tr) /\
    (err = None -> exists s d, opened tr = [s; d] /\
      event (IoCopy d s) (Ok tt) ∈ tr /\ event (Sync d) (Ok tt) ∈ tr)).
Proof.
  unfold CopyFile. intros [s|e]; simpl; [|done]. intros [d|e]; simpl; [|by intros ?].
  intros [[]|e]; simpl; [|by intros ? ?]. intros [[]|e] ? ?; simpl; [|done].
  split; [done|]. intros _. exists s, d. split; [done|].
  split; do 4 (apply elem_of_cons; first [by left|right]).
Qed.

(** ** A file system *)

(** What is at a path: a file with its content, a named pipe, a directory; each
    with its mode. *)
Inductive Node :=
| RegularFile (content : string) (mode : Z)
| NamedPipe (mode : Z)
| Directory (mode : Z).

(** The nodes, the paths of the open handles, the next handle, and the path of
    the binary. *)
Record Fs := mkFs {
  Nodes : gmap string Node;
  Handles : gmap Z string;
  NextHandle : Z;
  ExecPath : string
}.

Definition with_nodes (fs : Fs) (ns : gmap string Node) : Fs :=
  mkFs ns (Handles fs) (NextHandle fs) (ExecPath fs).
Definition open_at (fs : Fs) (path : string) : Handle * Fs :=
  (NextHandle fs, mkFs (Nodes fs) (<[NextHandle fs := path]> (Handles fs)) (NextHandle fs + 1) (ExecPath fs)).

Definition chmod_node (mode : Z) (n : Node) : Node :=
  match n with
  | RegularFile c _ => RegularFile c mode
  | NamedPipe _ => NamedPipe mode
  | Directory _ => Directory mode
  end.

Definition no_entry : GoError := ErrorString "no such file or directory".
Definition file_exists : GoError := ErrorString "file exists".

(** The content of the file a handle is open on. *)
Definition handle_content (fs : Fs) (f : Handle) : option string :=
  match Handles fs !! f with
  | Some path => match Nodes fs !! path with Some (RegularFile c _) => Some c | _ => None end
  | None => None
  end.

(** Writing a content through a handle; the mode stays. *)
Definition write_handle (fs : Fs) (f : Handle) (content : string) : option Fs :=
  match Handles fs !! f with
  | Some path =>
      match Nodes fs !! path with
      | Some (RegularFile _ mode) => Some (with_nodes fs (<[path := RegularFile content mode]> (Nodes fs)))
      | _ => None
      end
  | None => None
  end.

(** A system in which nothing fails but what must: an absent path, a path that is
    taken.  [templates] is what decodes as a template; there is no cluster. *)
Definition os_serve (template : string -> result GoError PipelineTemplate) : handler_of OsOp Fs :=
  fun X e fs =>
  match e in OsOp X return X * Fs with
  | Executable => (Ok (ExecPath fs), fs)
  | Open path =>
      match Nodes fs !! path with
      | Some _ => let '(f, fs) := open_at fs path in (Ok f, fs)
      | None => (Err no_entry, fs)
      end
  | CreateFile path =>
      let mode := match Nodes fs !! path with Some (RegularFile _ mode) => mode | _ => 0x1a4 end in
      match Nodes fs !! path with
      | Some (Directory _) => (Err file_exists, fs)
      | _ => let '(f, fs) := open_at (with_nodes fs (<[path := RegularFile "" mode]> (Nodes fs))) path in
             (Ok f, fs)
      end
  | IoCopy dst src =>
      match handle_content fs src with
      | Some content =>
          match write_handle fs dst content with
          | Some fs => (Ok tt, fs)
          | None => (Err no_entry, fs)
          end
      | None => (Err no_entry, fs)
      end
  | Sync f => (Ok tt, fs)
  | Close f => (Ok tt, mkFs (Nodes fs) (delete f (Handles fs)) (NextHandle fs) (ExecPath fs))
  | Chmod path mode =>
      match Nodes fs !! path with
      | Some n => (Ok tt, with_nodes fs (<[path := chmod_node mode n]> (Nodes fs)))
      | None => (Err no_entry, fs)
      end
  | MkdirAll path mode =>
      match Nodes fs !! path with
      | Some (Directory _) => (Ok tt, fs)
      | Some _ => (Err file_exists, fs)
      | None => (Ok tt, with_nodes fs (<[path := Directory mode]> (Nodes fs)))
      end
  | Mkfifo path mode =>
      match Nodes fs !! path with
      | Some _ => (Err file_exists, fs)
      | None => (Ok tt, with_nodes fs (<[path := NamedPipe mode]> (Nodes fs)))
      end
  | Remove path =>
      match Nodes fs !! path with
      | Some _ => (Ok tt, with_nodes fs (delete path (Nodes fs)))
      | None => (Err no_entry, fs)
      end
  | DecodeTemplate f =>
      (match handle_content fs f with Some c => template c | None => Err no_entry end, fs)
  | InClusterConfig => (Ok (mkClientConfig "" None None "" None (S754_zero false) 0 ""), fs)
  | HomeDir => ("/root", fs)
  | BuildConfigFromFlags _ => (Err no_entry, fs)
  | DefaultKubernetesUserAgent => ("scheduler/v0.0.0", fs)
  | HTTPClientFor _ => (Ok 0, fs)
  | NewTokenBucketRateLimiter _ _ | NewDiscoveryClient _ => (0, fs)
  | RESTClientForConfigAndClient _ _ | NewDiscoveryClientForConfigAndClient _ _ => (Ok 0, fs)
  | StartCommand _ => (Ok tt, fs)
  | WaitCommand _ | JoinScanners => (None, fs)
  | CommandState => (Some (Exited 0), fs)
  | WriteString f s =>
      match write_handle fs f s with Some fs => (Ok tt, fs) | None => (Err no_entry, fs) end
  | StartWorkers _ _ | CancelWorkers | WaitWorkers | GoScanners _ => (tt, fs)
  end.

(** Handles are given out in increasing order. *)
Definition fresh_handles (fs : Fs) : Prop := forall f, NextHandle fs <= f -> Handles fs !! f = None.

Lemma copy_exec template src dst fs c mode :
  Nodes fs !! src = Some (RegularFile c mode) -> src <> dst ->
  (forall n, Nodes fs !! dst = Some n -> exists c' m', n = RegularFile c' m') -> fresh_handles fs ->
  exists fs' mode', exec (os_serve template) (CopyFile src dst) fs = (None, fs') /\
    Nodes fs' = <[dst := RegularFile c mode']> (Nodes fs) /\ Handles fs' = Handles fs /\
    ExecPath fs' = ExecPath fs /\ NextHandle fs' = NextHandle fs + 2.
Proof.
  intros Hsrc Hne Hdst Hfresh. unfold CopyFile. rewrite exec_bind. cbn [exec op os_serve]. rewrite Hsrc.
  unfold open_at at 1. cbv beta iota. rewrite !exec_bind. cbn [exec op os_serve].
  cbn [Nodes with_nodes].
  assert (exists mode', (match Nodes fs !! dst with Some (RegularFile _ mode) => mode | _ => 0x1a4 end) = mode')
    as [mode' Hmode] by by eexists.
  rewrite Hmode.
  assert (forall A (x y : A), match Nodes fs !! dst with Some (Directory _) => x | _ => y end = y) as Hnodir.
  { intros A x y. destruct (Nodes fs !! dst) as [n|] eqn:E; [|done]. by destruct (Hdst n eq_refl) as (? & ? & ->). }
  rewrite Hnodir. unfold open_at, with_nodes. cbn [Nodes Handles NextHandle ExecPath]. cbv beta iota.
  rewrite !exec_bind. cbn [exec op os_serve]. unfold handle_content, write_handle. cbn [Nodes Handles].
  rewrite lookup_insert_ne, lookup_insert_eq by lia. rewrite lookup_insert_ne, Hsrc by done.
  rewrite lookup_insert_eq. cbn [Nodes Handles with_nodes]. rewrite lookup_insert_eq. cbv beta iota.
  rewrite exec_bind. cbn [exec op os_serve CloseAndLog bind].
  eexists _, mode'. split; [reflexivity|]. cbn [Nodes Handles with_nodes ExecPath NextHandle].
  split; [by rewrite insert_insert_eq|]. split; [|split; [done|lia]].
  rewrite delete_insert_id, delete_insert_id; [done|apply Hfresh; lia|].
  rewrite lookup_insert_ne by lia. apply Hfresh. lia.
Qed.

(** [install] puts an executable copy of the running binary at its path, changes
    nothing else and leaves no file open. *)
Theorem install_copies template runtimePath fs c mode :
  Nodes fs !! ExecPath fs = Some (RegularFile c mode) -> ExecPath fs <> runtimePath ->
  (forall n, Nodes fs !! runtimePath = Some n -> exists c' m', n = RegularFile c' m') -> fresh_handles fs ->
  exists fs', exec (os_serve template) (install runtimePath) fs = (None, fs') /\
    Nodes fs' = <[runtimePath := RegularFile c 0x1ed]> (Nodes fs) /\ Handles fs' = Handles fs.
Proof.
  intros Hsrc Hne Hdst Hfresh.
  destruct (copy_exec template _ _ fs c mode Hsrc Hne Hdst Hfresh) as (fs' & mode' & Hexec & Hnodes & Hh & _).
  unfold install. rewrite exec_bind. cbn [exec op os_serve]. rewrite exec_bind, Hexec. cbv beta iota.
  rewrite exec_bind. cbn [exec op os_serve]. rewrite Hnodes, lookup_insert_eq. cbn [exec].
  eexists. split; [reflexivity|]. cbn [Nodes Handles with_nodes chmod_node].
  by rewrite insert_insert_eq.
Qed.

Module Os_example.
(** The image of the sidecar: its binary, and the volume it installs itself to. *)
Definition image : Fs :=
  mkFs {[ "/sidecar" := RegularFile "ELF" 0x1ed; "/ocular" := Directory 0x1ff ]} ∅ 3 "/sidecar".

Lemma install_copies_witness :
  exists fs', exec (os_serve (fun _ => Err no_entry)) (install "/ocular/sidecar") image = (None, fs') /\
    Nodes fs' !! "/ocular/sidecar" = Some (RegularFile "ELF" 0x1ed) /\ Handles fs' = ∅.
Proof.
  destruct (install_copies (fun _ => Err no_entry) "/ocular/sidecar" image "ELF" 0x1ed)
    as (fs' & He & Hn & Hh).
  - reflexivity.
  - discriminate.
  - intros n Hn. vm_compute in Hn. discriminate Hn.
  - intros f _. reflexivity.
  - exists fs'. split; [exact He|]. split; [|exact Hh]. rewrite Hn. apply lookup_insert_eq.
Defined.
End Os_example.
