(* ===== verification/Clientset.v ===== *)
(** * The generated client (pkg/generated/clientset/clientset.go, typed/api/v1beta1/api_client.go)

    How a client of the API server is made from a configuration: the defaults,
    the rate limiter, the HTTP client that the clients share; and what a client
    that was made sends its requests through. *)

From Stdlib Require Import ZArith Lia String.
From Stdlib Require Import SpecFloat.
From S2P Require Import Prelude Effects GoStd K8s Api Client Scheme Os.

Local Open Scope string_scope.
Local Open Scope Z_scope.
Local Open Scope list_scope.
Local Open Scope prog_scope.

(** ** The client of the API group *)

(** The configuration that the argument points to afterwards. *)
Definition setConfigDefaults (config : ClientConfig) : os_prog ClientConfig :=
  let config := with_api_defaults config in
  if String.eqb (Config_UserAgent config) "" then
    let* agent := op DefaultKubernetesUserAgent in
    Ret (with_UserAgent config agent)
  else Ret config.

Definition ApiV1beta1_NewForConfigAndClient (c : ClientConfig) (h : HttpClient) :
    os_prog (result GoError ApiV1beta1Client) :=
  let* config := setConfigDefaults c in
  let* client := op (RESTClientForConfigAndClient config h) in
  match client with
  | Err e => Ret (Err e)
  | Ok client => Ret (Ok (mkApiV1beta1Client (Some client)))
  end.

Definition ApiV1beta1_NewForConfig (c : ClientConfig) : os_prog (result GoError ApiV1beta1Client) :=
  let* config := setConfigDefaults c in
  let* httpClient := op (HTTPClientFor config) in
  match httpClient with
  | Err e => Ret (Err e)
  | Ok httpClient => ApiV1beta1_NewForConfigAndClient config httpClient
  end.

(** [None]: it panics. *)
Definition ApiV1beta1_NewForConfigOrDie (c : ClientConfig) : os_prog (option ApiV1beta1Client) :=
  let* client := ApiV1beta1_NewForConfig c in
  match client with Err _ => Ret None | Ok client => Ret (Some client) end.

(** ** The set of clients *)

Definition burst_required : GoError :=
  ErrorString "burst is required to be greater than 0 when RateLimiter is not set and QPS is set to greater than 0".

Definition NewForConfigAndClient (c : ClientConfig) (httpClient : HttpClient) :
    os_prog (result GoError Clientset) :=
  let configShallowCopy := c in
  let* configShallowCopy :=
    if bool_decide (Config_RateLimiter configShallowCopy = None) && qps_positive configShallowCopy then
      if Config_Burst configShallowCopy <=? 0 then Ret (Err burst_required)
      else
        let* limiter := op (NewTokenBucketRateLimiter (Config_QPS configShallowCopy) (Config_Burst configShallowCopy)) in
        Ret (Ok (with_RateLimiter configShallowCopy limiter))
    else Ret (Ok configShallowCopy) in
  match configShallowCopy with
  | Err e => Ret (Err e)
  | Ok configShallowCopy =>
      let* apiV1beta1 := ApiV1beta1_NewForConfigAndClient configShallowCopy httpClient in
      match apiV1beta1 with
      | Err e => Ret (Err e)
      | Ok apiV1beta1 =>
          let* discovery := op (NewDiscoveryClientForConfigAndClient configShallowCopy httpClient) in
          match discovery with
          | Err e => Ret (Err e)
          | Ok discovery => Ret (Ok (mkClientset (Some discovery) (Some apiV1beta1)))
          end
      end
  end.

Definition NewForConfig (c : ClientConfig) : os_prog (result GoError Clientset) :=
  let configShallowCopy := c in
  let* configShallowCopy :=
    if String.eqb (Config_UserAgent configShallowCopy) "" then
      let* agent := op DefaultKubernetesUserAgent in
      Ret (with_UserAgent configShallowCopy agent)
    else Ret configShallowCopy in
  let* httpClient := op (HTTPClientFor configShallowCopy) in
  match httpClient with
  | Err e => Ret (Err e)
  | Ok httpClient => NewForConfigAndClient configShallowCopy httpClient
  end.

(** [None]: it panics. *)
Definition NewForConfigOrDie (c : ClientConfig) : os_prog (option Clientset) :=
  let* cs := NewForConfig c in
  match cs with Err _ => Ret None | Ok cs => Ret (Some cs) end.

(** [New], from a REST client. *)
Definition New (c : option RESTClient) : os_prog Clientset :=
  let apiV1beta1 := ApiV1beta1_New c in
  let* discovery := op (NewDiscoveryClient c) in
  Ret (mkClientset (Some discovery) (Some apiV1beta1)).

(** ** What a client is made from *)

(** The configuration has no limiter of its own, but asks for one. *)
Definition asks_limiter (c : ClientConfig) : Prop :=
  Config_RateLimiter c = None /\ qps_positive c = true.

#[export] Instance asks_limiter_dec c : Decision (asks_limiter c).
Proof. apply _. Defined.

(** The agent of the requests: the configured one, else the one of client-go. *)
Definition agent_from (tr : list (event_of OsOp)) (c : ClientConfig) (agent : string) : Prop :=
  if String.eqb (Config_UserAgent c) "" then event DefaultKubernetesUserAgent agent ∈ tr
  else agent = Config_UserAgent c.

(** The limiter of the requests: the configured one, else one bucket of the
    configured rate, else that of client-go. *)
Definition limiter_from (tr : list (event_of OsOp)) (c : ClientConfig) (limiter : option RateLimiter) : Prop :=
  if decide (asks_limiter c) then
    exists l, limiter = Some l /\ event (NewTokenBucketRateLimiter (Config_QPS c) (Config_Burst c)) l ∈ tr
  else limiter = Config_RateLimiter c.

(** The configuration [c] with an agent and a limiter. *)
Definition completed_config (c : ClientConfig) (agent : string) (limiter : option RateLimiter) : ClientConfig :=
  mkClientConfig (Config_APIPath c) (Config_GroupVersion c) (Config_NegotiatedSerializer c) agent limiter
    (Config_QPS c) (Config_Burst c) (Config_rest c).

(** The error a call answered with. *)
Definition error_of {E A} (r : result E A) : option E := match r with Err e => Some e | Ok _ => None end.

Definition call_error (v : event_of OsOp) : option GoError :=
  match v with
  | event e x =>
      match e in OsOp X return X -> option GoError with
      | HTTPClientFor _ => fun r => error_of r
      | RESTClientForConfigAndClient _ _ => fun r => error_of r
      | NewDiscoveryClientForConfigAndClient _ _ => fun r => error_of r
      | _ => fun _ => None
      end x
  end.

(** Where a set of clients comes from.  Its clients share the HTTP client, the
    agent and the limiter; the one of the API group sends below the path of its
    version. *)
Definition made_from (tr : list (event_of OsOp)) (c : ClientConfig) (cs : Clientset) : Prop :=
  exists agent limiter h rest disc,
    agent_from tr c agent /\ limiter_from tr c limiter /\
    event (HTTPClientFor (with_UserAgent c agent)) (Ok h) ∈ tr /\
    (let config := completed_config c agent limiter in
     event (RESTClientForConfigAndClient (with_api_defaults config) h) (Ok rest) ∈ tr /\
     event (NewDiscoveryClientForConfigAndClient config h) (Ok disc) ∈ tr) /\
    cs = mkClientset (Some disc) (Some (mkApiV1beta1Client (Some rest))).

(** The agent of client-go is never empty. *)
Definition agents_named (tr : list (event_of OsOp)) : Prop :=
  forall agent, event DefaultKubernetesUserAgent agent ∈ tr -> agent <> "".

Definition agent_given (v : event_of OsOp) : option string :=
  match v with
  | event e x => match e in OsOp X return X -> option string with
                 | DefaultKubernetesUserAgent => fun agent => Some agent
                 | _ => fun _ => None
                 end x
  end.

Lemma agents_named_given tr :
  forallb (fun v => negb (bool_decide (agent_given v = Some ""))) tr = true -> agents_named tr.
Proof.
  intros H agent Hin ->. rewrite forallb_forall in H.
  by specialize (H _ (proj1 (list_elem_of_In _ _) Hin)).
Qed.

Ltac in_trace := repeat first [by apply list_elem_of_here | apply list_elem_of_further].

Lemma completed_config_id c : completed_config c (Config_UserAgent c) (Config_RateLimiter c) = c.
Proof. by destruct c. Qed.
Lemma completed_config_limiter c l :
  with_RateLimiter c l = completed_config c (Config_UserAgent c) (Some l).
Proof. done. Qed.

(** Why no client is made: a burst that does not go with the rate, or a call. *)
Definition refused (tr : list (event_of OsOp)) (c : ClientConfig) (e : GoError) : Prop :=
  (e = burst_required /\ asks_limiter c /\ Config_Burst c <= 0) \/
  (exists v, v ∈ tr /\ call_error v = Some e).

Definition unhindered (tr : list (event_of OsOp)) (c : ClientConfig) : Prop :=
  (asks_limiter c -> 0 < Config_Burst c) /\ Forall (fun v => call_error v = None) tr.

Lemma setConfigDefaults_named c :
  Config_UserAgent c <> "" -> setConfigDefaults c = Ret (with_api_defaults c).
Proof. unfold setConfigDefaults. simpl. by destruct (String.eqb_spec (Config_UserAgent c) ""). Qed.

Lemma asks_limiter_test c :
  bool_decide (Config_RateLimiter c = None) && qps_positive c = bool_decide (asks_limiter c).
Proof.
  destruct (bool_decide_reflect (asks_limiter c)) as [[-> ->]|Hno]; [done|].
  apply not_true_iff_false. by rewrite andb_true_iff, bool_decide_eq_true.
Qed.

(** The clients of one configuration and HTTP client, its limiter being chosen. *)
Lemma clients_made (c : ClientConfig) h :
  Config_UserAgent c <> "" ->
  always (let* apiV1beta1 := ApiV1beta1_NewForConfigAndClient c h in
          match apiV1beta1 with
          | Err e => Ret (Err e)
          | Ok apiV1beta1 =>
              let* discovery := op (NewDiscoveryClientForConfigAndClient c h) in
              match discovery with
              | Err e => Ret (Err e)
              | Ok discovery => Ret (Ok (mkClientset (Some discovery) (Some apiV1beta1)))
              end
          end) (fun tr res =>
    match res with
    | Ok cs => exists rest disc,
        tr = [event (RESTClientForConfigAndClient (with_api_defaults c) h) (Ok rest);
              event (NewDiscoveryClientForConfigAndClient c h) (Ok disc)] /\
        cs = mkClientset (Some disc) (Some (mkApiV1beta1Client (Some rest)))
    | Err e => exists v, v ∈ tr /\ call_error v = Some e
    end).
Proof.
  intros Hagent. unfold ApiV1beta1_NewForConfigAndClient. rewrite setConfigDefaults_named by done.
  intros [rest|e]; [|by eexists; split; [in_trace|]].
  intros [disc|e]; [by exists rest, disc|]. eexists; split; [apply list_elem_of_further; in_trace|done].
Qed.

Lemma NewForConfigAndClient_correct c h :
  Config_UserAgent c <> "" ->
  always (NewForConfigAndClient c h) (fun tr res =>
    match res with
    | Ok cs => unhindered tr c /\ exists limiter rest disc,
        limiter_from tr c limiter /\
        (let config := completed_config c (Config_UserAgent c) limiter in
         event (RESTClientForConfigAndClient (with_api_defaults config) h) (Ok rest) ∈ tr /\
         event (NewDiscoveryClientForConfigAndClient config h) (Ok disc) ∈ tr) /\
        cs = mkClientset (Some disc) (Some (mkApiV1beta1Client (Some rest)))
    | Err e => refused tr c e
    end).
Proof.
  intros Hagent. unfold NewForConfigAndClient. rewrite asks_limiter_test. unfold refused, unhindered, limiter_from.
  destruct (decide (asks_limiter c)) as [Hasks|Hasks];
    [rewrite bool_decide_true by done|rewrite bool_decide_false by done].
  - destruct (Z.leb_spec (Config_Burst c) 0) as [Hburst|Hburst]; [by left|].
    intros l. eapply always_impl; [by apply clients_made|].
    intros tr [cs|e]; [intros (rest & disc & -> & ->)|intros (v & Hv & He); right; exists v; by split; [right|]].
    split; [split; [done|]; repeat constructor|]. exists (Some l), rest, disc.
    split; [exists l; split; [done|in_trace]|]. rewrite completed_config_limiter. by split; [split; in_trace|].
  - eapply always_impl; [by apply clients_made|].
    intros tr [cs|e]; [intros (rest & disc & -> & ->)|by right].
    split; [split; [done|]; repeat constructor|]. exists (Config_RateLimiter c), rest, disc.
    split; [done|]. rewrite completed_config_id. by split; [split; in_trace|].
Qed.

Lemma with_UserAgent_id c : with_UserAgent c (Config_UserAgent c) = c.
Proof. by destruct c. Qed.

Lemma limiter_from_mono tr tr' c l :
  (forall v, v ∈ tr -> v ∈ tr') -> limiter_from tr c l -> limiter_from tr' c l.
Proof. unfold limiter_from. intros Hin. case_decide; [|done]. intros (k & -> & Hk). eauto. Qed.

(** [NewForConfig] after it chose the agent. *)
Lemma clients_for c :
  Config_UserAgent c <> "" ->
  always (let* httpClient := op (HTTPClientFor c) in
          match httpClient with
          | Err e => Ret (Err e)
          | Ok httpClient => NewForConfigAndClient c httpClient
          end) (fun tr res =>
    match res with
    | Ok cs => unhindered tr c /\ exists limiter h rest disc,
        limiter_from tr c limiter /\ event (HTTPClientFor c) (Ok h) ∈ tr /\
        (let config := completed_config c (Config_UserAgent c) limiter in
         event (RESTClientForConfigAndClient (with_api_defaults config) h) (Ok rest) ∈ tr /\
         event (NewDiscoveryClientForConfigAndClient config h) (Ok disc) ∈ tr) /\
        cs = mkClientset (Some disc) (Some (mkApiV1beta1Client (Some rest)))
    | Err e => refused tr c e
    end).
Proof.
  intros Hagent. intros [h|e]; [|by right; eexists; split; [in_trace|]].
  eapply always_impl; [by apply NewForConfigAndClient_correct|].
  intros tr [cs|e] H; cbv beta in H |- *.
  - destruct H as [[Hb He] (limiter & rest & disc & Hl & [Hr Hd] & ->)].
    split; [split; [done|by constructor]|]. exists limiter, h, rest, disc.
    split; [by eapply limiter_from_mono; [|exact Hl]; intros v Hv; right|].
    split; [in_trace|]. by split; [split; right|].
  - destruct H as [(-> & Ha & Hb)|(v & Hv & He)]; [by left|]. right. exists v. by split; [right|].
Qed.

Lemma made_from_mono tr tr' c cs :
  (forall v, v ∈ tr -> v ∈ tr') -> made_from tr c cs -> made_from tr' c cs.
Proof.
  intros Hin (agent & limiter & h & rest & disc & Ha & Hl & Hh & [Hr Hd] & ->).
  exists agent, limiter, h, rest, disc. split; [unfold agent_from in *; by destruct (String.eqb _ _); auto|].
  split; [by eapply limiter_from_mono|]. repeat split; auto.
Qed.

(** Making the clients from a configuration succeeds exactly when its burst goes
    with its rate and no call fails; otherwise the error says so, or is that of
    the call.  The clients made share one HTTP client, one agent that is never
    empty, and one rate limiter: the configured one, or a single new bucket. *)
Lemma NewForConfig_made c :
  always (NewForConfig c) (fun tr res =>
    agents_named tr ->
    match res with
    | Ok cs => unhindered tr c /\ made_from tr c cs
    | Err e => refused tr c e
    end).
Proof.
  unfold NewForConfig. destruct (String.eqb_spec (Config_UserAgent c) "") as [Hempty|Hagent].
  - intros agent. destruct (decide (agent = "")) as [->|Hagent].
    { eapply always_impl; [apply always_trivial|]. intros tr res _ Hnamed.
      by destruct (Hnamed "" ltac:(in_trace)). }
    eapply always_impl; [by apply (clients_for (with_UserAgent c agent))|].
    intros tr [cs|e] H _; cbv beta in H |- *.
    + destruct H as [[Hb He] (limiter & h & rest & disc & Hl & Hh & [Hr Hd] & ->)].
      split; [split; [exact Hb|by constructor]|]. exists agent, limiter, h, rest, disc.
      unfold agent_from. rewrite Hempty. split; [in_trace|].
      split; [by eapply limiter_from_mono; [|exact Hl]; intros v Hv; right|].
      split; [by right|]. split; [by split; right|done].
    + destruct H as [(-> & Ha & Hb)|(v & Hv & He)]; [by left|]. right. exists v. by split; [right|].
  - eapply always_impl; [by apply clients_for|].
    intros tr [cs|e] H _; cbv beta in H |- *; [|exact H].
    destruct H as [Hu (limiter & h & rest & disc & Hl & Hh & Hr & ->)].
    split; [exact Hu|]. exists (Config_UserAgent c), limiter, h, rest, disc.
    unfold agent_from. rewrite (proj2 (String.eqb_neq _ _) Hagent).
    by rewrite with_UserAgent_id.
Qed.

Module Clientset_example.
Definition no_files : Fs := mkFs ∅ ∅ 3 "".
Definition config (qps : spec_float) (burst : Z) : ClientConfig := mkClientConfig "" None None "" None qps burst "".
Definition make (qps : spec_float) (burst : Z) : result GoError Clientset :=
  (exec (os_serve (fun _ => Err no_entry)) (NewForConfig (config qps burst)) no_files).1.

(** A rate of 5 a second needs a burst; a rate that is no number asks for no limiter. *)
Example rate_without_burst : make (S754_finite false 5 0) 0 = Err burst_required.
Proof. reflexivity. Qed.
Example rate_with_burst : is_ok (make (S754_finite false 5 0) 10) = true.
Proof. reflexivity. Qed.
Example rate_nan : is_ok (make S754_nan 0) = true.
Proof. reflexivity. Qed.
End Clientset_example.
