(* ===== verification/FakeClient.v ===== *)
(** * The fake client (pkg/generated/clientset/fake, typed/api/v1beta1/fake)

    The clients that unit tests use in the place of those of Scheme and
    Clientset.  They answer from an object tracker and a chain of reactors,
    which are those of client-go/testing: operations here.  What the generated
    code decides - which tracker, which reactors, which resource and kind, and
    when it panics - is modelled, and compared with the real clients. *)

From Stdlib Require Import ZArith String.
From S2P Require Import Prelude Effects GoStd K8s Api Client Scheme.

Local Open Scope string_scope.
Local Open Scope list_scope.
Local Open Scope prog_scope.

(** ** The package client-go/testing *)

(** An object tracker, the struct [Fake] of a set of clients, a watch: objects
    of client-go, told apart by an identity. *)
Definition ObjectTracker : Type := Z.
Definition Fake : Type := Z.
Definition Watch : Type := Z.

(** [schema.GroupVersionResource], [schema.GroupVersionKind]. *)
Record GroupVersionResource := mkGVR { GVR_GroupVersion : SchemaGroupVersion; GVR_Resource : string }.
Record GroupVersionKind := mkGVK { GVK_GroupVersion : SchemaGroupVersion; GVK_Kind : string }.

(** What the reactors ask an action for; [ListOptions] of a watch action, which
    other actions do not have. *)
Record Action := mkAction {
  Action_Resource : GroupVersionResource;
  Action_Namespace : string;
  WatchActionImpl_ListOptions : option Rest
}.
Definition zero_ListOptions : Rest := "".

(** The functions that are given to a [Fake]: the reaction that client-go makes
    of a tracker, and the closure of [NewSimpleClientset]. *)
Inductive Reaction := ObjectReaction (o : ObjectTracker).
Inductive WatchReaction := WatchTracker (o : ObjectTracker).

(** An object that a test gives, told apart by an identity. *)
Definition RuntimeObject : Type := Z.

Inductive FakeOp : Type -> Type :=
| NewObjectTracker : FakeOp ObjectTracker        (* over the scheme of the package *)
| TrackerAdd (o : ObjectTracker) (obj : RuntimeObject) : FakeOp (option GoError)
| TrackerWatch (o : ObjectTracker) (gvr : GroupVersionResource) (ns : string) (opts : Rest) :
    FakeOp (result GoError Watch)
| AllocateFake : FakeOp Fake                     (* that of a new [Clientset] *)
| AddReactor (f : Fake) (verb resource : string) (reaction : Reaction) : FakeOp unit
| AddWatchReactor (f : Fake) (resource : string) (reaction : WatchReaction) : FakeOp unit.

Notation fake_prog := (free FakeOp).

(** ** The set of clients *)

Record FakeDiscovery := mkFakeDiscovery { FakeDiscovery_Fake : Fake }.

(** [Clientset], which embeds its [Fake]. *)
Record FakeClientset := mkFakeClientset {
  FakeClientset_Fake : Fake;
  discovery : FakeDiscovery;
  tracker : ObjectTracker
}.

(** The loop that adds the objects; the error it panics with, if any. *)
Fixpoint add_objects (o : ObjectTracker) (objects : list RuntimeObject) : fake_prog (option GoError) :=
  match objects with
  | [] => Ret None
  | obj :: objects =>
      let* err := op (TrackerAdd o obj) in
      match err with
      | Some err => Ret (Some err)
      | None => add_objects o objects
      end
  end.

(** [Err]: the panic. *)
Definition NewSimpleClientset (objects : list RuntimeObject) : fake_prog (result GoError FakeClientset) :=
  let* o := op NewObjectTracker in
  let* err := add_objects o objects in
  match err with
  | Some err => Ret (Err err)
  | None =>
      let* fake := op AllocateFake in
      let cs := mkFakeClientset fake (mkFakeDiscovery fake) o in
      let* _ := op (AddReactor fake "*" "*" (ObjectReaction o)) in
      let* _ := op (AddWatchReactor fake "*" (WatchTracker o)) in
      Ret (Ok cs)
  end.

(** The closure: whether it handled the action, its watch and its error. *)
Definition react_watch (reaction : WatchReaction) (action : Action) :
    fake_prog (bool * option Watch * option GoError) :=
  let '(WatchTracker o) := reaction in
  let opts := match WatchActionImpl_ListOptions action with
              | Some opts => opts
              | None => zero_ListOptions
              end in
  let gvr := Action_Resource action in
  let ns := Action_Namespace action in
  let* watch := op (TrackerWatch o gvr ns opts) in
  match watch with
  | Err err => Ret (false, None, Some err)
  | Ok watch => Ret (true, Some watch, None)
  end.

(** The accessors; [None] is the panic of a nil receiver.  [FakeApiV1beta1]
    embeds a pointer to the [Fake]. *)
Record FakeApiV1beta1 := mkFakeApiV1beta1 { FakeApi_Fake : option Fake }.

Definition FakeClientset_Discovery (c : option FakeClientset) : option FakeDiscovery := discovery <$> c.
Definition Tracker (c : option FakeClientset) : option ObjectTracker := tracker <$> c.
Definition FakeClientset_ApiV1beta1 (c : option FakeClientset) : option FakeApiV1beta1 :=
  (fun c => mkFakeApiV1beta1 (Some (FakeClientset_Fake c))) <$> c.
Definition IsWatchListSemanticsUnSupported (c : option FakeClientset) : bool := true.

(** An interface that holds a pointer to a REST client is not [nil], even when
    the pointer is. *)
Inductive RestInterface := NilInterface | RESTClientPointer (c : option RESTClient).

Definition FakeApiV1beta1_RESTClient (c : option FakeApiV1beta1) : RestInterface := RESTClientPointer None.

(** ** The clients of the kinds *)

Record ObjectList (T : Type) := mkObjectList { ListMeta : Rest; Items : list T }.
Arguments mkObjectList {T}.
Arguments ListMeta {T}.
Arguments Items {T}.

(** The arguments of [gentype.NewFakeClientWithList]. *)
Record FakeClientWithList (T : Type) := mkFakeClientWithList {
  Typed_Fake : option Fake;
  Fake_namespace : string;
  Fake_resource : GroupVersionResource;
  Fake_kind : GroupVersionKind;
  Fake_newObject : string;
  Fake_newList : string;
  copyListMeta : ObjectList T -> ObjectList T -> ObjectList T;   (* [dst] afterwards *)
  toPtrSlice : ObjectList T -> list T;
  fromPtrSlice : ObjectList T -> list T -> ObjectList T
}.
Arguments mkFakeClientWithList {T}.
Arguments Typed_Fake {T}.
Arguments Fake_namespace {T}.
Arguments Fake_resource {T}.
Arguments Fake_kind {T}.
Arguments Fake_newObject {T}.
Arguments Fake_newList {T}.
Arguments copyListMeta {T}.
Arguments toPtrSlice {T}.
Arguments fromPtrSlice {T}.

Definition with_ListMeta {T} (dst src : ObjectList T) : ObjectList T := mkObjectList (ListMeta src) (Items dst).
Definition with_Items {T} (l : ObjectList T) (items : list T) : ObjectList T := mkObjectList (ListMeta l) items.

Definition WithResource (gv : SchemaGroupVersion) (resource : string) := mkGVR gv resource.
Definition WithKind (gv : SchemaGroupVersion) (kind : string) := mkGVK gv kind.

Section typed.
(** A nil [fake] panics: [None]. *)
Variable fake : option FakeApiV1beta1.
Variable namespace : string.

Definition newFakeCrawlers : option (FakeClientWithList Crawler) :=
  fake ← fake;
  Some (mkFakeClientWithList (FakeApi_Fake fake) namespace
    (WithResource SchemeGroupVersion "crawlers") (WithKind SchemeGroupVersion "Crawler")
    "Crawler" "CrawlerList" with_ListMeta Items with_Items).
Definition newFakeCronSearches : option (FakeClientWithList CronSearch) :=
  fake ← fake;
  Some (mkFakeClientWithList (FakeApi_Fake fake) namespace
    (WithResource SchemeGroupVersion "cronsearches") (WithKind SchemeGroupVersion "CronSearch")
    "CronSearch" "CronSearchList" with_ListMeta Items with_Items).
Definition newFakeDownloaders : option (FakeClientWithList Downloader) :=
  fake ← fake;
  Some (mkFakeClientWithList (FakeApi_Fake fake) namespace
    (WithResource SchemeGroupVersion "downloaders") (WithKind SchemeGroupVersion "Downloader")
    "Downloader" "DownloaderList" with_ListMeta Items with_Items).
Definition newFakePipelines : option (FakeClientWithList Pipeline) :=
  fake ← fake;
  Some (mkFakeClientWithList (FakeApi_Fake fake) namespace
    (WithResource SchemeGroupVersion "pipelines") (WithKind SchemeGroupVersion "Pipeline")
    "Pipeline" "PipelineList" with_ListMeta Items with_Items).
Definition newFakeProfiles : option (FakeClientWithList Profile) :=
  fake ← fake;
  Some (mkFakeClientWithList (FakeApi_Fake fake) namespace
    (WithResource SchemeGroupVersion "profiles") (WithKind SchemeGroupVersion "Profile")
    "Profile" "ProfileList" with_ListMeta Items with_Items).
Definition newFakeSearches : option (FakeClientWithList Search) :=
  fake ← fake;
  Some (mkFakeClientWithList (FakeApi_Fake fake) namespace
    (WithResource SchemeGroupVersion "searches") (WithKind SchemeGroupVersion "Search")
    "Search" "SearchList" with_ListMeta Items with_Items).
Definition newFakeUploaders : option (FakeClientWithList Uploader) :=
  fake ← fake;
  Some (mkFakeClientWithList (FakeApi_Fake fake) namespace
    (WithResource SchemeGroupVersion "uploaders") (WithKind SchemeGroupVersion "Uploader")
    "Uploader" "UploaderList" with_ListMeta Items with_Items).

Definition FakeCrawlers := newFakeCrawlers.
Definition FakeCronSearches := newFakeCronSearches.
Definition FakeDownloaders := newFakeDownloaders.
Definition FakePipelines := newFakePipelines.
Definition FakeProfiles := newFakeProfiles.
Definition FakeSearches := newFakeSearches.
Definition FakeUploaders := newFakeUploaders.
End typed.

(** ** The scheme of the package (register.go) *)

Section registration.
Context `{!SchemeBuilderMethods}.

Definition fake_localSchemeBuilder : SchemeBuilder := [AddToScheme initialised_builder].

(** [None] when [utilruntime.Must] panics. *)
Definition init_fake : free SchemeOp (option unit) :=
  let* _ := op (AddToGroupVersion (mkSchemaGroupVersion "" "v1")) in
  let* err := AddToScheme fake_localSchemeBuilder in
  match err with Some _ => Ret None | None => Ret (Some tt) end.
End registration.

(** ** What a set of clients is made of *)

Definition added (o : ObjectTracker) (obj : RuntimeObject) : event_of FakeOp := event (TrackerAdd o obj) None.

Lemma add_objects_paths o objects :
  always (add_objects o objects) (fun tr err =>
    match err with
    | None => tr = added o <$> objects
    | Some e => exists before obj after, objects = before ++ obj :: after /\
        tr = (added o <$> before) ++ [event (TrackerAdd o obj) (Some e)]
    end).
Proof.
  induction objects as [|obj objects IH]; [done|]. intros [e|].
  - by exists [], obj, objects.
  - eapply always_impl; [exact IH|]. intros tr [e|]; [|by intros ->].
    intros (before & obj' & after & -> & ->). by exists (obj :: before), obj', after.
Qed.

(** The clients of [cs], by what they send their actions to. *)
Definition shares_fake (cs : FakeClientset) : Prop :=
  FakeClientset_Discovery (Some cs) = Some (mkFakeDiscovery (FakeClientset_Fake cs)) /\
  FakeClientset_ApiV1beta1 (Some cs) = Some (mkFakeApiV1beta1 (Some (FakeClientset_Fake cs))).

(** A set of fake clients is made with one tracker, to which the objects are
    added in order.  It panics at the first one that the tracker refuses;
    otherwise all clients share one chain of reactors, whose only ones take
    every action and every watch to that tracker. *)
Lemma NewSimpleClientset_outcomes objects :
  always (NewSimpleClientset objects) (fun tr res => exists o,
    match res with
    | Err e => exists before obj after, objects = before ++ obj :: after /\
        tr = event NewObjectTracker o :: (added o <$> before) ++ [event (TrackerAdd o obj) (Some e)]
    | Ok cs => Tracker (Some cs) = Some o /\ shares_fake cs /\
        tr = event NewObjectTracker o :: (added o <$> objects) ++
          [event AllocateFake (FakeClientset_Fake cs);
           event (AddReactor (FakeClientset_Fake cs) "*" "*" (ObjectReaction o)) tt;
           event (AddWatchReactor (FakeClientset_Fake cs) "*" (WatchTracker o)) tt]
    end).
Proof.
  intros o. simpl. apply always_bind. eapply always_impl; [apply add_objects_paths|]. intros tr [e|].
  - intros (before & obj & after & -> & ->). exists o, before, obj, after. by rewrite app_nil_r.
  - intros ->. by intros fake [] []; exists o.
Qed.

(** A watch is answered by the tracker of the set it goes through, with the
    options of the action; an error of the tracker is passed on as not handled. *)
Lemma react_watch_asks_tracker o action :
  always (react_watch (WatchTracker o) action) (fun tr res => exists answer,
    tr = [event (TrackerWatch o (Action_Resource action) (Action_Namespace action)
            (default zero_ListOptions (WatchActionImpl_ListOptions action))) answer] /\
    res = match answer with Ok w => (true, Some w, None) | Err e => (false, None, Some e) end).
Proof.
  intros answer. unfold default. destruct answer as [w|e]; simpl; [exists (Ok w)|exists (Err e)];
    by destruct (WatchActionImpl_ListOptions action).
Qed.

(** ** The fake and the real typed clients *)

(** What tells the clients of the kinds apart, of a real and of a fake one. *)
Record TypedView := mkTypedView {
  View_namespace : string; View_GroupVersion : SchemaGroupVersion; View_resource : string;
  View_object : string; View_list : string
}.
Definition real_view (t : ClientWithList) : TypedView :=
  mkTypedView (Typed_namespace t) SchemeGroupVersion (Typed_resource t) (Typed_newObject t) (Typed_newList t).
Definition fake_view {T} (t : FakeClientWithList T) : TypedView :=
  mkTypedView (Fake_namespace t) (GVR_GroupVersion (Fake_resource t)) (GVR_Resource (Fake_resource t))
    (Fake_newObject t) (Fake_newList t).

(** The kind it names for its actions is that of its objects, in the same version. *)
Definition names_its_kind {T} (t : FakeClientWithList T) : Prop :=
  Fake_kind t = mkGVK (GVR_GroupVersion (Fake_resource t)) (Fake_newObject t).

(** Taking the objects out of a list and putting others in changes them only. *)
Definition list_laws {T} (t : FakeClientWithList T) : Prop := forall l l' items,
  toPtrSlice t (fromPtrSlice t l items) = items /\ fromPtrSlice t l (toPtrSlice t l) = l /\
  toPtrSlice t (copyListMeta t l l') = toPtrSlice t l /\ ListMeta (copyListMeta t l l') = ListMeta l'.

Definition stands_for {T} (fake : option FakeApiV1beta1) (t : option (FakeClientWithList T))
    (real : ClientWithList) : Prop :=
  match fake, t with
  | Some fake, Some t =>
      Typed_Fake t = FakeApi_Fake fake /\ fake_view t = real_view real /\ names_its_kind t /\ list_laws t
  | None, None => True
  | _, _ => False
  end.

Ltac stands_for_tac :=
  match goal with |- stands_for ?f _ _ => destruct f as [[?]|]; [|exact I] end;
  split; [reflexivity|]; split; [reflexivity|]; split; [reflexivity|];
  intros [] [] items; repeat split; reflexivity.

(** Every fake client stands for the real client of the same kind: the same
    resource of the same version and namespace, the same types. *)
Lemma fake_clients_stand_for fake c ns :
  stands_for fake (FakeCrawlers fake ns) (Crawlers c ns) /\
  stands_for fake (FakeCronSearches fake ns) (CronSearches c ns) /\
  stands_for fake (FakeDownloaders fake ns) (Downloaders c ns) /\
  stands_for fake (FakePipelines fake ns) (Pipelines c ns) /\
  stands_for fake (FakeProfiles fake ns) (Profiles c ns) /\
  stands_for fake (FakeSearches fake ns) (Searches c ns) /\
  stands_for fake (FakeUploaders fake ns) (Uploaders c ns).
Proof. split_and!; stands_for_tac. Qed.

(** The tracker is over a scheme that has what the scheme of the real clients
    has. *)
Lemma fake_scheme_agrees `{SchemeBuilderMethods} : init_fake = init_scheme.
Proof. reflexivity. Qed.

(** Where they differ: a fake client of the API group has no REST client, but
    the interface it gives is not nil. *)
Lemma fake_rest_client c : FakeApiV1beta1_RESTClient c <> NilInterface.
Proof. done. Qed.

Module FakeClient_example.
(** A tracker that refuses an object it has. *)
Definition refusing : handler_of FakeOp (list RuntimeObject) := fun X e w =>
  match e in FakeOp X return X * list RuntimeObject with
  | NewObjectTracker => (1%Z, [])
  | TrackerAdd _ obj => if decide (obj ∈ w) then (Some APIAlreadyExists, w) else (None, obj :: w)
  | TrackerWatch _ _ _ _ => (Ok 7%Z, w)
  | AllocateFake => (2%Z, w)
  | AddReactor _ _ _ _ => (tt, w)
  | AddWatchReactor _ _ _ => (tt, w)
  end.

Example distinct_objects :
  exec refusing (NewSimpleClientset [3; 4]%Z) [] = (Ok (mkFakeClientset 2 (mkFakeDiscovery 2) 1), [4; 3]%Z).
Proof. reflexivity. Qed.
Example same_object_twice : exec refusing (NewSimpleClientset [3; 3; 4]%Z) [] = (Err APIAlreadyExists, [3%Z]).
Proof. reflexivity. Qed.
End FakeClient_example.
