(* ===== verification/Signals.v ===== *)
(** * Signals (internal/process/signals.go, subprocess.go)

    What a signal to the sidecar or to the scheduler leads to.  Two channels are
    notified of it: that of [CancelContextSigterm], of capacity 1, whose
    goroutine cancels the context on the first SIGTERM or SIGINT, and that of
    [HookCommand], of capacity 32, whose goroutine relays every signal but
    SIGCHLD to the command.  The package exec, in turn, watches the context and
    interrupts the command when it is done.

    The three goroutines, the command and the senders of signals interleave; an
    execution is a list of events.  It begins when [CancelContextSigterm] has
    called [signal.Notify] and ends with the process. *)

From Stdlib Require Import ZArith Lia.
From S2P Require Import Prelude.

Local Open Scope list_scope.

Inductive Signal := SIGTERM | SIGINT | SIGCHLD | SIGKILL | OtherSignal (n : Z).

#[export] Instance Signal_eq_dec : EqDecision Signal.
Proof. solve_decision. Defined.

(** ** The goroutines *)

(** The signals [CancelContextSigterm] asks for. *)
Definition terminating (sig : Signal) : bool := bool_decide (sig ∈ [SIGTERM; SIGINT]).

(** [signal.Notify] never blocks: a signal for a full channel is dropped. *)
Definition notify (capacity : nat) (sig : Signal) (pending : list Signal) : list Signal :=
  if bool_decide (length pending < capacity)%nat then pending ++ [sig] else pending.

(** The function [CancelContextSigterm] returns, run as a goroutine: at
    [<-sigTerm], at [cancel()], or returned. *)
Inductive Awaiter := AwaitingSignal | Cancelling | AwaitReturned.

(** The goroutine of [HookCommand]: not started, at its channel, or at
    [cmd.Process.Signal(sig)]. *)
Inductive Relay := RelayNotStarted | RelayReceiving | RelaySending (sig : Signal).

Inductive CommandState := NotStarted | Running | Ended.

(** The pending signals of both channels, whether [HookCommand] has asked for
    signals yet, the goroutines, whether the context is
    done, the command, whether exec has called [cmd.Cancel], and the signals the
    command got. *)
Record Signalled := mkSignalled {
  SigTerm : list Signal;
  Await : Awaiter;
  ContextDone : bool;
  HookListens : bool;
  SigCh : list Signal;
  Relaying : Relay;
  Command : CommandState;
  Interrupted : bool;
  Received : list Signal
}.

(** After the call of [signal.Notify] in [CancelContextSigterm]. *)
Definition CancelContextSigterm_notified : Signalled :=
  mkSignalled [] AwaitingSignal false false [] RelayNotStarted NotStarted false [].

(** A signal arrives; [HookCommand] calls [signal.Notify]; a goroutine makes its next step, [ok] telling whether the
    call succeeded; exec calls [cmd.Cancel], and kills the command when it has
    not ended within [cmd.WaitDelay]; the command ends. *)
Inductive Event :=
| Arrived (sig : Signal)
| HookNotified
| AwaitReceived
| ContextCancelled
| CommandStarted (ok : bool)
| RelayReceived
| Relayed (sig : Signal) (ok : bool)
| CommandCancelled (ok : bool)
| CommandKilled
| CommandEnded.

(** The command gets a signal when the call succeeds and it has not ended. *)
Definition send (ok : bool) (sig : Signal) (s : Signalled) : list Signal :=
  match Command s with
  | Running => if ok then Received s ++ [sig] else Received s
  | _ => Received s
  end.

Definition arrive (sig : Signal) (s : Signalled) : Signalled :=
  mkSignalled (if terminating sig then notify 1 sig (SigTerm s) else SigTerm s) (Await s) (ContextDone s)
    (HookListens s) (if HookListens s then notify 32 sig (SigCh s) else SigCh s)
    (Relaying s) (Command s) (Interrupted s) (Received s).

(** A signal nobody has asked for has its default action; but for SIGCHLD, that
    is to end the process here. *)
Definition survives (sig : Signal) (s : Signalled) : bool :=
  HookListens s || terminating sig || bool_decide (sig = SIGCHLD).

(** The goroutine [awaitSigterm]. *)
Definition await_step (ev : Event) (s : Signalled) : option Signalled :=
  let '(mkSignalled sigTerm aw isDone listens sigCh relay command interrupted received) := s in
  match ev, aw, sigTerm with
  | AwaitReceived, AwaitingSignal, _ :: sigTerm =>
      Some (mkSignalled sigTerm Cancelling isDone listens sigCh relay command interrupted received)
  | ContextCancelled, Cancelling, _ =>
      Some (mkSignalled sigTerm AwaitReturned true listens sigCh relay command interrupted received)
  | _, _, _ => None
  end.

(** The goroutine that relays. *)
Definition relay_step (ev : Event) (s : Signalled) : option Signalled :=
  let '(mkSignalled sigTerm aw isDone listens sigCh relay command interrupted received) := s in
  match ev, relay, sigCh with
  | RelayReceived, RelayReceiving, sig :: sigCh =>
      Some (mkSignalled sigTerm aw isDone listens sigCh
              (if bool_decide (sig = SIGCHLD) then RelayReceiving else RelaySending sig)
              command interrupted received)
  | Relayed sig ok, RelaySending sig', _ =>
      if bool_decide (sig = sig')
      then Some (mkSignalled sigTerm aw isDone listens sigCh RelayReceiving command interrupted (send ok sig s))
      else None
  | _, _, _ => None
  end.

(** [HookCommand] asks for signals first.  [cmd.Start()] fails when the context is done; it starts the command, which
    exec watches the context for, and [HookCommand] starts the relay. *)
Definition command_step (ev : Event) (s : Signalled) : option Signalled :=
  let '(mkSignalled sigTerm aw isDone listens sigCh relay command interrupted received) := s in
  match ev, command with
  | HookNotified, NotStarted =>
      if listens then None
      else Some (mkSignalled sigTerm aw isDone true sigCh relay command interrupted received)
  | CommandStarted true, NotStarted =>
      if isDone || negb listens then None
      else Some (mkSignalled sigTerm aw isDone listens sigCh RelayReceiving Running interrupted received)
  | CommandStarted false, NotStarted =>
      if listens then Some (mkSignalled sigTerm aw isDone listens sigCh relay Ended interrupted received)
      else None
  | CommandCancelled ok, Running =>
      if isDone && negb interrupted
      then Some (mkSignalled sigTerm aw isDone listens sigCh relay command true (send ok SIGTERM s))
      else None
  | CommandKilled, Running =>
      if interrupted
      then Some (mkSignalled sigTerm aw isDone listens sigCh relay command interrupted (send true SIGKILL s))
      else None
  | CommandEnded, Running => Some (mkSignalled sigTerm aw isDone listens sigCh relay Ended interrupted received)
  | _, _ => None
  end.

Definition signal_step (ev : Event) (s : Signalled) : option Signalled :=
  match ev with
  | Arrived sig => if survives sig s then Some (arrive sig s) else None
  | AwaitReceived | ContextCancelled => await_step ev s
  | RelayReceived | Relayed _ _ => relay_step ev s
  | HookNotified | CommandStarted _ | CommandCancelled _ | CommandKilled | CommandEnded => command_step ev s
  end.

Fixpoint signal_run (s : Signalled) (log : list Event) : option Signalled :=
  match log with
  | [] => Some s
  | ev :: log => match signal_step ev s with Some s => signal_run s log | None => None end
  end.

#[export] Instance CommandState_eq_dec : EqDecision CommandState.
Proof. solve_decision. Defined.

#[export] Instance Event_eq_dec : EqDecision Event.
Proof. solve_decision. Defined.

(** ** Executions *)

Definition arrived (log : list Event) : list Signal :=
  omap (fun ev => match ev with Arrived sig => Some sig | _ => None end) log.

Lemma signal_run_app s log log' :
  signal_run s (log ++ log') = signal_run s log ≫= fun s => signal_run s log'.
Proof. revert s. induction log as [|ev log IH]; intros s; [done|]. simpl. by destruct (signal_step ev s). Qed.

(** Rule induction over the events of an execution. *)
Lemma signal_run_ind (P : list Event -> Signalled -> Prop) s0 :
  P [] s0 ->
  (forall log s ev s', signal_run s0 log = Some s -> P log s -> signal_step ev s = Some s' -> P (log ++ [ev]) s') ->
  forall log s, signal_run s0 log = Some s -> P log s.
Proof.
  intros H0 Hstep log. induction log as [|ev log IH] using rev_ind; intros s Hrun.
  { by injection Hrun as <-. }
  rewrite signal_run_app in Hrun. destruct (signal_run s0 log) as [s1|] eqn:E; [|done].
  simpl in Hrun. destruct (signal_step ev s1) eqn:E'; [|done]. injection Hrun as <-. eauto.
Qed.

Lemma arrived_app log log' : arrived (log ++ log') = arrived log ++ arrived log'.
Proof. apply omap_app. Qed.

(** Case analysis over a step. *)
Ltac step_cases H :=
  match type of H with
  | signal_step ?ev ?s = Some _ =>
      destruct s as [st aw dn li ch re co it rc], ev; simpl in H;
      repeat (case_match; simplify_eq/=; try done); simplify_eq/=;
      repeat match goal with E : _ && _ = true |- _ => apply andb_true_iff in E as [? ?]
             | E : bool_decide _ = true |- _ => apply bool_decide_eq_true in E
             | E : bool_decide _ = false |- _ => apply bool_decide_eq_false in E end; subst
  end.

Lemma signal_step_arrived ev s s' :
  signal_step ev s = Some s' ->
  (exists sig, ev = Arrived sig /\ s' = arrive sig s) \/
  (forall sig, ev <> Arrived sig) /\ (forall log, arrived (log ++ [ev]) = arrived log).
Proof.
  intros Hstep. destruct ev as [sig| | | | | | | | |];
    [left; simpl in Hstep; destruct (survives sig s); [injection Hstep as <-; eauto|done]|right; split; [done|]; intros log;
    rewrite arrived_app; simpl; by rewrite app_nil_r..].
Qed.

(** *** The context *)

(** Where the first terminating signal is. *)
Definition told (s : Signalled) : Prop :=
  match Await s with
  | AwaitingSignal => exists sig, SigTerm s = [sig]
  | Cancelling | AwaitReturned => True
  end.

Record await_invariant (log : list Event) (s : Signalled) : Prop := {
  told_arrived : told s <-> exists sig, sig ∈ arrived log /\ terminating sig = true;
  term_capacity : (length (SigTerm s) <= 1)%nat;
  done_returned : ContextDone s = true <-> Await s = AwaitReturned;
  interrupted_done : Interrupted s = true -> ContextDone s = true
}.

Lemma await_invariant_arrived log s sig :
  await_invariant log s -> await_invariant (log ++ [Arrived sig]) (arrive sig s).
Proof.
  intros [Htold Hcap Hdone Hint]. split; unfold arrive; simpl; [| |done|done].
  - assert ((exists sig', sig' ∈ arrived (log ++ [Arrived sig]) /\ terminating sig' = true) <->
            told s \/ terminating sig = true) as ->.
    { rewrite Htold, arrived_app. simpl. setoid_rewrite elem_of_app. setoid_rewrite list_elem_of_singleton.
      naive_solver. }
    unfold told. simpl. destruct (Await s); [|tauto..]. unfold notify.
    destruct (SigTerm s) as [|x [|y l]], (terminating sig); simpl in *; naive_solver (eauto; lia).
  - unfold notify. destruct (terminating sig); [|done]. case_bool_decide; [rewrite length_app; simpl; lia|done].
Qed.

Lemma await_invariant_step log s ev s' :
  await_invariant log s -> signal_step ev s = Some s' -> await_invariant (log ++ [ev]) s'.
Proof.
  intros Hinv Hstep. destruct (signal_step_arrived _ _ _ Hstep) as [(sig & -> & ->)|[Hsame Hno]].
  { by apply await_invariant_arrived. }
  destruct Hinv as [Htold Hcap Hdone Hint]. rewrite <- (Hno log) in Htold.
  step_cases Hstep; (split; [rewrite <- Htold|..]); unfold told in *; simpl in *;
    first [done|by destruct (Hsame sig)|tauto|lia|intuition congruence|idtac].
  split; [intros _; eexists|done]. destruct l; [done|simpl in Hcap; lia].
Qed.

Lemma await_invariant_holds log s : signal_run CancelContextSigterm_notified log = Some s -> await_invariant log s.
Proof.
  revert log s. apply signal_run_ind; [|intros log s ev s' _; apply await_invariant_step].
  split; simpl; [|lia|done|done]. split; [by intros [sig [=]]|].
  intros (sig & Hin & _). by apply elem_of_nil in Hin.
Qed.

(** *** The relay *)

Definition relayed (log : list Event) : list Signal :=
  omap (fun ev => match ev with Relayed sig _ => Some sig | _ => None end) log.

Definition in_flight (s : Signalled) : list Signal :=
  match Relaying s with RelaySending sig => [sig] | _ => [] end.

Definition passed_on (l : list Signal) : list Signal := filter (fun sig => sig <> SIGCHLD) l.

Lemma relay_starts_with_command log s :
  signal_run CancelContextSigterm_notified log = Some s -> Command s = NotStarted -> Relaying s = RelayNotStarted.
Proof.
  revert log s. apply (signal_run_ind (fun _ s => Command s = NotStarted -> Relaying s = RelayNotStarted)); [done|].
  intros log s ev s' _ IH Hstep. step_cases Hstep; naive_solver.
Qed.

(** Every signal arrived when [HookCommand] listened and found room. *)
Definition keeps_up (log : list Event) : Prop :=
  forall log1 sig log2 s, log = log1 ++ Arrived sig :: log2 ->
    signal_run CancelContextSigterm_notified log1 = Some s ->
    HookListens s = true /\ (length (SigCh s) < 32)%nat.

Lemma keeps_up_app log log' : keeps_up (log ++ log') -> keeps_up log.
Proof.
  intros H log1 sig log2 s -> Hrun. eapply (H log1 sig (log2 ++ log')); [|done]. by rewrite <- app_assoc.
Qed.

(** The signals the relay passes on are, in order, those that arrived, but for
    SIGCHLD: what it has passed on, holds and has pending makes up all that found
    room in its channel, and nothing is lost as long as [HookCommand] listens and 32 are
    never pending. *)
Theorem relay_keeps_order log s :
  signal_run CancelContextSigterm_notified log = Some s ->
  exists kept, kept `sublist_of` arrived log /\
    relayed log ++ in_flight s ++ passed_on (SigCh s) = passed_on kept /\
    (keeps_up log -> kept = arrived log).
Proof.
  revert log s. apply signal_run_ind; [by exists []|].
  intros log s ev s' Hrun (kept & Hsub & Heq & Hup) Hstep.
  unfold relayed in *. rewrite omap_app.
  destruct (signal_step_arrived _ _ _ Hstep) as [(sig & -> & ->)|[Hne Hno]].
  - rewrite arrived_app. simpl. rewrite app_nil_r. unfold notify, in_flight in *. simpl.
    destruct (decide (HookListens s = true /\ (length (SigCh s) < 32)%nat)) as [[-> Hroom]|Hroom].
    + rewrite bool_decide_true by done. exists (kept ++ [sig]). split; [by apply sublist_app|]. unfold passed_on in *.
      rewrite !filter_app, <- Heq, <- !app_assoc. split; [done|].
      intros Hk. f_equal. apply Hup. by apply keeps_up_app in Hk.
    + exists kept. split; [by apply sublist_inserts_r|].
      split; [destruct (HookListens s); [case_bool_decide; [by destruct Hroom|done]|done]|].
      intros Hk. destruct Hroom. by apply (Hk log sig [] s).
  - rewrite Hno. exists kept. split; [done|].
    split; [|intros Hk; apply Hup; by apply keeps_up_app in Hk]. rewrite <- Heq.
    pose proof (relay_starts_with_command _ _ Hrun) as Hstart.
    unfold in_flight, passed_on. step_cases Hstep; rewrite ?app_nil_r, <- ?app_assoc; simpl;
      first [done|by destruct (Hne sig)|by rewrite filter_cons_False by tauto
            |by rewrite filter_cons_True|by specialize (Hstart eq_refl)].
Qed.

(** *** Termination *)

(** Steps of the process itself, none of which fails. *)
Definition own_step (ev : Event) : Prop :=
  match ev with AwaitReceived | ContextCancelled | CommandCancelled true => True | _ => False end.

Lemma send_keeps ok sig sig' s : sig ∈ Received s -> sig ∈ send ok sig' s.
Proof. intros Hin. unfold send. destruct (Command s), ok; rewrite ?elem_of_app; auto. Qed.

(** exec calls [cmd.Cancel] once, and when the call succeeds the command gets
    SIGTERM. *)
Lemma interrupted_received log s :
  signal_run CancelContextSigterm_notified log = Some s ->
  CommandCancelled false ∉ log -> Interrupted s = true -> SIGTERM ∈ Received s.
Proof.
  revert log s. apply (signal_run_ind (fun log s =>
    CommandCancelled false ∉ log -> Interrupted s = true -> SIGTERM ∈ Received s)); [done|].
  intros log s ev s' _ IH Hstep Hno Hint. rewrite not_elem_of_app, list_elem_of_singleton in Hno.
  destruct Hno as [Hno Hne]. specialize (IH Hno).
  step_cases Hstep; try by first [apply IH|apply send_keeps, IH].
  destruct ok; [|done]. apply elem_of_app. right. by apply list_elem_of_singleton.
Qed.

(** Once the context is done, a command that was not started is never started. *)
Lemma done_never_starts log s s' :
  signal_run s log = Some s' -> ContextDone s = true -> Command s = NotStarted ->
  ContextDone s' = true /\ Command s' <> Running.
Proof.
  intros Hrun Hdone Hcmd. cut (ContextDone s' = true /\ Command s' <> Running); [done|].
  revert log s' Hrun. apply (signal_run_ind (fun _ s' => ContextDone s' = true /\ Command s' <> Running)).
  { by rewrite Hcmd. }
  intros log s1 ev s2 _ [Hd Hc] Hstep. step_cases Hstep; naive_solver.
Qed.

Lemma told_cancels log s :
  await_invariant log s -> told s ->
  exists own s', signal_run s own = Some s' /\ Forall own_step own /\ (length own <= 2)%nat /\
    ContextDone s' = true /\ Command s' = Command s /\ Interrupted s' = Interrupted s /\ Received s' = Received s.
Proof.
  intros [_ _ Hdone _] Htold. destruct s as [st aw dn li ch re co it rc]. unfold told in Htold. simpl in *.
  destruct aw.
  - destruct Htold as [sig ->]. eexists [AwaitReceived; ContextCancelled], _.
    split; [reflexivity|]. by repeat constructor.
  - eexists [ContextCancelled], _. split; [reflexivity|]. repeat constructor.
  - eexists [], _. split; [reflexivity|]. repeat constructor. by apply Hdone.
Qed.

(** C18: sIGTERM and SIGINT are never lost, however many signals arrive and whatever
    the relay does.  After one arrived, the goroutine of the context needs at
    most two steps to cancel it.  A command that runs has got SIGTERM then, or
    gets it by one more step of exec, unless that call fails; one that was not
    started by then is never started.  Without such a signal, the context is not
    cancelled and the command is not interrupted. *)
Theorem termination_reaches_command log s :
  signal_run CancelContextSigterm_notified log = Some s ->
  if bool_decide (Exists (fun sig => terminating sig = true) (arrived log)) then
    exists own s', signal_run s own = Some s' /\ Forall own_step own /\ (length own <= 3)%nat /\
      ContextDone s' = true /\ Command s' = Command s /\
      (Command s = Running -> CommandCancelled false ∉ log -> SIGTERM ∈ Received s') /\
      (Command s = NotStarted -> forall log' s'', signal_run s' log' = Some s'' -> Command s'' <> Running)
  else ContextDone s = false /\ Interrupted s = false.
Proof.
  intros Hrun. pose proof (await_invariant_holds _ _ Hrun) as Hinv.
  case_bool_decide as Harr; rewrite Exists_exists, <- (told_arrived _ _ Hinv) in Harr.
  2: { destruct Hinv as [_ _ Hdone Hint]. unfold told in Harr.
       destruct (Await s), (ContextDone s), (Interrupted s); naive_solver. }
  destruct (told_cancels _ _ Hinv Harr) as (own & s1 & Hown & Hsteps & Hlen & Hd & Hc & Hi & Hr).
  destruct (decide (Command s = Running /\ Interrupted s = false)) as [[Hrunning Hint]|Hno].
  - destruct s1 as [st aw dn li ch re co it rc]. simpl in Hd, Hc, Hi, Hr. rewrite Hrunning in Hc. rewrite Hint in Hi.
    subst. eexists (own ++ [CommandCancelled true]), _. rewrite signal_run_app, Hown. simpl.
    split; [reflexivity|]. split; [apply Forall_app; by repeat constructor|].
    rewrite length_app. simpl. split; [lia|]. split; [done|]. split; [done|]. split; [|by rewrite Hrunning].
    intros _ _. apply elem_of_app. right. by apply list_elem_of_singleton.
  - exists own, s1. do 2 (split; [done|]). split; [lia|]. do 2 (split; [done|]). split.
    + intros Hrunning Hcalls. rewrite Hr. apply (interrupted_received _ _ Hrun Hcalls).
      destruct (Interrupted s); [done|]. by destruct Hno.
    + intros Hns log' s'' Hrun'. by eapply done_never_starts; [exact Hrun'| |rewrite Hc].
Qed.

Module Signals_example.
(** One SIGTERM to a container whose command runs. *)
Definition terminated : list Event :=
  [HookNotified; CommandStarted true; Arrived SIGTERM; RelayReceived; Relayed SIGTERM true; AwaitReceived; ContextCancelled].

Definition terminated_state : Signalled :=
  mkSignalled [] AwaitReturned true true [] RelayReceiving Running false [SIGTERM].

Lemma termination_reaches_command_witness :
  exists own s', signal_run terminated_state own = Some s' /\ Forall own_step own /\ SIGTERM ∈ Received s'.
Proof.
  destruct (termination_reaches_command terminated terminated_state eq_refl)
    as (own & s' & Hrun & Hown & _ & _ & _ & Hgot & _).
  exists own, s'. split; [exact Hrun|]. split; [exact Hown|].
  apply Hgot; [reflexivity|]. apply (bool_decide_unpack _). vm_compute. exact I.
Defined.

(** The command gets it twice: from the relay, and from exec. *)
Lemma terminated_twice :
  exists s', signal_run CancelContextSigterm_notified (terminated ++ [CommandCancelled true]) = Some s' /\
    Received s' = [SIGTERM; SIGTERM].
Proof. eexists. split; reflexivity. Qed.

(** A SIGINT reaches it as a SIGINT and a SIGTERM. *)
Lemma interrupted_twice :
  exists s', signal_run CancelContextSigterm_notified
      [HookNotified; CommandStarted true; Arrived SIGINT; RelayReceived; Relayed SIGINT true;
       AwaitReceived; ContextCancelled; CommandCancelled true] = Some s' /\ Received s' = [SIGINT; SIGTERM].
Proof. eexists. split; reflexivity. Qed.
End Signals_example.
