(* ===== verification/Kubelet.v ===== *)
(** * The environment of a container

    What the binaries of this repository rely on when they read the variables
    the controllers set for them: the kubelet starts a container with the
    values of its definition and, for a reference to a field of the pod, with
    that field. *)

From Stdlib Require Import ZArith Lia String Ascii.
From S2P Require Import Prelude Effects GoStd K8s Api Client Resources Containers ControllerCommon SearchController.

Local Open Scope string_scope.
Local Open Scope list_scope.

(** The value of a field of a pod. *)
Inductive pod_field (pod : Pod) : string -> string -> Prop :=
| field_namespace : pod_field pod "metadata.namespace" (Namespace (Pod_Meta pod))
| field_annotation key v :
    Annotations (Pod_Meta pod) !! key = Some v -> pod_field pod (annotation_field key) v.

(** The last definition of a variable counts; a value is expanded when it
    contains a [$]. *)
Class Kubelet : Type := {
  getenv : Pod -> Container -> string -> string;
  getenv_value pod c before after k v :
    C_Env c = before ++ [env_value k v] ++ after -> k ∉ (Env_Name <$> after) ->
    has_byte "$" v = false -> getenv pod c k = v;
  getenv_field pod c before after k path v :
    C_Env c = before ++ [env_field k path] ++ after -> k ∉ (Env_Name <$> after) ->
    pod_field pod path v -> getenv pod c k = v
}.

(** The variables of parameters have a prefix of their own. *)
Lemma parameter_env_names `{MapRange string} definitions settings parent k :
  has_prefix k "OCULAR_PARAM_" = false ->
  k ∉ (Env_Name <$> ParseParameterEnvVars definitions settings parent).
Proof.
  intros Hk (e & -> & (n & v & _ & ->)%ParseParameterEnvVars_elem)%list_elem_of_fmap.
  destruct (ParameterToEnvironmentVariable_wellformed n) as (suffix & Hn & _).
  change (has_prefix (ParameterToEnvironmentVariable n) "OCULAR_PARAM_" = false) in Hk.
  rewrite Hn in Hk. by destruct suffix.
Qed.

(** ** A kubelet that expands nothing *)

Definition field_value (pod : Pod) (path : string) : string :=
  if String.eqb path "metadata.namespace" then Namespace (Pod_Meta pod)
  else match List.find (fun kv => String.eqb (annotation_field kv.1) path)
               (map_to_list (Annotations (Pod_Meta pod))) with
       | Some kv => kv.2
       | None => ""
       end.

Definition entry_value (pod : Pod) (e : EnvVar) : string :=
  match Env_ValueFrom e with
  | Some (FieldRef path) => field_value pod path
  | _ => Env_Value e
  end.

Definition last_value (pod : Pod) (env : list EnvVar) (k : string) : string :=
  fold_left (fun v e => if String.eqb (Env_Name e) k then entry_value pod e else v) env "".

Lemma last_value_absent pod env k v :
  k ∉ (Env_Name <$> env) ->
  fold_left (fun v e => if String.eqb (Env_Name e) k then entry_value pod e else v) env v = v.
Proof.
  revert v; induction env as [|e env IH]; intros v Hnot; [done|].
  cbn [fmap list_fmap] in Hnot. apply not_elem_of_cons in Hnot as [Hne Hnot]. cbn [fold_left].
  destruct (String.eqb_spec (Env_Name e) k) as [Hk|_]; [by subst|by apply IH].
Qed.

Lemma last_value_last pod before e after :
  Env_Name e ∉ (Env_Name <$> after) ->
  last_value pod (before ++ [e] ++ after) (Env_Name e) = entry_value pod e.
Proof.
  intros Hafter. unfold last_value. rewrite fold_left_app. simpl. rewrite String.eqb_refl.
  by apply last_value_absent.
Qed.

Lemma string_app_inj_r a b t : a +:+ t = b +:+ t -> a = b.
Proof.
  revert b; induction a as [|c a IH]; intros [|d b] E; [done| | |].
  - apply (f_equal len) in E. rewrite !len_app in E. unfold len in E. simpl in E. lia.
  - apply (f_equal len) in E. rewrite !len_app in E. unfold len in E. simpl in E. lia.
  - injection E as -> E. by rewrite (IH b).
Qed.

Lemma annotation_field_inj k1 k2 : annotation_field k1 = annotation_field k2 -> k1 = k2.
Proof. unfold annotation_field. intros E%string_app_inj_l. by apply string_app_inj_r in E. Qed.

Lemma field_value_pod_field pod path v : pod_field pod path v -> field_value pod path = v.
Proof.
  destruct 1 as [|key v Hv]; [done|]. unfold field_value.
  change (String.eqb (annotation_field key) "metadata.namespace") with false. cbn iota.
  destruct (List.find _ _) as [[k v']|] eqn:E.
  - apply find_some in E as [Hin Hk%String.eqb_eq%annotation_field_inj]. simpl in *. subst k.
    apply list_elem_of_In, elem_of_map_to_list in Hin. rewrite Hv in Hin. by injection Hin.
  - apply elem_of_map_to_list, list_elem_of_In in Hv. apply (find_none _ _ E) in Hv. simpl in Hv.
    by rewrite String.eqb_refl in Hv.
Qed.

#[refine] Definition kubelet_model : Kubelet := {| getenv pod c k := last_value pod (C_Env c) k |}.
Proof.
  - intros pod c before after k v -> Hafter _.
    by apply (last_value_last pod before (env_value k v) after).
  - intros pod c before after k path v -> Hafter Hfield.
    etransitivity; [exact (last_value_last pod before (env_field k path) after Hafter)|].
    by apply field_value_pod_field.
Defined.
