(* ===== verification/Sidecar.v ===== *)
(** * The sidecar (cmd/sidecar, internal/process)

    The binary that wraps the commands of scanners and uploaders.  A wrapped
    scanner leaves a mark, a file named after its container, in a directory the
    containers of the pod share; a wrapped uploader polls that directory until
    the marks of all scanners are there, and only then starts its command.

    Each container runs one process; a process is a state machine whose
    transitions are the answers of the operating system to the call it is at.
    The containers of a pod run concurrently: a run of the pod is an
    interleaving of such answers, and its log lists them. *)

From Stdlib Require Import ZArith Lia String Ascii.
From S2P Require Import Prelude Effects GoStd K8s Api Client Os.

Local Open Scope string_scope.
Local Open Scope Z_scope.
Local Open Scope list_scope.

(** ** Commands *)

(** The answers [cmd.Wait] can give for a process that ended as [st] says. *)
Definition wait_answers (st : option WaitStatus) (err : option WaitError) : Prop :=
  match st, err with
  | Some (Exited 0), None => True
  | Some (Exited 0), Some (OtherError _) => True
  | Some ws, Some (ExitError ws') => ws = ws' /\ ws <> Exited 0
  | None, Some (OtherError _) => True
  | _, _ => False
  end.

(** ** The hooks of the sidecar *)

(** The answer of [os.Stat]. *)
Inductive StatResult :=
| StatFound
| StatNotExist
| StatFailed (e : GoError).

(** The path of the mark of a scanner, the environment being [env]. *)
Definition mark_path (env : string -> string) (scanner : string) : string :=
  path_join [env EnvVarProcessDir; scanner].

Definition IsScannerComplete (answer : StatResult) : result GoError bool :=
  match answer with
  | StatNotExist => Ok false
  | StatFailed e => Err e
  | StatFound => Ok true
  end.

(** A goroutine of [AwaitScans]: it polls, or it has returned. *)
Inductive Goroutine :=
| Polling
| Finished (err : option GoError).

Definition poll (answer : StatResult) : Goroutine :=
  match IsScannerComplete answer with
  | Err e => Finished (Some e)
  | Ok true => Finished None
  | Ok false => Polling
  end.

Definition finished (g : Goroutine) : bool :=
  match g with Finished _ => true | Polling => false end.

(** The goroutines [AwaitScans] starts; [g.Wait()] returns when all of them
    have returned. *)
Definition AwaitScans (scanners : list string) : list (string * Goroutine) :=
  (fun scanner => (scanner, Polling)) <$> scanners.

(** The content of the mark [ScanCompleteHook] writes. *)
Definition mark_content (st : option WaitStatus) : string := itoa (ProcessState_ExitCode st).

(** ** The process of a container *)

(** What a process was started with: its environment, the scanners it waits for
    before its command starts, the container whose mark it leaves after the
    command stopped, and the command. *)
Record Program := mkProgram {
  Environ : string -> string;
  PreStart : option (list string);
  PostStop : option string;
  UserCmd : Cmd
}.

(** Where the process is in [HookCommand], which Os has as a program. *)
Inductive Process :=
| Awaiting (goroutines : list (string * Goroutine))           (* in preStart *)
| Starting                                                    (* at cmd.Start() *)
| Waiting                                                     (* at cmd.Wait() *)
| Creating (st : option WaitStatus) (res : Z * option GoError)  (* in postStop, at os.Create *)
| Writing (st : option WaitStatus) (res : Z * option GoError)   (* in postStop, at f.WriteString *)
| Gone (code : Z).                                            (* after os.Exit *)

(** [main] after [HookCommand] returned. *)
Definition exit_code (res : Z * option GoError) : Z :=
  match res.2 with Some _ => 1 | None => res.1 end.

(** [HookCommand] returns: the deferred [postStop] runs first. *)
Definition return_hooked (p : Program) (st : option WaitStatus) (res : Z * option GoError) : Process :=
  match PostStop p with
  | Some _ => Creating st res
  | None => Gone (exit_code res)
  end.

(** The answers of the operating system: to the poll of the goroutine [k], to
    [g.Wait()], [cmd.Start()], [cmd.Wait()], [os.Create] and [f.WriteString].
    The container can also be killed at any time, with an exit code. *)
Inductive Answer :=
| Stat (k : nat) (answer : StatResult)
| Joined
| Start (err : option GoError)
| Wait (st : option WaitStatus) (err : option WaitError)
| Create (err : option GoError)
| Write (err : option GoError)
| Kill (code : Z).

(** One transition of [HookCommand]; an error of a hook is only logged. *)
Definition HookCommand_step (p : Program) (a : Answer) (s : Process) : option Process :=
  match s, a with
  | Gone _, _ => None
  | _, Kill code => Some (Gone code)
  | Awaiting gs, Stat k answer =>
      match gs !! k with
      | Some (scanner, Polling) => Some (Awaiting (<[k := (scanner, poll answer)]> gs))
      | _ => None
      end
  | Awaiting gs, Joined => if forallb (fun g => finished g.2) gs then Some Starting else None
  | Starting, Start (Some e) =>
      Some (return_hooked p None (-1, Some (Wrapped "unable to start command" e)))
  | Starting, Start None => Some Waiting
  | Waiting, Wait st err => Some (return_hooked p st (exit_code_of_wait err))
  | Creating st res, Create (Some _) => Some (Gone (exit_code res))
  | Creating st res, Create None => Some (Writing st res)
  | Writing st res, Write _ => Some (Gone (exit_code res))
  | _, _ => None
  end.

(** The command [init]: it installs the binary and makes the directory of the
    marks, and exits with the code; an error of the last call is only logged. *)
Definition sidecar_init (env : string -> string) : os_prog Z :=
  (let* code := install (env EnvVarSidecarPath) in
   match code with
   | Some code => Ret code
   | None =>
       let* _ := op (MkdirAll (env EnvVarProcessDir) 0x1ff) in   (* 0o777 *)
       Ret 0
   end)%prog.

(** [main] up to the call of [HookCommand], or up to the exit when it comes
    first; [init_code] is what [init] exits with. *)
Definition exits (env : string -> string) (code : Z) : Program * Process :=
  (mkProgram env None None (mkCmd "" [] 0), Gone code).

Definition main (init_code : Z) (env : string -> string) (args : list string) : Program * Process :=
  match args with
  | _ :: command :: userCmd =>
      if String.eqb command "init" then exits env init_code
      else if String.eqb command "await-scanners" then
        match BuildUserCommand userCmd with
        | Err _ => exits env 1
        | Ok cmd =>
            let scanners := strings_split (env EnvVarScanContainerNames) ","%char in
            (mkProgram env (Some scanners) None cmd, Awaiting (AwaitScans scanners))
        end
      else if String.eqb command "scanner" then
        match BuildUserCommand userCmd with
        | Err _ => exits env 1
        | Ok cmd => (mkProgram env None (Some (env EnvVarContainerName)) cmd, Starting)
        end
      else exits env 1
  | _ => exits env 1
  end.

(** ** The containers of a pod *)

(** The process directory and the processes, which share it.  [Marks] maps the
    path of a mark to its content; [Dirs] are the paths of directories. *)
Record PodState := mkPodState {
  Marks : gmap string string;
  Processes : list Process
}.

(** A call of a process and its answer. *)
Definition LogEntry : Type := nat * Answer.

Section pod.
Variable programs : list Program.
Variable dirs : gset string.

(** What is at a path. *)
Definition found (marks : gmap string string) (path : string) : Prop :=
  is_Some (marks !! path) \/ path ∈ dirs.

(** The answers the system can give, the marks being [marks]. *)
Definition answers (marks : gmap string string) (p : Program) (s : Process) (a : Answer) : Prop :=
  match a with
  | Stat k answer =>
      match s with
      | Awaiting gs => forall g, gs !! k = Some g ->
          match answer with
          | StatFound => found marks (mark_path (Environ p) g.1)
          | StatNotExist => ~ found marks (mark_path (Environ p) g.1)
          | StatFailed _ => True
          end
      | _ => True
      end
  | Wait st err => wait_answers st err
  | _ => True
  end.

(** What the hook after the command does to the marks. *)
Definition ScanCompleteHook (p : Program) (s : Process) (a : Answer) (marks : gmap string string) :
    gmap string string :=
  match PostStop p, s, a with
  | Some scanner, Creating _ _, Create None => <[mark_path (Environ p) scanner := ""]> marks
  | Some scanner, Writing st _, Write None =>
      <[mark_path (Environ p) scanner := mark_content st]> marks
  | _, _, _ => marks
  end.

(** A step of the pod: some process gets an answer. *)
Inductive pod_step : PodState -> LogEntry -> PodState -> Prop :=
| process_step marks procs i p s a s' :
    programs !! i = Some p -> procs !! i = Some s ->
    answers marks p s a -> HookCommand_step p a s = Some s' ->
    pod_step (mkPodState marks procs) (i, a)
      (mkPodState (ScanCompleteHook p s a marks) (<[i := s']> procs)).

Inductive pod_run (start : PodState) : list LogEntry -> PodState -> Prop :=
| run_start : pod_run start [] start
| run_step log state entry state' :
    pod_run start log state -> pod_step state entry state' ->
    pod_run start (log ++ [entry]) state'.
End pod.
