(* ===== verification/SidecarSafety.v ===== *)
(** * What the sidecar guarantees

    An invariant of the runs of a pod whose processes are wrapped by the
    sidecar, for any such processes: who waits starts after those it waits for
    have stopped, in every interleaving; polling ends once the marks are there
    and not before; the exit codes are those of the commands. *)

From Stdlib Require Import ZArith Lia String Ascii.
From S2P Require Import Prelude Effects GoStd K8s Api Client Os Sidecar.

Local Open Scope string_scope.
Local Open Scope Z_scope.
Local Open Scope list_scope.

Section pod.
Variable programs : list Program.
Variable dirs : gset string.
Variable start : PodState.

(** ** What a log says *)

(** The command of the process [i] is over, or could not be started, and
    [HookCommand] is to return [res]. *)
Definition ended_with (i : nat) (log : list LogEntry) (res : Z * option GoError) : Prop :=
  (exists st err, (i, Wait st err) ∈ log /\ wait_answers st err /\ res = exit_code_of_wait err) \/
  exists e, (i, Start (Some e)) ∈ log /\ res = (-1, Some (Wrapped "unable to start command" e)).
Definition ended (i : nat) (log : list LogEntry) : Prop := exists res, ended_with i log res.

(** The mark at [path] was made by a process whose command was over. *)
Definition marked (path : string) (log : list LogEntry) : Prop :=
  exists i p scanner, programs !! i = Some p /\ PostStop p = Some scanner /\
    mark_path (Environ p) scanner = path /\ (i, Create None) ∈ log /\ ended i log.

(** Some poll of the goroutine [k] of the process [j] failed. *)
Definition poll_failed (j k : nat) (log : list LogEntry) : Prop :=
  exists e, (j, Stat k (StatFailed e)) ∈ log.

(** What the goroutine [k] of [j] has to have seen of [path] to return. *)
Definition awaited (j k : nat) (path : string) (log : list LogEntry) : Prop :=
  marked path log \/ path ∈ dirs \/ poll_failed j k log.

Lemma ended_with_app i log more res : ended_with i log res -> ended_with i (log ++ more) res.
Proof.
  intros [(st & err & H & ?)|(e & H & ?)].
  - left. exists st, err. split; [apply elem_of_app; by left|done].
  - right. exists e. split; [apply elem_of_app; by left|done].
Qed.

Lemma ended_app i log more : ended i log -> ended i (log ++ more).
Proof. intros [res H]. exists res. by apply ended_with_app. Qed.

Lemma marked_app path log more : marked path log -> marked path (log ++ more).
Proof.
  intros (i & p & n & ? & ? & ? & Hc & He). exists i, p, n. repeat split; [done..| |].
  - apply elem_of_app. by left.
  - by apply ended_app.
Qed.

Lemma awaited_app j k path log more : awaited j k path log -> awaited j k path (log ++ more).
Proof.
  intros [H|[H|[e H]]].
  - left. by apply marked_app.
  - right. by left.
  - right. right. exists e. apply elem_of_app. by left.
Qed.

Lemma elem_of_last {A} (x : A) l : x ∈ l ++ [x].
Proof. apply elem_of_app. right. by apply elem_of_cons; left. Qed.

(** ** The invariant *)

(** The state the pod starts in. *)
Definition initial_process (p : Program) (s : Process) : Prop :=
  match PreStart p with
  | Some scanners => s = Awaiting (AwaitScans scanners)
  | None => s = Starting \/ exists code, s = Gone code
  end.
Definition initial : Prop :=
  Marks start = ∅ /\ Forall2 initial_process programs (Processes start).

(** What is known of a process from where it is. *)
Definition process_ok (log : list LogEntry) (i : nat) (p : Program) (s : Process) : Prop :=
  match s with
  | Awaiting gs => exists scanners, PreStart p = Some scanners /\ gs.*1 = scanners /\
      forall k n err, gs !! k = Some (n, Finished err) -> awaited i k (mark_path (Environ p) n) log
  | Starting => forall scanners k n, PreStart p = Some scanners -> scanners !! k = Some n ->
      awaited i k (mark_path (Environ p) n) log
  | Waiting => True
  | Creating _ res => ended_with i log res
  | Writing _ res => ended_with i log res /\ (i, Create None) ∈ log
  | Gone code => (i, Kill code) ∈ log \/ Processes start !! i = Some (Gone code) \/
      exists res, ended_with i log res /\ code = exit_code res
  end.

Record pod_ok (log : list LogEntry) (state : PodState) : Prop := {
  processes_ok i p s : programs !! i = Some p -> Processes state !! i = Some s -> process_ok log i p s;
  marks_ok path : is_Some (Marks state !! path) -> marked path log
}.

Lemma process_ok_app log more i p s : process_ok log i p s -> process_ok (log ++ more) i p s.
Proof.
  destruct s as [gs| | |st res|st res|c]; simpl; try done.
  - intros (scanners & ? & ? & H). exists scanners. split; [done|]. split; [done|].
    intros k n err Hk. apply awaited_app. by eapply H.
  - intros H scanners k n ??. apply awaited_app. by eapply H.
  - apply ended_with_app.
  - intros [? ?]. split; [by apply ended_with_app|]. apply elem_of_app. by left.
  - intros [?|[?|(res & ? & ?)]]; [left; apply elem_of_app; by left|right; by left|].
    right. right. exists res. split; [by apply ended_with_app|done].
Qed.

Lemma return_hooked_ok log i p st res :
  ended_with i log res -> process_ok log i p (return_hooked p st res).
Proof. unfold return_hooked. destruct (PostStop p); [done|]. intros H. right. right. by exists res. Qed.

(** A transition of the process [i] keeps what is known of it, the marks being
    those the log accounts for. *)
Lemma HookCommand_ok log marks i p s a s' :
  programs !! i = Some p -> process_ok log i p s ->
  (forall path, is_Some (marks !! path) -> marked path log) ->
  answers dirs marks p s a -> HookCommand_step p a s = Some s' -> process_ok (log ++ [(i, a)]) i p s'.
Proof.
  intros Hi Hs Hmarks Ha Hstep.
  destruct s as [gs| | |st res|st res|c]; destruct a as [k answer| |[e|]|st' err|[e|]|err|c'];
    simpl in Hstep; try discriminate Hstep;
    try (injection Hstep as <-; by (left; apply elem_of_last) || done).
  - destruct Hs as (scanners & Hpre & Hnames & Hgs).
    destruct (gs !! k) as [[n [|err]]|] eqn:Hk; [|done..]. injection Hstep as <-.
    exists scanners. split; [done|]. split.
    { rewrite list_fmap_insert. simpl. rewrite list_insert_id; [done|]. by rewrite list_lookup_fmap, Hk. }
    intros k' n' err [(<- & [= <- Hpoll] & _)|[Hne Hk']]%list_lookup_insert_Some.
    + specialize (Ha _ Hk). destruct answer as [| |e]; simpl in *; [|done|].
      * destruct Ha as [Hm|Hd]; [left; by apply marked_app, Hmarks|right; by left].
      * right. right. exists e. apply elem_of_last.
    + apply awaited_app. by eapply Hgs.
  - destruct Hs as (scanners & Hpre & Hnames & Hgs).
    destruct (forallb _ gs) eqn:Hall; [|done]. injection Hstep as <-.
    intros scanners' k n Hpre' Hk. rewrite Hpre in Hpre'. injection Hpre' as <-.
    rewrite <-Hnames, list_lookup_fmap in Hk.
    destruct (gs !! k) as [[n' g]|] eqn:Hg; [|done]. injection Hk as ->.
    rewrite forallb_forall in Hall. specialize (Hall (n, g)).
    destruct g as [|err]; [|by apply awaited_app; eapply Hgs].
    discriminate Hall. apply list_elem_of_In. by eapply list_elem_of_lookup_2.
  - injection Hstep as <-. apply return_hooked_ok. right. exists e. split; [apply elem_of_last|done].
  - injection Hstep as <-. apply return_hooked_ok. left. exists st', err.
    split; [apply elem_of_last|done].
  - injection Hstep as <-. right. right. exists res. split; [by apply ended_with_app|done].
  - injection Hstep as <-. split; [by apply ended_with_app|apply elem_of_last].
  - injection Hstep as <-. destruct Hs as [Hs _]. right. right. exists res.
    split; [by apply ended_with_app|done].
Qed.

(** A mark that is there was there, or was made by this step. *)
Lemma ScanCompleteHook_ok log marks i p s a s' path :
  programs !! i = Some p -> process_ok log i p s -> HookCommand_step p a s = Some s' ->
  (forall path, is_Some (marks !! path) -> marked path log) ->
  is_Some (ScanCompleteHook p s a marks !! path) -> marked path (log ++ [(i, a)]).
Proof.
  intros Hi Hs Hstep Hmarks Hpath.
  destruct (PostStop p) as [scanner|] eqn:Hpost.
  2: { unfold ScanCompleteHook in Hpath. rewrite Hpost in Hpath. by apply marked_app, Hmarks. }
  assert (forall c, is_Some (<[mark_path (Environ p) scanner := c]> marks !! path) ->
    ended i (log ++ [(i, a)]) -> (i, Create None) ∈ log ++ [(i, a)] ->
    marked path (log ++ [(i, a)])) as Hnew.
  { intros c Hc He Hcreate. destruct (decide (path = mark_path (Environ p) scanner)) as [->|Hne].
    - exists i, p, scanner. by repeat split.
    - rewrite lookup_insert_ne in Hc by done. by apply marked_app, Hmarks. }
  unfold ScanCompleteHook in Hpath. rewrite Hpost in Hpath.
  destruct s as [gs| | |st res|st res|c]; try (by apply marked_app, Hmarks).
  - destruct a as [| | | |[e|]| |]; try (by apply marked_app, Hmarks).
    eapply Hnew; [exact Hpath|apply ended_app; by exists res|apply elem_of_last].
  - destruct a as [| | | | |[e|]|]; try (by apply marked_app, Hmarks).
    destruct Hs as [He Hc]. eapply Hnew; [exact Hpath|apply ended_app; by exists res|apply elem_of_app; by left].
Qed.

Lemma pod_step_ok log state entry state' :
  pod_ok log state -> pod_step programs dirs state entry state' -> pod_ok (log ++ [entry]) state'.
Proof.
  intros [Hprocs Hmarks] Hstep. destruct Hstep as [marks procs i p s a s' Hi Hs Ha Hstep].
  simpl in *. pose proof (Hprocs i p s Hi Hs) as Hok. constructor; simpl.
  - intros i' p' t Hi' [(<- & <- & _)|[Hne Ht]]%list_lookup_insert_Some.
    + rewrite Hi in Hi'. injection Hi' as <-. by eapply HookCommand_ok.
    + apply process_ok_app. by apply Hprocs.
  - intros path Hpath. by eapply ScanCompleteHook_ok.
Qed.

Lemma initial_ok : initial -> pod_ok [] start.
Proof.
  intros [Hm Hp]. constructor.
  - intros i p s Hi Hs. pose proof (Forall2_lookup_lr _ _ _ _ _ _ Hp Hi Hs) as Hinit.
    unfold initial_process in Hinit. destruct (PreStart p) as [scanners|] eqn:Hpre.
    + subst s. exists scanners. split; [done|]. split.
      * unfold AwaitScans. rewrite <-list_fmap_compose. apply list_fmap_id.
      * intros k n err Hk. unfold AwaitScans in Hk. rewrite list_lookup_fmap in Hk.
        by destruct (scanners !! k).
    + destruct Hinit as [->|[c ->]]; simpl; [|by right; left]. intros scanners k n Hpre'. by rewrite Hpre in Hpre'.
  - intros path. rewrite Hm, lookup_empty. by intros [].
Qed.

Lemma pod_run_ok log state :
  initial -> pod_run programs dirs start log state -> pod_ok log state.
Proof.
  intros Hstart. induction 1 as [|log state entry state' Hrun IH Hstep].
  - by apply initial_ok.
  - by eapply pod_step_ok.
Qed.

(** A prefix of the log of a run is the log of a run. *)
Lemma pod_run_prefix before entry after state :
  pod_run programs dirs start (before ++ entry :: after) state ->
  exists s1 s2, pod_run programs dirs start before s1 /\ pod_step programs dirs s1 entry s2.
Proof.
  revert state; induction after as [|e after IH] using rev_ind; intros state Hrun.
  - inversion Hrun as [Hnil|log s e' s' Hrun' Hstep Hlog]; [by destruct before|].
    apply app_inj_tail in Hlog as [-> ->]. eauto.
  - rewrite app_comm_cons, app_assoc in Hrun.
    inversion Hrun as [Hnil|log s e' s' Hrun' Hstep Hlog]; [by destruct before|].
    apply app_inj_tail in Hlog as [-> _]. by eapply IH.
Qed.
(** A process that is started was waiting for nothing any more. *)
Lemma start_awaited before j answer after state p scanners k n :
  initial -> pod_run programs dirs start (before ++ (j, Start answer) :: after) state ->
  programs !! j = Some p -> PreStart p = Some scanners -> scanners !! k = Some n ->
  awaited j k (mark_path (Environ p) n) before.
Proof.
  intros Hstart (s1 & s2 & Hrun & Hstep)%pod_run_prefix Hp Hpre Hk.
  apply pod_run_ok in Hrun as [Hprocs _]; [|done].
  inversion Hstep as [marks procs i p' s a s' Hi Hs Ha Hhook]. subst. simpl in *.
  rewrite Hp in Hi. injection Hi as <-. specialize (Hprocs j p s Hp Hs).
  destruct s; try discriminate Hhook. by eapply Hprocs.
Qed.

(** ** A process that is gone *)

Lemma pod_step_gone state entry state' i code :
  Processes state !! i = Some (Gone code) -> pod_step programs dirs state entry state' ->
  Processes state' !! i = Some (Gone code) /\ entry.1 <> i.
Proof.
  intros Hi Hstep. destruct Hstep as [marks procs i' p s a s' Hp Hs Ha Hhook]. simpl in *.
  assert (i' <> i) as Hne.
  { intros ->. rewrite Hi in Hs. injection Hs as <-. done. }
  split; [|done]. by rewrite list_lookup_insert_ne.
Qed.

Lemma pod_run_gone state more state' i code :
  Processes state !! i = Some (Gone code) -> pod_run programs dirs state more state' ->
  Processes state' !! i = Some (Gone code) /\ forall a, (i, a) ∉ more.
Proof.
  intros Hi. induction 1 as [|more s entry s' Hrun [IHg IHn] Hstep].
  - split; [done|]. intros a Ha. by apply elem_of_nil in Ha.
  - destruct (pod_step_gone _ _ _ _ _ IHg Hstep) as [Hg Hne]. split; [done|].
    intros a [Ha|Ha]%elem_of_app; [by eapply IHn|]. apply list_elem_of_singleton in Ha. by subst entry.
Qed.

Lemma pod_run_app s log s' more s'' :
  pod_run programs dirs s log s' -> pod_run programs dirs s' more s'' ->
  pod_run programs dirs s (log ++ more) s''.
Proof.
  intros Hrun. induction 1 as [|more t entry t' _ IH Hstep]; [by rewrite app_nil_r|].
  rewrite app_assoc. by econstructor.
Qed.
End pod.

(** ** Waiting for the scanners *)

Section waiting.
Variable programs : list Program.
Variable dirs : gset string.

(** C30: a scanner that goes away without its mark - killed, or unable to make
    the file - blocks those who wait for it for ever: no run from there on
    starts their command, but for a poll that fails. *)
Theorem no_mark_no_start start log state i code more state' j answer p scanners k n :
  initial programs start -> pod_run programs dirs start log state ->
  Processes state !! i = Some (Gone code) -> (i, Create None) ∉ log ->
  programs !! j = Some p -> PreStart p = Some scanners -> scanners !! k = Some n ->
  mark_path (Environ p) n ∉ dirs ->
  (forall i' p' scanner, programs !! i' = Some p' -> PostStop p' = Some scanner ->
    mark_path (Environ p') scanner = mark_path (Environ p) n -> i' = i) ->
  pod_run programs dirs state more state' -> (j, Start answer) ∈ log ++ more ->
  exists e, (j, Stat k (StatFailed e)) ∈ log ++ more.
Proof.
  intros Hstart Hrun Hgone Hmark Hp Hpre Hk Hdir Honly Hmore Hin.
  apply list_elem_of_split in Hin as (before & after & Heq).
  assert (pod_run programs dirs start (before ++ (j, Start answer) :: after) state') as Hall.
  { rewrite <-Heq. by eapply pod_run_app. }
  destruct (start_awaited _ _ _ _ _ _ _ _ _ _ _ _ Hstart Hall Hp Hpre Hk) as [H|[H|[e H]]].
  - destruct H as (i' & p' & scanner & Hi' & Hpost & Hpath & Hcreate & _).
    rewrite (Honly i' p' scanner Hi' Hpost Hpath) in Hcreate. exfalso.
    destruct (pod_run_gone _ _ _ _ _ _ _ Hgone Hmore) as [_ Hsilent].
    assert ((i, Create None) ∈ log ++ more) as Hin.
    { rewrite Heq. apply elem_of_app. by left. }
    apply elem_of_app in Hin as [Hin|Hin]; [done|]. by eapply Hsilent.
  - done.
  - exists e. rewrite Heq. apply elem_of_app. by left.
Qed.

(** One successful poll per goroutine that still polls. *)
Lemma poll_first marks procs j p gs m :
  programs !! j = Some p -> procs !! j = Some (Awaiting gs) ->
  (forall n, n ∈ gs.*1 -> found dirs marks (mark_path (Environ p) n)) -> (m <= length gs)%nat ->
  exists more gs', pod_run programs dirs (mkPodState marks procs) more
      (mkPodState marks (<[j := Awaiting gs']> procs)) /\
    gs'.*1 = gs.*1 /\ forallb (fun g => finished g.2) (take m gs') = true /\
    (length more <= m)%nat /\ Forall (fun entry => entry.1 = j) more.
Proof.
  intros Hp Hj Hfound. induction m as [|m IH]; intros Hm.
  { exists [], gs. rewrite list_insert_id by done. repeat split; [constructor|done|constructor]. }
  destruct IH as (more & gs' & Hrun & Hnames & Hfin & Hlen & Hall); [lia|].
  assert (m < length gs')%nat as Hlt.
  { rewrite <-(length_fmap fst gs'), Hnames, length_fmap. lia. }
  destruct (lookup_lt_is_Some_2 _ _ Hlt) as [[n g] Hg].
  assert (Hj' : <[j := Awaiting gs']> procs !! j = Some (Awaiting gs')).
  { apply list_lookup_insert_eq. by eapply lookup_lt_Some. }
  destruct g as [|err].
  - exists (more ++ [(j, Stat m StatFound)]), (<[m := (n, Finished None)]> gs'). split; [|split; [|split; [|split]]].
    + econstructor; [exact Hrun|].
      replace (<[j := Awaiting (<[m := (n, Finished None)]> gs')]> procs) with
        (<[j := Awaiting (<[m := (n, Finished None)]> gs')]> (<[j := Awaiting gs']> procs))
        by apply list_insert_insert_eq.
      replace marks with (ScanCompleteHook p (Awaiting gs') (Stat m StatFound) marks) at 2
        by (unfold ScanCompleteHook; by destruct (PostStop p)).
      apply process_step; [done..| |].
      * intros g' Hg'. rewrite Hg in Hg'. injection Hg' as <-. apply Hfound. rewrite <-Hnames.
        apply list_elem_of_fmap. exists (n, Polling). split; [done|by eapply list_elem_of_lookup_2].
      * simpl. by rewrite Hg.
    + rewrite list_fmap_insert, Hnames. apply list_insert_id. by rewrite <-Hnames, list_lookup_fmap, Hg.
    + rewrite (take_S_r _ _ (n, Finished None)) by (by apply list_lookup_insert_eq).
      rewrite forallb_app, take_insert_ge by done. by rewrite Hfin.
    + rewrite length_app. simpl. lia.
    + apply Forall_app. by split; [|constructor].
  - exists more, gs'. repeat split; [done..| |lia|done].
    rewrite (take_S_r _ _ _ Hg), forallb_app, Hfin. done.
Qed.

(** Once the marks are there the wait can end: with one successful poll
    for each scanner, and no step of another process, the command is to be
    started. *)
Theorem await_completes marks procs j p gs :
  programs !! j = Some p -> procs !! j = Some (Awaiting gs) ->
  (forall n, n ∈ gs.*1 -> found dirs marks (mark_path (Environ p) n)) ->
  exists more, pod_run programs dirs (mkPodState marks procs) more
      (mkPodState marks (<[j := Starting]> procs)) /\
    (length more <= S (length gs))%nat /\ Forall (fun entry => entry.1 = j) more.
Proof.
  intros Hp Hj Hfound.
  destruct (poll_first marks procs j p gs (length gs) Hp Hj Hfound) as
    (more & gs' & Hrun & Hnames & Hfin & Hlen & Hall); [done|].
  exists (more ++ [(j, Joined)]). split; [|split].
  - econstructor; [exact Hrun|].
    replace (<[j := Starting]> procs) with (<[j := Starting]> (<[j := Awaiting gs']> procs))
      by apply list_insert_insert_eq.
    replace marks with (ScanCompleteHook p (Awaiting gs') Joined marks) at 2
      by (unfold ScanCompleteHook; by destruct (PostStop p)).
    apply process_step; [done|apply list_lookup_insert_eq; by eapply lookup_lt_Some|done|].
    simpl. rewrite take_ge in Hfin; [by rewrite Hfin|].
    by rewrite <-(length_fmap fst gs'), Hnames, length_fmap.
  - rewrite length_app. simpl. lia.
  - apply Forall_app. by split; [|constructor].
Qed.

(** C33: the exit code of the sidecar, unless it was killed: 1 when the command
    could not be started; that of the command when the wait for it returned its
    status, 128 and the signal when a signal ended it; and 1 when the wait
    returned another error - that of the context, say - even if the command ran
    and exited with 0.  A process that exits with 0 ran its command, and the
    command exited with 0. *)
Theorem sidecar_exit_code start log state i code :
  initial programs start -> pod_run programs dirs start log state ->
  programs !! i <> None -> Processes state !! i = Some (Gone code) ->
  Processes start !! i <> Some (Gone code) -> (i, Kill code) ∉ log ->
  (exists e, (i, Start (Some e)) ∈ log /\ code = 1) \/
  exists st err, (i, Wait st err) ∈ log /\ match st, err with
    | Some (Exited c), None => c = 0 /\ code = 0
    | Some (Exited c), Some (ExitError _) => c <> 0 /\ code = c
    | Some (Signaled signal), Some (ExitError _) => code = 128 + signal
    | _, _ => code = 1
    end.
Proof.
  intros Hstart Hrun Hi Hgone Hnot Hkill. destruct (programs !! i) as [p|] eqn:Hp; [|done].
  apply pod_run_ok in Hrun as [Hprocs _]; [|done].
  destruct (Hprocs i p _ Hp Hgone) as [?|[?|(res & [(st & err & Hin & Hw & ->)|(e & Hin & ->)] & ->)]];
    [done|done| |left; by exists e].
  right. exists st, err. split; [done|]. unfold exit_code.
  destruct st as [[[|c|c]|s]|], err as [[ws|e]|]; simpl in *; try done.
  - by destruct Hw as [<- ?].
  - by destruct Hw as [<- ?].
  - by destruct Hw as [<- ?].
  - by destruct Hw as [<- ?].
Qed.

End waiting.
