(* ===== verification/SidecarPod.v ===== *)
(** * The pod of a pipeline at work

    The processes of the containers that the pipeline controller puts into a
    pod, from their environment on: its uploaders start after its scanners.
    The step relation as a function, and runs of the pod of the example. *)

From Stdlib Require Import ZArith Lia String Ascii.
From S2P Require Import Prelude Effects GoStd K8s Api Client Resources Containers Validators ControllerCommon PipelineController ScanPod Kubelet Os Sidecar SidecarSafety.

Local Open Scope string_scope.
Local Open Scope Z_scope.
Local Open Scope list_scope.

(** ** Running a pod *)

#[export] Instance WaitStatus_eq_dec : EqDecision WaitStatus.
Proof. solve_decision. Defined.

(** The step relation as a function, for logs that are given. *)
Section execute.
Variable programs : list Program.
Variable dirs : gset string.

#[export] Instance found_dec marks path : Decision (found dirs marks path).
Proof. unfold found. apply _. Defined.

#[export] Instance wait_answers_dec st err : Decision (wait_answers st err).
Proof. destruct st as [[[|c|c]|s]|], err as [[ws|e]|]; simpl; apply _. Defined.

Definition answersb (marks : gmap string string) (p : Program) (s : Process) (a : Answer) : bool :=
  match a with
  | Stat k answer =>
      match s with
      | Awaiting gs =>
          match gs !! k, answer with
          | Some g, StatFound => bool_decide (found dirs marks (mark_path (Environ p) g.1))
          | Some g, StatNotExist => bool_decide (~ found dirs marks (mark_path (Environ p) g.1))
          | _, _ => true
          end
      | _ => true
      end
  | Wait st err => bool_decide (wait_answers st err)
  | _ => true
  end.

Definition execute_step (state : PodState) (entry : LogEntry) : option PodState :=
  match programs !! entry.1, Processes state !! entry.1 with
  | Some p, Some s =>
      if answersb (Marks state) p s entry.2 then
        match HookCommand_step p entry.2 s with
        | Some s' => Some (mkPodState (ScanCompleteHook p s entry.2 (Marks state))
                             (<[entry.1 := s']> (Processes state)))
        | None => None
        end
      else None
  | _, _ => None
  end.

Fixpoint execute (state : PodState) (log : list LogEntry) : option PodState :=
  match log with
  | [] => Some state
  | entry :: log =>
      match execute_step state entry with Some state => execute state log | None => None end
  end.

Lemma answersb_sound marks p s a : answersb marks p s a = true -> answers dirs marks p s a.
Proof.
  destruct a as [k answer| | |st err| | |]; simpl; try done.
  - destruct s as [gs| | | | |]; try done. intros H g Hg. rewrite Hg in H.
    destruct answer; [by apply bool_decide_eq_true in H..|done].
  - apply bool_decide_eq_true.
Qed.

Lemma execute_step_sound state entry state' :
  execute_step state entry = Some state' -> pod_step programs dirs state entry state'.
Proof.
  destruct state as [marks procs], entry as [i a]. unfold execute_step. simpl.
  destruct (programs !! i) as [p|] eqn:Hp; [|done].
  destruct (procs !! i) as [s|] eqn:Hs; [|done].
  destruct (answersb marks p s a) eqn:Ha; [|done].
  destruct (HookCommand_step p a s) as [s'|] eqn:Hh; [|done]. intros [= <-].
  apply process_step; [done..|by apply answersb_sound|done].
Qed.

Lemma execute_sound start log state :
  execute start log = Some state -> pod_run programs dirs start log state.
Proof.
  assert (forall before state', pod_run programs dirs start before state' ->
    execute state' log = Some state -> pod_run programs dirs start (before ++ log) state) as H.
  { induction log as [|entry log IH]; simpl; intros before state' Hrun Hex.
    - injection Hex as <-. by rewrite app_nil_r.
    - destruct (execute_step state' entry) as [state''|] eqn:Hstep; [|done].
      change (before ++ entry :: log) with (before ++ [entry] ++ log). rewrite app_assoc.
      eapply IH; [|exact Hex]. econstructor; [exact Hrun|by apply execute_step_sound]. }
  intros Hex. by apply (H [] start); [constructor|].
Qed.
End execute.

(** ** The containers of a scan pod *)

(** The names the API server accepts for containers: lower case letters,
    digits and dashes. *)
Definition label_byte (c : ascii) : bool := byte_in 97 122 c || byte_in 48 57 c || Ascii.eqb c "-".
Definition is_label (s : string) : bool :=
  negb (String.eqb s "") && forallb label_byte (String.list_ascii_of_string s).

Lemma is_label_no_byte c s : is_label s = true -> label_byte c = false -> has_byte c s = false.
Proof.
  unfold is_label. intros [_ H]%andb_true_iff Hc. unfold has_byte.
  induction (String.list_ascii_of_string s) as [|d l IH]; [done|]. simpl in *.
  apply andb_true_iff in H as [Hd Hl]. rewrite (IH Hl), orb_false_r.
  destruct (Ascii.eqb_spec c d) as [->|]; [|done]. by rewrite Hd in Hc.
Qed.

Lemma has_byte_app c s t : has_byte c (s +:+ t) = has_byte c s || has_byte c t.
Proof.
  induction s as [|d s IH]; [done|]. change (String d s +:+ t) with (String d (s +:+ t)).
  unfold has_byte in *. simpl. by rewrite IH, orb_assoc.
Qed.

Lemma path_join_process s :
  has_byte "/" s = false -> s <> "" -> s <> "." -> s <> ".." ->
  path_join [processDirectory; s] = processDirectory +:+ "/" +:+ s.
Proof.
  intros Hslash H0 H1 H2. apply String.eqb_neq in H0, H1, H2.
  assert (strings_split (processDirectory +:+ "/" +:+ s) "/"%char
    = [""; "var"; "run"; "ocular"; "proc"; s]) as Hsplit.
  { change (processDirectory +:+ "/" +:+ s) with
      ("" +:+ String "/" ("var" +:+ String "/" ("run" +:+ String "/" ("ocular" +:+ String "/"
        ("proc" +:+ String "/" s))))).
    by rewrite !split_app_sep, split_no_sep. }
  assert (List.filter (fun e => negb (String.eqb e "")) [processDirectory; s] = [processDirectory; s])
    as Hfilter.
  { cbn [List.filter]. by rewrite H0. }
  unfold path_join. rewrite Hfilter. unfold path_clean. change (strings_join [processDirectory; s] "/") with (processDirectory +:+ "/" +:+ s).
  rewrite Hsplit. unfold clean_elems. cbn [fold_left]. unfold clean_step at 1. rewrite H0, H1, H2.
  reflexivity.
Qed.

(** The mark of a container. *)
Lemma mark_path_scanner env s :
  env EnvVarProcessDir = processDirectory -> is_label s = true ->
  mark_path env (scanContainerPrefix +:+ s) = processDirectory +:+ "/" +:+ scanContainerPrefix +:+ s.
Proof.
  intros Henv Hs. unfold mark_path. rewrite Henv. apply path_join_process; [|done..].
  rewrite has_byte_app, (is_label_no_byte "/" s Hs eq_refl). reflexivity.
Qed.

Section scan_pod.
Context `{ControllerUtil} `{MapRange string} `{Kubelet}.
Variables (init_code : Z) (the_pod : Pod).

(** What the processes of the containers are started with. *)
Definition container_main (c : Container) : Program * Process := main init_code (getenv the_pod c) (argv c).
Definition pod_programs (containers : list Container) : list Program :=
  fst <$> (container_main <$> containers).
Definition pod_start (containers : list Container) : PodState :=
  mkPodState ∅ (snd <$> (container_main <$> containers)).

Lemma main_initial env args :
  initial_process (main init_code env args).1 (main init_code env args).2.
Proof.
  unfold main, initial_process. destruct args as [|a [|command userCmd]]; [by right; eexists..|].
  destruct (String.eqb command "init"); [by right; eexists|].
  destruct (String.eqb command "await-scanners"); [by destruct userCmd; [right; eexists|]|].
  destruct (String.eqb command "scanner"); [|by right; eexists].
  destruct userCmd; [by right; eexists|by left].
Qed.

Lemma pod_start_initial containers : initial (pod_programs containers) (pod_start containers).
Proof.
  split; [done|]. simpl. apply Forall2_fmap_2, Forall_Forall2_diag, Forall_forall.
  intros q [c [-> _]]%list_elem_of_fmap. apply main_initial.
Qed.

(** ** The environment of scanners and uploaders *)

(** The directory of the marks, set by the base environment of the pipeline. *)
Lemma process_dir_env c pre post p :
  C_Env c = pre ++ generateBasePipelineEnvironment p ++ post ->
  EnvVarProcessDir ∉ (Env_Name <$> post) -> getenv the_pod c EnvVarProcessDir = processDirectory.
Proof.
  intros Henv Hpost.
  apply (getenv_value the_pod c (pre ++ take 10 (generateBasePipelineEnvironment p))
    (env_value EnvVarSidecarPath sidecarBinaryPath :: post)); [| |done].
  - rewrite Henv, <-!app_assoc. done.
  - apply not_elem_of_cons. by split.
Qed.

Lemma container_name_env c :
  has_byte "$" (C_Name c) = false ->
  getenv the_pod (ApplyOptionsTo c [WithPodSecurityStandardRestricted; WithContainerNameEnvVar])
    EnvVarContainerName = C_Name c.
Proof.
  intros Hc. apply (getenv_value the_pod _ (C_Env c) []); [done|apply not_elem_of_nil|done].
Qed.

Lemma scanner_process p profile i c :
  FilterConditionalContainers (Prof_Containers (Inv_Spec profile))
    (Prof_Parameters (Inv_Spec profile))
    (Ref_Parameters (PipeS_ProfileRef (Pipeline_Spec p))) !! i = Some c ->
  is_label (C_Name c) = true ->
  exists c', ApplyStandardOptions (scannerContainers p profile) !! i = Some c' /\
    getenv the_pod c' EnvVarProcessDir = processDirectory /\
    getenv the_pod c' EnvVarContainerName = scanContainerPrefix +:+ C_Name c /\
    argv c' = [sidecarBinaryPath; "scanner"] ++ argv c.
Proof.
  intros Hc Hlabel. eexists. split.
  { unfold ApplyStandardOptions, scannerContainers. rewrite !lookup_ApplyOptionsToAll, Hc.
    reflexivity. }
  split; [|split; [|reflexivity]].
  - apply (process_dir_env _ (C_Env c)
      (ParseParameterEnvVars (Prof_Parameters (Inv_Spec profile))
         (Ref_Parameters (PipeS_ProfileRef (Pipeline_Spec p))) None
       ++ [env_value EnvVarContainerName (scanContainerPrefix +:+ C_Name c)]) p).
    { by rewrite !app_assoc. }
    rewrite fmap_app. apply not_elem_of_app. split;
      [|apply not_elem_of_cons; split; [discriminate|apply not_elem_of_nil]].
    by apply parameter_env_names.
  - apply container_name_env.
    change (has_byte "$" (scanContainerPrefix +:+ C_Name c) = false).
    by rewrite has_byte_app, (is_label_no_byte "$" _ Hlabel eq_refl).
Qed.

Lemma fold_left_app_nonempty {A B} (f : A -> B) l acc :
  acc <> [] -> fold_left (fun acc x => acc ++ [f x]) l acc <> [].
Proof.
  revert acc; induction l as [|x l IH]; intros acc Hacc; [done|]. apply IH.
  by intros [_ ?]%app_eq_nil.
Qed.

Lemma generateArtifactArguments_nonempty files artifacts :
  generateArtifactArguments files artifacts <> [].
Proof. unfold generateArtifactArguments. by apply fold_left_app_nonempty, fold_left_app_nonempty. Qed.

Lemma uploader_process p profile downloader uploaders j u :
  uploaders !! j = Some u ->
  Forall (fun n => has_byte "$" n = false) (C_Name <$> scannerContainers p profile) ->
  exists c', ApplyStandardOptions (uploaderContainers p profile downloader uploaders) !! j = Some c' /\
    getenv the_pod c' EnvVarProcessDir = processDirectory /\
    getenv the_pod c' EnvVarScanContainerNames = strings_join (C_Name <$> scannerContainers p profile) "," /\
    exists userCmd, userCmd <> [] /\ argv c' = [sidecarBinaryPath; "await-scanners"] ++ userCmd.
Proof.
  intros Hu Hdollar. set (names := strings_join (C_Name <$> scannerContainers p profile) ",").
  destruct (uploaderContainers_lookup p profile downloader uploaders j u Hu) as (c0 & Hc0 & Hup & _).
  exists c0. split; [done|].
  assert (exists pre, C_Env c0 = pre ++ generateBasePipelineEnvironment p
    ++ [env_value EnvVarScanContainerNames names; env_value EnvVarContainerName (C_Name c0)])
    as [pre Henv].
  { unfold ApplyStandardOptions, uploaderContainers, uploader_containers in Hc0.
    rewrite !lookup_ApplyOptionsToAll, list_lookup_fmap, Hu in Hc0. injection Hc0 as <-.
    eexists. subst names. simpl. rewrite <-(app_assoc _ [_] [_]), <-(app_assoc _ _ ([_] ++ [_])).
    reflexivity. }
  split; [|split].
  - eapply process_dir_env; [exact Henv|].
    apply (bool_decide_unpack _). vm_compute. exact I.
  - apply (getenv_value the_pod c0 (pre ++ generateBasePipelineEnvironment p)
      [env_value EnvVarContainerName (C_Name c0)]).
    + by rewrite Henv, <-app_assoc.
    + apply (bool_decide_unpack _). vm_compute. exact I.
    + subst names. unfold strings_join. clear -Hdollar.
      induction Hdollar as [|n l Hn Hl IH]; [done|]. destruct l as [|n' l]; [done|].
      change (has_byte "$" (n +:+ "," +:+ String.concat "," (n' :: l)) = false).
      by rewrite !has_byte_app, Hn, IH.
  - destruct Hup as (_ & _ & Hargv & _). eexists. split; [|exact Hargv].
    intros [_ Hnil]%app_eq_nil. by apply generateArtifactArguments_nonempty in Hnil.
Qed.

(** ** A run of a scan pod *)

Lemma main_await env userCmd :
  userCmd <> [] -> main init_code env ([sidecarBinaryPath; "await-scanners"] ++ userCmd)
  = match BuildUserCommand userCmd with
    | Ok cmd => (mkProgram env (Some (strings_split (env EnvVarScanContainerNames) ","%char)) None cmd,
        Awaiting (AwaitScans (strings_split (env EnvVarScanContainerNames) ","%char)))
    | Err _ => exits env 1
    end.
Proof. done. Qed.

(** A process that leaves a mark runs a scanner, under its name. *)
Lemma main_post_stop env args scanner :
  PostStop (main init_code env args).1 = Some scanner ->
  scanner = env EnvVarContainerName /\ args !! 1%nat = Some "scanner".
Proof.
  unfold main. destruct args as [|a [|command userCmd]]; [done..|]. simpl.
  destruct (String.eqb command "init"); [done|].
  destruct (String.eqb command "await-scanners"); [by destruct userCmd|].
  destruct (String.eqb_spec command "scanner") as [->|]; [|done].
  destruct userCmd; [done|]. intros [= <-]. done.
Qed.

Lemma Environ_main env args : Environ (main init_code env args).1 = env.
Proof.
  unfold main. destruct args as [|a [|command userCmd]]; [done..|].
  destruct (String.eqb command "init"); [done|].
  destruct (String.eqb command "await-scanners"); [by destruct userCmd|].
  destruct (String.eqb command "scanner"); [|done]. by destruct userCmd.
Qed.

(** The containers of the profile that take part. *)
Definition scanners_of (p : Pipeline) (profile : Invocation ProfileSpec) : list Container :=
  FilterConditionalContainers (Prof_Containers (Inv_Spec profile))
    (Prof_Parameters (Inv_Spec profile)) (Ref_Parameters (PipeS_ProfileRef (Pipeline_Spec p))).

Lemma scannerContainers_names p profile :
  C_Name <$> scannerContainers p profile
  = (fun c => scanContainerPrefix +:+ C_Name c) <$> scanners_of p profile.
Proof.
  unfold scannerContainers, ApplyOptionsToAll. change (map ?f ?l) with (f <$> l).
  by rewrite <-list_fmap_compose.
Qed.

Section pod.
Variables (p : Pipeline) (profile : Invocation ProfileSpec) (downloader : Invocation DownloaderSpec).
Variable uploaders : list (Invocation UploaderSpec).
Hypothesis labels : Forall (fun c => is_label (C_Name c) = true) (scanners_of p profile).

Definition scan_pod_containers : list Container :=
  ApplyStandardOptions (scannerContainers p profile)
  ++ ApplyStandardOptions (uploaderContainers p profile downloader uploaders).

Lemma scanner_names_no_byte b :
  label_byte b = false -> has_byte b scanContainerPrefix = false ->
  Forall (fun n => has_byte b n = false) (C_Name <$> scannerContainers p profile).
Proof.
  intros Hb Hprefix. rewrite scannerContainers_names. apply Forall_fmap.
  eapply Forall_impl; [exact labels|]. intros c Hc. simpl.
  by rewrite has_byte_app, Hprefix, (is_label_no_byte b _ Hc Hb).
Qed.

Lemma length_scanners :
  length (ApplyStandardOptions (scannerContainers p profile)) = length (scanners_of p profile).
Proof. unfold ApplyStandardOptions, scannerContainers. by rewrite !length_ApplyOptionsToAll. Qed.

(** The process that leaves the mark a scanner is awaited by is that scanner's. *)
Lemma mark_owner i' q scanner c :
  pod_programs scan_pod_containers !! i' = Some q -> PostStop q = Some scanner ->
  is_label (C_Name c) = true ->
  mark_path (Environ q) scanner = processDirectory +:+ "/" +:+ scanContainerPrefix +:+ C_Name c ->
  exists c', scanners_of p profile !! i' = Some c' /\ C_Name c' = C_Name c.
Proof.
  intros Hq Hpost Hc Hpath. unfold pod_programs in Hq. rewrite !list_lookup_fmap in Hq.
  destruct (scan_pod_containers !! i') as [c'|] eqn:Hc'; [|done]. simpl in Hq. injection Hq as <-.
  apply main_post_stop in Hpost as [-> Hargv]. unfold container_main in Hpath.
  rewrite Environ_main in Hpath.
  apply lookup_app_Some in Hc' as [Hc'|[_ Hc']].
  - apply lookup_lt_Some in Hc' as Hlt. rewrite length_scanners in Hlt.
    apply lookup_lt_is_Some in Hlt as [c0 Hc0]. exists c0. split; [done|].
    rewrite Forall_forall in labels.
    assert (is_label (C_Name c0) = true) as Hl0 by (apply labels; by eapply list_elem_of_lookup_2).
    destruct (scanner_process p profile i' c0 Hc0 Hl0) as (c1 & Hc1 & Hdir & Hname & _).
    rewrite Hc1 in Hc'. injection Hc' as ->.
    rewrite Hname, mark_path_scanner in Hpath by done. by do 3 apply string_app_inj_l in Hpath.
  - exfalso. apply lookup_lt_Some in Hc' as Hlt.
    set (j' := (i' - _)%nat) in *.
    assert (is_Some (uploaders !! j')) as [u Hu].
    { apply lookup_lt_is_Some. unfold ApplyStandardOptions, uploaderContainers, uploader_containers in Hlt.
      by rewrite !length_ApplyOptionsToAll, length_map in Hlt. }
    destruct (uploaderContainers_lookup p profile downloader uploaders j' u Hu) as (c1 & Hc1 & Hup & _).
    rewrite Hc1 in Hc'. injection Hc' as ->. destruct Hup as (_ & _ & Hup & _).
    by rewrite Hup in Hargv.
Qed.

Lemma uploader_program j u :
  uploaders !! j = Some u -> scanners_of p profile <> [] ->
  exists q, pod_programs scan_pod_containers !! (length (scanners_of p profile) + j)%nat = Some q /\
    Environ q EnvVarProcessDir = processDirectory /\
    PreStart q = Some (C_Name <$> scannerContainers p profile).
Proof.
  intros Hu Hne.
  destruct (uploader_process p profile downloader uploaders j u Hu) as
    (c & Hc & Hdir & Hnames & userCmd & Hcmd & Hargv); [by apply scanner_names_no_byte|].
  exists (container_main c).1. split; [|split].
  - unfold pod_programs, scan_pod_containers. rewrite !list_lookup_fmap, <-length_scanners.
    by rewrite lookup_app_r, Nat.add_comm, Nat.add_sub, Hc by lia.
  - unfold container_main. by rewrite Environ_main.
  - unfold container_main. rewrite Hargv, main_await by done.
    destruct userCmd; [done|]. simpl. f_equal. rewrite Hnames.
    apply (split_join ","%char); [|by apply scanner_names_no_byte].
    rewrite scannerContainers_names. by intros Hnil%fmap_nil_inv.
Qed.
End pod.

End scan_pod.

Section pipeline.
Context `{ControllerUtil} `{MapRange string} `{Kubelet}.

(** C7: in a pod made for a pipeline an uploader starts only after the
    scanners have ended: in every run of its containers, when the command of an
    uploader is started, the command of each scanner that takes part is over
    and its mark made, unless the uploader was unable to look for that mark. *)
Theorem pipeline_uploads_after_scans init_code r pod p profile downloader uploaders pod'
    before j answer after state i c :
  populateScanPod r pod p profile downloader uploaders = Ok pod' ->
  time_is_zero (CreationTimestamp (Pod_Meta pod)) = true ->
  let containers := PS_Containers (Pod_Spec pod') in
  let uploader := (length (scanners_of p profile) + j)%nat in
  Forall (fun c => is_label (C_Name c) = true) (scanners_of p profile) ->
  NoDup (C_Name <$> scanners_of p profile) ->
  pod_run (pod_programs init_code pod' containers) {[processDirectory]}
    (pod_start init_code pod' containers)
    (before ++ (uploader, Start answer) :: after) state ->
  (j < length uploaders)%nat -> scanners_of p profile !! i = Some c ->
  ((i, Create None) ∈ before /\ exists res, ended_with i before res) \/
  exists e, (uploader, Stat i (StatFailed e)) ∈ before.
Proof.
  intros Hpod Hnew containers uploader Hlabels Hdup Hrun [u Hu]%lookup_lt_is_Some Hc.
  apply populateScanPod_fresh in Hpod; [|done].
  assert (containers = scan_pod_containers p profile downloader uploaders) as Hcont.
  { subst containers. rewrite Hpod. unfold ApplyStandardOptions at 1.
    by rewrite ApplyOptionsToAll_app. }
  rewrite Hcont in Hrun.
  destruct (uploader_program init_code pod' p profile downloader uploaders Hlabels j u Hu) as (q & Hq & Hdir & Hpre).
  { intros Hnil. by rewrite Hnil in Hc. }
  assert (is_label (C_Name c) = true) as Hlabel.
  { rewrite Forall_forall in Hlabels. apply Hlabels. by eapply list_elem_of_lookup_2. }
  assert ((C_Name <$> scannerContainers p profile) !! i = Some (scanContainerPrefix +:+ C_Name c)) as Hi.
  { by rewrite scannerContainers_names, list_lookup_fmap, Hc. }
  pose proof (start_awaited _ _ _ _ _ _ _ _ _ _ _ _ (pod_start_initial _ _ _) Hrun Hq Hpre Hi) as Hseen.
  rewrite mark_path_scanner in Hseen by done. destruct Hseen as [Hmark|[Hdirs|Hfail]].
  - left. destruct Hmark as (i' & p' & scanner & Hp' & Hpost & Hpath & Hcreate & Hended).
    destruct (mark_owner init_code pod' p profile downloader uploaders Hlabels i' p' scanner c Hp' Hpost Hlabel Hpath)
      as (c' & Hc' & Hname).
    assert (i' = i) as ->; [|done].
    eapply NoDup_lookup; [exact Hdup|rewrite list_lookup_fmap, Hc'; simpl; by rewrite Hname|].
    by rewrite list_lookup_fmap, Hc.
  - apply elem_of_singleton in Hdirs. discriminate Hdirs.
  - by right.
Qed.
End pipeline.

(** ** A run of the pod of the example *)

Module Run.

Definition containers : list Container := PS_Containers (Pod_Spec ScanPod.Example.scan_pod).
Definition programs : list Program := pod_programs (H1 := kubelet_model) 0 ScanPod.Example.scan_pod containers.
Definition start : PodState := pod_start (H1 := kubelet_model) 0 ScanPod.Example.scan_pod containers.

(** The uploader looks once too early; the second scanner fails. *)
Definition before_upload : list LogEntry :=
  [ (2%nat, Stat 0 StatNotExist); (0%nat, Start None); (1%nat, Start None);
    (0%nat, Wait (Some (Exited 0)) None); (0%nat, Create None); (0%nat, Write None);
    (2%nat, Stat 0 StatFound); (1%nat, Wait (Some (Exited 3)) (Some (ExitError (Exited 3))));
    (1%nat, Create None); (2%nat, Stat 1 StatFound); (1%nat, Write None); (2%nat, Joined) ].

Definition started : PodState :=
  match execute programs {[processDirectory]} start (before_upload ++ [(2%nat, Start None)]) with
  | Some state => state
  | None => start
  end.

Lemma run_started :
  pod_run programs {[processDirectory]} start (before_upload ++ [(2%nat, Start None)]) started.
Proof. apply execute_sound. vm_compute. reflexivity. Qed.

Example processes_started : Processes started = [Gone 0; Gone 3; Waiting].
Proof. vm_compute. reflexivity. Qed.

Lemma pipeline_uploads_after_scans_witness :
  (1%nat, Create None) ∈ before_upload /\ exists res, ended_with 1 before_upload res.
Proof.
  destruct (pipeline_uploads_after_scans (H := ScanPod.Example.controller_util)
    (H0 := ScanPod.Example.range) (H1 := kubelet_model) 0 ScanPod.Example.reconciler
    ScanPod.Example.new_pod ScanPod.Example.pipeline ScanPod.Example.profile
    ScanPod.Example.downloader [ScanPod.Example.uploader] ScanPod.Example.scan_pod
    before_upload 0 None [] started 1 (ScanPod.Example.named_container "b" ["/deep"]))
    as [H|[e H]].
  - exact ScanPod.Example.populate_new.
  - vm_compute. reflexivity.
  - vm_compute. repeat constructor.
  - apply (bool_decide_unpack _). vm_compute. exact I.
  - exact run_started.
  - simpl. lia.
  - vm_compute. reflexivity.
  - exact H.
  - exfalso. vm_compute in H. absurd_elem H.
Defined.

(** The first scanner is killed before its command ends: the uploader starts
    only because a poll failed. *)
Definition killed_log : list LogEntry := [(0%nat, Start None); (0%nat, Kill 137)].
Definition failed_polls : list LogEntry :=
  [ (2%nat, Stat 0 (StatFailed (APIError "stale handle"))); (1%nat, Start None);
    (1%nat, Wait (Some (Signaled 9)) (Some (ExitError (Signaled 9)))); (1%nat, Create None);
    (2%nat, Stat 1 StatFound); (2%nat, Joined); (2%nat, Start None) ].
Definition run_from (state : PodState) (log : list LogEntry) : PodState :=
  default state (execute programs {[processDirectory]} state log).
Definition killed : PodState := run_from start killed_log.
Definition uploading : PodState := run_from killed failed_polls.

Definition process_uploader : Program := default (mkProgram (fun _ => "") None None (mkCmd "" [] 0)) (programs !! 2%nat).

Lemma post_stop_cases i q scanner :
  programs !! i = Some q -> PostStop q = Some scanner ->
  (i = 0%nat /\ mark_path (Environ q) scanner = "/var/run/ocular/proc/scanner-a") \/
  (i = 1%nat /\ mark_path (Environ q) scanner = "/var/run/ocular/proc/scanner-b").
Proof.
  intros Hq Hp. destruct i as [|[|[|i]]].
  - left. split; [done|]. vm_compute in Hq. injection Hq as <-. injection Hp as <-. by vm_compute.
  - right. split; [done|]. vm_compute in Hq. injection Hq as <-. injection Hp as <-. by vm_compute.
  - vm_compute in Hq. injection Hq as <-. discriminate Hp.
  - vm_compute in Hq. discriminate Hq.
Qed.

Lemma no_mark_no_start_witness :
  Processes killed !! 0%nat = Some (Gone 137) /\
  exists e, (2%nat, Stat 0 (StatFailed e)) ∈ killed_log ++ failed_polls.
Proof.
  split; [vm_compute; reflexivity|].
  apply (no_mark_no_start programs {[processDirectory]} start killed_log killed 0 137 failed_polls
    uploading 2 None process_uploader ["scanner-a"; "scanner-b"] 0 "scanner-a").
  - apply pod_start_initial.
  - apply execute_sound. vm_compute. reflexivity.
  - vm_compute. reflexivity.
  - intros H. absurd_elem H.
  - vm_compute. reflexivity.
  - vm_compute. reflexivity.
  - vm_compute. reflexivity.
  - apply (bool_decide_unpack _). vm_compute. exact I.
  - intros i' p' scanner Hp' Hpost Hpath.
    destruct (post_stop_cases i' p' scanner Hp' Hpost) as [[-> _]|[-> Hb]]; [reflexivity|].
    rewrite Hb in Hpath. vm_compute in Hpath. discriminate Hpath.
  - apply execute_sound. vm_compute. reflexivity.
  - apply (list_elem_of_lookup_2 _ 8). reflexivity.
Defined.

Lemma sidecar_exit_code_witness :
  Processes started !! 1%nat = Some (Gone 3) /\
  ((exists e, (1%nat, Start (Some e)) ∈ before_upload ++ [(2%nat, Start None)] /\ 3 = 1) \/
   exists st err, (1%nat, Wait st err) ∈ before_upload ++ [(2%nat, Start None)] /\
     match st, err with
     | Some (Exited c), None => c = 0 /\ 3 = 0
     | Some (Exited c), Some (ExitError _) => c <> 0 /\ 3 = c
     | Some (Signaled signal), Some (ExitError _) => 3 = 128 + signal
     | _, _ => 3 = 1
     end).
Proof.
  split; [vm_compute; reflexivity|].
  apply (sidecar_exit_code programs {[processDirectory]} start (before_upload ++ [(2%nat, Start None)])
    started 1 3).
  - apply pod_start_initial.
  - exact run_started.
  - vm_compute. discriminate.
  - vm_compute. reflexivity.
  - vm_compute. discriminate.
  - intros H. absurd_elem H.
Defined.

(** The marks are there, and the uploader has not looked yet. *)
Definition marked_state : PodState :=
  run_from start [ (0%nat, Start None); (0%nat, Wait (Some (Exited 0)) None); (0%nat, Create None);
    (1%nat, Start None); (1%nat, Wait (Some (Exited 0)) None); (1%nat, Create None) ].

Lemma await_completes_witness :
  exists more, pod_run programs {[processDirectory]}
    (mkPodState (Marks marked_state) (Processes marked_state)) more
    (mkPodState (Marks marked_state) (<[2%nat := Starting]> (Processes marked_state))) /\
    (length more <= 3)%nat.
Proof.
  destruct (await_completes programs {[processDirectory]} (Marks marked_state) (Processes marked_state)
    2 process_uploader (AwaitScans ["scanner-a"; "scanner-b"])) as (more & Hrun & Hlen & _).
  - vm_compute. reflexivity.
  - vm_compute. reflexivity.
  - intros n Hn. left. change (n ∈ ["scanner-a"; "scanner-b"]) in Hn.
    apply list_elem_of_In in Hn as [<-|[<-|[]]]; exists ""; vm_compute; reflexivity.
  - exists more. split; [exact Hrun|exact Hlen].
Defined.
End Run.
