(* ===== verification/SidecarCode.v ===== *)
(** * The sidecar as programs (cmd/sidecar/main.go)

    Sidecar has a wrapped container as a state machine whose transitions are
    the answers of the operating system.  Here its code is a program: [main],
    with [HookCommand] of Os and the two hooks, and the loops of the goroutines
    that [AwaitScans] starts.  The containers of a pod that run these programs,
    over one directory of marks, and the pod of machines simulate each other. *)

From Stdlib Require Import ZArith String Ascii.
From S2P Require Import Prelude Effects GoStd K8s Api Client Resources Containers ControllerCommon PipelineController ScanPod Os Clientset Kubelet Sidecar SidecarSafety SidecarPod.

Local Open Scope string_scope.
Local Open Scope Z_scope.
Local Open Scope list_scope.
Local Open Scope prog_scope.

(** ** The programs *)

(** The calls of a goroutine of [AwaitScans]: [os.Stat] and [time.Sleep]. *)
Inductive ScanOp : Type -> Type :=
| StatMark (path : string) : ScanOp StatResult
| SleepSecond : ScanOp unit.

(** What is left of an iteration: [None] goes on, [Some err] returns. *)
Notation scan_prog := (free ScanOp (option (option GoError))).

Definition IsScannerComplete (env : string -> string) (scanner : string) : free ScanOp (result GoError bool) :=
  let* answer := op (StatMark (path_join [env EnvVarProcessDir; scanner])) in
  match answer with
  | StatNotExist => Ret (Ok false)
  | StatFailed err => Ret (Err err)
  | StatFound => Ret (Ok true)
  end.

(** The body of the loop of such a goroutine. *)
Definition await_scanner (env : string -> string) (scanner : string) : scan_prog :=
  let* complete := IsScannerComplete env scanner in
  match complete with
  | Err err => Ret (Some (Some err))
  | Ok true => Ret (Some None)
  | Ok false => let* _ := op SleepSecond in Ret None
  end.

Definition AwaitScans (scanners : list string) : Hook :=
  let* _ := op (GoScanners scanners) in op JoinScanners.

(** The end of the hook, with the exit code and the file. *)
Definition write_mark (exitcode : Z) (f : Handle) : Hook :=
  let* err := op (WriteString f (itoa exitcode)) in
  match err with
  | Err err => Ret (Some (Wrapped "unable to write exit code" err))
  | Ok _ => Ret None
  end.
Definition create_mark (markPath : string) (exitcode : Z) : Hook :=
  let* f := op (CreateFile markPath) in
  match f with
  | Err err => Ret (Some (Wrapped "unable to create mark path" err))
  | Ok f => write_mark exitcode f
  end.
Definition ScanCompleteHook (env : string -> string) (scanner : string) : Hook :=
  let markPath := path_join [env EnvVarProcessDir; scanner] in
  let* st := op CommandState in
  create_mark markPath (ProcessState_ExitCode st).

(** [main] from the call of [HookCommand]; it ends with what [os.Exit] is given. *)
Definition run_hooked (cmd : Cmd) (preStart postStop : option Hook) : os_prog Z :=
  let* '(exitCode, err) := HookCommand cmd preStart postStop in
  match err with
  | Some _ => Ret 1
  | None => Ret exitCode
  end.

Definition main (env : string -> string) (args : list string) : os_prog Z :=
  match args with
  | _ :: command :: userCmd =>
      if String.eqb command "init" then sidecar_init env
      else if String.eqb command "await-scanners" then
        match BuildUserCommand userCmd with
        | Err _ => Ret 1
        | Ok cmd =>
            let awaitScannersHook := AwaitScans (strings_split (env EnvVarScanContainerNames) ","%char) in
            run_hooked cmd (Some awaitScannersHook) None
        end
      else if String.eqb command "scanner" then
        match BuildUserCommand userCmd with
        | Err _ => Ret 1
        | Ok cmd => run_hooked cmd None (Some (ScanCompleteHook env (env EnvVarContainerName)))
        end
      else Ret 1
  | _ => Ret 1
  end.

(** ** Their executions *)

(** A process: what is left of [main] and of the iterations of its goroutines,
    the state of the command, and the files it has opened. *)
Record Running := mkRunning {
  Main : os_prog Z;
  Goroutines : list (string * scan_prog);
  State : option WaitStatus;
  Files : gmap Handle string
}.

Definition with_main (s : Running) (p : os_prog Z) : Running := mkRunning p (Goroutines s) (State s) (Files s).

Definition entered (env : string -> string) (args : list string) : Running := mkRunning (main env args) [] None ∅.

(** What [g.Wait()] can answer: the error of one of the goroutines, if one failed. *)
Definition joined (gs : list (string * scan_prog)) (err : option GoError) : Prop :=
  match err with
  | None => Forall (fun g => g.2 = Ret (Some None)) gs
  | Some e => Forall (fun g => exists r, g.2 = Ret (Some r)) gs /\ Exists (fun g => g.2 = Ret (Some (Some e))) gs
  end.

Section steps.
Variable dirs : gset string.

Notation MarkMap := (gmap string string).

(** What [os.Stat] can answer for a path. *)
Definition stat_answers (marks : MarkMap) (path : string) (answer : StatResult) : Prop :=
  match answer with
  | StatFound => found dirs marks path
  | StatNotExist => ~ found dirs marks path
  | StatFailed _ => True
  end.

(** A step of the goroutine with the index [k]; the label is what the machine
    calls it. *)
Definition scan_step (env : string -> string) (marks : MarkMap) (k : nat) (scanner : string)
    (l : option Answer) (p p' : scan_prog) : Prop :=
  match p with
  | Ret (Some _) => False
  | Ret None => l = None /\ p' = await_scanner env scanner
  | Vis e c =>
      match e in ScanOp X return (X -> scan_prog) -> Prop with
      | StatMark path => fun c => exists answer, stat_answers marks path answer /\
          l = Some (Stat k answer) /\ p' = c answer
      | SleepSecond => fun c => l = None /\ p' = c tt
      end c
  end.

(** One of the main goroutine, which alone changes the marks. *)
Definition main_step (env : string -> string) (marks : MarkMap) (l : option Answer) (s s' : Running)
    (marks' : MarkMap) : Prop :=
  match Main s with
  | Ret _ => False
  | Vis e c =>
      match e in OsOp X return (X -> os_prog Z) -> Prop with
      | GoScanners scanners => fun c => l = None /\ marks' = marks /\
          s' = mkRunning (c tt) ((fun scanner => (scanner, await_scanner env scanner)) <$> scanners) (State s) (Files s)
      | JoinScanners => fun c => exists err, joined (Goroutines s) err /\
          l = Some Joined /\ marks' = marks /\ s' = with_main s (c err)
      | StartCommand _ => fun c => exists r, l = Some (Start (error_of r)) /\ marks' = marks /\ s' = with_main s (c r)
      | WaitCommand _ => fun c => exists st err, wait_answers st err /\ l = Some (Wait st err) /\ marks' = marks /\
          s' = mkRunning (c err) (Goroutines s) st (Files s)
      | CommandState => fun c => l = None /\ marks' = marks /\ s' = with_main s (c (State s))
      | CreateFile path => fun c => exists r, l = Some (Create (error_of r)) /\
          match r with
          | Ok f => marks' = <[path := ""]> marks /\
                    s' = mkRunning (c r) (Goroutines s) (State s) (<[f := path]> (Files s))
          | Err _ => marks' = marks /\ s' = with_main s (c r)
          end
      | WriteString f content => fun c => exists r path, Files s !! f = Some path /\ l = Some (Write (error_of r)) /\
          s' = with_main s (c r) /\
          marks' = match r with Ok _ => <[path := content]> marks | Err _ => marks end
      | _ => fun _ => False
      end c
  end.

(** A step of a process, which ends with its main goroutine, or when it is
    killed. *)
Inductive running_step (env : string -> string) (marks : MarkMap) :
    option Answer -> Running -> Running -> MarkMap -> Prop :=
| step_main l s s' marks' : main_step env marks l s s' marks' -> running_step env marks l s s' marks'
| step_scan k scanner l s p p' :
    (forall code, Main s <> Ret code) -> Goroutines s !! k = Some (scanner, p) ->
    scan_step env marks k scanner l p p' ->
    running_step env marks l s (mkRunning (Main s) (<[k := (scanner, p')]> (Goroutines s)) (State s) (Files s)) marks
| step_killed code s :
    (forall code, Main s <> Ret code) -> running_step env marks (Some (Kill code)) s (with_main s (Ret code)) marks.

(** ** One process and its machine *)

Section process.
Variable p : Program.

Definition post_stop : option Hook := ScanCompleteHook (Environ p) <$> PostStop p.

(** What is left of [main]: all of it, and from [g.Wait()], [cmd.Start()],
    [cmd.Wait()] and the deferred hook on. *)
Definition wrapped : os_prog Z := run_hooked (UserCmd p) (AwaitScans <$> PreStart p) post_stop.
Definition starting : os_prog Z := run_hooked (UserCmd p) None post_stop.
Definition joining : os_prog Z := let* _ := op JoinScanners in starting.
Definition stopping (hook : option Hook) (res : Z * option GoError) : os_prog Z :=
  let* '(exitCode, err) := (let* _ := run_hook hook in Ret res) in
  match err with
  | Some _ => Ret 1
  | None => Ret exitCode
  end.
Definition waiting : os_prog Z :=
  let* err := op (WaitCommand (UserCmd p)) in stopping post_stop (exit_code_of_wait err).

Inductive scan_at : string * scan_prog -> string * Goroutine -> Prop :=
| at_again scanner : scan_at (scanner, Ret None) (scanner, Polling)
| at_poll scanner : scan_at (scanner, await_scanner (Environ p) scanner) (scanner, Polling)
| at_sleep scanner : scan_at (scanner, let* _ := op SleepSecond in Ret None) (scanner, Polling)
| at_returned scanner err : scan_at (scanner, Ret (Some err)) (scanner, Finished err).

(** All goroutines have returned. *)
Definition settled (gs : list (string * scan_prog)) : Prop := Forall (fun g => exists r, g.2 = Ret (Some r)) gs.

Inductive code_at : Running -> Process -> Prop :=
| at_entry names : PreStart p = Some names ->
    code_at (mkRunning wrapped [] None ∅) (Awaiting (Sidecar.AwaitScans names))
| at_join gs ms fs : Forall2 scan_at gs ms -> code_at (mkRunning joining gs None fs) (Awaiting ms)
| at_start gs fs : settled gs -> code_at (mkRunning starting gs None fs) Starting
| at_wait gs fs : settled gs -> code_at (mkRunning waiting gs None fs) Waiting
| at_hook gs st fs scanner res : settled gs -> PostStop p = Some scanner ->
    code_at (mkRunning (stopping (Some (ScanCompleteHook (Environ p) scanner)) res) gs st fs) (Creating st res)
| at_create gs st fs scanner res : settled gs -> PostStop p = Some scanner ->
    code_at (mkRunning (stopping (Some (create_mark (mark_path (Environ p) scanner) (ProcessState_ExitCode st))) res)
      gs st fs) (Creating st res)
| at_write gs st fs scanner f res : settled gs -> PostStop p = Some scanner ->
    fs !! f = Some (mark_path (Environ p) scanner) ->
    code_at (mkRunning (stopping (Some (write_mark (ProcessState_ExitCode st) f)) res) gs st fs) (Writing st res)
| at_exit gs st fs code : code_at (mkRunning (Ret code) gs st fs) (Gone code).

Lemma at_stopping gs st fs res :
  settled gs -> code_at (mkRunning (stopping post_stop res) gs st fs) (return_hooked p st res).
Proof.
  intros Hgs. unfold post_stop, return_hooked. destruct (PostStop p) as [scanner|] eqn:E; simpl.
  - by apply (at_hook _ _ _ scanner).
  - destruct res as [code [e|]]; apply at_exit.
Qed.

(** *** Every step of the process is one of the machine *)

(** What the machine does at a step with the label [l], and what becomes of the
    marks. *)
Definition machine_does (marks : MarkMap) (l : option Answer) (m m' : Process) (marks' : MarkMap) : Prop :=
  match l with
  | None => m' = m /\ marks' = marks
  | Some a => answers dirs marks p m a /\ HookCommand_step p a m = Some m' /\
              marks' = Sidecar.ScanCompleteHook p m a marks
  end.

(** Only the answers to the calls of the hook after the command change the marks. *)
Definition leaves_marks (a : Answer) : Prop := match a with Create _ | Write _ => False | _ => True end.

Lemma machine_does_quiet marks a m m' :
  leaves_marks a -> answers dirs marks p m a -> HookCommand_step p a m = Some m' -> machine_does marks (Some a) m m' marks.
Proof.
  intros Ha Hans Hstep. split; [done|]. split; [done|]. unfold Sidecar.ScanCompleteHook.
  by destruct (PostStop p), m, a.
Qed.

Lemma scans_start scanners :
  Forall2 scan_at ((fun scanner => (scanner, await_scanner (Environ p) scanner)) <$> scanners) (Sidecar.AwaitScans scanners).
Proof. apply Forall2_fmap, Forall_Forall2_diag, Forall_forall. intros n _. apply at_poll. Qed.

Lemma scans_settled gs ms :
  Forall2 scan_at gs ms -> settled gs <-> forallb (fun g => finished g.2) ms = true.
Proof.
  unfold settled. induction 1 as [|g m gs ms Hg _ IH]; simpl; [by split|].
  rewrite Forall_cons, andb_true_iff, IH.
  destruct Hg; simpl; naive_solver.
Qed.

Lemma joined_settled gs err : joined gs err -> settled gs.
Proof. destruct err; simpl; [by intros []|]. intros H. eapply Forall_impl; [exact H|]. intros g Hg. by exists None. Qed.

Lemma settled_joined gs : settled gs -> exists err, joined gs err.
Proof.
  induction 1 as [|[n q] gs [r Hr] Hgs [err Herr]]; [exists None; by apply Forall_nil|]. simpl in Hr. subst q.
  assert (settled ((n, Ret (Some r)) :: gs)) as Hall by (constructor; [by exists r|done]).
  destruct r as [e|]; [|destruct err as [e|]].
  - exists (Some e). split; [done|by apply Exists_cons_hd].
  - exists (Some e). split; [done|]. apply Exists_cons_tl. apply Herr.
  - exists None. by apply Forall_cons.
Qed.

Lemma settled_stays marks gs k scanner q l q' :
  settled gs -> gs !! k = Some (scanner, q) -> scan_step (Environ p) marks k scanner l q q' -> False.
Proof. intros Hgs Hk. destruct (Forall_lookup_1 _ _ _ _ Hgs Hk) as [r Hr]. simpl in Hr. by subst q. Qed.

Ltac open_step :=
  repeat match goal with
  | H : _ /\ _ |- _ => destruct H
  | H : exists _, _ |- _ => destruct H
  end; simplify_eq.

Lemma scan_step_machine marks k scanner l q q' ms gs :
  Forall2 scan_at gs ms -> gs !! k = Some (scanner, q) -> scan_step (Environ p) marks k scanner l q q' ->
  exists ms', machine_does marks l (Awaiting ms) (Awaiting ms') marks /\
    Forall2 scan_at (<[k := (scanner, q')]> gs) ms'.
Proof.
  intros Hat Hk Hstep. destruct (Forall2_lookup_l _ _ _ _ _ Hat Hk) as ([n m] & Hm & Hqm).
  assert (forall m', scan_at (scanner, q') (n, m') ->
    Forall2 scan_at (<[k := (scanner, q')]> gs) (<[k := (n, m')]> ms)) as Hins by (intros; by apply Forall2_insert).
  inversion Hqm; subst; simpl in Hstep; open_step; try done.
  - exists ms. split; [done|]. rewrite <-(list_insert_id ms k (n, Polling) Hm). apply Hins, at_poll.
  - exists (<[k := (n, poll x)]> ms). split.
    + apply (machine_does_quiet marks (Stat k x) (Awaiting ms)); simpl; rewrite ?Hm; [done| |done]. intros g [= <-]. by destruct x.
    + apply Hins. destruct x; constructor.
  - exists ms. split; [done|]. rewrite <-(list_insert_id ms k (n, Polling) Hm). apply Hins, at_again.
Qed.

Lemma main_step_machine marks l s s' m marks' :
  code_at s m -> main_step (Environ p) marks l s s' marks' ->
  exists m', machine_does marks l m m' marks' /\ code_at s' m'.
Proof.
  destruct 1 as [names Hpre|gs ms fs Hgs|gs fs Hgs|gs fs Hgs|gs st fs scanner res Hgs Hpost|
    gs st fs scanner res Hgs Hpost|gs st fs scanner f res Hgs Hpost Hf|gs st fs code]; unfold main_step, wrapped; simpl; [rewrite Hpre; simpl|..];
    intros Hstep; open_step; try done.
  - eexists. split; [done|]. apply at_join, scans_start.
  - exists Starting. assert (settled gs) as Hset by (by eapply joined_settled).
    split; [|by apply at_start]. apply machine_does_quiet; [done..|].
    simpl. by rewrite (proj1 (scans_settled gs ms Hgs)).
  - destruct x as [[]|e]; (eexists; split; [by apply machine_does_quiet|]); [by apply at_wait|].
    by apply (at_stopping gs None fs (-1, Some (Wrapped "unable to start command" e))).
  - eexists. split; [by apply machine_does_quiet|]. by apply at_stopping.
  - eexists. split; [done|]. by apply (at_create gs st fs scanner).
  - destruct x as [f|e]; open_step; simpl; unfold Sidecar.ScanCompleteHook; rewrite ?Hpost;
      (eexists; split; [done|]); [|by destruct res as [code [?|]]; apply at_exit].
    apply (at_write _ _ _ scanner); [done..|]. apply lookup_insert_eq.
  - destruct x as [[]|e]; simpl; unfold Sidecar.ScanCompleteHook; rewrite ?Hpost;
      (eexists; split; [done|]); destruct res as [code [?|]]; apply at_exit.
Qed.

Lemma running_step_machine marks l s s' m marks' :
  code_at s m -> running_step (Environ p) marks l s s' marks' ->
  exists m', machine_does marks l m m' marks' /\ code_at s' m'.
Proof.
  intros Hat. destruct 1 as [l s s' marks' Hstep|k scanner l s q q' Hlive Hk Hstep|code s Hlive].
  - by eapply main_step_machine.
  - destruct Hat as [|gs ms fs Hgs| | | | | |]; simpl in *; [done| |exfalso..];
      [|by eapply settled_stays..|by eapply Hlive].
    destruct (scan_step_machine marks k scanner l q q' ms gs) as (ms' & Hm & Hat); [done..|].
    eexists. split; [exact Hm|]. by apply at_join.
  - exists (Gone code). split; [|apply at_exit]. apply machine_does_quiet; [done..|].
    destruct Hat; simpl in *; [done..|by exfalso; eapply Hlive].
Qed.

(** *** Every step of the machine is one of the process *)

(** Steps that the machine does not see. *)
Definition silent_steps (marks : MarkMap) : Running -> Running -> Prop :=
  rtc (fun s s' => running_step (Environ p) marks None s s' marks).

Lemma code_lives s m : code_at s m -> (forall code, m <> Gone code) -> forall code, Main s <> Ret code.
Proof.
  intros Hat Hm code. destruct Hat as [names Hpre| | | | | | |]; simpl; try done.
  - unfold wrapped. by rewrite Hpre.
  - by exfalso; eapply Hm.
Qed.

(** Silent steps take a goroutine that polls to its call of [os.Stat]. *)
Lemma scan_settles marks gs ms fs k scanner :
  Forall2 scan_at gs ms -> ms !! k = Some (scanner, Polling) ->
  exists gs', silent_steps marks (mkRunning joining gs None fs) (mkRunning joining gs' None fs) /\
    Forall2 scan_at gs' ms /\ gs' !! k = Some (scanner, await_scanner (Environ p) scanner).
Proof.
  intros Hat Hm. destruct (Forall2_lookup_r _ _ _ _ _ Hat Hm) as ([n q] & Hk & Hq).
  set (goroutine q := <[k := (scanner, q)]> gs).
  assert (forall q, goroutine q !! k = Some (scanner, q)) as Hlookup
    by (intros; by apply list_lookup_insert_eq, (lookup_lt_Some _ _ _ Hk)).
  assert (forall q, Forall2 scan_at gs ms -> scan_at (scanner, q) (scanner, Polling) -> Forall2 scan_at (goroutine q) ms) as Hins.
  { intros q' _ Hq'. rewrite <-(list_insert_id ms k (scanner, Polling) Hm). by apply Forall2_insert. }
  assert (forall q1 q2, scan_step (Environ p) marks k scanner None q1 q2 ->
    silent_steps marks (mkRunning joining (goroutine q1) None fs) (mkRunning joining (goroutine q2) None fs)) as Hone.
  { intros q1 q2 Hstep. apply rtc_once.
    replace (goroutine q2) with (<[k := (scanner, q2)]> (goroutine q1)) by apply list_insert_insert_eq.
    by apply (step_scan _ _ k scanner None (mkRunning joining (goroutine q1) None fs) q1); [|apply Hlookup|]. }
  assert (goroutine (await_scanner (Environ p) scanner) !! k = Some (scanner, await_scanner (Environ p) scanner) /\
    Forall2 scan_at (goroutine (await_scanner (Environ p) scanner)) ms) as [Hdone Hdone'] by (split; [done|apply Hins; [done|constructor]]).
  exists (goroutine (await_scanner (Environ p) scanner)). split; [|done].
  assert (n = scanner) as -> by (by inversion Hq). rewrite <-(list_insert_id gs k (scanner, q) Hk).
  inversion Hq; subst q.
  - by apply (Hone (Ret None)).
  - apply rtc_refl.
  - etrans; [by apply (Hone _ (Ret None))|by apply Hone].
Qed.

(** Silent steps take a process to the call that the machine is at. *)
Lemma process_settles marks s m :
  code_at s m -> exists s', silent_steps marks s s' /\ code_at s' m /\
    match m with
    | Awaiting ms => exists gs fs, s' = mkRunning joining gs None fs /\ Forall2 scan_at gs ms
    | Creating st res => exists scanner gs fs, settled gs /\ PostStop p = Some scanner /\
        s' = mkRunning (stopping (Some (create_mark (mark_path (Environ p) scanner) (ProcessState_ExitCode st))) res) gs st fs
    | _ => True
    end.
Proof.
  intros Hat. destruct Hat as [names Hpre|gs ms fs Hgs| | |gs st fs scanner res Hgs Hpost| | |];
    try (eexists; split; [apply rtc_refl|split; [by econstructor|]]; naive_solver).
  - eexists. split; [apply rtc_once, step_main; unfold wrapped; rewrite Hpre; done|]. cbn -[joining].
    split; [apply at_join, scans_start|]. eexists _, _. split; [done|apply scans_start].
  - eexists. split; [by apply rtc_once, step_main|]. split; [by apply (at_create _ _ _ scanner)|]. by eexists _, _, _.
Qed.

(** The machine at a call, other than the poll of a goroutine. *)
Lemma call_step marks s m a m' :
  code_at s m -> answers dirs marks p m a -> HookCommand_step p a m = Some m' ->
  match a, m with
  | Stat _ _, _ => False
  | Joined, Awaiting ms => exists gs fs, s = mkRunning joining gs None fs /\ Forall2 scan_at gs ms
  | Create _, Creating st res => exists scanner gs fs, settled gs /\ PostStop p = Some scanner /\
      s = mkRunning (stopping (Some (create_mark (mark_path (Environ p) scanner) (ProcessState_ExitCode st))) res) gs st fs
  | _, _ => True
  end ->
  exists s', running_step (Environ p) marks (Some a) s s' (Sidecar.ScanCompleteHook p m a marks) /\ code_at s' m'.
Proof.
  intros Hat Hans Hstep Hcall.
  enough (exists s', running_step (Environ p) marks (Some a) s s' (Sidecar.ScanCompleteHook p m a marks)) as [s' Hs'].
  { exists s'. split; [done|]. destruct (running_step_machine _ _ _ _ _ _ Hat Hs') as (m'' & (_ & Hstep' & _) & Hat').
    by simplify_eq. }
  assert (leaves_marks a -> Sidecar.ScanCompleteHook p m a marks = marks) as Hquiet.
  { intros Ha. unfold Sidecar.ScanCompleteHook. by destruct (PostStop p), m, a. }
  destruct a as [k answer| |err|st err|err|err|code]; [done|rewrite Hquiet by done..| | |rewrite Hquiet by done].
  - destruct m; try done. destruct Hcall as (gs & fs & -> & Hgs). simpl in Hstep.
    destruct (forallb _ _) eqn:Hall in Hstep; [|done]. apply (scans_settled gs) in Hall; [|done].
    destruct (settled_joined gs Hall) as [err Herr]. eexists. apply step_main. by exists err.
  - destruct m; try done. inversion Hat; subst.
    destruct err as [e|]; eexists; apply step_main; [by exists (Err e)|by exists (Ok tt)].
  - destruct m; try done. inversion Hat; subst. eexists. apply step_main. by exists st, err.
  - destruct m; try done. destruct Hcall as (scanner & gs & fs & _ & Hpost & ->).
    unfold Sidecar.ScanCompleteHook. rewrite Hpost.
    destruct err as [e|]; eexists; apply step_main; [by exists (Err e)|by exists (Ok 0)].
  - destruct m; try done. inversion Hat as [| | | | | |? ? ? scanner f ? _ Hpost Hf|]; subst.
    unfold Sidecar.ScanCompleteHook. rewrite Hpost.
    destruct err as [e|]; eexists; apply step_main;
      [by exists (Err e), (mark_path (Environ p) scanner)|by exists (Ok tt), (mark_path (Environ p) scanner)].
  - eexists. apply step_killed. eapply code_lives; [done|]. by intros c ->.
Qed.

Lemma machine_step_process marks s m a m' :
  code_at s m -> answers dirs marks p m a -> HookCommand_step p a m = Some m' ->
  exists s1 s', silent_steps marks s s1 /\
    running_step (Environ p) marks (Some a) s1 s' (Sidecar.ScanCompleteHook p m a marks) /\ code_at s' m'.
Proof.
  intros Hat Hans Hstep. destruct (process_settles marks s m Hat) as (s1 & Hs1 & Hat1 & Hcall).
  destruct a as [k answer| | | | | |];
    try (exists s1; destruct (call_step marks s1 m _ m' Hat1 Hans Hstep) as (s' & ?); [by destruct m|by exists s']).
  destruct m as [ms| | | | |]; try done. destruct Hcall as (gs & fs & -> & Hgs). simpl in Hans, Hstep.
  destruct (ms !! k) as [[scanner []]|] eqn:Hm; simplify_eq.
  destruct (scan_settles marks gs ms fs k scanner Hgs Hm) as (gs' & Hs2 & Hgs' & Hk).
  eexists _, _. split; [unfold silent_steps in *; by etrans|].
  assert (Sidecar.ScanCompleteHook p (Awaiting ms) (Stat k answer) marks = marks) as ->
    by (unfold Sidecar.ScanCompleteHook; by destruct (PostStop p)).
  split.
  - eapply (step_scan _ _ k scanner); [done|exact Hk|]. exists answer. split; [by apply (Hans (scanner, Polling))|done].
  - apply at_join. apply Forall2_insert; [done|]. destruct answer; constructor.
Qed.
End process.

(** ** The containers of a pod *)

(** What the containers are started with: their environments and arguments.
    The containers that install the binary ran before. *)
Variable init_code : Z.
Variable containers : list ((string -> string) * list string).
Hypothesis no_init : Forall (fun c => c.2 !! 1%nat <> Some "init") containers.

(** The marks, which the processes share, and the processes. *)
Record PodCode := mkPodCode { CodeMarks : MarkMap; Codes : list Running }.

Inductive pod_code_step : option LogEntry -> PodCode -> PodCode -> Prop :=
| code_step marks marks' codes i env args l s s' :
    containers !! i = Some (env, args) -> codes !! i = Some s -> running_step env marks l s s' marks' ->
    pod_code_step (pair i <$> l) (mkPodCode marks codes) (mkPodCode marks' (<[i := s']> codes)).

(** A run, with what the machines see of it. *)
Inductive pod_code_run (start : PodCode) : list LogEntry -> PodCode -> Prop :=
| code_run_start : pod_code_run start [] start
| code_run_step log s l s' :
    pod_code_run start log s -> pod_code_step l s s' -> pod_code_run start (log ++ option_list l) s'.

Definition code_start : PodCode := mkPodCode ∅ ((fun c => entered c.1 c.2) <$> containers).

Definition machine_of (c : (string -> string) * list string) : Program * Process := Sidecar.main init_code c.1 c.2.
Definition machines : list Program := fst <$> (machine_of <$> containers).
Definition machines_start : PodState := mkPodState ∅ (snd <$> (machine_of <$> containers)).

Record pod_at (s : PodCode) (m : PodState) : Prop := {
  same_marks : CodeMarks s = Marks m;
  same_stages i p : machines !! i = Some p -> option_Forall2 (code_at p) (Codes s !! i) (Processes m !! i)
}.

Lemma main_at env args :
  args !! 1%nat <> Some "init" -> code_at (Sidecar.main init_code env args).1 (entered env args) (Sidecar.main init_code env args).2.
Proof.
  intros Hinit. unfold entered, main, Sidecar.main. destruct args as [|a [|command userCmd]]; [by apply at_exit..|].
  destruct (String.eqb_spec command "init") as [->|]; [done|].
  destruct (String.eqb command "await-scanners"); [destruct userCmd; [by apply at_exit|by eapply at_entry]|].
  destruct (String.eqb command "scanner"); [|by apply at_exit].
  destruct userCmd; [by apply at_exit|by apply at_start, Forall_nil].
Qed.

Lemma pod_start_at : pod_at code_start machines_start.
Proof.
  split; [done|]. intros i p. unfold code_start, machines_start, machines. simpl. rewrite !list_lookup_fmap.
  destruct (containers !! i) as [[env args]|] eqn:E; [|done]. simpl. intros [= <-]. constructor.
  apply main_at. by apply (Forall_lookup_1 _ _ _ _ no_init E).
Qed.

Lemma machines_environ i env args p :
  containers !! i = Some (env, args) -> machines !! i = Some p -> Environ p = env.
Proof.
  intros Hc. unfold machines. rewrite !list_lookup_fmap, Hc. intros [= <-]. apply Environ_main.
Qed.

Lemma container_machine i env args : containers !! i = Some (env, args) -> is_Some (machines !! i).
Proof. intros Hc. unfold machines. by rewrite !list_lookup_fmap, Hc. Qed.

(** A process moves on, the others stay. *)
Lemma pod_at_insert marks codes procs marks' i p s' m' :
  pod_at (mkPodCode marks codes) (mkPodState marks procs) -> machines !! i = Some p -> code_at p s' m' ->
  pod_at (mkPodCode marks' (<[i := s']> codes)) (mkPodState marks' (<[i := m']> procs)).
Proof.
  intros [_ Hat] Hp Hnew. split; [done|]. intros j q Hq. simpl. specialize (Hat j q Hq). simpl in Hat.
  destruct (decide (i = j)) as [->|Hne].
  - simplify_eq. inversion Hat as [c m Hc Hc' Hm|Hc Hm].
    + rewrite !list_lookup_insert_eq by (by eapply lookup_lt_Some). by constructor.
    + rewrite !list_insert_ge by (by apply lookup_ge_None). rewrite <-Hc, <-Hm. constructor.
  - by rewrite !list_lookup_insert_ne.
Qed.

Lemma pod_code_step_machine l s s' m :
  pod_at s m -> pod_code_step l s s' ->
  exists m', (match l with Some entry => pod_step machines dirs m entry m' | None => m' = m end) /\ pod_at s' m'.
Proof.
  intros Hat Hstep. destruct Hstep as [marks marks' codes i env args l s s' Hc Hs Hrun], m as [marks0 procs].
  pose proof (same_marks _ _ Hat) as E. simpl in E. subst marks0.
  destruct (container_machine _ _ _ Hc) as [p Hp]. pose proof (same_stages _ _ Hat i p Hp) as Hi. simpl in Hi.
  rewrite Hs in Hi. inversion Hi as [c q Hcq Hc' Hq|]; subst.
  rewrite <-(machines_environ _ _ _ _ Hc Hp) in Hrun.
  destruct (running_step_machine _ _ _ _ _ _ _ Hcq Hrun) as (q' & Hm & Hcq').
  exists (mkPodState marks' (<[i := q']> procs)). split; [|by eapply pod_at_insert].
  destruct l as [a|]; simpl in *.
  - destruct Hm as (Hans & Hm & ->). by apply process_step.
  - destruct Hm as [-> ->]. by rewrite list_insert_id.
Qed.

Lemma silent_pod_run start log marks codes i env args p s s' :
  containers !! i = Some (env, args) -> machines !! i = Some p ->
  codes !! i = Some s -> silent_steps p marks s s' ->
  pod_code_run start log (mkPodCode marks codes) ->
  pod_code_run start log (mkPodCode marks (<[i := s']> codes)).
Proof.
  intros Hc Hp Hs Hsilent. revert codes Hs. induction Hsilent as [s|s s1 s2 Hstep _ IH]; intros codes Hs Hrun.
  - by rewrite list_insert_id.
  - rewrite <-(list_insert_insert_eq codes i s2 s1). apply IH.
    { by apply list_lookup_insert_eq, (lookup_lt_Some _ _ _ Hs). }
    rewrite <-(app_nil_r log). change [] with (option_list (pair i <$> @None Answer)).
    eapply code_run_step; [exact Hrun|]. eapply code_step; [done|done|].
    by rewrite <-(machines_environ _ _ _ _ Hc Hp).
Qed.

Lemma machine_step_pod start log s m entry m' :
  pod_code_run start log s -> pod_at s m -> pod_step machines dirs m entry m' ->
  exists s', pod_code_run start (log ++ [entry]) s' /\ pod_at s' m'.
Proof.
  intros Hrun Hat Hstep. destruct Hstep as [marks procs i p q a q' Hp Hq Hans Hstep], s as [marks0 codes].
  pose proof (same_marks _ _ Hat) as E. simpl in E. subst marks0.
  pose proof (same_stages _ _ Hat i p Hp) as Hi. simpl in Hi. rewrite Hq in Hi.
  inversion Hi as [c ? Hcq Hc|]; subst. symmetry in Hc.
  assert (exists env args, containers !! i = Some (env, args)) as (env & args & Hcont).
  { unfold machines in Hp. rewrite !list_lookup_fmap in Hp. destruct (containers !! i) as [[env args]|]; [eauto|done]. }
  destruct (machine_step_process p marks c q a q' Hcq Hans Hstep) as (c1 & c' & Hsilent & Hrun' & Hcq').
  eexists. split.
  - change [(i, a)] with (option_list (pair i <$> Some a)). eapply code_run_step; [by eapply silent_pod_run|].
    eapply code_step; [exact Hcont|by apply list_lookup_insert_eq, (lookup_lt_Some _ _ _ Hc)|].
    by rewrite <-(machines_environ _ _ _ _ Hcont Hp).
  - rewrite list_insert_insert_eq. by eapply pod_at_insert.
Qed.

(** C15: the containers of a pod that run the code of the sidecar, loop by loop and
    call by call, and the machines the theorems on the sidecar are about do the
    same: whatever is seen of a run of the one - every poll, start, end of a
    command, creation and writing of a mark, of all containers in their order -
    is a run of the other, and they end at corresponding points with the same
    marks. *)
Theorem sidecars_are_machines :
  (forall log s, pod_code_run code_start log s ->
     exists m, pod_run machines dirs machines_start log m /\ pod_at s m) /\
  (forall log m, pod_run machines dirs machines_start log m ->
     exists s, pod_code_run code_start log s /\ pod_at s m).
Proof.
  split.
  - intros log s. induction 1 as [|log s l s' _ (m & Hm & Hat) Hstep].
    + exists machines_start. split; [constructor|apply pod_start_at].
    + destruct (pod_code_step_machine l s s' m Hat Hstep) as (m' & Hl & Hat'). exists m'. split; [|done].
      destruct l as [entry|]; simpl; [by eapply run_step|]. by rewrite app_nil_r, Hl.
  - intros log m. induction 1 as [|log m entry m' _ (s & Hs & Hat) Hstep].
    + exists code_start. split; [constructor|apply pod_start_at].
    + by eapply machine_step_pod.
Qed.
End steps.

Module SidecarCode_example.
(** The pod of SidecarPod's example: two scanners, and the uploader that waits. *)
Definition containers : list ((string -> string) * list string) :=
  (fun c => (getenv (Kubelet := kubelet_model) ScanPod.Example.scan_pod c, argv c)) <$> Run.containers.

Lemma containers_no_init : Forall (fun c => c.2 !! 1%nat <> Some "init") containers.
Proof. unfold containers. vm_compute. repeat constructor; discriminate. Qed.

(** The machines are those of the example. *)
Lemma example_run :
  pod_run (machines 0 containers) {[processDirectory]} (machines_start 0 containers)
    (Run.before_upload ++ [(2%nat, Start None)]) Run.started.
Proof.
  assert (machines 0 containers = Run.programs) as ->.
  { unfold machines, containers. by rewrite <-(list_fmap_compose _ (machine_of 0)). }
  assert (machines_start 0 containers = Run.start) as ->; [|exact Run.run_started].
  unfold machines_start, containers. by rewrite <-(list_fmap_compose _ (machine_of 0)).
Qed.

(** The code gets as far as the start of the uploader, with both marks made. *)
Lemma sidecars_are_machines_witness :
  exists s, pod_code_run {[processDirectory]} containers (code_start containers)
      (Run.before_upload ++ [(2%nat, Start None)]) s /\
    CodeMarks s = Marks Run.started /\ pod_at 0 containers s Run.started.
Proof.
  destruct (proj2 (sidecars_are_machines {[processDirectory]} 0 containers containers_no_init)
    (Run.before_upload ++ [(2%nat, Start None)]) Run.started) as (s & Hs & Hat).
  - exact example_run.
  - exists s. split; [exact Hs|]. split; [exact (same_marks _ _ _ _ Hat)|exact Hat].
Defined.
End SidecarCode_example.
