(* ===== verification/Scheduler.v ===== *)
(** * The scheduler of a search (cmd/scheduler)

    The binary that wraps the crawler of a search.  It decodes targets and
    crawler references from two FIFOs the crawler writes to, and creates a
    pipeline for each target and a search for each reference.  Each FIFO has
    two goroutines, one that decodes and one that creates, which meet at an
    unbuffered channel; they stop after the crawler has exited.

    As for the sidecar, a goroutine is a state machine whose transitions are
    the answers to the call it is at. *)

From Stdlib Require Import ZArith Lia String Ascii.
From S2P Require Import Prelude Effects GoStd K8s Api Client SearchController.

Local Open Scope string_scope.
Local Open Scope Z_scope.
Local Open Scope list_scope.

(** [utils.MergeMaps]. *)
Definition MergeMaps {V} (base override : gmap string V) : gmap string V :=
  let merged := maps_copy ∅ base in
  maps_copy merged override.

(** ** Settings *)

(** The pause after a resource was created, in seconds. *)
Definition sleep_duration (env : string -> string) : Z :=
  match atoi (env EnvVarPipelineSchedulerIntervalSeconds) with
  | None => 60
  | Some sleepDuration => if sleepDuration <? 0 then 60 else sleepDuration
  end.

(** The time to live of the searches it creates, an [*int32]. *)
Definition search_ttl (env : string -> string) : option Z :=
  let ttlEnv := env EnvVarSchedulerSearchTTL in
  if String.eqb ttlEnv "" then None
  else match atoi ttlEnv with
       | Some ttl => if ttl =? 0 then None else Some (int32 ttl)
       | None => None
       end.

(** ** The resources it creates *)

Section resources.
Variable env : string -> string.
Variable template : PipelineTemplate.

Definition scheduledByLabels : gmap string string :=
  {[ ScheduledByLabelKey := env EnvVarSearchName ]}.

Definition ownerRef : OwnerReference :=
  mkOwnerReference GroupVersion "Search" (env EnvVarSearchName) (env EnvVarSchedulerParentUID)
    (Some true).

Definition scheduled_search (crawler : ParameterizedLocalObjectReference) : Search :=
  mkSearch
    (mkObjectMeta "" (env EnvVarSearchName +:+ "-") (env EnvVarNamespaceName) "" scheduledByLabels ∅
       zero_time None [] [ownerRef])
    (mkSearchSpec crawler (search_ttl env) (env EnvVarSchedulerServiceAccount) None
       (mkSearchSchedulerSpec (mkPipelineTemplate zero_ObjectMeta (PT_Spec template))
          (Some (int32 (sleep_duration env)))) None)
    zero_SearchStatus.

Definition with_target (spec : PipelineSpec) (target : Target) : PipelineSpec :=
  mkPipelineSpec (PipeS_DownloaderRef spec) (PipeS_ProfileRef spec) target
    (PipeS_ServiceAccountName spec) (PipeS_RuntimeClassName spec)
    (PipeS_TTLSecondsAfterFinished spec) (PipeS_TTLSecondsMaxLifetime spec)
    (PipeS_Parameters spec) (PipeS_Resources spec).

Definition scheduled_pipeline (target : Target) : Pipeline :=
  let pipelineLabels := MergeMaps (Labels (PT_Meta template)) scheduledByLabels in
  let pipelineAnnotations := Annotations (PT_Meta template) in
  mkPipeline
    (mkObjectMeta "" (env EnvVarSearchName +:+ "-") (env EnvVarNamespaceName) "" pipelineLabels
       pipelineAnnotations zero_time None [] [ownerRef])
    (with_target (PT_Spec template) target)
    zero_PipelineStatus.
End resources.

(** ** The goroutines of a FIFO *)

Section stream.
Context {T : Type}.

(** [fifoDecoder]: at [openFIFOReader], at [Decode], at [c <- t], at the sleep
    after an error of [Decode] - after which it looks whether the context is
    done -, or returned, the channel being closed. *)
Inductive Decoder :=
| Opening
| Decoding
| Sending (t : T)
| Sleeping
| Closed.

(** The goroutine that creates: at [<-c], at [Create], at the pause after a
    resource was created, or returned. *)
Inductive Creator :=
| Receiving
| Creating (t : T)
| Pausing
| Stopped.

Record Stream := mkStream { Decode_State : Decoder; Create_State : Creator }.

Definition stream_start : Stream := mkStream Opening Receiving.

(** What happens: the FIFO was opened or not; a value was decoded, or not (the
    end of the file, or a value of another form); a value went through the
    channel; the decoder woke up; the creator saw the channel closed; a
    resource was created or not; the pause was over. *)
Inductive StreamEvent :=
| Opened (err : option GoError)
| Decoded (t : T)
| DecodeFailed
| Sent
| WokeUp
| SawClosed
| Created (err : option GoError)
| Paused.

(** The context of the decoders is done when [cancelled] is set. *)
Definition stream_step (cancelled : bool) (ev : StreamEvent) (s : Stream) : option Stream :=
  match ev, Decode_State s, Create_State s with
  | Opened (Some _), Opening, c => Some (mkStream Opening c)
  | Opened None, Opening, c => Some (mkStream Decoding c)
  | Decoded t, Decoding, c => Some (mkStream (Sending t) c)
  | DecodeFailed, Decoding, c => Some (mkStream Sleeping c)
  | Sent, Sending t, Receiving => Some (mkStream Decoding (Creating t))
  | WokeUp, Sleeping, c => Some (mkStream (if cancelled then Closed else Opening) c)
  | SawClosed, Closed, Receiving => Some (mkStream Closed Stopped)
  | Created (Some _), d, Creating _ => Some (mkStream d Receiving)
  | Created None, d, Creating _ => Some (mkStream d Pausing)
  | Paused, d, Pausing => Some (mkStream d Receiving)
  | _, _, _ => None
  end.

Definition stream_done (s : Stream) : bool :=
  match s with mkStream Closed Stopped => true | _ => false end.
End stream.
Arguments Decoder : clear implicits.
Arguments Creator : clear implicits.
Arguments Stream : clear implicits.
Arguments StreamEvent : clear implicits.

(** ** The whole scheduler *)

(** The hook that runs after the crawler: not called, at [wg.Wait()], or
    returned, the FIFOs being removed. *)
Inductive HookState := NotCalled | WaitingForGroup | Returned.

Record Scheduler := mkScheduler {
  Cancelled : bool;                                          (* crawlerCtx is done *)
  Targets : Stream Target;
  Crawlers : Stream ParameterizedLocalObjectReference;
  ScheduleHook : HookState
}.

Definition Schedule_start : Scheduler := mkScheduler false stream_start stream_start NotCalled.

(** A step of a goroutine, a signal that cancels the context, the exit of the
    crawler - the hook is called, which cancels the context too -, and the end
    of the wait for the goroutines. *)
Inductive SchedulerEvent :=
| TargetEvent (ev : StreamEvent Target)
| CrawlerEvent (ev : StreamEvent ParameterizedLocalObjectReference)
| Terminated
| CrawlerExited
| GroupDone.

Definition Schedule_step (ev : SchedulerEvent) (s : Scheduler) : option Scheduler :=
  let '(mkScheduler cancelled targets crawlers hook) := s in
  match ev with
  | TargetEvent ev =>
      (fun targets => mkScheduler cancelled targets crawlers hook) <$> stream_step cancelled ev targets
  | CrawlerEvent ev =>
      (fun crawlers => mkScheduler cancelled targets crawlers hook) <$> stream_step cancelled ev crawlers
  | Terminated => Some (mkScheduler true targets crawlers hook)
  | CrawlerExited =>
      match hook with
      | NotCalled => Some (mkScheduler true targets crawlers WaitingForGroup)
      | _ => None
      end
  | GroupDone =>
      match hook with
      | WaitingForGroup =>
          if stream_done targets && stream_done crawlers
          then Some (mkScheduler cancelled targets crawlers Returned)
          else None
      | _ => None
      end
  end.

Fixpoint Schedule_run (s : Scheduler) (log : list SchedulerEvent) : option Scheduler :=
  match log with
  | [] => Some s
  | ev :: log => match Schedule_step ev s with Some s => Schedule_run s log | None => None end
  end.
