(* ===== verification/SchedulerSafety.v ===== *)
(** * What the scheduler guarantees

    Every target that was decoded is handed to the API server, once and in order,
    before the hook of the scheduler returns; resources are created at the pace that was
    asked for; what is created is what its search waits for. *)

From Stdlib Require Import ZArith Lia String Ascii.
From S2P Require Import Prelude Effects GoStd K8s Api Client Resources Containers ControllerCommon SearchController SearchSafety Kubelet Scheduler.

Local Open Scope string_scope.
Local Open Scope Z_scope.
Local Open Scope list_scope.

(** ** One FIFO *)

Section stream.
Context {T : Type}.
Implicit Types (s : Stream T) (ev : StreamEvent T).

(** The values an event decodes, those it tries to create, and those that wait
    between the two, the oldest first. *)
Definition decodes ev : list T := match ev with Decoded t => [t] | _ => [] end.
Definition attempts s ev : list T :=
  match ev, Create_State s with Created _, Creating t => [t] | _, _ => [] end.
Definition in_flight s : list T :=
  match Create_State s with Creating t => [t] | _ => [] end
  ++ match Decode_State s with Sending t => [t] | _ => [] end.

Lemma stream_step_fifo cancelled ev s s' :
  stream_step cancelled ev s = Some s' -> in_flight s ++ decodes ev = attempts s ev ++ in_flight s'.
Proof.
  destruct s as [d c], ev as [[e|]|t| | | | |[e|]|], d, c; simpl; intros E; try discriminate E;
    injection E as <-; by destruct cancelled.
Qed.

Lemma stream_done_stuck cancelled ev s : stream_done s = true -> stream_step cancelled ev s = None.
Proof. by destruct s as [[| |x| |] [|y| |]], ev as [[e|]|t| | | | |[e|]|]. Qed.

Lemma stream_done_empty s : stream_done s = true -> in_flight s = [].
Proof. by destruct s as [[] []]. Qed.

(** What is true of a stream: it closes only after the cancellation, and the
    creator stops only after the decoder. *)
Definition stream_ok (cancelled : bool) s : Prop :=
  (Decode_State s = Closed -> cancelled = true) /\ (Create_State s = Stopped -> Decode_State s = Closed).

Lemma stream_step_ok cancelled ev s s' :
  stream_ok cancelled s -> stream_step cancelled ev s = Some s' -> stream_ok cancelled s'.
Proof.
  intros [H1 H2]. destruct s as [d c], ev as [[e|]|t| | | | |[e|]|], d, c; simpl in *; intros E;
    try discriminate E; injection E as <-; split; simpl; intros ?;
    solve [done | by destruct cancelled | by apply H1 | by discriminate H2].
Qed.

(** Streams after the cancellation: as long as the FIFO can be opened and
    resources get an answer, eight steps are enough to finish, whatever the
    state, if nothing more can be decoded. *)
Definition drain (s : Stream T) : list (StreamEvent T) :=
  let close := [DecodeFailed; WokeUp; SawClosed] in
  let settle := match Create_State s with
    | Creating _ => [Created None; Paused]
    | Pausing => [Paused]
    | _ => []
    end in
  settle ++ match Decode_State s with
    | Opening => Opened None :: close
    | Decoding => close
    | Sending t => [Sent; Created None; Paused] ++ close
    | Sleeping => [WokeUp; SawClosed]
    | Closed => match Create_State s with Stopped => [] | _ => [SawClosed] end
    end.

Fixpoint stream_run (cancelled : bool) (s : Stream T) (log : list (StreamEvent T)) : option (Stream T) :=
  match log with
  | [] => Some s
  | ev :: log =>
      match stream_step cancelled ev s with Some s => stream_run cancelled s log | None => None end
  end.

Lemma drain_finishes s :
  stream_ok true s -> stream_run true s (drain s) = Some (mkStream Closed Stopped) /\
    (length (drain s) <= 8)%nat.
Proof.
  intros [_ Hstop]. destruct s as [d c], c, d; simpl in *; split; try done; try lia;
    by discriminate Hstop.
Qed.

(** A FIFO that cannot be opened any more. *)
Lemma opening_stays cancelled ev s s' :
  stream_step cancelled ev s = Some s' -> Decode_State s = Opening -> ev <> Opened None ->
  Decode_State s' = Opening.
Proof.
  destruct s as [d c]. simpl. intros E -> Hev. destruct ev as [[e|]|t| | | | |[e|]|], c; simpl in E;
    try discriminate E; try (by injection E as <-); done.
Qed.
End stream.

(** ** The whole scheduler *)

Definition target_event {A} (f : StreamEvent Target -> list A) (ev : SchedulerEvent) : list A :=
  match ev with TargetEvent ev => f ev | _ => [] end.
Definition crawler_event {A} (f : StreamEvent ParameterizedLocalObjectReference -> list A)
    (ev : SchedulerEvent) : list A :=
  match ev with CrawlerEvent ev => f ev | _ => [] end.

(** What was decoded in a log, and what the scheduler tried to create. *)
Definition target_decodes (log : list SchedulerEvent) : list Target := log ≫= target_event decodes.
Definition crawler_decodes (log : list SchedulerEvent) : list ParameterizedLocalObjectReference :=
  log ≫= crawler_event decodes.

Fixpoint attempted {A} (f : Scheduler -> SchedulerEvent -> list A) (s : Scheduler)
    (log : list SchedulerEvent) : list A :=
  match log with
  | [] => []
  | ev :: log =>
      f s ev ++ match Schedule_step ev s with Some s => attempted f s log | None => [] end
  end.
Definition target_attempts : Scheduler -> list SchedulerEvent -> list Target :=
  attempted (fun s => target_event (attempts (Targets s))).
Definition crawler_attempts : Scheduler -> list SchedulerEvent -> list ParameterizedLocalObjectReference :=
  attempted (fun s => crawler_event (attempts (Crawlers s))).

Lemma Schedule_run_app s log more :
  Schedule_run s (log ++ more) = Schedule_run s log ≫= fun s => Schedule_run s more.
Proof.
  revert s; induction log as [|ev log IH]; intros s; simpl; [done|].
  by destruct (Schedule_step ev s).
Qed.

(** A step of the scheduler moves at most one of its parts. *)
Lemma Schedule_step_inv ev s s' :
  Schedule_step ev s = Some s' ->
  match ev with
  | TargetEvent ev => stream_step (Cancelled s) ev (Targets s) = Some (Targets s') /\
      Cancelled s' = Cancelled s /\ Crawlers s' = Crawlers s /\ ScheduleHook s' = ScheduleHook s
  | CrawlerEvent ev => stream_step (Cancelled s) ev (Crawlers s) = Some (Crawlers s') /\
      Cancelled s' = Cancelled s /\ Targets s' = Targets s /\ ScheduleHook s' = ScheduleHook s
  | Terminated => s' = mkScheduler true (Targets s) (Crawlers s) (ScheduleHook s)
  | CrawlerExited => ScheduleHook s = NotCalled /\
      s' = mkScheduler true (Targets s) (Crawlers s) WaitingForGroup
  | GroupDone => ScheduleHook s = WaitingForGroup /\ stream_done (Targets s) = true /\
      stream_done (Crawlers s) = true /\ s' = mkScheduler (Cancelled s) (Targets s) (Crawlers s) Returned
  end.
Proof.
  destruct s as [cancelled targets crawlers hook], ev as [ev|ev| | |]; simpl.
  - destruct (stream_step cancelled ev targets); [|done]. by intros [= <-].
  - destruct (stream_step cancelled ev crawlers); [|done]. by intros [= <-].
  - by intros [= <-].
  - destruct hook; try done. by intros [= <-].
  - destruct hook; try done. destruct (stream_done targets), (stream_done crawlers); try done.
    by intros [= <-].
Qed.

Lemma targets_fifo s log s' :
  Schedule_run s log = Some s' ->
  in_flight (Targets s) ++ target_decodes log = target_attempts s log ++ in_flight (Targets s').
Proof.
  revert s; induction log as [|ev log IH]; intros s.
  - simpl. intros [= <-]. by rewrite app_nil_r.
  - simpl. unfold target_attempts. cbn [attempted]. intros Hrun.
    destruct (Schedule_step ev s) as [s1|] eqn:E; [|done]. specialize (IH s1 Hrun).
    apply Schedule_step_inv in E. unfold target_decodes in *. cbn [mbind list_bind].
    rewrite app_assoc, <-(app_assoc (target_event _ _)). fold (target_attempts s1 log). rewrite <-IH.
    destruct ev as [ev|ev| | |]; simpl.
    + destruct E as [E _]. by rewrite (stream_step_fifo _ _ _ _ E), <-app_assoc.
    + destruct E as (_ & _ & -> & _). by rewrite app_nil_r.
    + subst s1. by rewrite app_nil_r.
    + destruct E as [_ ->]. by rewrite app_nil_r.
    + destruct E as (_ & _ & _ & ->). by rewrite app_nil_r.
Qed.

Lemma crawlers_fifo s log s' :
  Schedule_run s log = Some s' ->
  in_flight (Crawlers s) ++ crawler_decodes log = crawler_attempts s log ++ in_flight (Crawlers s').
Proof.
  revert s; induction log as [|ev log IH]; intros s.
  - simpl. intros [= <-]. by rewrite app_nil_r.
  - simpl. unfold crawler_attempts. cbn [attempted]. intros Hrun.
    destruct (Schedule_step ev s) as [s1|] eqn:E; [|done]. specialize (IH s1 Hrun).
    apply Schedule_step_inv in E. unfold crawler_decodes in *. cbn [mbind list_bind].
    rewrite app_assoc, <-(app_assoc (crawler_event _ _)). fold (crawler_attempts s1 log). rewrite <-IH.
    destruct ev as [ev|ev| | |]; simpl.
    + destruct E as (_ & _ & -> & _). by rewrite app_nil_r.
    + destruct E as [E _]. by rewrite (stream_step_fifo _ _ _ _ E), <-app_assoc.
    + subst s1. by rewrite app_nil_r.
    + destruct E as [_ ->]. by rewrite app_nil_r.
    + destruct E as (_ & _ & _ & ->). by rewrite app_nil_r.
Qed.

(** What is true of the scheduler after [log]. *)
Record scheduler_ok (log : list SchedulerEvent) (s : Scheduler) : Prop := {
  targets_ok : stream_ok (Cancelled s) (Targets s);
  crawlers_ok : stream_ok (Cancelled s) (Crawlers s);
  cancelled_ok : Cancelled s = true -> CrawlerExited ∈ log \/ Terminated ∈ log;
  called_ok : ScheduleHook s <> NotCalled -> CrawlerExited ∈ log /\ Cancelled s = true;
  returned_ok : ScheduleHook s = Returned ->
    stream_done (Targets s) = true /\ stream_done (Crawlers s) = true
}.

Lemma stream_ok_cancelled {T} cancelled (s : Stream T) : stream_ok cancelled s -> stream_ok true s.
Proof. by intros [_ H]. Qed.

Lemma Schedule_step_ok log ev s s' :
  scheduler_ok log s -> Schedule_step ev s = Some s' -> scheduler_ok (log ++ [ev]) s'.
Proof.
  intros [Ht Hc Hcan Hcall Hret] E.
  assert (forall e : SchedulerEvent, e ∈ log -> e ∈ log ++ [ev]) as Hin
    by (intros e He; apply elem_of_app; by left).
  assert (ev ∈ log ++ [ev]) as Hlast by (apply elem_of_app; right; by apply elem_of_cons; left).
  apply Schedule_step_inv in E. destruct ev as [ev|ev| | |].
  - destruct E as (E & Hcan' & Hcr & Hh). constructor; rewrite ?Hcan', ?Hcr, ?Hh.
    + by eapply stream_step_ok.
    + done.
    + intros H. destruct (Hcan H); auto.
    + intros H. destruct (Hcall H); auto.
    + intros H. destruct (Hret H) as [Hd _]. by rewrite (stream_done_stuck _ _ _ Hd) in E.
  - destruct E as (E & Hcan' & Hcr & Hh). constructor; rewrite ?Hcan', ?Hcr, ?Hh.
    + done.
    + by eapply stream_step_ok.
    + intros H. destruct (Hcan H); auto.
    + intros H. destruct (Hcall H); auto.
    + intros H. destruct (Hret H) as [_ Hd]. by rewrite (stream_done_stuck _ _ _ Hd) in E.
  - subst s'. constructor; simpl; [by eapply stream_ok_cancelled..|by right| |done].
    intros H. destruct (Hcall H); auto.
  - destruct E as [_ ->]. constructor; simpl; [by eapply stream_ok_cancelled..|by left|by split|done].
  - destruct E as (Hh & Hdt & Hdc & ->). constructor; simpl; [done..| | |by split].
    + intros H. destruct (Hcan H); auto.
    + intros _. destruct Hcall as [H1 H2]; [by rewrite Hh|]. auto.
Qed.

Lemma Schedule_run_ok log s : Schedule_run Schedule_start log = Some s -> scheduler_ok log s.
Proof.
  revert s; induction log as [|ev log IH] using rev_ind; intros s.
  - intros [= <-]. by constructor.
  - rewrite Schedule_run_app. destruct (Schedule_run Schedule_start log) as [s1|]; [|done].
    simpl. destruct (Schedule_step ev s1) as [s2|] eqn:E; [|done]. intros [= <-].
    eapply Schedule_step_ok; [by apply IH|done].
Qed.

(** C13: of what the crawler asked for nothing is dropped, tried twice or
    reordered by the scheduler: at any time the pipelines it has asked the API
    server for are, in order, those of the targets it decoded, but for at most
    two on their way; once its hook has returned they are those of all of them,
    and the crawler had exited before.  The same holds for searches.  A creation
    that is refused is an attempt too, and is not tried again. *)
Theorem schedules_everything log s :
  Schedule_run Schedule_start log = Some s ->
  target_decodes log = target_attempts Schedule_start log ++ in_flight (Targets s) /\
  crawler_decodes log = crawler_attempts Schedule_start log ++ in_flight (Crawlers s) /\
  (length (in_flight (Targets s)) <= 2)%nat /\ (length (in_flight (Crawlers s)) <= 2)%nat /\
  (ScheduleHook s = Returned -> CrawlerExited ∈ log /\
    target_decodes log = target_attempts Schedule_start log /\
    crawler_decodes log = crawler_attempts Schedule_start log).
Proof.
  intros Hrun. pose proof (targets_fifo _ _ _ Hrun) as Ht. pose proof (crawlers_fifo _ _ _ Hrun) as Hc.
  simpl in Ht, Hc. destruct (Schedule_run_ok _ _ Hrun) as [_ _ _ Hcall Hret].
  split; [done|]. split; [done|]. split; [|split].
  - destruct (Targets s) as [[] []]; simpl; lia.
  - destruct (Crawlers s) as [[] []]; simpl; lia.
  - intros H. destruct (Hret H) as [Hdt Hdc]. split; [apply Hcall; by rewrite H|].
    rewrite (stream_done_empty _ Hdt), app_nil_r in Ht.
    by rewrite (stream_done_empty _ Hdc), app_nil_r in Hc.
Qed.

(** C34: the decoders keep listening until the crawler has exited or the
    scheduler is told to terminate; from then on, wherever the goroutines are,
    the hook can return within seventeen steps in which the FIFOs can be opened
    and have nothing more to say. *)
Theorem scheduler_stops log s :
  Schedule_run Schedule_start log = Some s ->
  (Decode_State (Targets s) = Closed \/ Decode_State (Crawlers s) = Closed ->
    CrawlerExited ∈ log \/ Terminated ∈ log) /\
  (ScheduleHook s = WaitingForGroup -> exists more s',
    Schedule_run s more = Some s' /\ ScheduleHook s' = Returned /\ (length more <= 17)%nat /\
    target_decodes more = [] /\ crawler_decodes more = []).
Proof.
  intros Hrun. destruct (Schedule_run_ok _ _ Hrun) as [Ht Hc Hcan Hcall _]. split.
  { intros [H|H]; [by apply Hcan, Ht|by apply Hcan, Hc]. }
  intros Hhook. destruct Hcall as [_ Hc']; [by rewrite Hhook|]. clear Hrun Hcan.
  destruct s as [cancelled targets crawlers hook]. simpl in *. subst cancelled hook.
  assert (forall l st st', stream_run true st l = Some st' ->
    Schedule_run (mkScheduler true st crawlers WaitingForGroup) (TargetEvent <$> l)
    = Some (mkScheduler true st' crawlers WaitingForGroup)) as HT.
  { induction l as [|ev l IH]; simpl; intros st st' E; [by injection E as <-|].
    destruct (stream_step true ev st) as [st1|]; [|done]. by apply IH. }
  assert (forall l st' st2 st2', stream_run true st2 l = Some st2' ->
    Schedule_run (mkScheduler true st' st2 WaitingForGroup) (CrawlerEvent <$> l)
    = Some (mkScheduler true st' st2' WaitingForGroup)) as HC.
  { induction l as [|ev l IH]; simpl; intros st' st2 st2' E; [by injection E as <-|].
    destruct (stream_step true ev st2) as [st3|]; [|done]. by apply IH. }
  destruct (drain_finishes _ Ht) as [Et Lt], (drain_finishes _ Hc) as [Ec Lc].
  exists ((TargetEvent <$> drain targets) ++ (CrawlerEvent <$> drain crawlers) ++ [GroupDone]).
  eexists. split; [|split; [|split; [|split]]].
  - rewrite Schedule_run_app, (HT _ _ _ Et). simpl. rewrite Schedule_run_app, (HC _ _ _ _ Ec). reflexivity.
  - done.
  - rewrite !length_app, !length_fmap. simpl. lia.
  - by destruct targets as [[] []], crawlers as [[] []].
  - by destruct targets as [[] []], crawlers as [[] []].
Qed.

(** ** The pace *)

Lemma pausing_stays log s s' :
  Schedule_run s log = Some s' -> Create_State (Targets s) = Pausing ->
  TargetEvent Paused ∈ log \/ Create_State (Targets s') = Pausing.
Proof.
  revert s; induction log as [|ev log IH]; simpl; intros s Hrun Hp; [right; by injection Hrun as <-|].
  destruct (Schedule_step ev s) as [s1|] eqn:E; [|done].
  assert (ev = TargetEvent Paused \/ Create_State (Targets s1) = Pausing) as [->|Hp1].
  { apply Schedule_step_inv in E. destruct ev as [ev|ev| | |].
    - destruct E as [E _]. destruct (Targets s) as [d c]. simpl in *. subst c.
      destruct ev as [[e|]|t| | | | |[e|]|], d; simpl in E; try discriminate E;
        solve [by left | right; by injection E as <-].
    - right. by destruct E as (_ & _ & -> & _).
    - right. by subst s1.
    - right. by destruct E as [_ ->].
    - right. by destruct E as (_ & _ & _ & ->). }
  - left. by apply elem_of_cons; left.
  - destruct (IH s1 Hrun Hp1); [|by right]. left. by apply elem_of_cons; right.
Qed.

(** Between the creation of a pipeline and the next attempt to create one
    the scheduler sleeps for the interval; it does not after a failed attempt. *)
Theorem schedule_pace before between after answer s :
  Schedule_run Schedule_start
    (before ++ TargetEvent (Created None) :: between ++ TargetEvent (Created answer) :: after) = Some s ->
  TargetEvent Paused ∈ between.
Proof.
  rewrite Schedule_run_app. destruct (Schedule_run Schedule_start before) as [s1|]; [|done].
  cbn [mbind option_bind Schedule_run].
  destruct (Schedule_step (TargetEvent (Created None)) s1) as [s2|] eqn:E; [|done].
  rewrite Schedule_run_app. destruct (Schedule_run s2 between) as [s3|] eqn:Hb; [|done].
  cbn [mbind option_bind Schedule_run]. intros Hrun.
  apply Schedule_step_inv in E as [E _].
  assert (Create_State (Targets s2) = Pausing) as Hp.
  { destruct (Targets s1) as [d c]. simpl in E. destruct c; try discriminate E.
    by injection E as <-. }
  destruct (pausing_stays _ _ _ Hb Hp) as [|Hp3]; [done|]. exfalso.
  destruct (Schedule_step (TargetEvent (Created answer)) s3) as [s4|] eqn:E4; [|done].
  apply Schedule_step_inv in E4 as [E4 _]. destruct (Targets s3) as [d c]. simpl in *. subst c.
  by destruct answer, d.
Qed.

(** A decoder whose FIFO cannot be opened any more tries for ever, also
    after the crawler has exited: the hook never returns. *)
Theorem open_failure_never_stops log more s s' :
  Schedule_run Schedule_start log = Some s -> Decode_State (Targets s) = Opening ->
  Schedule_run s more = Some s' -> TargetEvent (Opened None) ∉ more ->
  ScheduleHook s' <> Returned.
Proof.
  intros Hlog Hopen Hrun Hnot.
  assert (Decode_State (Targets s') = Opening) as Hopen'.
  { clear Hlog. revert s Hopen Hrun; induction more as [|ev more IH]; simpl; intros s Hopen Hrun.
    - by injection Hrun as <-.
    - apply not_elem_of_cons in Hnot as [Hne Hnot].
      destruct (Schedule_step ev s) as [s1|] eqn:E; [|done]. apply (IH Hnot s1); [|done].
      apply Schedule_step_inv in E. destruct ev as [ev|ev| | |].
      + destruct E as [E _]. eapply opening_stays; [exact E|done|]. intros ->. by apply Hne.
      + destruct E as (_ & _ & -> & _). done.
      + by subst s1.
      + by destruct E as [_ ->].
      + by destruct E as (_ & _ & _ & ->). }
  intros Hret. assert (Schedule_run Schedule_start (log ++ more) = Some s') as Hall.
  { by rewrite Schedule_run_app, Hlog. }
  destruct (Schedule_run_ok _ _ Hall) as [_ _ _ _ Hdone]. destruct (Hdone Hret) as [Hd _].
  destruct (Targets s') as [d c]. simpl in Hopen'. subst d. by destruct c.
Qed.

(** ** What a search asks for *)

Section environment.
Context `{ControllerUtil} `{MapRange string} `{TemplateJSON} `{Kubelet}.
Variables (r : SearchReconciler) (s : Search) (pod : Pod) (crawler : Invocation CrawlerSpec) (pod' : Pod).
Hypothesis populated : populateSearchPod r s pod crawler = Ok pod'.
Hypothesis fresh : time_is_zero (CreationTimestamp (Pod_Meta pod)) = true.
Hypothesis same_namespace : Namespace (Pod_Meta pod) = Namespace (Search_Meta s).

(** The container of the crawler. *)
Definition crawler_container : Container :=
  ApplyOptionsTo (ApplyOptionsTo (Crawl_Container (Inv_Spec crawler)) (crawlerOptions s crawler))
    [WithPodSecurityStandardRestricted; WithContainerNameEnvVar].

Lemma crawler_container_in_pod : PS_Containers (Pod_Spec pod') = [crawler_container].
Proof.
  unfold populateSearchPod in populated. rewrite fresh in populated.
  destruct (marshal_template _) as [json|e]; [|done].
  destruct (SetControllerReference _ _ _) as [m|e]; [|done]. by injection populated as <-.
Qed.

Definition crawler_env : list EnvVar :=
  [env_field EnvVarSchedulerSearchTTL (annotation_field TTLSecondsAnnotation);
   env_field EnvVarSchedulerServiceAccount (annotation_field ServiceAccountNameAnnotation)]
  ++ generateBaseSearchEnvironment s.

Lemma crawler_container_env : exists pre post,
  C_Env crawler_container = pre ++ crawler_env ++ post /\
  forall k, has_prefix k "OCULAR_PARAM_" = false -> k <> EnvVarContainerName ->
    k ∉ (Env_Name <$> post).
Proof.
  exists (C_Env (Crawl_Container (Inv_Spec crawler))),
    (ParseParameterEnvVars (Crawl_Parameters (Inv_Spec crawler)) (Inv_Parameters crawler) None
     ++ [env_value EnvVarContainerName
          (crawlerContainerPrefix +:+ C_Name (Crawl_Container (Inv_Spec crawler)))]).
  split.
  - unfold crawler_env. rewrite <-!app_assoc, !app_assoc. done.
  - intros k Hk Hne. rewrite fmap_app. apply not_elem_of_app. split; [by apply parameter_env_names|].
    apply not_elem_of_cons. split; [done|apply not_elem_of_nil].
Qed.

Lemma crawler_env_split n e :
  crawler_env !! n = Some e -> Env_Name e ∉ (Env_Name <$> drop (S n) crawler_env) ->
  has_prefix (Env_Name e) "OCULAR_PARAM_" = false -> Env_Name e <> EnvVarContainerName ->
  exists before after, C_Env crawler_container = before ++ [e] ++ after /\
    Env_Name e ∉ (Env_Name <$> after).
Proof.
  intros Hn Hrest Hprefix Hne. destruct crawler_container_env as (pre & post & Henv & Hpost).
  exists (pre ++ take n crawler_env), (drop (S n) crawler_env ++ post). split.
  - rewrite Henv. rewrite <-(take_drop_middle _ _ _ Hn) at 1. by rewrite <-!app_assoc.
  - rewrite fmap_app. apply not_elem_of_app. split; [done|by apply Hpost].
Qed.

Lemma crawler_env_value p n k v :
  crawler_env !! n = Some (env_value k v) -> k ∉ (Env_Name <$> drop (S n) crawler_env) ->
  has_prefix k "OCULAR_PARAM_" = false -> k <> EnvVarContainerName -> has_byte "$" v = false ->
  getenv p crawler_container k = v.
Proof.
  intros Hn Hrest Hp Hne Hv. destruct (crawler_env_split _ _ Hn) as (before & after & Henv & Hafter);
    [done..|]. by eapply getenv_value.
Qed.

Lemma crawler_env_field p n k path v :
  crawler_env !! n = Some (env_field k path) -> k ∉ (Env_Name <$> drop (S n) crawler_env) ->
  has_prefix k "OCULAR_PARAM_" = false -> k <> EnvVarContainerName -> pod_field p path v ->
  getenv p crawler_container k = v.
Proof.
  intros Hn Hrest Hp Hne Hv. destruct (crawler_env_split _ _ Hn) as (before & after & Henv & Hafter);
    [done..|]. by eapply getenv_field.
Qed.

(** The annotations and the namespace of the pod. *)
Lemma pod_annotations :
  Namespace (Pod_Meta pod') = Namespace (Search_Meta s) /\
  (exists json, Annotations (Pod_Meta pod') !! PipelineTemplateAnnotation = Some json /\
    unmarshal_template json = Ok (Sched_PipelineTemplate (SearchS_Scheduler (Search_Spec s)))) /\
  Annotations (Pod_Meta pod') !! ServiceAccountNameAnnotation
    = Some (SearchS_ServiceAccountName (Search_Spec s)) /\
  Annotations (Pod_Meta pod') !! TTLSecondsAnnotation
    = Some (match SearchS_TTLSecondsAfterFinished (Search_Spec s) with
            | Some seconds => itoa seconds
            | None => ""
            end).
Proof.
  unfold populateSearchPod in populated. rewrite fresh in populated.
  destruct (marshal_template _) as [json|e] eqn:Ej; [|done].
  destruct (SetControllerReference _ _ _) as [m|e] eqn:E; [|done].
  injection populated as <-. apply SetControllerReference_only in E as [Hm _]. simpl. rewrite Hm. simpl.
  clear Hm. unfold search_pod_annotations.
  split; [done|]. split; [exists json; split; [|by apply template_roundtrip]|split].
  - destruct (SearchS_TTLSecondsAfterFinished _); rewrite !lookup_insert_ne by done;
      apply lookup_insert_eq.
  - destruct (SearchS_TTLSecondsAfterFinished _); rewrite lookup_insert_ne by done;
      apply lookup_insert_eq.
  - destruct (SearchS_TTLSecondsAfterFinished _); apply lookup_insert_eq.
Qed.

Hypothesis plain_name : has_byte "$" (Name (Search_Meta s)) = false.

(** Whatever the pod, its search is the one it was made for. *)
Lemma crawler_env_search p :
  getenv p crawler_container EnvVarSearchName = Name (Search_Meta s) /\
  getenv p crawler_container EnvVarNamespaceName = Namespace (Pod_Meta p).
Proof.
  assert (forall k l, bool_decide (k ∉ l) = true -> k ∉ (l : list string)) as Habsent
    by (intros k l; apply bool_decide_eq_true). split.
  - apply (crawler_env_value p 2); [done|by apply Habsent|done..].
  - eapply (crawler_env_field p 5); [done|by apply Habsent|done..|apply field_namespace].
Qed.

Let env : string -> string := getenv pod' crawler_container.

Hypothesis plain_uid : has_byte "$" (UID (Search_Meta s)) = false.

Lemma crawler_environ :
  env EnvVarSearchName = Name (Search_Meta s) /\
  env EnvVarNamespaceName = Namespace (Search_Meta s) /\
  env EnvVarSchedulerParentUID = UID (Search_Meta s) /\
  env EnvVarSchedulerServiceAccount = SearchS_ServiceAccountName (Search_Spec s) /\
  env EnvVarSchedulerSearchTTL = match SearchS_TTLSecondsAfterFinished (Search_Spec s) with
                                 | Some seconds => itoa seconds
                                 | None => ""
                                 end.
Proof.
  destruct pod_annotations as (Hns & _ & Hsa & Httl).
  assert (forall k l, bool_decide (k ∉ l) = true -> k ∉ (l : list string)) as Habsent
    by (intros k l; apply bool_decide_eq_true).
  split; [|split; [|split; [|split]]].
  - apply crawler_env_search.
  - rewrite <-Hns. apply crawler_env_search.
  - apply (crawler_env_value pod' 10); [done|by apply Habsent|done..].
  - eapply (crawler_env_field pod' 1); [done|by apply Habsent|done..|by apply field_annotation].
  - eapply (crawler_env_field pod' 0); [done|by apply Habsent|done..|by apply field_annotation].
Qed.

(** The objects a listing selects. *)
Definition selected (opts : ListOptions) (m : ObjectMeta) : Prop :=
  Namespace m = LO_Namespace opts /\
  match LO_LabelSelector opts with Some (k, v) => Labels m !! k = Some v | None => True end.

(** The search that owns an object. *)
Definition controlled_by (m : ObjectMeta) : Prop :=
  OwnerReferences m =
    [mkOwnerReference GroupVersion "Search" (Name (Search_Meta s)) (UID (Search_Meta s)) (Some true)].

(** C24: what the scheduler of a search creates is what the search waits for:
    with the environment and the annotations of its pod, the template it reads
    is that of the search, and every pipeline and every search it creates is
    selected by the listing of the search, whatever the labels of the template,
    and is controlled by the search, with a name made from that of the search -
    the [generateName] of the template is not used.  A pipeline has the
    annotations of the template, its other labels, and its specification with
    the target that was asked for; a search has the crawler that was asked for,
    the service account of this one, no annotations, no label but that of its
    search, and of the template the specification, without the metadata. *)
Theorem scheduled_resources_tracked target ref :
  exists json template, Annotations (Pod_Meta pod') !! PipelineTemplateAnnotation = Some json /\
  unmarshal_template json = Ok template /\ template = Sched_PipelineTemplate (SearchS_Scheduler (Search_Spec s)) /\
  let p := scheduled_pipeline env template target in
  let q := scheduled_search env template ref in
  (selected (scheduled_by s) (Pipeline_Meta p) /\ controlled_by (Pipeline_Meta p) /\
   Name (Pipeline_Meta p) = "" /\ GenerateName (Pipeline_Meta p) = Name (Search_Meta s) +:+ "-" /\
   Annotations (Pipeline_Meta p) = Annotations (PT_Meta template) /\
   (forall k, k <> ScheduledByLabelKey -> Labels (Pipeline_Meta p) !! k = Labels (PT_Meta template) !! k) /\
   Pipeline_Spec p = with_target (PT_Spec template) target) /\
  (selected (scheduled_by s) (Search_Meta q) /\ controlled_by (Search_Meta q) /\
   Name (Search_Meta q) = "" /\ GenerateName (Search_Meta q) = Name (Search_Meta s) +:+ "-" /\
   Annotations (Search_Meta q) = ∅ /\ Labels (Search_Meta q) = {[ ScheduledByLabelKey := Name (Search_Meta s) ]} /\
   SearchS_CrawlerRef (Search_Spec q) = ref /\
   SearchS_ServiceAccountName (Search_Spec q) = SearchS_ServiceAccountName (Search_Spec s) /\
   Sched_PipelineTemplate (SearchS_Scheduler (Search_Spec q)) = mkPipelineTemplate zero_ObjectMeta (PT_Spec template)).
Proof.
  destruct pod_annotations as (_ & (json & Hjson & Htemplate) & _).
  exists json, (Sched_PipelineTemplate (SearchS_Scheduler (Search_Spec s))). split; [done|]. split; [done|]. split; [done|].
  destruct crawler_environ as (Hname & Hns & Huid & Hsa & _).
  unfold selected, controlled_by, scheduled_pipeline, scheduled_search, ownerRef, scheduledByLabels.
  simpl. rewrite Hname, Hns, Huid, Hsa. unfold MergeMaps. split_and!; try done.
  - by rewrite lookup_maps_copy, lookup_singleton_eq.
  - intros k Hk. rewrite !lookup_maps_copy, lookup_singleton_ne by done. rewrite lookup_empty.
    by destruct (_ !! k).
Qed.

(** C35: the settings of a search survive the trip through the environment of
    its pod: the scheduler pauses for the interval of the search, 60 seconds
    when it has none or a negative one, and passes the interval and the time to
    live on to the searches it creates - but for a time to live of 0, which it
    takes for none. *)
Theorem scheduler_settings template ref :
  (forall seconds, Sched_IntervalSeconds (SearchS_Scheduler (Search_Spec s)) = Some seconds ->
    is_int32 seconds) ->
  (forall seconds, SearchS_TTLSecondsAfterFinished (Search_Spec s) = Some seconds ->
    is_int32 seconds) ->
  let interval := default 60 (Sched_IntervalSeconds (SearchS_Scheduler (Search_Spec s))) in
  sleep_duration env = (if interval <? 0 then 60 else interval) /\
  let spec := Search_Spec (scheduled_search env template ref) in
  Sched_IntervalSeconds (SearchS_Scheduler spec) = Some (sleep_duration env) /\
  SearchS_TTLSecondsAfterFinished spec =
    match SearchS_TTLSecondsAfterFinished (Search_Spec s) with
    | Some seconds => if seconds =? 0 then None else Some seconds
    | None => None
    end.
Proof.
  intros Hint Httl interval.
  assert (is_int32 interval) as Hi.
  { unfold interval. destruct (Sched_IntervalSeconds _) as [n|]; [by apply Hint|done]. }
  assert (forall n, is_int32 n -> is_int64 n) as H64 by (unfold is_int32, is_int64; lia).
  assert (env EnvVarPipelineSchedulerIntervalSeconds = itoa interval) as Henv.
  { assert (has_byte "$" (itoa interval) = false) as Hplain by (by apply itoa_no_byte).
    unfold interval in *.
    eapply (crawler_env_value pod' 9); [|apply (bool_decide_unpack _); vm_compute; exact I|done..|exact Hplain].
    simpl. by destruct (Sched_IntervalSeconds _). }
  assert (sleep_duration env = (if interval <? 0 then 60 else interval)) as Hsleep.
  { unfold sleep_duration. by rewrite Henv, atoi_itoa by auto. }
  split; [done|]. simpl. split.
  - f_equal. apply int32_id. rewrite Hsleep. unfold is_int32 in *. destruct (Z.ltb_spec interval 0); lia.
  - destruct crawler_environ as (_ & _ & _ & _ & Henvttl). unfold search_ttl. rewrite Henvttl.
    destruct (SearchS_TTLSecondsAfterFinished _) as [n|]; [|done]. specialize (Httl n eq_refl).
    rewrite atoi_itoa by auto.
    destruct (String.eqb_spec (itoa n) "") as [Hempty|_].
    + apply (f_equal atoi) in Hempty. rewrite atoi_itoa in Hempty by auto. done.
    + destruct (n =? 0); [done|]. by rewrite int32_id.
Qed.
End environment.

(** ** Runs of a scheduler *)

Module Schedule_example.

Definition one : Target := mkTarget "https://example.com/one" "".
Definition two : Target := mkTarget "https://example.com/two" "v2".

(** Two targets are decoded, the second while the first is being created,
    which fails; the crawler exits. *)
Definition crawl : list SchedulerEvent :=
  [ TargetEvent (Opened None); CrawlerEvent (Opened None); TargetEvent (Decoded one);
    TargetEvent Sent; TargetEvent (Decoded two); CrawlerEvent DecodeFailed; CrawlerEvent WokeUp;
    TargetEvent (Created (Some (APIError "quota"))); CrawlerExited ].
Definition crawled : Scheduler := default Schedule_start (Schedule_run Schedule_start crawl).

(** The second one is created, and everything stops. *)
Definition finish : list SchedulerEvent :=
  [ TargetEvent Sent; TargetEvent (Created None); TargetEvent DecodeFailed; TargetEvent Paused;
    CrawlerEvent (Opened None); TargetEvent WokeUp; CrawlerEvent DecodeFailed; CrawlerEvent WokeUp;
    TargetEvent SawClosed; CrawlerEvent SawClosed; GroupDone ].
Definition finished : Scheduler := default Schedule_start (Schedule_run Schedule_start (crawl ++ finish)).

Lemma schedules_everything_witness :
  ScheduleHook finished = Returned /\ target_attempts Schedule_start (crawl ++ finish) = [one; two].
Proof.
  split; [reflexivity|].
  destruct (schedules_everything (crawl ++ finish) finished eq_refl) as (_ & _ & _ & _ & Hret).
  destruct (Hret eq_refl) as (_ & Ht & _). symmetry. exact Ht.
Defined.

Lemma scheduler_stops_witness :
  exists more s', Schedule_run crawled more = Some s' /\ ScheduleHook s' = Returned.
Proof.
  destruct (scheduler_stops crawl crawled eq_refl) as [_ H].
  destruct (H eq_refl) as (more & s' & Hrun & Hret & _). exists more, s'. split; [exact Hrun|exact Hret].
Defined.

Lemma schedule_pace_witness :
  TargetEvent Paused ∈ [TargetEvent (Decoded two); TargetEvent Paused; TargetEvent Sent].
Proof.
  exact (schedule_pace [TargetEvent (Opened None); TargetEvent (Decoded one); TargetEvent Sent]
    [TargetEvent (Decoded two); TargetEvent Paused; TargetEvent Sent] [] None
    (mkScheduler false (mkStream Decoding Pausing) stream_start NotCalled) eq_refl).
Defined.

(** The FIFO of the crawlers was removed by somebody: the one of the targets
    can neither be opened. *)
Definition retries : list SchedulerEvent :=
  [ CrawlerExited; TargetEvent (Opened (Some (APIError "too many open files")));
    CrawlerEvent (Opened None); CrawlerEvent DecodeFailed; CrawlerEvent WokeUp; CrawlerEvent SawClosed;
    TargetEvent (Opened (Some (APIError "too many open files"))) ].

Lemma open_failure_never_stops_witness :
  exists s', Schedule_run Schedule_start retries = Some s' /\ ScheduleHook s' <> Returned.
Proof.
  exists (mkScheduler true stream_start (mkStream Closed Stopped) WaitingForGroup).
  split; [reflexivity|].
  apply (open_failure_never_stops [] retries Schedule_start); [reflexivity..|].
  intros H. absurd_elem H.
Defined.

#[local] Existing Instance controller_util_model.
#[local] Existing Instance Search_example.one_template.
#[local] Existing Instance kubelet_model.
#[local] Instance schedule_range : MapRange string := map_range_canonical.

Definition new_search : Search := Search_example.search None None.
Definition new_pod : Pod := pod_named "search-s" "ns".
Definition search_pod : Pod :=
  match populateSearchPod Search_example.searchReconciler new_search new_pod Search_example.crawler with
  | Ok pod => pod
  | Err _ => new_pod
  end.

Lemma scheduled_resources_tracked_witness :
  let env := getenv search_pod (crawler_container new_search Search_example.crawler) in
  exists template, template = Sched_PipelineTemplate (SearchS_Scheduler (Search_Spec new_search)) /\
    selected (scheduled_by new_search) (Pipeline_Meta (scheduled_pipeline env template one)) /\
    GenerateName (Search_Meta (scheduled_search env template zero_Reference)) = "s-".
Proof.
  destruct (scheduled_resources_tracked Search_example.searchReconciler new_search new_pod
    Search_example.crawler search_pod) with (target := one) (ref := zero_Reference)
    as (json & template & _ & _ & Htemplate & (Hselected & _) & (_ & _ & _ & Hname & _)).
  - vm_compute. reflexivity.
  - reflexivity.
  - reflexivity.
  - reflexivity.
  - reflexivity.
  - exists template. split; [exact Htemplate|]. split; [exact Hselected|exact Hname].
Defined.

Lemma scheduler_settings_witness :
  let env := getenv search_pod (crawler_container new_search Search_example.crawler) in
  sleep_duration env = 60 /\
  SearchS_TTLSecondsAfterFinished (Search_Spec (scheduled_search env Search_example.template zero_Reference))
    = Some 60.
Proof.
  destruct (scheduler_settings Search_example.searchReconciler new_search new_pod
    Search_example.crawler search_pod) with (template := Search_example.template)
    (ref := zero_Reference) as (Hsleep & _ & Httl).
  - vm_compute. reflexivity.
  - reflexivity.
  - reflexivity.
  - reflexivity.
  - reflexivity.
  - discriminate.
  - intros seconds [= <-]. split; [discriminate|reflexivity].
  - split; [exact Hsleep|exact Httl].
Defined.
End Schedule_example.
