(* ===== verification/SchedulerStart.v ===== *)
(** * The process of the scheduler (cmd/scheduler)

    The binary from its start to its exit: [init], the preparation of [Schedule]
    - the client, the template, the FIFOs -, the crawler between the start of
    the goroutines and the hook that waits for them.  What happens meanwhile is
    in Scheduler. *)

From Stdlib Require Import ZArith Lia String Ascii.
From S2P Require Import Prelude Effects GoStd K8s Api Client Scheme Os Clientset.

Local Open Scope string_scope.
Local Open Scope Z_scope.
Local Open Scope list_scope.
Local Open Scope prog_scope.

(** ** Preparation *)

Definition createFIFO (path : string) : os_prog (option GoError) :=
  let* made := op (Mkfifo path 0x192) in   (* 0622 *)
  match made with
  | Err e => Ret (Some (Wrapped "unable to create FIFO" e))
  | Ok _ =>
      let* _ := op (Chmod path 0x192) in
      Ret None
  end.

Definition parseKubernetesClientset : os_prog (result GoError Clientset) :=
  let* config := op InClusterConfig in
  let* config :=
    match config with
    | Ok config => Ret (Ok config)
    | Err _ =>
        let* home := op HomeDir in
        let kubeconfigPath := path_join [home; ".kube"; "config"] in
        let* config := op (BuildConfigFromFlags kubeconfigPath) in
        match config with
        | Err _ => Ret (Err (ErrorString "unable to parse in-cluster config and kubeconfig"))
        | Ok config => Ret (Ok config)
        end
    end in
  match config with
  | Err e => Ret (Err e)
  | Ok config => NewForConfig config
  end.

Section schedule.
Variable env : string -> string.

(** The hook [Schedule] returns. *)
Definition awaitSchedulerHook : Hook :=
  let* _ := op CancelWorkers in
  let* _ := op WaitWorkers in
  let* _ := RemoveAndLog (env EnvVarPipelineFIFO) in
  let* _ := RemoveAndLog (env EnvVarSearchFIFO) in
  Ret None.

Definition Schedule : os_prog (result GoError Hook) :=
  let* cs := parseKubernetesClientset in
  match cs with
  | Err _ => Ret (Err (ErrorString "unable to create kubernetes clientset"))
  | Ok cs =>
  let* templateFile := op (Open (env EnvVarPipelineTemplatePath)) in
  match templateFile with
  | Err _ => Ret (Err (ErrorString "unable to open pipeline template file"))
  | Ok templateFile =>
  let* template := op (DecodeTemplate templateFile) in
  match template with
  | Err _ => Ret (Err (ErrorString "unable to decode pipeline template"))
  | Ok template =>
  let* err := createFIFO (env EnvVarPipelineFIFO) in
  match err with
  | Some _ => Ret (Err (ErrorString "unable to create pipeline FIFO"))
  | None =>
  let* err := createFIFO (env EnvVarSearchFIFO) in
  match err with
  | Some _ =>
      let* _ := RemoveAndLog (env EnvVarPipelineFIFO) in
      Ret (Err (ErrorString "unable to create search FIFO"))
  | None =>
      let* _ := op (StartWorkers cs template) in
      Ret (Ok awaitSchedulerHook)
  end end end end end.

(** ** The process *)

(** [main]: the exit code. *)
Definition main (args : list string) : os_prog Z :=
  match args with
  | _ :: command :: userCmd =>
      if String.eqb command "init" then
        let* code := install (env EnvVarSchedulerPath) in
        Ret (default 0 code)
      else if String.eqb command "crawler" then
        match BuildUserCommand userCmd with
        | Err _ => Ret 1
        | Ok cmd =>
            let* hook := Schedule in
            match hook with
            | Err _ => Ret 1
            | Ok hook =>
                let* '(exitCode, err) := HookCommand cmd None (Some hook) in
                match err with Some _ => Ret 1 | None => Ret exitCode end
            end
        end
      else Ret 1
  | _ => Ret 1
  end.
End schedule.

(** ** What a start leaves behind *)

(** The FIFOs made, and the paths removed, in order. *)
Definition fifo_made (v : event_of OsOp) : option string :=
  match v with
  | event e x =>
      match e in OsOp X return X -> option string with
      | Mkfifo path _ => fun r => match r with Ok _ => Some path | Err _ => None end
      | _ => fun _ => None
      end x
  end.
Definition path_removed (v : event_of OsOp) : option string :=
  match v with event e _ => match e with Remove path => Some path | _ => None end end.

(** The goroutines and the crawler: what they do, in order. *)
Inductive Milestone :=
| WorkersStarted
| CrawlerStarted (ok : bool)
| CrawlerWaited (err : option WaitError)
| WorkersCancelled
| WorkersWaited
| FifoRemoved (path : string).

Definition milestone (v : event_of OsOp) : option Milestone :=
  match v with
  | event e x =>
      match e in OsOp X return X -> option Milestone with
      | StartWorkers _ _ => fun _ => Some WorkersStarted
      | CancelWorkers => fun _ => Some WorkersCancelled
      | WaitWorkers => fun _ => Some WorkersWaited
      | StartCommand _ => fun r => Some (CrawlerStarted (match r with Ok _ => true | Err _ => false end))
      | WaitCommand _ => fun err => Some (CrawlerWaited err)
      | Remove path => fun _ => Some (FifoRemoved path)
      | _ => fun _ => None
      end x
  end.
Definition made (tr : list (event_of OsOp)) : list string := omap fifo_made tr.
Definition removed (tr : list (event_of OsOp)) : list string := omap path_removed tr.
Definition milestones (tr : list (event_of OsOp)) : list Milestone := omap milestone tr.

Definition quiet (v : event_of OsOp) : Prop := fifo_made v = None /\ path_removed v = None /\ milestone v = None.

Ltac quiet_calls :=
  repeat first [ apply all_events_ret
               | apply all_events_vis; [by intros; repeat split|intros []] 
               | apply all_events_vis; [by intros; repeat split|intros ?] ].

Lemma setConfigDefaults_events c : all_events quiet (setConfigDefaults c).
Proof. unfold setConfigDefaults. simpl. destruct (String.eqb _ _); by quiet_calls. Qed.

Lemma NewForConfigAndClient_events c h : all_events quiet (NewForConfigAndClient c h).
Proof.
  apply all_events_bind.
  { destruct (_ && _), (Z.leb (Config_Burst c) 0); by quiet_calls. }
  intros [config|e]; [|by quiet_calls]. apply all_events_bind; [|intros [api|e]; by quiet_calls].
  apply all_events_bind; [apply setConfigDefaults_events|]. intros config'. by quiet_calls.
Qed.

Lemma NewForConfig_events c : all_events quiet (NewForConfig c).
Proof.
  apply all_events_bind; [destruct (String.eqb _ _); by quiet_calls|]. intros config.
  apply all_events_vis; [by intros; repeat split|]. intros [h|e]; [|by quiet_calls].
  apply NewForConfigAndClient_events.
Qed.

Lemma parse_events : all_events quiet parseKubernetesClientset.
Proof.
  apply all_events_vis; [by intros; repeat split|]. intros [c|e]; [apply NewForConfig_events|].
  apply all_events_vis; [by intros; repeat split|]. intros home.
  apply all_events_vis; [by intros; repeat split|]. intros [c|e']; [apply NewForConfig_events|by quiet_calls].
Qed.

Lemma omap_none {A B} (f : A -> option B) l : Forall (fun x => f x = None) l -> omap f l = [].
Proof. induction 1 as [|x l Hx _ IH]; [done|]. simpl. by rewrite Hx. Qed.

(** What is left behind, and the order of the milestones. *)
Definition clean (tr : list (event_of OsOp)) : Prop := removed tr = made tr.

Section start.
Variable env : string -> string.
Notation P := (env EnvVarPipelineFIFO).
Notation S := (env EnvVarSearchFIFO).

(** The end of the process once the goroutines run. *)
Definition wind_down : list Milestone := [WorkersCancelled; WorkersWaited; FifoRemoved P; FifoRemoved S].

(** A start that failed: nothing ran. *)
Definition not_started (ms : list Milestone) : Prop := ms = [] \/ ms = [FifoRemoved P].

Lemma Schedule_outcome :
  always (Schedule env) (fun tr res =>
    match res with
    | Err _ => clean tr /\ not_started (milestones tr)
    | Ok hook => hook = awaitSchedulerHook env /\ made tr = [P; S] /\ removed tr = [] /\
                 milestones tr = [WorkersStarted]
    end).
Proof.
  unfold Schedule. apply always_bind. eapply always_impl; [apply parse_events|].
  intros tr cs Htr. cbv beta in Htr.
  assert (made tr = [] /\ removed tr = [] /\ milestones tr = []) as (H1 & H2 & H3).
  { split_and!; apply omap_none; (eapply Forall_impl; [exact Htr|]); by intros ? (? & ? & ?). }
  unfold clean, not_started, made, removed, milestones in *.
  destruct cs as [cs|e]; [|simpl; rewrite !app_nil_r, H1, H2, H3; auto].
  intros [f|e]; simpl; [|rewrite !omap_app, H1, H2, H3; auto].
  intros [t|e]; simpl; [|rewrite !omap_app, H1, H2, H3; auto].
  intros [[]|e]; simpl; [|rewrite !omap_app, H1, H2, H3; auto].
  intros chmod. intros [[]|e]; simpl.
  - intros chmod' []. rewrite !omap_app, H1, H2, H3. auto.
  - intros rm. rewrite !omap_app, H1, H2, H3. auto.
Qed.

(** [main] after the crawler stopped. *)
Definition crawler_code (err : option WaitError) : Z :=
  match exit_code_of_wait err with (_, Some _) => 1 | (code, None) => code end.

Lemma install_events path :
  all_events (fun v => fifo_made v = None /\ path_removed v = None /\ milestone v = None) (install path).
Proof.
  unfold install, CopyFile. intros [x|e]; simpl; [|by repeat constructor].
  intros [s|e]; simpl; [|by repeat constructor]. intros [d|e]; simpl; [|by repeat constructor].
  intros [[]|e]; simpl; [|by repeat constructor]. intros [[]|e] ? ?; simpl; by repeat constructor.
Qed.

(** C17: whatever fails, the process removes the FIFOs it made, and nothing else.
    It runs the crawler only after both are made and the goroutines started; then
    it removes them after the crawler stopped and the goroutines ended, even when
    the crawler could not be started, and exits with the crawler's code, or 1. *)
Theorem scheduler_cleans_up args :
  always (main env args) (fun tr code =>
    removed tr = made tr /\
    ((not_started (milestones tr) /\ (args !! 1%nat = Some "crawler" -> code = 1)) \/
     (milestones tr = [WorkersStarted; CrawlerStarted false] ++ wind_down /\ code = 1) \/
     (exists err, milestones tr = [WorkersStarted; CrawlerStarted true; CrawlerWaited err] ++ wind_down /\
                  code = crawler_code err))).
Proof.
  unfold main. destruct args as [|a [|command userCmd]]; [by split; [|left; split; [left|]]..|].
  destruct (String.eqb_spec command "init") as [->|_].
  { apply always_bind. eapply always_impl; [apply install_events|]. intros tr code Htr. cbv beta in Htr. simpl.
    rewrite app_nil_r. unfold not_started, milestones, removed, made.
    split; [|left; split; [left|done]]; [transitivity (@nil string); [|symmetry]|]; apply omap_none;
      (eapply Forall_impl; [exact Htr|]); by intros ? (? & ? & ?). }
  destruct (String.eqb_spec command "crawler") as [->|Hc];
    [|split; [done|left; split; [by left|intros [= E]; by subst]]].
  destruct (BuildUserCommand userCmd) as [cmd|e]; [|by split; [|left; split; [left|]]].
  apply always_bind. eapply always_impl; [apply Schedule_outcome|].
  intros tr [hook|e]; cbv beta iota; unfold clean.
  - intros (-> & Hm & Hr & Hs). unfold made, removed, milestones in *.
    intros [[]|e]; simpl.
    + intros err [] [] rm1 rm2. unfold crawler_code. destruct (exit_code_of_wait err) as [code [e|]] eqn:He; simpl;
        rewrite !omap_app, Hm, Hr, Hs; (split; [done|]); right; right; exists err; by rewrite He.
    + intros [] [] rm1 rm2. rewrite !omap_app, Hm, Hr, Hs. split; [done|]. by right; left.
  - intros [Hc Hs]. simpl. rewrite app_nil_r. auto.
Qed.
End start.

(** ** The clients of the goroutines *)

Definition clients_given (v : event_of OsOp) : option Clientset :=
  match v with event e _ => match e with StartWorkers cs _ => Some cs | _ => None end end.

Definition config_read (tr : list (event_of OsOp)) (c : ClientConfig) : Prop :=
  event InClusterConfig (Ok c) ∈ tr \/ exists kubeconfig, event (BuildConfigFromFlags kubeconfig) (Ok c) ∈ tr.

Lemma config_read_mono tr tr' c : (forall v, v ∈ tr -> v ∈ tr') -> config_read tr c -> config_read tr' c.
Proof. intros Hin [?|[k ?]]; [left|right; exists k]; auto. Qed.

Lemma NewForConfig_after tr0 c :
  config_read tr0 c ->
  always (NewForConfig c) (fun tr res =>
    agents_named (tr0 ++ tr) ->
    match res with
    | Ok cs => exists c, config_read (tr0 ++ tr) c /\ (asks_limiter c -> 0 < Config_Burst c) /\
                         made_from (tr0 ++ tr) c cs
    | Err _ => True
    end).
Proof.
  intros Hread. eapply always_impl; [apply NewForConfig_made|]. intros tr [cs|e] Hmade Hnamed; [|done].
  destruct Hmade as [[Hburst _] Hfrom].
  { intros agent Hin. apply Hnamed. apply elem_of_app. by right. }
  exists c. split; [by eapply config_read_mono; [|exact Hread]; intros; apply elem_of_app; left|].
  split; [done|]. by eapply made_from_mono; [|exact Hfrom]; intros; apply elem_of_app; right.
Qed.

Lemma parse_made :
  always parseKubernetesClientset (fun tr res =>
    agents_named tr ->
    match res with
    | Ok cs => exists c, config_read tr c /\ (asks_limiter c -> 0 < Config_Burst c) /\ made_from tr c cs
    | Err _ => True
    end).
Proof.
  intros [c|e]; [apply (NewForConfig_after [event InClusterConfig (Ok c)]); left; in_trace|].
  intros home [c|e']; simpl; [|done].
  apply (NewForConfig_after [_; _; event (BuildConfigFromFlags _) (Ok c)]). right. eexists.
  apply list_elem_of_further. in_trace.
Qed.

Lemma quiet_gives_none v : quiet v -> clients_given v = None.
Proof. destruct v as [X [] x]; by intros (_ & _ & [=]). Qed.

Lemma Schedule_gives env :
  always (Schedule env) (fun tr _ =>
    agents_named tr ->
    forall cs, cs ∈ omap clients_given tr ->
    exists c, config_read tr c /\ (asks_limiter c -> 0 < Config_Burst c) /\ made_from tr c cs).
Proof.
  apply always_bind. eapply always_impl; [apply always_and; [apply parse_made|apply parse_events]|].
  intros tr [cs|e] [Hmade Hquiet]; cbv beta in Hquiet;
    (assert (omap clients_given tr = []) as Hnone;
     [apply omap_none; eapply Forall_impl; [exact Hquiet|apply quiet_gives_none]|]).
  2: { simpl. intros _ cs Hin. rewrite omap_app, Hnone in Hin. by apply elem_of_nil in Hin. }
  assert (forall tr', omap clients_given tr' ⊆ [cs] -> agents_named (tr ++ tr') ->
    forall cs', cs' ∈ omap clients_given (tr ++ tr') ->
    exists c, config_read (tr ++ tr') c /\ (asks_limiter c -> 0 < Config_Burst c) /\ made_from (tr ++ tr') c cs')
    as Hrest.
  { intros tr' Hgiven Hnamed cs' Hin. rewrite omap_app, Hnone in Hin. apply Hgiven, list_elem_of_singleton in Hin as ->.
    assert (forall v, v ∈ tr -> v ∈ tr ++ tr') as Hincl by (intros; apply elem_of_app; by left).
    destruct Hmade as (c & Hc & Hb & Hm); [intros agent Ha; apply Hnamed; auto|].
    exists c. split; [by eapply config_read_mono|]. split; [done|by eapply made_from_mono]. }
  intros [f|e]; simpl; [|apply Hrest; simpl; set_solver]. intros [t|e]; simpl; [|apply Hrest; simpl; set_solver].
  intros [[]|e]; simpl; [|apply Hrest; simpl; set_solver]. intros chmod [[]|e]; simpl; [|intros rm; apply Hrest; simpl; set_solver].
  intros chmod' []. apply Hrest; simpl; set_solver.
Qed.

(** C19: the goroutines of the scheduler only ever create with clients that were made
    of a configuration it read, whose burst goes with its rate: their pipelines
    and their searches go below the path of the API's version, through one REST
    client with the agent, the limiter and the HTTP client that all share. *)
Theorem scheduler_clients env :
  always (Schedule env) (fun tr _ =>
    agents_named tr ->
    forall cs, cs ∈ omap clients_given tr -> exists c api rest agent limiter h,
      config_read tr c /\ (asks_limiter c -> 0 < Config_Burst c) /\
      agent_from tr c agent /\ limiter_from tr c limiter /\
      event (HTTPClientFor (with_UserAgent c agent)) (Ok h) ∈ tr /\
      event (RESTClientForConfigAndClient (with_api_defaults (completed_config c agent limiter)) h) (Ok rest) ∈ tr /\
      ApiV1beta1 (Some cs) = Some api /\
      forall namespace,
        Pipelines api namespace = mkClientWithList "pipelines" (Some rest) namespace "Pipeline" "PipelineList" /\
        Searches api namespace = mkClientWithList "searches" (Some rest) namespace "Search" "SearchList").
Proof.
  eapply always_impl; [apply Schedule_gives|]. intros tr res H Hnamed cs Hin.
  destruct (H Hnamed cs Hin) as (c & Hc & Hb & agent & limiter & h & rest & disc & Ha & Hl & Hh & [Hr _] & ->).
  by exists c, (Some (mkApiV1beta1Client (Some rest))), rest, agent, limiter, h.
Qed.

Module SchedulerStart_example.
Definition env (name : string) : string :=
  if String.eqb name EnvVarPipelineFIFO then "/fifo/pipeline"
  else if String.eqb name EnvVarSearchFIFO then "/fifo/search"
  else if String.eqb name EnvVarPipelineTemplatePath then "/etc/template.json" else "".

Definition container : Fs :=
  mkFs {[ "/etc/template.json" := RegularFile "{}" 0x1a4 ]} ∅ 3 "/ocular/scheduler".

Definition template : string -> result GoError PipelineTemplate :=
  fun _ => Ok (mkPipelineTemplate zero_ObjectMeta zero_PipelineSpec).

(** A run in which nothing fails leaves the file system as it was, and the
    template file open. *)
Lemma template_left_open :
  exists fs', exec (os_serve template) (main env ["scheduler"; "crawler"; "crawl"]) container = (0, fs') /\
    Nodes fs' = Nodes container /\ Handles fs' = {[ 3 := "/etc/template.json" ]}.
Proof. eexists. split; [vm_compute; reflexivity|]. split; reflexivity. Qed.


(** The clients of that run. *)
Lemma scheduler_clients_witness :
  exists c api rest,
    config_read (run (os_serve template) (Schedule env) container).2 c /\
    Pipelines api "ocular" = mkClientWithList "pipelines" (Some rest) "ocular" "Pipeline" "PipelineList".
Proof.
  pose proof (proj1 (always_path _ _) (scheduler_clients env) _ _
                (run_path (os_serve template) (Schedule env) container)) as H.
  assert (agents_named (run (os_serve template) (Schedule env) container).2) as Hnamed
    by (apply agents_named_given; vm_compute; reflexivity).
  destruct (H Hnamed
              (mkClientset (Some 0) (Some (mkApiV1beta1Client (Some 0)))))
    as (c & api & rest & agent & limiter & h & Hread & _ & _ & _ & _ & _ & _ & Hclients).
  { vm_compute. left. }
  exists c, api, rest. split; [exact Hread|apply Hclients].
Defined.

(** A FIFO whose path is taken ends the process before the goroutines run. *)
Lemma taken_path :
  (exec (os_serve template) (main env ["scheduler"; "crawler"; "crawl"])
     (with_nodes container (<["/fifo/search" := RegularFile "" 0x1a4]> (Nodes container)))).1 = 1.
Proof. vm_compute. reflexivity. Qed.
End SchedulerStart_example.
