(* ===== verification/SchedulerCode.v ===== *)
(** * The goroutines of the scheduler as programs (cmd/scheduler/main.go)

    Scheduler has the goroutines of a FIFO as a state machine whose transitions
    are what happens at their calls.  Here they are the programs of the source,
    loop by loop, with the channel between them; the machine and the programs
    simulate each other. *)

From Stdlib Require Import ZArith String.
From S2P Require Import Prelude Effects GoStd K8s Api Client Os Clientset Scheduler.

Local Open Scope string_scope.
Local Open Scope list_scope.
Local Open Scope prog_scope.

Section code.
Context {T : Type}.

(** ** The programs *)

(** The calls of [fifoDecoder]: [os.OpenFile] on the FIFO, [decoder.Decode],
    [rc.Close], [time.Sleep], [c <- t], the [select] on [ctx.Done()], [close(c)].
    A failure of [Decode] gives no value. *)
Inductive FifoOp : Type -> Type :=
| OpenFile : FifoOp (result GoError Handle)
| Decode (rc : Handle) : FifoOp (option T)
| CloseReader (rc : Handle) : FifoOp unit
| SleepSecond : FifoOp unit
| Send (t : T) : FifoOp unit
| ContextDone : FifoOp bool
| CloseChannel : FifoOp unit.

(** Those of the goroutine that creates: [<-c], [Create], [time.Sleep]; a closed
    channel gives nothing. *)
Inductive CreateOp : Type -> Type :=
| Receive : CreateOp (option T)
| CreateResource (t : T) : CreateOp (option GoError)
| SleepInterval : CreateOp unit.

Notation decoder_prog := (free FifoOp (option (option Handle))).
Notation creator_prog := (free CreateOp bool).

Definition openFIFOReader : free FifoOp (result GoError Handle) :=
  let* fifoReader := op OpenFile in
  match fifoReader with
  | Err err => Ret (Err (Wrapped "unable to open FIFO" err))
  | Ok fifoReader => Ret (Ok fifoReader)
  end.

(** The end of an iteration: [None] returns, [Some decoder] goes on. *)
Definition look_at_context : decoder_prog :=
  let* done := op ContextDone in
  if done : bool then let* _ := op CloseChannel in Ret None else Ret (Some None).
Definition sleep_and_look : decoder_prog := let* _ := op SleepSecond in look_at_context.
Definition decode_failed (rc : Handle) : decoder_prog := let* _ := op (CloseReader rc) in sleep_and_look.

Definition decode_next (rc : Handle) : decoder_prog :=
  let* t := op (Decode rc) in
  match t with
  | None => decode_failed rc
  | Some t => let* _ := op (Send t) in Ret (Some (Some rc))
  end.

(** The body of the loop of [fifoDecoder]. *)
Definition fifoDecoder (decoder : option Handle) : decoder_prog :=
  let* rc := match decoder with None => openFIFOReader | Some rc => Ret (Ok rc) end in
  match rc with
  | Err _ => let* _ := op SleepSecond in Ret (Some None)
  | Ok rc => decode_next rc
  end.

(** The body of the loops that create; whether they go on. *)
Definition create_next (t : T) : creator_prog :=
  let* err := op (CreateResource t) in
  match err with
  | Some _ => Ret true
  | None => let* _ := op SleepInterval in Ret true
  end.

Definition scheduleNext : creator_prog :=
  let* t := op Receive in
  match t with None => Ret false | Some t => create_next t end.

(** ** Their executions *)

(** What is left of the iterations of the two goroutines, and whether the
    channel is closed. *)
Record Code := mkCode { Code_Decoder : decoder_prog; Code_Creator : creator_prog; Code_Closed : bool }.

Definition code_start : Code := mkCode (fifoDecoder None) scheduleNext false.

Notation Label := (option (StreamEvent T)).

(** The steps a goroutine takes by itself: the next iteration, or a call with
    its answer.  The label is what the machine calls it. *)
Definition decoder_step (cancelled : bool) (l : Label) (p p' : decoder_prog) (closed closed' : bool) : Prop :=
  match p with
  | Ret None => False
  | Ret (Some decoder) => l = None /\ p' = fifoDecoder decoder /\ closed' = closed
  | Vis e k =>
      match e in FifoOp X return (X -> decoder_prog) -> Prop with
      | OpenFile => fun k => exists x, l = Some (Opened (error_of x)) /\ p' = k x /\ closed' = closed
      | Decode _ => fun k => exists t, closed' = closed /\ p' = k t /\
          l = Some (match t with Some t => Decoded t | None => DecodeFailed end)
      | CloseReader _ | SleepSecond => fun k => l = None /\ p' = k tt /\ closed' = closed
      | Send _ => fun _ => False
      | ContextDone => fun k => l = Some WokeUp /\ p' = k cancelled /\ closed' = closed
      | CloseChannel => fun k => l = None /\ p' = k tt /\ closed' = true
      end k
  end.

Definition creator_step (l : Label) (p p' : creator_prog) (closed : bool) : Prop :=
  match p with
  | Ret false => False
  | Ret true => l = None /\ p' = scheduleNext
  | Vis e k =>
      match e in CreateOp X return (X -> creator_prog) -> Prop with
      | Receive => fun k => closed = true /\ l = Some SawClosed /\ p' = k None
      | CreateResource _ => fun k => exists err, l = Some (Created err) /\ p' = k err
      | SleepInterval => fun k => l = Some Paused /\ p' = k tt
      end k
  end.

(** The two ends of the channel, which is not buffered. *)
Definition sends (t : T) (p p' : decoder_prog) : Prop :=
  match p with
  | Vis e k => match e in FifoOp X return (X -> decoder_prog) -> Prop with
               | Send t' => fun k => t' = t /\ p' = k tt
               | _ => fun _ => False
               end k
  | Ret _ => False
  end.
Definition receives (t : T) (p p' : creator_prog) : Prop :=
  match p with
  | Vis e k => match e in CreateOp X return (X -> creator_prog) -> Prop with
               | Receive => fun k => p' = k (Some t)
               | _ => fun _ => False
               end k
  | Ret _ => False
  end.

Inductive code_step (cancelled : bool) : Label -> Code -> Code -> Prop :=
| step_decoder l p p' q closed closed' :
    decoder_step cancelled l p p' closed closed' ->
    code_step cancelled l (mkCode p q closed) (mkCode p' q closed')
| step_creator l p q q' closed :
    creator_step l q q' closed -> code_step cancelled l (mkCode p q closed) (mkCode p q' closed)
| step_channel t p p' q q' closed :
    sends t p p' -> receives t q q' -> code_step cancelled (Some Sent) (mkCode p q closed) (mkCode p' q' closed).

(** ** The states of the machine *)

Inductive decoder_at : decoder_prog -> bool -> Decoder T -> Prop :=
| at_again : decoder_at (Ret (Some None)) false Opening
| at_open : decoder_at (fifoDecoder None) false Opening
| at_open_failed : decoder_at (let* _ := op SleepSecond in Ret (Some None)) false Opening
| at_more rc : decoder_at (Ret (Some (Some rc))) false Decoding
| at_decode rc : decoder_at (decode_next rc) false Decoding
| at_send t rc : decoder_at (let* _ := op (Send t) in Ret (Some (Some rc))) false (Sending t)
| at_failed rc : decoder_at (decode_failed rc) false Sleeping
| at_sleep : decoder_at sleep_and_look false Sleeping
| at_select : decoder_at look_at_context false Sleeping
| at_closing : decoder_at (let* _ := op CloseChannel in Ret None) false Closed
| at_return : decoder_at (Ret None) true Closed.

Inductive creator_at : creator_prog -> Creator T -> Prop :=
| at_next : creator_at (Ret true) Receiving
| at_receive : creator_at scheduleNext Receiving
| at_create t : creator_at (create_next t) (Creating t)
| at_pause : creator_at (let* _ := op SleepInterval in Ret true) Pausing
| at_end : creator_at (Ret false) Stopped.

Definition code_at (s : Code) (m : Stream T) : Prop :=
  decoder_at (Code_Decoder s) (Code_Closed s) (Decode_State m) /\ creator_at (Code_Creator s) (Create_State m).

Lemma code_start_at : code_at code_start stream_start.
Proof. split; constructor. Qed.

(** *** Every step of the programs is one of the machine *)

(** What the machine does at a step with the label [l]. *)
Definition machine_does (cancelled : bool) (l : Label) (m m' : Stream T) : Prop :=
  match l with Some ev => stream_step cancelled ev m = Some m' | None => m' = m end.

Ltac open_step :=
  repeat match goal with
  | H : _ /\ _ |- _ => destruct H
  | H : exists _, _ |- _ => destruct H
  end; subst.

Lemma decoder_step_machine cancelled l p p' closed closed' d c :
  decoder_at p closed d -> decoder_step cancelled l p p' closed closed' ->
  exists d', machine_does cancelled l (mkStream d c) (mkStream d' c) /\ decoder_at p' closed' d'.
Proof.
  destruct 1; simpl; intros Hstep; try done; open_step;
    try (eexists; split; [reflexivity|constructor]; fail).
  - destruct x as [rc|e]; simpl; (eexists; split; [reflexivity|]); [apply at_decode|apply at_open_failed].
  - destruct x as [t|]; simpl; (eexists; split; [reflexivity|]); [apply at_send|apply at_failed].
  - eexists. split; [reflexivity|]. destruct cancelled; [apply at_closing|apply at_again].
Qed.

Lemma creator_step_machine cancelled l q q' closed p d c :
  decoder_at p closed d -> creator_at q c -> creator_step l q q' closed ->
  exists c', machine_does cancelled l (mkStream d c) (mkStream d c') /\ creator_at q' c'.
Proof.
  intros Hp. destruct 1; simpl; intros Hstep; try done; open_step.
  - eexists. split; [reflexivity|constructor].
  - inversion Hp; subst. eexists. split; [reflexivity|constructor].
  - destruct x; simpl; (eexists; split; [reflexivity|constructor]).
  - eexists. split; [reflexivity|constructor].
Qed.

Lemma code_step_machine cancelled l s s' m :
  code_at s m -> code_step cancelled l s s' -> exists m', machine_does cancelled l m m' /\ code_at s' m'.
Proof.
  destruct m as [d c]. intros [Hd Hc]. destruct 1 as [l p p' q closed closed' Hstep|l p q q' closed Hstep|t p p' q q' closed Hs Hr];
    simpl in *.
  - destruct (decoder_step_machine _ _ _ _ _ _ _ c Hd Hstep) as (d' & Hm & Hd'). by exists (mkStream d' c).
  - destruct (creator_step_machine cancelled _ _ _ _ _ _ _ Hd Hc Hstep) as (c' & Hm & Hc'). by exists (mkStream d c').
  - destruct Hd; simpl in Hs; try done. destruct Hs as [-> ->].
    destruct Hc; simpl in Hr; try done. subst q'. eexists. split; [reflexivity|]. split; constructor.
Qed.

(** *** Every step of the machine is one of the programs *)

(** Steps that the machine does not see. *)
Definition silent_steps (cancelled : bool) : Code -> Code -> Prop := rtc (code_step cancelled None).

(** Silent steps take the decoder to its next visible call... *)
Lemma decoder_settles cancelled p closed d q :
  decoder_at p closed d -> exists p' closed', silent_steps cancelled (mkCode p q closed) (mkCode p' q closed') /\
    match d with
    | Opening => p' = fifoDecoder None /\ closed' = false
    | Decoding => exists rc, p' = decode_next rc /\ closed' = false
    | Sending t => exists rc, p' = (let* _ := op (Send t) in Ret (Some (Some rc))) /\ closed' = false
    | Sleeping => p' = look_at_context /\ closed' = false
    | Closed => p' = Ret None /\ closed' = true
    end.
Proof.
  assert (forall p p' closed closed', decoder_step cancelled None p p' closed closed' ->
    silent_steps cancelled (mkCode p q closed) (mkCode p' q closed')) as Hone.
  { intros. by apply rtc_once, step_decoder. }
  destruct 1.
  - eexists _, _. split; [by apply (Hone _ (fifoDecoder None))|done].
  - eexists _, _. split; [apply rtc_refl|done].
  - eexists _, _. split; [|done]. etrans; [by apply (Hone _ (Ret (Some None)))|]. by apply Hone.
  - eexists _, _. split; [by apply (Hone _ (decode_next rc))|eauto].
  - eexists _, _. split; [apply rtc_refl|eauto].
  - eexists _, _. split; [apply rtc_refl|eauto].
  - eexists _, _. split; [|done]. etrans; [by apply (Hone _ sleep_and_look)|]. by apply Hone.
  - eexists _, _. split; [by apply (Hone _ look_at_context)|done].
  - eexists _, _. split; [apply rtc_refl|done].
  - eexists _, _. split; [by apply (Hone _ (Ret None))|done].
  - eexists _, _. split; [apply rtc_refl|done].
Qed.

(** ... and the creator to its. *)
Lemma creator_settles cancelled p closed q c :
  creator_at q c -> exists q', silent_steps cancelled (mkCode p q closed) (mkCode p q' closed) /\
    creator_at q' c /\ (c = Receiving -> q' = scheduleNext).
Proof.
  destruct 1; try (eexists; split; [apply rtc_refl|]; split; [constructor|done]; fail).
  exists scheduleNext. split; [by apply rtc_once, step_creator|]. split; [constructor|done].
Qed.

Lemma at_not_closed p closed d : decoder_at p closed d -> d <> Closed -> closed = false.
Proof. by destruct 1. Qed.

Lemma settles cancelled s m :
  code_at s m -> exists p q closed, silent_steps cancelled s (mkCode p q closed) /\ code_at (mkCode p q closed) m /\
    match Decode_State m with
    | Opening => p = fifoDecoder None
    | Decoding => exists rc, p = decode_next rc
    | Sending t => exists rc, p = (let* _ := op (Send t) in Ret (Some (Some rc)))
    | Sleeping => p = look_at_context
    | Closed => closed = true
    end /\ (Decode_State m <> Closed -> closed = false) /\ (Create_State m = Receiving -> q = scheduleNext).
Proof.
  destruct s as [p q closed], m as [d c]. intros [Hd Hc]; simpl in *.
  destruct (decoder_settles cancelled p closed d q Hd) as (p' & closed' & H1 & Hp').
  destruct (creator_settles cancelled p' closed' q c Hc) as (q' & H2 & Hq' & Hr).
  exists p', q', closed'. split; [unfold silent_steps in *; by etrans|].
  destruct d; open_step; simpl; (split; [split; [constructor|done]|]); naive_solver.
Qed.

Lemma machine_step_code cancelled ev s m m' :
  code_at s m -> stream_step cancelled ev m = Some m' ->
  exists s1 s', silent_steps cancelled s s1 /\ code_step cancelled (Some ev) s1 s' /\ code_at s' m'.
Proof.
  intros Hat Hstep. destruct (settles cancelled s m Hat) as (p & q & closed & H1 & [Hd Hc] & Hp & Hcl & Hq).
  exists (mkCode p q closed). destruct m as [d c]. simpl in *.
  enough (exists s', code_step cancelled (Some ev) (mkCode p q closed) s' /\ code_at s' m') as (s' & Hs' & Hat')
    by by exists s'.
  assert (forall p' d', m' = mkStream d' c -> decoder_step cancelled (Some ev) p p' closed closed ->
    decoder_at p' closed d' -> exists s', code_step cancelled (Some ev) (mkCode p q closed) s' /\ code_at s' m')
    as Hdec by (intros p' d' -> Hs Hp'; eexists; split; [by apply step_decoder|by split]).
  assert (forall q' c', m' = mkStream d c' -> creator_step (Some ev) q q' closed ->
    creator_at q' c' -> exists s', code_step cancelled (Some ev) (mkCode p q closed) s' /\ code_at s' m')
    as Hcre by (intros q' c' -> Hs Hq'; eexists; split; [by apply step_creator|by split]).
  destruct ev as [[e|]|t| | | | |err|]; simpl in Hstep.
  - destruct d; simplify_eq. eapply Hdec; [done|by exists (Err e)|]. rewrite Hcl by done. constructor.
  - destruct d; simplify_eq. eapply Hdec; [done|by exists (Ok 0)|]. rewrite Hcl by done. apply at_decode.
  - destruct d; simplify_eq. destruct Hp as [rc ->]. eapply Hdec; [done|by exists (Some t)|].
    rewrite Hcl by done. apply at_send.
  - destruct d; simplify_eq. destruct Hp as [rc ->]. eapply Hdec; [done|by exists None|].
    rewrite Hcl by done. apply at_failed.
  - destruct d, c; simplify_eq. destruct Hp as [rc ->]. rewrite Hq, Hcl by done.
    eexists. split; [by eapply step_channel|]. split; constructor.
  - destruct d; simplify_eq. eapply Hdec; [done|done|]. rewrite Hcl by done. by destruct cancelled; constructor.
  - destruct d, c; simplify_eq. rewrite Hq in * by done. eapply Hcre; [done|done|constructor].
  - destruct c; destruct err; simplify_eq; inversion Hc; subst; (eapply Hcre; [done|by eexists|constructor]).
  - destruct c; simplify_eq. inversion Hc; subst. eapply Hcre; [done|done|constructor].
Qed.

(** ** Runs *)

(** A run of the programs, with what the machine sees of it: events, each with
    whether the context was done. *)
Inductive code_run : Code -> list (bool * StreamEvent T) -> Code -> Prop :=
| run_end s : code_run s [] s
| run_silent cancelled s s' log s'' :
    code_step cancelled None s s' -> code_run s' log s'' -> code_run s log s''
| run_event cancelled ev s s' log s'' :
    code_step cancelled (Some ev) s s' -> code_run s' log s'' -> code_run s ((cancelled, ev) :: log) s''.

Fixpoint stream_run (m : Stream T) (log : list (bool * StreamEvent T)) : option (Stream T) :=
  match log with
  | [] => Some m
  | (cancelled, ev) :: log => m ← stream_step cancelled ev m; stream_run m log
  end.

Lemma silent_run cancelled s s' log s'' :
  silent_steps cancelled s s' -> code_run s' log s'' -> code_run s log s''.
Proof. induction 1; [done|]. intros Hrun. eapply run_silent; eauto. Qed.

Lemma code_run_machine s log s' m :
  code_run s log s' -> code_at s m -> exists m', stream_run m log = Some m' /\ code_at s' m'.
Proof.
  intros Hrun. revert m. induction Hrun as [s|b s s' log s'' Hstep _ IH|b ev s s' log s'' Hstep _ IH]; intros m Hat.
  - by exists m.
  - destruct (code_step_machine _ _ _ _ _ Hat Hstep) as (m' & -> & Hat'). by apply IH.
  - destruct (code_step_machine _ _ _ _ _ Hat Hstep) as (m1 & Hm1 & Hat'). simpl in *.
    destruct (IH m1 Hat') as (m' & Hm' & Hat''). exists m'. by rewrite Hm1.
Qed.

Lemma machine_run_code s log m m' :
  code_at s m -> stream_run m log = Some m' -> exists s', code_run s log s' /\ code_at s' m'.
Proof.
  revert s m. induction log as [|[b ev] log IH]; intros s m Hat Hrun; simpl in Hrun.
  - injection Hrun as <-. exists s. split; [constructor|done].
  - destruct (stream_step b ev m) as [m1|] eqn:E; [|done].
    destruct (machine_step_code _ _ _ _ _ Hat E) as (s1 & s2 & H1 & H2 & Hat2).
    destruct (IH s2 m1 Hat2 Hrun) as (s' & Hs' & Hat'). exists s'. split; [|done].
    eapply silent_run; [done|]. by eapply run_event.
Qed.

(** C14: the goroutines of the scheduler for a FIFO, as the source has them, and the
    machine the theorems on the scheduler are about do the same: whatever is
    seen of a run of the one - every opening, decoding, hand-over, look at the
    context and creation, in their order - is a run of the other, and they end
    at corresponding points. *)
Theorem goroutines_are_machine :
  (forall log s, code_run code_start log s ->
     exists m, stream_run stream_start log = Some m /\ code_at s m) /\
  (forall log m, stream_run stream_start log = Some m ->
     exists s, code_run code_start log s /\ code_at s m).
Proof.
  split.
  - intros log s Hrun. by apply (code_run_machine code_start), code_start_at.
  - intros log m. by apply machine_run_code, code_start_at.
Qed.
End code.

Module SchedulerCode_example.
(** One value goes through; then the crawler is over. *)
Definition log : list (bool * StreamEvent nat) :=
  [(false, Opened (Some APINotFound)); (false, Opened None); (false, Decoded 7%nat); (false, Sent);
   (true, DecodeFailed); (true, WokeUp); (true, Created None); (true, Paused); (true, SawClosed)].

Lemma goroutines_are_machine_witness :
  stream_run stream_start log = Some (mkStream Closed Stopped) /\
  exists s, code_run code_start log s /\ code_at s (mkStream Closed Stopped).
Proof.
  assert (stream_run stream_start log = Some (mkStream Closed Stopped)) as Hrun by reflexivity.
  split; [exact Hrun|]. exact (proj2 goroutines_are_machine log _ Hrun).
Defined.
End SchedulerCode_example.
