(* ===== verification/PipelineServer.v ===== *)
(** * The API server, for one pipeline and its pod

    The documented behaviour of the server that the executions of the pipeline
    reconciler rely on: what it stores, how it applies the merge patch between
    two versions of an object ([client.MergeFrom]), that an object with
    finalizers outlives its deletion, and that no finalizer can be added to an
    object that is being deleted.  It is a handler of the operations of the
    client ([serve]); nothing here is code of the repository. *)

From Stdlib Require Import ZArith Lia String Ascii.
From S2P Require Import Prelude Effects GoStd K8s Api Client ControllerCommon PipelineController.

Local Open Scope string_scope.
Local Open Scope Z_scope.
Local Open Scope list_scope.

(** ** Merge patches *)

(** A patch carries the fields in which two versions of an object differ; the
    others stay as the server has them. *)
Definition merged {A} `{EqDecision A} (orig new stored : A) : A :=
  if decide (orig = new) then stored else new.

(** Of a map, the keys in which they differ. *)
Definition merged_map (orig new stored : gmap string string) : gmap string string :=
  filter (fun kv => orig !! kv.1 <> new !! kv.1) new ∪ filter (fun kv => orig !! kv.1 = new !! kv.1) stored.

(** Lists are replaced as a whole; the server owns the other metadata. *)
Definition merged_meta (orig new stored : ObjectMeta) : ObjectMeta :=
  mkObjectMeta (Name stored) (GenerateName stored) (Namespace stored) (UID stored)
    (merged_map (Labels orig) (Labels new) (Labels stored))
    (merged_map (Annotations orig) (Annotations new) (Annotations stored))
    (CreationTimestamp stored) (DeletionTimestamp stored)
    (merged (Finalizers orig) (Finalizers new) (Finalizers stored))
    (merged (OwnerReferences orig) (OwnerReferences new) (OwnerReferences stored)).

Definition merged_stages (orig new stored : PipelineStageStatuses) : PipelineStageStatuses :=
  mkStageStatuses (merged (DownloadStatus orig) (DownloadStatus new) (DownloadStatus stored))
    (merged (ScanStatus orig) (ScanStatus new) (ScanStatus stored))
    (merged (UploadStatus orig) (UploadStatus new) (UploadStatus stored)).

Definition merged_status (orig new stored : PipelineStatus) : PipelineStatus :=
  mkPipelineStatus (merged (PipeSt_Conditions orig) (PipeSt_Conditions new) (PipeSt_Conditions stored))
    (merged (PipeSt_StartTime orig) (PipeSt_StartTime new) (PipeSt_StartTime stored))
    (merged (PipeSt_CompletionTime orig) (PipeSt_CompletionTime new) (PipeSt_CompletionTime stored))
    (merged (PipeSt_Phase orig) (PipeSt_Phase new) (PipeSt_Phase stored))
    (merged_stages (PipeSt_StageStatuses orig) (PipeSt_StageStatuses new) (PipeSt_StageStatuses stored)).

(** No reconciler patches a specification: it is compared as a whole. *)
Definition merged_pipeline (orig new stored : Pipeline) : Pipeline :=
  mkPipeline (merged_meta (Pipeline_Meta orig) (Pipeline_Meta new) (Pipeline_Meta stored))
    (merged (Pipeline_Spec orig) (Pipeline_Spec new) (Pipeline_Spec stored)) (Pipeline_Status stored).

Lemma merged_same {A} `{EqDecision A} (a s : A) : merged a a s = s.
Proof. unfold merged. by rewrite decide_True. Qed.

(** Against the version the patch was made from, the patch gives the new one. *)
Lemma merged_fresh {A} `{EqDecision A} (a b : A) : merged a b a = b.
Proof. unfold merged. by destruct (decide (a = b)). Qed.

Lemma merged_map_same m s : merged_map m m s = s.
Proof.
  unfold merged_map. apply map_eq. intros k. rewrite lookup_union, !map_lookup_filter. simpl.
  destruct (m !! k) as [x|], (s !! k) as [y|]; simpl;
    repeat (rewrite ?option_guard_True, ?option_guard_False by tauto; simpl); done.
Qed.

Lemma merged_status_fresh st st' : merged_status st st' st = st'.
Proof. unfold merged_status, merged_stages. rewrite !merged_fresh. by destruct st' as [? ? ? ? []]. Qed.

(** A patch of the finalizers changes the finalizers. *)
Lemma merged_meta_finalizers m fs s :
  merged_meta m (with_finalizers m fs) s =
    with_finalizers s (merged (Finalizers m) fs (Finalizers s)).
Proof. unfold merged_meta. simpl. by rewrite !merged_map_same, merged_same. Qed.

(** ** A cluster with one pipeline *)

(** What is stored of the pipeline and of its pod, the clock, and the metrics. *)
Record Cluster := mkCluster {
  Stored : option Pipeline;
  ScanPodStored : option Pod;
  Clock : Time;
  RunningGauge : Z;
  CompletedCounter : Z;
  PodsCounter : Z
}.

Definition with_stored (w : Cluster) (p : option Pipeline) : Cluster :=
  mkCluster p (ScanPodStored w) (Clock w) (RunningGauge w) (CompletedCounter w) (PodsCounter w).
Definition with_pod (w : Cluster) (pod : option Pod) : Cluster :=
  mkCluster (Stored w) pod (Clock w) (RunningGauge w) (CompletedCounter w) (PodsCounter w).
Definition with_clock_at (w : Cluster) (t : Time) : Cluster :=
  mkCluster (Stored w) (ScanPodStored w) t (RunningGauge w) (CompletedCounter w) (PodsCounter w).
Definition with_metric (w : Cluster) (m : Metric) (op : MetricOp) : Cluster :=
  match m, op with
  | pipelinesRunning, MetricAdd n =>
      mkCluster (Stored w) (ScanPodStored w) (Clock w) (RunningGauge w + n) (CompletedCounter w) (PodsCounter w)
  | pipelinesCompleted, MetricAdd n =>
      mkCluster (Stored w) (ScanPodStored w) (Clock w) (RunningGauge w) (CompletedCounter w + n) (PodsCounter w)
  | pipelinePodsCreated, MetricAdd n =>
      mkCluster (Stored w) (ScanPodStored w) (Clock w) (RunningGauge w) (CompletedCounter w) (PodsCounter w + n)
  | _, _ => w
  end.

(** A deleted object goes away with its last finalizer. *)
Definition finalized (p : Pipeline) : option Pipeline :=
  match DeletionTimestamp (Pipeline_Meta p), Finalizers (Pipeline_Meta p) with
  | Some _, [] => None
  | _, _ => Some p
  end.

(** The first deletion sets the time. *)
Definition deleted_meta (t : Time) (m : ObjectMeta) : ObjectMeta :=
  mkObjectMeta (Name m) (GenerateName m) (Namespace m) (UID m) (Labels m)
    (Annotations m) (CreationTimestamp m)
    (Some (match DeletionTimestamp m with Some t0 => t0 | None => t end))
    (Finalizers m) (OwnerReferences m).
Definition delete_at (t : Time) (p : Pipeline) : Pipeline :=
  with_pipeline_meta p (deleted_meta t (Pipeline_Meta p)).

(** A finalizer that a deleted object does not have yet is refused. *)
Definition refuses_finalizers (stored new : Pipeline) : bool :=
  bool_decide (DeletionTimestamp (Pipeline_Meta stored) <> None) &&
  existsb (fun f => negb (bool_decide (f ∈ Finalizers (Pipeline_Meta stored))))
    (Finalizers (Pipeline_Meta new)).

(** The server sets the creation time of a pod, which is pending then. *)
Definition create_pod (t : Time) (pod : Pod) : Pod :=
  let m := Pod_Meta pod in
  mkPod (mkObjectMeta (Name m) (GenerateName m) (Namespace m) (UID m) (Labels m) (Annotations m)
    t (DeletionTimestamp m) (Finalizers m) (OwnerReferences m)) (Pod_Spec pod)
    (mkPodStatus PodPending [] []).

Section server.
(** The other objects, which nothing changes meanwhile. *)
Variable lookup : forall k, ObjectKey -> result GoError (obj k).

Definition serve_get (k : Kind) (key : ObjectKey) (w : Cluster) : result GoError (obj k) :=
  match k as k return result GoError (obj k) with
  | KPipeline => match Stored w with
                 | Some p => if decide (key_of KPipeline p = key) then Ok p else Err APINotFound
                 | None => Err APINotFound
                 end
  | k => lookup k key
  end.

(** A patch of the object leaves the status alone, one of the status leaves the
    rest alone; the answer is what is stored. *)
Definition serve_patch (k : Kind) : obj k -> obj k -> Cluster -> result GoError (obj k) * Cluster :=
  match k as k return obj k -> obj k -> Cluster -> result GoError (obj k) * Cluster with
  | KPipeline => fun orig o w =>
      match Stored w with
      | Some p =>
          let p' := merged_pipeline orig o p in
          if refuses_finalizers p p' then (Err (APIError "Forbidden"), w)
          else (Ok p', with_stored w (finalized p'))
      | None => (Err APINotFound, w)
      end
  | _ => fun _ _ w => (Err APINotFound, w)
  end.
Definition serve_status (k : Kind) : obj k -> obj k -> Cluster -> result GoError (obj k) * Cluster :=
  match k as k return obj k -> obj k -> Cluster -> result GoError (obj k) * Cluster with
  | KPipeline => fun orig o w =>
      match Stored w with
      | Some p =>
          let p := with_pipeline_status p
            (merged_status (Pipeline_Status orig) (Pipeline_Status o) (Pipeline_Status p)) in
          (Ok p, with_stored w (Some p))
      | None => (Err APINotFound, w)
      end
  | _ => fun _ _ w => (Err APINotFound, w)
  end.
Definition serve_delete (k : Kind) : obj k -> Cluster -> result GoError unit * Cluster :=
  match k as k return obj k -> Cluster -> result GoError unit * Cluster with
  | KPipeline => fun _ w =>
      match Stored w with
      | Some p => (Ok tt, with_stored w (finalized (delete_at (Clock w) p)))
      | None => (Err APINotFound, w)
      end
  | _ => fun _ w => (Err APINotFound, w)
  end.
Definition serve_create_or_update (k : Kind) : obj k -> (obj k -> result GoError (obj k)) -> Cluster ->
    result GoError (obj k * OperationResult) * Cluster :=
  match k as k return obj k -> (obj k -> result GoError (obj k)) -> Cluster ->
    result GoError (obj k * OperationResult) * Cluster with
  | KPod => fun o mutate w =>
      match ScanPodStored w with
      | None => match mutate o with
                | Err e => (Err e, w)
                | Ok pod => let pod := create_pod (Clock w) pod in
                    (Ok (pod, OperationResultCreated), with_pod w (Some pod))
                end
      | Some pod => match mutate pod with
                    | Err e => (Err e, w)
                    | Ok pod' =>
                        if decide (pod' = pod) then (Ok (pod, OperationResultNone), w)
                        else (Ok (pod', OperationResultUpdated), with_pod w (Some pod'))
                    end
      end
  | _ => fun _ _ w => (Err APINotFound, w)
  end.

Definition serve : handler Cluster := fun X e w =>
  match e in Op X return X * Cluster with
  | Get k key => (serve_get k key w, w)
  | ListObjects k opts => (Ok [], w)
  | Create k o => (Err APIAlreadyExists, w)
  | CreateOrUpdate k o mutate => serve_create_or_update k o mutate w
  | Patch k orig o => serve_patch k orig o w
  | StatusPatch k orig o => serve_status k orig o w
  | StatusUpdate k o => (Err APINotFound, w)
  | Delete k o => serve_delete k o w
  | Now => (Clock w, w)
  | UpdateMetric m labels op => (tt, with_metric w m op)
  end.
End server.

(** ** Writes against the stored version *)

Lemma with_finalizers_id m fs : with_finalizers (with_finalizers m fs) (Finalizers m) = m.
Proof. by destruct m. Qed.

Lemma merged_pipeline_meta p m s :
  m = with_finalizers (Pipeline_Meta p) (Finalizers m) ->
  merged_pipeline p (with_pipeline_meta p m) s =
    with_pipeline_meta s (with_finalizers (Pipeline_Meta s)
      (merged (Finalizers (Pipeline_Meta p)) (Finalizers m) (Finalizers (Pipeline_Meta s)))).
Proof.
  intros Hm. unfold merged_pipeline. simpl. rewrite Hm at 1.
  by rewrite merged_meta_finalizers, merged_same.
Qed.

Lemma merged_pipeline_fresh p m :
  m = with_finalizers (Pipeline_Meta p) (Finalizers m) ->
  merged_pipeline p (with_pipeline_meta p m) p = with_pipeline_meta p m.
Proof. intros Hm. rewrite (merged_pipeline_meta p m p Hm), merged_fresh. by rewrite <-Hm. Qed.

Lemma refuses_alive p q :
  DeletionTimestamp (Pipeline_Meta p) = None -> refuses_finalizers p q = false.
Proof. intros Hd. unfold refuses_finalizers. by rewrite Hd. Qed.

Lemma exec_patch_alive {A} lookup p m w (k : result GoError Pipeline -> prog A) :
  Stored w = Some p -> DeletionTimestamp (Pipeline_Meta p) = None ->
  m = with_finalizers (Pipeline_Meta p) (Finalizers m) ->
  exec (serve lookup) (bind (patchResource KPipeline p (with_pipeline_meta p m)) k) w =
    exec (serve lookup) (k (Ok (with_pipeline_meta p m))) (with_stored w (Some (with_pipeline_meta p m))).
Proof.
  intros Hs Hd Hm. simpl. rewrite Hs, merged_pipeline_fresh, refuses_alive by done.
  assert (DeletionTimestamp m = None) as Hdm by (rewrite Hm; exact Hd).
  unfold finalized. simpl. by rewrite Hdm.
Qed.

Lemma exec_status_fresh {A} lookup p st w (k : result GoError Pipeline -> prog A) :
  Stored w = Some p ->
  exec (serve lookup) (bind (patchStatus KPipeline p (with_pipeline_status p st)) k) w =
    exec (serve lookup) (k (Ok (with_pipeline_status p st)))
      (with_stored w (Some (with_pipeline_status p st))).
Proof. intros Hs. simpl. rewrite Hs. by rewrite merged_status_fresh. Qed.
