(* ===== verification/PipelineLife.v ===== *)
(** * The life of a pipeline

    Executions of the pipeline reconciler against a model of the API server:
    a pipeline whose references resolve is started, counted, completed when its
    pod ends, counted again and deleted after its time to live. *)

From Stdlib Require Import ZArith Lia String Ascii.
From S2P Require Import Prelude Effects GoStd K8s Api Client Resources ControllerCommon PipelineController ScanPod PipelineServer.

Local Open Scope string_scope.
Local Open Scope Z_scope.
Local Open Scope list_scope.
Local Open Scope prog_scope.

(** ** Reconciliations *)

Section life.
Context `{ControllerUtil} `{MapRange string}.
Variable lookup : forall k, ObjectKey -> result GoError (obj k).
Variable r : PipelineReconciler.
Variables (profile : Invocation ProfileSpec) (downloader : Invocation DownloaderSpec).
Variable uploaders : list (Invocation UploaderSpec).

Definition reconcile (key : ObjectKey) (w : Cluster) : Outcome * Cluster :=
  exec (serve lookup) (Reconcile r key) w.

(** The references of the pipeline resolve, and nothing of what they resolve to
    changes. *)
Definition resolves (p : Pipeline) : Prop :=
  let ns := Namespace (Pipeline_Meta p) in
  forall w,
    exec (serve lookup) (ProfileInvocationFromReference ns (PipeS_ProfileRef (Pipeline_Spec p))) w
      = ((profile, None), w) /\
    exec (serve lookup) (DownloaderInvocationFromReference ns (PipeS_DownloaderRef (Pipeline_Spec p))) w
      = ((downloader, None), w) /\
    exec (serve lookup) (uploaderInvocationsFromProfile ns (Prof_UploaderRefs (Inv_Spec profile)) []) w
      = (Ok uploaders, w).

(** The pipeline is within its maximal lifetime. *)
Definition lives (p : Pipeline) (t : Time) : Prop :=
  forall seconds, PipeS_TTLSecondsMaxLifetime (Pipeline_Spec p) = Some seconds ->
    seconds_gt (time_sub t (CreationTimestamp (Pipeline_Meta p))) seconds = false.

(** The part of a pipeline its life does not change. *)
Record same_pipeline (p q : Pipeline) : Prop := {
  same_spec : Pipeline_Spec q = Pipeline_Spec p;
  same_name : Name (Pipeline_Meta q) = Name (Pipeline_Meta p);
  same_ns : Namespace (Pipeline_Meta q) = Namespace (Pipeline_Meta p);
  same_uid : UID (Pipeline_Meta q) = UID (Pipeline_Meta p);
  same_creation : CreationTimestamp (Pipeline_Meta q) = CreationTimestamp (Pipeline_Meta p);
  same_deletion : DeletionTimestamp (Pipeline_Meta q) = DeletionTimestamp (Pipeline_Meta p)
}.

(** What every reconciliation of a pipeline that lives does first. *)
Lemma exec_exceeded p w :
  lives p (Clock w) -> exec (serve lookup) (exceeded_lifetime p) w = (false, w).
Proof.
  intros Hl. unfold exceeded_lifetime. destruct (PipeS_TTLSecondsMaxLifetime _) as [n|] eqn:E; [|done].
  simpl. by rewrite (Hl n E).
Qed.

Lemma reconcile_lives p w :
  Stored w = Some p -> DeletionTimestamp (Pipeline_Meta p) = None -> lives p (Clock w) ->
  reconcile (key_of KPipeline p) w = exec (serve lookup) (reconcile_unexpired r p) w.
Proof.
  intros Hs Hd Hl. unfold reconcile, Reconcile. rewrite exec_bind. simpl. rewrite Hs, decide_True by done.
  rewrite Hd. simpl. by rewrite exec_bind, exec_exceeded.
Qed.

Lemma reconcile_open p w :
  Stored w = Some p -> DeletionTimestamp (Pipeline_Meta p) = None -> lives p (Clock w) ->
  PipeSt_CompletionTime (Pipeline_Status p) = None -> resolves p ->
  reconcile (key_of KPipeline p) w
    = exec (serve lookup) (reconcile_scan_pod r p profile downloader uploaders) w.
Proof.
  intros Hs Hd Hl Hc Hr. rewrite (reconcile_lives p w) by done. destruct (Hr w) as (Hp & Hdl & Hu).
  unfold reconcile_unexpired. rewrite Hc. simpl.
  by rewrite exec_bind, Hp, exec_bind, Hdl, exec_bind, Hu.
Qed.

(** The pod of the pipeline, once it was created. *)
Record pod_of (p : Pipeline) (pod : Pod) : Prop := {
  pod_owner : OwnerReferences (Pod_Meta pod) = [mkOwnerReference GroupVersion "Pipeline"
    (Name (Pipeline_Meta p)) (UID (Pipeline_Meta p)) (Some true)];
  pod_ns : Namespace (Pod_Meta pod) = Namespace (Pipeline_Meta p);
  pod_created : time_is_zero (CreationTimestamp (Pod_Meta pod)) = false
}.

Lemma pod_of_same p q pod : same_pipeline p q -> pod_of p pod -> pod_of q pod.
Proof. intros [_ Hn Hns Hu _ _] [Ho Hp Hc]. constructor; congruence. Qed.

Lemma populateScanPod_creates p t :
  time_is_zero t = false ->
  exists pod, populateScanPod r (pod_named (pipelineResourcePrefix +:+ Name (Pipeline_Meta p))
      (Namespace (Pipeline_Meta p))) p profile downloader uploaders = Ok pod /\
    pod_of p (create_pod t pod).
Proof.
  intros Ht. unfold populateScanPod. simpl time_is_zero. cbn iota.
  rewrite SetControllerReference_fresh by done. eexists. split; [reflexivity|]. by constructor.
Qed.

Lemma populateScanPod_keeps p pod :
  pod_of p pod -> populateScanPod r pod p profile downloader uploaders = Ok pod.
Proof.
  intros [Ho Hns Hc]. unfold populateScanPod. rewrite Hc, SetControllerReference_again by done.
  by destruct pod.
Qed.

(** The first reconciliation creates the pod and starts the pipeline. *)
Lemma scan_pod_starts p w :
  Stored w = Some p -> ScanPodStored w = None -> time_is_zero (Clock w) = false ->
  PipeSt_StartTime (Pipeline_Status p) = None ->
  exists pod, pod_of p pod /\ CreationTimestamp (Pod_Meta pod) = Clock w /\
    exec (serve lookup) (reconcile_scan_pod r p profile downloader uploaders) w =
      ((emptyResult, None), mkCluster
        (Some (with_pipeline_status p (started_status (Pipeline_Status p) pod))) (Some pod) (Clock w)
        (RunningGauge w) (CompletedCounter w) (PodsCounter w + 1)).
Proof.
  intros Hs Hpod Ht Hstart. destruct (populateScanPod_creates p (Clock w) Ht) as (pod & Hpop & Hof).
  exists (create_pod (Clock w) pod). split; [done|]. split; [done|].
  unfold reconcile_scan_pod. rewrite exec_bind. cbn [exec op serve serve_create_or_update].
  rewrite Hpod, Hpop. cbn [exec]. rewrite exec_bind, decide_True by done. cbn [exec op serve]. rewrite Hstart. cbn [negb ptime_is_zero].
  rewrite exec_status_fresh by done. by destruct w.
Qed.

(** The second one adds the finalizer, and counts the pipeline as running. *)
Lemma scan_pod_counts p w pod start :
  Stored w = Some p -> ScanPodStored w = Some pod -> pod_of p pod ->
  PipeSt_StartTime (Pipeline_Status p) = Some start -> time_is_zero start = false ->
  DeletionTimestamp (Pipeline_Meta p) = None ->
  ContainsFinalizer (Pipeline_Meta p) metricsFinalizer = false ->
  exec (serve lookup) (reconcile_scan_pod r p profile downloader uploaders) w =
    ((mkResult 0 (Some 25), None), mkCluster
      (Some (with_pipeline_meta p (AddFinalizer (Pipeline_Meta p) metricsFinalizer))) (Some pod) (Clock w)
      (RunningGauge w + 1) (CompletedCounter w) (PodsCounter w)).
Proof.
  intros Hs Hpod Hof Hstart Hz Hd Hf.
  unfold reconcile_scan_pod. rewrite exec_bind. cbn [exec op serve serve_create_or_update].
  rewrite Hpod, (populateScanPod_keeps p pod Hof), decide_True by done. cbn [exec].
  rewrite exec_bind, decide_False by discriminate. cbn [exec]. rewrite Hstart. simpl ptime_is_zero. rewrite Hz, Hf. cbn [negb].
  rewrite exec_patch_alive by (done || apply AddFinalizer_only). destruct w. simpl in *. by subst.
Qed.

(** The status of a pipeline whose pod has ended. *)
Definition final_status (st : PipelineStatus) (pod : Pod) (t : Time) : PipelineStatus :=
  if decide (Pod_Phase (Pod_Status pod) = PodSucceeded) then succeeded_status st t
  else failed_status st pod t.

Definition pod_ended (pod : Pod) : Prop :=
  Pod_Phase (Pod_Status pod) = PodSucceeded \/ Pod_Phase (Pod_Status pod) = PodFailed.

Lemma final_status_times st pod t :
  PipeSt_StartTime (final_status st pod t) = PipeSt_StartTime st /\
  PipeSt_CompletionTime (final_status st pod t) = Some t /\
  PipeSt_Phase (final_status st pod t) =
    (if decide (Pod_Phase (Pod_Status pod) = PodSucceeded) then PipelineSucceeded else PipelineFailed).
Proof.
  unfold final_status. destruct (decide _); [done|]. unfold failed_status.
  by destruct (determineScanPodStageStatuses pod) as [[d sc] u].
Qed.

(** The one after the end of the pod completes the pipeline. *)
Lemma scan_pod_completes p w pod start :
  Stored w = Some p -> ScanPodStored w = Some pod -> pod_of p pod ->
  PipeSt_StartTime (Pipeline_Status p) = Some start -> time_is_zero start = false ->
  ContainsFinalizer (Pipeline_Meta p) metricsFinalizer = true -> pod_ended pod ->
  exec (serve lookup) (reconcile_scan_pod r p profile downloader uploaders) w =
    ((emptyResult, None), mkCluster
      (Some (with_pipeline_status p (final_status (Pipeline_Status p) pod (Clock w)))) (Some pod) (Clock w)
      (RunningGauge w) (CompletedCounter w) (PodsCounter w)).
Proof.
  intros Hs Hpod Hof Hstart Hz Hf Hend.
  unfold reconcile_scan_pod. rewrite exec_bind. cbn [exec op serve serve_create_or_update].
  rewrite Hpod, (populateScanPod_keeps p pod Hof), decide_True by done. cbn [exec].
  rewrite exec_bind, decide_False by discriminate. cbn [exec].
  rewrite Hstart. simpl ptime_is_zero. rewrite Hz, Hf. simpl negb. cbn iota. unfold handleCompletion. cbv zeta.
  rewrite exec_bind. cbn [exec op serve]. unfold final_status.
  destruct Hend as [-> | ->]; cbn [decide]; (rewrite exec_status_fresh by done); destruct w; simpl in *; by subst.
Qed.

(** The one after the completion counts the pipeline, once, and waits for the
    end of the time to live. *)
Lemma completion_counted p w start completion seconds :
  Stored w = Some p -> DeletionTimestamp (Pipeline_Meta p) = None ->
  ContainsFinalizer (Pipeline_Meta p) metricsFinalizer = true ->
  PipeSt_StartTime (Pipeline_Status p) = Some start ->
  PipeSt_CompletionTime (Pipeline_Status p) = Some completion ->
  PipeS_TTLSecondsAfterFinished (Pipeline_Spec p) = Some seconds ->
  is_int32 seconds -> 0 < seconds -> Clock w = completion ->
  exec (serve lookup) (handlePostCompletion p) w =
    ((requeue_after (seconds * Second), None), mkCluster
      (Some (with_pipeline_meta p (RemoveFinalizer (Pipeline_Meta p) metricsFinalizer)))
      (ScanPodStored w) (Clock w) (RunningGauge w - 1) (CompletedCounter w + 1) (PodsCounter w)).
Proof.
  intros Hs Hd Hf Hstart Hcompl Httl Hint Hpos Hclock.
  unfold handlePostCompletion. rewrite Hf, exec_patch_alive by (done || apply RemoveFinalizer_only).
  simpl. rewrite Hcompl. simpl. rewrite Hstart. simpl.
  unfold await_ttl. simpl. rewrite Httl, Hcompl. simpl.
  assert (time_sub (time_add completion (duration_mul seconds Second)) (Clock w) = seconds * Second) as Hwait.
  { rewrite Hclock. unfold time_add. rewrite duration_mul_int32 by done.
    rewrite time_sub_small; unfold is_int32, Second, min_int64, max_int64 in *; lia. }
  rewrite Hwait. destruct (Z.leb_spec (seconds * Second) 0) as [Hle|_]; [unfold Second in *; lia|].
  simpl. destruct w. simpl in *. subst. by destruct p.
Qed.

(** After the time to live it is gone. *)
Lemma completed_deleted p w start completion seconds :
  Stored w = Some p -> DeletionTimestamp (Pipeline_Meta p) = None ->
  Finalizers (Pipeline_Meta p) = [] ->
  PipeSt_StartTime (Pipeline_Status p) = Some start ->
  PipeSt_CompletionTime (Pipeline_Status p) = Some completion -> time_is_zero completion = false ->
  PipeS_TTLSecondsAfterFinished (Pipeline_Spec p) = Some seconds ->
  is_int32 seconds -> completion + seconds * Second <= Clock w ->
  reconcile (key_of KPipeline p) w = ((emptyResult, None), with_stored w None).
Proof.
  intros Hs Hd Hf Hstart Hcompl Hz Httl Hint Hover.
  assert (ContainsFinalizer (Pipeline_Meta p) metricsFinalizer = false) as Hno.
  { apply not_true_iff_false. rewrite ContainsFinalizer_iff, Hf. apply not_elem_of_nil. }
  assert (serve lookup _ (Delete KPipeline p) w = (Ok tt, with_stored w None)) as Hdel.
  { simpl. rewrite Hs. unfold finalized, delete_at. simpl. by rewrite Hf. }
  unfold reconcile, Reconcile. rewrite exec_bind. simpl. rewrite Hs, decide_True by done.
  rewrite Hd. simpl. rewrite exec_bind.
  assert (exists b, exec (serve lookup) (exceeded_lifetime p) w = (b, w)) as [[] ->].
  { unfold exceeded_lifetime. destruct (PipeS_TTLSecondsMaxLifetime _); by eexists. }
  - cbn [exec]. by rewrite Hdel.
  - unfold reconcile_unexpired. rewrite Hcompl. simpl ptime_is_zero. rewrite Hz. simpl negb. cbn iota.
    unfold handlePostCompletion. rewrite Hno. unfold await_ttl. rewrite Httl, Hcompl. cbn [deref].
    cbv zeta. rewrite exec_bind. cbn [exec op serve].
    assert (time_sub (time_add completion (duration_mul seconds Second)) (Clock w) <= 0) as Hwait.
    { apply Z.nlt_ge. rewrite time_sub_pos. unfold time_add. rewrite duration_mul_int32 by done. lia. }
    apply Z.leb_le in Hwait. rewrite Hwait, exec_bind. cbn [exec op]. by rewrite Hdel.
Qed.

(** ** The life *)

Lemma same_resolves p q : same_pipeline p q -> resolves p -> resolves q.
Proof. intros [Hspec _ Hns _ _ _] Hr w. unfold resolves in Hr. rewrite Hspec, Hns. apply Hr. Qed.

Lemma same_lives p q t : same_pipeline p q -> lives p t -> lives q t.
Proof. intros [Hspec _ _ _ Hc _] Hl seconds Hs. rewrite Hc. apply Hl. by rewrite <-Hspec. Qed.

Lemma same_key p q : same_pipeline p q -> key_of KPipeline q = key_of KPipeline p.
Proof. intros [_ Hn Hns _ _ _]. unfold key_of. simpl. by rewrite Hn, Hns. Qed.

Lemma same_with_status p st : same_pipeline p (with_pipeline_status p st).
Proof. by constructor. Qed.

Lemma same_with_meta p q m :
  same_pipeline p q -> m = with_finalizers (Pipeline_Meta q) (Finalizers m) ->
  same_pipeline p (with_pipeline_meta q m).
Proof. intros [] Hm. constructor; simpl; [done|rewrite Hm; simpl; done..]. Qed.

Lemma same_trans p q s : same_pipeline p q -> same_pipeline q s -> same_pipeline p s.
Proof. intros [] []. constructor; congruence. Qed.

(** The kubelet reports the end of the pod. *)
Definition pod_reports (st : PodStatus) (w : Cluster) : Cluster :=
  with_pod w ((fun pod => mkPod (Pod_Meta pod) (Pod_Spec pod) st) <$> ScanPodStored w).

(** The five reconciliations: at the start, at the event of the first, when the
    pod has ended at [t1], at the event of the third, and at [t2]. *)
Definition life_events (key : ObjectKey) (st : PodStatus) (t1 t2 : Time) (w0 : Cluster) :
    list (Outcome * Cluster) :=
  let s1 := reconcile key w0 in
  let s2 := reconcile key s1.2 in
  let s3 := reconcile key (with_clock_at (pod_reports st s2.2) t1) in
  let s4 := reconcile key s3.2 in
  let s5 := reconcile key (with_clock_at s4.2 t2) in
  [s1; s2; s3; s4; s5].

(** A new pipeline: not started, not completed, without finalizers, alive. *)
Record new_pipeline (p : Pipeline) : Prop := {
  new_start : PipeSt_StartTime (Pipeline_Status p) = None;
  new_completion : PipeSt_CompletionTime (Pipeline_Status p) = None;
  new_finalizers : Finalizers (Pipeline_Meta p) = [];
  new_deletion : DeletionTimestamp (Pipeline_Meta p) = None
}.

(** The part of a life up to the finalizer. *)
Lemma life_starts p w0 :
  new_pipeline p -> resolves p -> lives p (Clock w0) -> Stored w0 = Some p ->
  ScanPodStored w0 = None -> time_is_zero (Clock w0) = false ->
  let s1 := reconcile (key_of KPipeline p) w0 in
  let s2 := reconcile (key_of KPipeline p) s1.2 in
  s1.1 = (emptyResult, None) /\ s2.1.2 = None /\ exists q pod,
    same_pipeline p q /\ pod_of p pod /\ PipeSt_StartTime (Pipeline_Status q) = Some (Clock w0) /\
    PipeSt_CompletionTime (Pipeline_Status q) = None /\
    (forall f, f ∈ Finalizers (Pipeline_Meta q) <-> f = metricsFinalizer) /\
    s2.2 = mkCluster (Some q) (Some pod) (Clock w0) (RunningGauge w0 + 1) (CompletedCounter w0)
      (PodsCounter w0 + 1).
Proof.
  intros [Hst Hco Hfi Hde] Hr Hl Hs Hpod Ht s1 s2.
  destruct (scan_pod_starts p w0 Hs Hpod Ht Hst) as (pod & Hof & Hcreated & E1).
  assert (s1 = reconcile (key_of KPipeline p) w0) as E by done.
  rewrite (reconcile_open p w0), E1 in E by done. subst s2. rewrite E. clear s1 E E1. simpl.
  set (q := with_pipeline_status p (started_status (Pipeline_Status p) pod)).
  set (w1 := mkCluster _ _ _ _ _ _).
  assert (same_pipeline p q) as Hsame by apply same_with_status.
  rewrite <-(same_key p q Hsame), (reconcile_open q w1) by done.
  assert (pod_of q pod) as Hofq by by eapply pod_of_same.
  assert (PipeSt_StartTime (Pipeline_Status q) = Some (Clock w0)) as Hstq by (by rewrite <-Hcreated).
  rewrite (scan_pod_counts q w1 pod (Clock w0)); try done.
  - split; [done|]. split; [done|].
    exists (with_pipeline_meta q (AddFinalizer (Pipeline_Meta q) metricsFinalizer)), pod.
    split; [by apply same_with_meta, AddFinalizer_only|]. split; [done|].
    split; [done|]. split; [done|]. split; [|done].
    intros f. simpl. rewrite AddFinalizer_elem, Hfi, elem_of_nil. tauto.
  - apply not_true_iff_false. rewrite ContainsFinalizer_iff. simpl. rewrite Hfi. apply not_elem_of_nil.
Qed.

(** The status of the pod only changes what the kubelet reports. *)
Lemma pod_of_reports p pod st : pod_of p pod -> pod_of p (mkPod (Pod_Meta pod) (Pod_Spec pod) st).
Proof. intros []. by constructor. Qed.

Lemma reconcile_completed p w completion :
  Stored w = Some p -> DeletionTimestamp (Pipeline_Meta p) = None -> lives p (Clock w) ->
  PipeSt_CompletionTime (Pipeline_Status p) = Some completion -> time_is_zero completion = false ->
  reconcile (key_of KPipeline p) w = exec (serve lookup) (handlePostCompletion p) w.
Proof.
  intros Hs Hd Hl Hc Hz. rewrite (reconcile_lives p w) by done. unfold reconcile_unexpired.
  rewrite Hc. simpl ptime_is_zero. by rewrite Hz.
Qed.

(** The three reconciliations of a pipeline [q] that has started, from the end
    of its pod on. *)
Section ending.
Variables (p q : Pipeline) (pod : Pod) (st : PodStatus) (start t1 t2 : Time) (seconds : Z).
Hypothesis same : same_pipeline p q.
Hypothesis alive : DeletionTimestamp (Pipeline_Meta p) = None.
Hypothesis resolved : resolves p.
Hypothesis started : PipeSt_StartTime (Pipeline_Status q) = Some start.
Hypothesis start_set : time_is_zero start = false.
Hypothesis finalizer : forall f, f ∈ Finalizers (Pipeline_Meta q) <-> f = metricsFinalizer.
Hypothesis ended : Pod_Phase st = PodSucceeded \/ Pod_Phase st = PodFailed.
Hypothesis within : lives p t1.
Hypothesis t1_set : time_is_zero t1 = false.
Hypothesis ttl : PipeS_TTLSecondsAfterFinished (Pipeline_Spec p) = Some seconds.
Hypothesis ttl_int32 : is_int32 seconds.
Hypothesis ttl_positive : 0 < seconds.
Hypothesis over : t1 + seconds * Second <= t2.

Definition ended_pod : Pod := mkPod (Pod_Meta pod) (Pod_Spec pod) st.
Definition completed : Pipeline :=
  with_pipeline_status q (final_status (Pipeline_Status q) ended_pod t1).
Definition counted : Pipeline :=
  with_pipeline_meta completed (RemoveFinalizer (Pipeline_Meta completed) metricsFinalizer).

Lemma same_completed : same_pipeline p completed.
Proof. eapply same_trans; [exact same|apply same_with_status]. Qed.

Lemma same_counted : same_pipeline p counted.
Proof. apply same_with_meta; [apply same_completed|apply RemoveFinalizer_only]. Qed.

Lemma same_alive s : same_pipeline p s -> DeletionTimestamp (Pipeline_Meta s) = None.
Proof. intros [_ _ _ _ _ Hd]. congruence. Qed.

Lemma same_ttl s :
  same_pipeline p s -> PipeS_TTLSecondsAfterFinished (Pipeline_Spec s) = Some seconds.
Proof. intros [Hs _ _ _ _ _]. by rewrite Hs. Qed.

Lemma has_finalizer : ContainsFinalizer (Pipeline_Meta q) metricsFinalizer = true.
Proof. by apply ContainsFinalizer_iff, finalizer. Qed.

Lemma counted_finalizers : Finalizers (Pipeline_Meta counted) = [].
Proof.
  destruct (Finalizers (Pipeline_Meta counted)) as [|f fs] eqn:E; [done|].
  assert (f ∈ Finalizers (Pipeline_Meta counted)) as Hf by (rewrite E; by apply elem_of_cons; left).
  simpl in Hf. apply RemoveFinalizer_elem in Hf as [Hne Hf]. by apply finalizer in Hf.
Qed.

Lemma ending_completes w :
  Stored w = Some q -> ScanPodStored w = Some pod -> pod_of p pod ->
  PipeSt_CompletionTime (Pipeline_Status q) = None ->
  reconcile (key_of KPipeline p) (with_clock_at (pod_reports st w) t1) =
    ((emptyResult, None), mkCluster (Some completed) (Some ended_pod) t1
      (RunningGauge w) (CompletedCounter w) (PodsCounter w)).
Proof.
  intros Hs Hpod Hof Hco. set (w1 := with_clock_at (pod_reports st w) t1).
  rewrite <-(same_key p q same), (reconcile_open q w1); try done.
  - rewrite (scan_pod_completes q w1 ended_pod start); try done.
    + simpl. by rewrite Hpod.
    + by eapply pod_of_reports, pod_of_same.
    + apply has_finalizer.
  - by apply same_alive.
  - by eapply same_lives.
  - by eapply same_resolves.
Qed.

Lemma ending_counts R C P :
  reconcile (key_of KPipeline p) (mkCluster (Some completed) (Some ended_pod) t1 R C P) =
    ((requeue_after (seconds * Second), None),
      mkCluster (Some counted) (Some ended_pod) t1 (R - 1) (C + 1) P).
Proof.
  pose proof same_completed as Hsame.
  destruct (final_status_times (Pipeline_Status q) ended_pod t1) as (Hstart & Hco & _).
  rewrite <-(same_key p completed Hsame), (reconcile_completed completed _ t1); try done.
  - rewrite (completion_counted completed (mkCluster (Some completed) (Some ended_pod) t1 R C P)
      start t1 seconds); try done.
    + by apply same_alive.
    + apply has_finalizer.
    + exact (eq_trans Hstart started).
    + by apply same_ttl.
  - by apply same_alive.
  - by eapply same_lives.
Qed.

Lemma ending_deletes R C P :
  reconcile (key_of KPipeline p) (mkCluster (Some counted) (Some ended_pod) t2 R C P) =
    ((emptyResult, None), mkCluster None (Some ended_pod) t2 R C P).
Proof.
  pose proof same_counted as Hsame.
  destruct (final_status_times (Pipeline_Status q) ended_pod t1) as (Hstart & Hco & _).
  rewrite <-(same_key p counted Hsame).
  rewrite (completed_deleted counted (mkCluster (Some counted) (Some ended_pod) t2 R C P)
    start t1 seconds); try done.
  - by apply same_alive.
  - apply counted_finalizers.
  - exact (eq_trans Hstart started).
  - by apply same_ttl.
Qed.
End ending.

(** C25: a new pipeline whose references resolve goes through its whole life in five
    reconciliations, none of which fails: the first creates its pod and starts
    it; the second, which the event of the first asks for, counts it as
    running; the one after the end of the pod completes it, with the phase the
    pod ended with; the next one counts it as completed and no longer as
    running, and asks to be called again exactly at the end of the time to
    live; and at any time from then on a last one deletes it. *)
Theorem pipeline_life p w st t1 t2 seconds :
  new_pipeline p -> resolves p -> Stored w = Some p -> ScanPodStored w = None ->
  time_is_zero (Clock w) = false -> time_is_zero t1 = false -> lives p (Clock w) -> lives p t1 ->
  Pod_Phase st = PodSucceeded \/ Pod_Phase st = PodFailed ->
  PipeS_TTLSecondsAfterFinished (Pipeline_Spec p) = Some seconds -> is_int32 seconds -> 0 < seconds ->
  t1 + seconds * Second <= t2 ->
  exists s1 s2 s3 s4 s5 running done,
    life_events (key_of KPipeline p) st t1 t2 w = [s1; s2; s3; s4; s5] /\
    Forall (fun s => s.1.2 = None) [s1; s2; s3; s4; s5] /\
    (Stored s2.2 = Some running /\ same_pipeline p running /\
      PipeSt_StartTime (Pipeline_Status running) = Some (Clock w) /\
      PodsCounter s2.2 = PodsCounter w + 1 /\ RunningGauge s2.2 = RunningGauge w + 1) /\
    (Stored s3.2 = Some done /\ same_pipeline p done /\
      PipeSt_StartTime (Pipeline_Status done) = Some (Clock w) /\
      PipeSt_CompletionTime (Pipeline_Status done) = Some t1 /\
      PipeSt_Phase (Pipeline_Status done)
        = if decide (Pod_Phase st = PodSucceeded) then PipelineSucceeded else PipelineFailed) /\
    (s4.1.1 = requeue_after (seconds * Second) /\ Stored s4.2 <> None /\
      RunningGauge s4.2 = RunningGauge w /\ CompletedCounter s4.2 = CompletedCounter w + 1) /\
    Stored s5.2 = None /\ RunningGauge s5.2 = RunningGauge w /\
    CompletedCounter s5.2 = CompletedCounter w + 1 /\ PodsCounter s5.2 = PodsCounter w + 1.
Proof.
  intros Hnew Hr Hs Hpod Ht Ht1 Hl Hl1 Hend Httl Hint Hpos Hover.
  destruct (life_starts p w Hnew Hr Hl Hs Hpod Ht) as
    (E1 & E2 & q & pod & Hsame & Hof & Hstart & Hco & Hfin & Hw2).
  pose proof (new_deletion p Hnew) as Hde.
  pose proof (ending_completes p q pod st (Clock w) t1 Hsame Hde Hr Hstart Ht Hfin Hend Hl1
    (mkCluster (Some q) (Some pod) (Clock w) (RunningGauge w + 1) (CompletedCounter w)
      (PodsCounter w + 1)) eq_refl eq_refl Hof Hco) as E3.
  pose proof (ending_counts p q pod st (Clock w) t1 seconds Hsame Hde Hstart Hfin Hl1 Ht1
    Httl Hint Hpos (RunningGauge w + 1) (CompletedCounter w) (PodsCounter w + 1)) as E4.
  pose proof (ending_deletes p q pod st (Clock w) t1 t2 seconds Hsame Hde Hstart Hfin Ht1
    Httl Hint Hover (RunningGauge w + 1 - 1) (CompletedCounter w + 1) (PodsCounter w + 1)) as E5.
  destruct (final_status_times (Pipeline_Status q) (ended_pod pod st) t1) as (Hst' & Hco' & Hph').
  cbn [RunningGauge CompletedCounter PodsCounter] in E3.
  unfold life_events. rewrite Hw2, E3. cbn [snd]. rewrite E4. unfold with_clock_at.
  cbn [snd Stored ScanPodStored RunningGauge CompletedCounter PodsCounter]. rewrite E5.
  do 5 eexists. exists q, (completed q pod st t1).
  split; [reflexivity|]. cbn [fst snd]. split; [|split; [|split; [|split]]].
  - constructor; [exact (f_equal snd E1)|]. constructor; [exact E2|]. by repeat constructor.
  - rewrite Hw2. done.
  - split; [done|]. split; [by apply same_completed|]. split; [exact (eq_trans Hst' Hstart)|]. done.
  - split; [done|]. split; [done|]. simpl. lia.
  - simpl. repeat split; lia.
Qed.
End life.

(** ** The life of the pipeline of the example *)

Module Life_example.

Definition lookup (k : Kind) (key : ObjectKey) : result GoError (obj k) :=
  match k as k return result GoError (obj k) with
  | KProfile => Ok (mkProfile (Inv_Metadata ScanPod.Example.profile) (Inv_Spec ScanPod.Example.profile))
  | KDownloader =>
      Ok (mkDownloader (Inv_Metadata ScanPod.Example.downloader) (Inv_Spec ScanPod.Example.downloader))
  | KUploader =>
      Ok (mkUploader (Inv_Metadata ScanPod.Example.uploader) (Inv_Spec ScanPod.Example.uploader))
  | _ => Err APINotFound
  end.

(** It may live for an hour, and is kept for a minute. *)
Definition pipeline : Pipeline :=
  let spec := Pipeline_Spec ScanPod.Example.pipeline in
  mkPipeline (mkObjectMeta "p" "" "ns" "u" ∅ ∅ (5 * Second) None [] [])
    (mkPipelineSpec (PipeS_DownloaderRef spec) (PipeS_ProfileRef spec) (PipeS_Target spec)
       (PipeS_ServiceAccountName spec) None (Some 60) (Some 3600) [] None)
    zero_PipelineStatus.

Definition cluster : Cluster := mkCluster (Some pipeline) None (6 * Second) 0 0 0.

Lemma pipeline_life_witness :
  exists s4 s5 running done s1 s2 s3,
    life_events (H := ScanPod.Example.controller_util) (H0 := ScanPod.Example.range) lookup
      ScanPod.Example.reconciler (mkObjectKey "ns" "p") (mkPodStatus PodFailed [] [])
      (100 * Second) (160 * Second) cluster = [s1; s2; s3; s4; s5] /\
    Stored s2.2 = Some running /\ Stored s3.2 = Some done /\
    PipeSt_Phase (Pipeline_Status done) = PipelineFailed /\
    s4.1.1 = requeue_after (60 * Second) /\ Stored s5.2 = None.
Proof.
  destruct (pipeline_life (H := ScanPod.Example.controller_util) (H0 := ScanPod.Example.range) lookup
    ScanPod.Example.reconciler ScanPod.Example.profile ScanPod.Example.downloader
    [ScanPod.Example.uploader] pipeline cluster (mkPodStatus PodFailed [] [])
    (100 * Second) (160 * Second) 60)
    as (s1 & s2 & s3 & s4 & s5 & running & done & Hev & _ & (Hrun & _) &
        (Hdone & _ & _ & _ & Hphase) & (Hreq & _) & Hgone & _).
  - constructor; reflexivity.
  - intros w. split; [reflexivity|split; reflexivity].
  - reflexivity.
  - reflexivity.
  - reflexivity.
  - reflexivity.
  - intros seconds [= <-]. vm_compute. reflexivity.
  - intros seconds [= <-]. vm_compute. reflexivity.
  - right. reflexivity.
  - reflexivity.
  - split; [discriminate|reflexivity].
  - lia.
  - discriminate.
  - exists s4, s5, running, done, s1, s2, s3. split; [exact Hev|]. split; [exact Hrun|].
    split; [exact Hdone|]. split; [exact Hphase|]. split; [exact Hreq|exact Hgone].
Defined.

End Life_example.
