(* ===== verification/PipelineSystem.v ===== *)
(** * The pipeline controller in its cluster

    Executions of the controller for one pipeline, as interleavings of the
    operations of its reconciliations with what else happens in the cluster:
    the clock and the kubelet move, users delete or edit the pipeline, calls
    fail, answers get lost and the controller stops at any operation and starts
    again.  What it reads may be out of date, but not older than what it has
    written itself.  They refine a small abstract machine, the life of a pipeline. *)

From Stdlib Require Import ZArith Lia String Ascii.
From S2P Require Import Prelude Effects Execution GoStd K8s Api Client Resources ControllerCommon PipelineController PipelineSafety ScanPod PipelineServer PipelineLife.

Local Open Scope string_scope.
Local Open Scope Z_scope.
Local Open Scope list_scope.

(** ** The abstract machine *)

(** A pipeline starts, is guarded by the metrics finalizer while it is counted
    as running, completes, gives the guard back and goes away. *)
Inductive Stage :=
| New
| Started (start : Time)
| Running (start : Time)
| Completed (start completion : Time) (phase : PipelinePhase)
| Recorded (start completion : Time) (phase : PipelinePhase)
| Gone.

(** Nothing keeps the pipeline in the cluster. *)
Definition unguarded (s : Stage) : Prop :=
  match s with New | Started _ | Recorded _ _ _ => True | _ => False end.

Record Life := mkLife {
  L_Stage : Stage;
  L_Deleting : bool;              (* its deletion was asked for *)
  L_Ended : list PipelinePhase;   (* how pods of it have ended so far *)
  L_Owed : bool;                  (* it is to be counted as completed *)
  L_Counted : Z                   (* how often it was counted as completed *)
}.

Inductive life_step : Life -> Life -> Prop :=
| life_starts s d e o n :
    life_step (mkLife New d e o n) (mkLife (Started s) d e o n)
| life_runs s e o n :
    life_step (mkLife (Started s) false e o n) (mkLife (Running s) false e o n)
| life_completes s c ph d e o n :
    ph ∈ e -> life_step (mkLife (Running s) d e o n) (mkLife (Completed s c ph) d e o n)
(** The guard is given back, and the completion is to be counted. *)
| life_records s c ph d e n :
    life_step (mkLife (Completed s c ph) d e false n) (mkLife (Recorded s c ph) d e true n)
| life_counts st d e n : life_step (mkLife st d e true n) (mkLife st d e false (n + 1))
(** It is given back without counting: the controller does not learn that it
    was, or the pipeline is being deleted. *)
| life_forgets s c ph d e o n :
    life_step (mkLife (Completed s c ph) d e o n) (mkLife (Recorded s c ph) d e o n)
| life_cancels s e o n :
    life_step (mkLife (Running s) true e o n) (mkLife (Started s) true e o n)
| life_deletion st d e o n : life_step (mkLife st d e o n) (mkLife st true e o n)
| life_goes st e o n : unguarded st -> life_step (mkLife st true e o n) (mkLife Gone true e o n)
| life_pod_ends ph st d e o n : life_step (mkLife st d e o n) (mkLife st d (ph :: e) o n)
(** The controller restarts, and does not remember what it was to count. *)
| life_restarts st d e o n : life_step (mkLife st d e o n) (mkLife st d e false n).

Definition life_steps : Life -> Life -> Prop := rtc life_step.

(** *** What the machine keeps *)

Definition given_back (s : Stage) : Prop :=
  match s with Recorded _ _ _ | Gone => True | _ => False end.

(** The phase it completed with, while it is there. *)
Definition completed_phase (s : Stage) : option PipelinePhase :=
  match s with Completed _ _ ph | Recorded _ _ ph => Some ph | _ => None end.

(** A completion is owed or counted only after the guard was given back, and
    no more than once; a pod has ended with its phase. *)
Record life_ok (l : Life) : Prop := {
  ok_owed : L_Owed l = true -> L_Counted l = 0 /\ given_back (L_Stage l);
  ok_counted : 0 <= L_Counted l <= 1;
  ok_given_back : L_Counted l = 1 -> given_back (L_Stage l);
  ok_phase ph : completed_phase (L_Stage l) = Some ph -> ph ∈ L_Ended l
}.

Lemma life_step_ok l l' : life_step l l' -> life_ok l -> life_ok l'.
Proof.
  intros Hstep [Ho Hn Hg Hph].
  destruct Hstep; simpl in *; constructor; simpl in *; intros;
    try (set_unfold; intuition (simplify_eq; eauto; lia)).
Qed.

Lemma life_steps_ok l l' : life_steps l l' -> life_ok l -> life_ok l'.
Proof. induction 1; eauto using life_step_ok. Qed.

(** The times and the phase of a completion stay what they were. *)
Definition completion_of (s : Stage) : option (Time * Time * PipelinePhase) :=
  match s with Completed s c ph | Recorded s c ph => Some (s, c, ph) | _ => None end.

Lemma life_steps_completion l l' x :
  life_steps l l' -> completion_of (L_Stage l) = Some x ->
  completion_of (L_Stage l') = Some x \/ L_Stage l' = Gone.
Proof.
  intros Hsteps Hx. revert l' Hsteps.
  refine (rtc_ind_r (fun l' => completion_of (L_Stage l') = Some x \/ L_Stage l' = Gone) l _ _).
  - by left.
  - intros y z _ Hyz [Hy|Hy]; destruct Hyz; simpl in *; simplify_eq; auto.
Qed.

(** ** The cluster *)

Definition guarded (p : Pipeline) : bool := bool_decide (metricsFinalizer ∈ Finalizers (Pipeline_Meta p)).
Definition deleting (p : Pipeline) : bool := bool_decide (DeletionTimestamp (Pipeline_Meta p) <> None).

(** What other clients and the passing of time do to a cluster.  The kubelet
    does not report on a pod that has ended; other clients neither write the
    status of the pipeline nor touch the metrics finalizer, and cannot undo a
    deletion. *)
Record edited (p q : Pipeline) : Prop := {
  edited_key : key_of KPipeline q = key_of KPipeline p;
  edited_status : Pipeline_Status q = Pipeline_Status p;
  edited_guard : guarded q = guarded p;
  edited_deletion : DeletionTimestamp (Pipeline_Meta q) = DeletionTimestamp (Pipeline_Meta p)
}.

Inductive environment (w : Cluster) : Cluster -> Prop :=
| env_clock t : time_is_zero t = false -> environment w (with_clock_at w t)
| env_pod_reports pod st :
    ScanPodStored w = Some pod -> ~ pod_ended pod ->
    environment w (with_pod w (Some (mkPod (Pod_Meta pod) (Pod_Spec pod) st)))
| env_pod_removed : environment w (with_pod w None)
| env_delete p :
    Stored w = Some p -> environment w (with_stored w (finalized (delete_at (Clock w) p)))
| env_edit p q :
    Stored w = Some p -> edited p q -> environment w (with_stored w (finalized q)).

(** A call is done, fails, or is done and its answer is lost.  What the server
    chooses is what is stored of other objects, which may change between two
    calls. *)
Notation answers := (Execution.answers serve (@call_error)).

(** The metrics live in the memory of the controller: after a restart the gauge
    is zero.  The counters here are the totals over all restarts, as the
    monitoring sums them up. *)
Definition restarted (w : Cluster) : Cluster :=
  mkCluster (Stored w) (ScanPodStored w) (Clock w) 0 (CompletedCounter w) (PodsCounter w).

(** ** The cache

    The controller reads from the cache of the manager, which may lag behind the
    server.  What is stored of other objects, and how old the cache is: which of
    the versions of the pipeline and of its pod it has. *)
Record Staleness := mkStaleness {
  Lookup : forall k, ObjectKey -> result GoError (obj k);
  CachedPipeline : nat;
  CachedPod : nat
}.

Definition stale_get (s : Staleness) (versions : list Pipeline) (k : Kind) (key : ObjectKey) : result GoError (obj k) :=
  match k as k return result GoError (obj k) with
  | KPipeline => match versions !! CachedPipeline s with
                 | Some p => if decide (key_of KPipeline p = key) then Ok p else Err APINotFound
                 | None => Err APINotFound
                 end
  | k => Lookup s k key
  end.

(** A cached pod that needs no change is taken for the current one; otherwise
    the server sees the write: against a version that is not the current one it
    fails, as every call may. *)
Definition stale_create_or_update (s : Staleness) (pods : list Pod) (k : Kind) :
    obj k -> (obj k -> result GoError (obj k)) -> Cluster ->
    result GoError (obj k * OperationResult) * option Cluster :=
  match k as k return obj k -> (obj k -> result GoError (obj k)) -> Cluster ->
    result GoError (obj k * OperationResult) * option Cluster with
  | KPod => fun o mutate w =>
      let written := serve_create_or_update KPod o mutate w in
      match pods !! CachedPod s with
      | Some pod => match mutate pod with
                    | Ok pod' => if decide (pod' = pod) then (Ok (pod, OperationResultNone), None)
                                 else (written.1, Some written.2)
                    | Err e => (Err e, None)
                    end
      | None => (written.1, Some written.2)
      end
  | k => fun o mutate w => (Err APINotFound, None)
  end.

(** The server behind a cache in which the controller reads its own writes: the
    cache may miss what others did to the pipeline, but not what the controller
    itself has written of it.  [Recent] are the versions it may have, those
    since the last write of the controller, the latest first; [RecentPods] are
    all versions of the pod. *)
Record Cached := mkCached {
  Server : Cluster;
  Recent : list Pipeline;
  RecentPods : list Pod
}.

Definition written (c : Cached) (w : Cluster) : Cached :=
  mkCached w (if decide (Stored w = Stored (Server c)) then Recent c else option_list (Stored w))
    (option_list (ScanPodStored w) ++ RecentPods c).
Definition changed (c : Cached) (w : Cluster) : Cached :=
  mkCached w (option_list (Stored w) ++ Recent c) (option_list (ScanPodStored w) ++ RecentPods c).

Definition cached_serve (s : Staleness) : handler Cached := fun X e c =>
  match e in Op X return X * Cached with
  | Get k key => (stale_get s (Recent c) k key, c)
  | CreateOrUpdate k o mutate =>
      let a := stale_create_or_update s (RecentPods c) k o mutate (Server c) in
      (a.1, match a.2 with Some w => written c w | None => c end)
  | e => let a := serve (Lookup s) _ e (Server c) in (a.1, written c a.2)
  end.

Inductive cached_environment (c : Cached) : Cached -> Prop :=
| env_changed w : environment (Server c) w -> cached_environment c (changed c w).

(** A cache that is filled again has what the controller has written, too. *)
Definition cached_restarted (c : Cached) : Cached := mkCached (restarted (Server c)) (Recent c) (RecentPods c).

Notation System := (Execution Op Cached Outcome).
Notation mkSystem := (@mkExecution Op Cached Outcome).
Notation Sys_Cluster s := (Server (Exec_State s)).
Notation Sys_Todo := Exec_Todo.

Section system.
Context `{ControllerUtil} `{MapRange string}.
Variable r : PipelineReconciler.
Variable key : ObjectKey.

(** One reconciliation runs at a time; it can begin at any moment. *)
Definition system_steps : System -> System -> Prop :=
  execution_steps cached_serve (@call_error) cached_environment cached_restarted (Reconcile r key).

(** ** The abstraction *)

Definition stage_at (st : PipelineStatus) (guard : bool) : Stage :=
  match PipeSt_StartTime st, PipeSt_CompletionTime st with
  | None, _ => New
  | Some s, None => if guard then Running s else Started s
  | Some s, Some c =>
      if guard then Completed s c (PipeSt_Phase st) else Recorded s c (PipeSt_Phase st)
  end.

Definition stage_of (p : option Pipeline) : Stage :=
  match p with Some p => stage_at (Pipeline_Status p) (guarded p) | None => Gone end.

Definition deletion_of (p : option Pipeline) : bool :=
  match p with Some p => deleting p | None => true end.

(** Times that are set are not the zero time, a completed pipeline has started,
    and only a started one is guarded. *)
Definition timed_at (st : PipelineStatus) (guard : bool) : Prop :=
  match PipeSt_StartTime st, PipeSt_CompletionTime st with
  | None, None => guard = false
  | None, Some _ => False
  | Some s, None => time_is_zero s = false
  | Some s, Some c => time_is_zero s = false /\ time_is_zero c = false
  end.

Definition well_timed (p : Pipeline) : Prop := timed_at (Pipeline_Status p) (guarded p).

(** How a pod has ended, as the phase of its pipeline. *)
Definition ended_as (pod : Pod) : list PipelinePhase :=
  match Pod_Phase (Pod_Status pod) with
  | PodSucceeded => [PipelineSucceeded]
  | PodFailed => [PipelineFailed]
  | _ => []
  end.

Definition pod_ok (pod : Pod) (e : list PipelinePhase) : Prop :=
  time_is_zero (CreationTimestamp (Pod_Meta pod)) = false /\ ended_as pod ⊆ e.

Record abstracts (w : Cluster) (l : Life) : Prop := {
  abs_stage : L_Stage l = stage_of (Stored w);
  abs_deleting : L_Deleting l = deletion_of (Stored w);
  abs_counted : L_Counted l = CompletedCounter w;
  abs_stored p : Stored w = Some p -> key_of KPipeline p = key /\ well_timed p;
  abs_clock : time_is_zero (Clock w) = false;
  abs_pod pod : ScanPodStored w = Some pod -> pod_ok pod (L_Ended l)
}.

(** ** What happens meanwhile *)

(** What the controller knows of a pipeline it has read as [p], when [q] is
    stored. *)
Record sees (p q : Pipeline) : Prop := {
  sees_key : key_of KPipeline q = key_of KPipeline p;
  sees_status : Pipeline_Status q = Pipeline_Status p;
  sees_guard : guarded q = guarded p;
  sees_deletion : deleting p = true -> deleting q = true
}.

Definition knows (v : option Pipeline) (w : Cluster) : Prop :=
  match v with
  | Some p => forall q, Stored w = Some q -> sees p q
  | None => True
  end.

Lemma finalized_some p q : finalized p = Some q -> q = p.
Proof.
  unfold finalized. destruct (DeletionTimestamp (Pipeline_Meta p)), (Finalizers (Pipeline_Meta p)); congruence.
Qed.

Lemma knows_environment v w w' : environment w w' -> knows v w -> knows v w'.
Proof.
  destruct v as [p|]; [|done]. intros Henv Hk. destruct Henv as [t Ht|pod st Hpod Hend| |q Hq|q q' Hq He];
    simpl in *; [exact Hk..| |]; intros s Hs; apply finalized_some in Hs as ->.
  - destruct (Hk q Hq) as [H1 H2 H3 H4]. by constructor.
  - destruct (Hk q Hq) as [H1 H2 H3 H4], He as [E1 E2 E3 E4].
    constructor; [congruence..|]. unfold deleting in *. by rewrite E4.
Qed.

Lemma finalized_life p e o n :
  life_steps (mkLife (stage_of (Some p)) (deleting p) e o n)
    (mkLife (stage_of (finalized p)) (deletion_of (finalized p)) e o n).
Proof.
  unfold finalized. destruct (DeletionTimestamp (Pipeline_Meta p)) as [t|] eqn:Ed; [|apply rtc_refl].
  destruct (Finalizers (Pipeline_Meta p)) as [|f fs] eqn:Ef; [|apply rtc_refl].
  assert (deleting p = true) as -> by (unfold deleting; by rewrite Ed).
  apply rtc_once, life_goes. unfold stage_of, stage_at, guarded. rewrite Ef.
  by destruct (PipeSt_StartTime (Pipeline_Status p)), (PipeSt_CompletionTime (Pipeline_Status p)).
Qed.

(** A write of the pipeline is a step of its life when the stages are. *)
Lemma store_life w l q p s o :
  abstracts w l -> Stored w = Some q -> s = Some p \/ s = finalized p -> key_of KPipeline p = key -> well_timed p ->
  life_steps (mkLife (stage_of (Some q)) (deleting q) (L_Ended l) (L_Owed l) (L_Counted l))
    (mkLife (stage_of (Some p)) (deleting p) (L_Ended l) o (L_Counted l)) ->
  exists l', life_steps l l' /\ abstracts (with_stored w s) l' /\ L_Owed l' = o /\
    L_Ended l' = L_Ended l.
Proof.
  intros [Hst Hde Hn Hp Hc Hpod] Hq Hs Hkey Hwt Hsteps. rewrite Hq in Hst, Hde.
  exists (mkLife (stage_of s) (deletion_of s) (L_Ended l) o (L_Counted l)).
  split; [|split; [|done]].
  - destruct l as [st d e o' n]. simpl in *. subst. unfold life_steps. etrans; [exact Hsteps|].
    destruct Hs as [->| ->]; [done|apply finalized_life].
  - constructor; simpl; [done..| | |done]; [|done]. intros p' Hp'.
    destruct Hs as [->| ->]; [by injection Hp' as <-|by apply finalized_some in Hp' as ->].
Qed.

Lemma abstracts_quiet w w' l :
  abstracts w l -> Stored w' = Stored w -> ScanPodStored w' = ScanPodStored w ->
  time_is_zero (Clock w') = false -> CompletedCounter w' = CompletedCounter w -> abstracts w' l.
Proof. intros [] E1 E2 E3 E4. constructor; rewrite ?E1, ?E2, ?E4; done. Qed.

Lemma environment_life w w' l :
  environment w w' -> abstracts w l ->
  exists l', life_steps l l' /\ abstracts w' l' /\ L_Owed l' = L_Owed l /\ L_Ended l ⊆ L_Ended l'.
Proof.
  intros Henv Habs.
  destruct Henv as [t Ht|pod st Hpod Hend| |q Hq|q q' Hq He].
  - exists l. split; [apply rtc_refl|]. split; [|done]. by eapply abstracts_quiet.
  - destruct Habs as [Hst Hde Hn Hp Hc Hpods]. destruct (Hpods pod Hpod) as [Hct _].
    set (pod' := mkPod (Pod_Meta pod) (Pod_Spec pod) st).
    exists (mkLife (L_Stage l) (L_Deleting l) (ended_as pod' ++ L_Ended l) (L_Owed l) (L_Counted l)).
    split; [|split; [|split; [done|simpl; set_solver]]].
    + destruct l as [s d e o n]. unfold ended_as. simpl.
      destruct (Pod_Phase st); simpl; first [apply rtc_refl|apply rtc_once, life_pod_ends].
    + constructor; simpl; [done..|]. intros pod'' [= <-]. split; [done|set_solver].
  - exists l. split; [apply rtc_refl|]. split; [|done]. destruct Habs. by constructor.
  - destruct (abs_stored _ _ Habs q Hq) as [Hkey Hwt].
    destruct (store_life w l q (delete_at (Clock w) q) (finalized (delete_at (Clock w) q)) (L_Owed l) Habs Hq)
      as (l' & H1 & H2 & H3 & H4); [by right|done|done| |exists l'; by rewrite H4].
    apply rtc_once. apply (life_deletion (stage_of (Some q))).
  - destruct (abs_stored _ _ Habs q Hq) as [Hkey Hwt], He as [E1 E2 E3 E4].
    destruct (store_life w l q q' (finalized q') (L_Owed l) Habs Hq) as (l' & H1 & H2 & H3 & H4).
    + by right.
    + congruence.
    + unfold well_timed in *. by rewrite E2, E3.
    + unfold stage_of, deleting. rewrite E2, E3, E4. apply rtc_refl.
    + exists l'. by rewrite H4.
Qed.
End system.
