(* ===== verification/PipelineRefinement.v ===== *)
(** * The pipeline controller refines the life of a pipeline

    A forward simulation between the executions of PipelineSystem and its
    abstract machine.  What is left of a reconciliation is [safe] when each of
    its operations, whenever it is performed and however it is answered, is
    some steps of the life. *)

From Stdlib Require Import ZArith Lia String Ascii.
From S2P Require Import Prelude Effects Execution GoStd K8s Api Client Resources ControllerCommon PipelineController ScanPod PipelineServer PipelineLife PipelineSystem PipelineSafety.

Local Open Scope string_scope.
Local Open Scope Z_scope.
Local Open Scope list_scope.

Section refinement.
Context `{ControllerUtil} `{MapRange string}.
Variable r : PipelineReconciler.
Variable key : ObjectKey.

(** ** Answers of the server and of the cache *)

(** What a cache may answer in which the controller reads its own writes: a
    version of the pipeline to which only others did anything since, and a
    version of the pod that needs no change. *)
Definition cached_answer (l : Life) (w : Cluster) {X} (e : Op X) : X -> Prop :=
  match e in Op X return X -> Prop with
  | Get k key' => match k as k return result GoError (obj k) -> Prop with
      | KPipeline => fun x => exists p, x = Ok p /\ key_of KPipeline p = key' /\ well_timed p /\
          forall q, Stored w = Some q -> sees p q
      | _ => fun _ => False
      end
  | CreateOrUpdate k o f =>
      match k as k return (obj k -> result GoError (obj k)) -> result GoError (obj k * OperationResult) -> Prop with
      | KPod => fun f x => exists pod, x = Ok (pod, OperationResultNone) /\ pod_ok pod (L_Ended l)
      | _ => fun _ _ => False
      end f
  | _ => fun _ => False
  end.

Definition admissible (l : Life) (w : Cluster) {X} (e : Op X) (x : X) (w' : Cluster) : Prop :=
  answers e w x w' \/ w' = w /\ cached_answer l w e x.

(** The cache has nothing to answer. *)
Definition uncached {X} (e : Op X) : Prop := forall l w x, ~ cached_answer l w e x.

(** ** Safe programs

    The controller knows [v] of the pipeline and that pods have ended with
    [es]; [o] tells whether it still has to count a completion. *)
Fixpoint safe {A} (p : prog A) (v : option Pipeline) (es : list PipelinePhase) (o : bool) : Prop :=
  match p with
  | Ret _ => o = false
  | Vis e k => forall w l x w',
      abstracts key w l -> L_Owed l = o -> es ⊆ L_Ended l -> knows v w -> admissible l w e x w' ->
      exists l' v' es', life_steps l l' /\ abstracts key w' l' /\ es' ⊆ L_Ended l' /\
        knows v' w' /\ safe (k x) v' es' (L_Owed l')
  end.

(** *** Operations that leave the pipeline, its pod and the count alone *)

Definition quiet {X} (e : Op X) : Prop := forall w x w', answers e w x w' ->
  Stored w' = Stored w /\ ScanPodStored w' = ScanPodStored w /\ Clock w' = Clock w /\
  CompletedCounter w' = CompletedCounter w.

Lemma safe_quiet {A X} (e : Op X) (k : X -> prog A) v es o :
  quiet e ->
  (forall w l x w', time_is_zero (Clock w) = false -> admissible l w e x w' -> safe (k x) v es o) ->
  safe (Vis e k) v es o.
Proof.
  intros He Hk w l x w' Habs <- Hes Hv Hans.
  assert (Stored w' = Stored w /\ ScanPodStored w' = ScanPodStored w /\ Clock w' = Clock w /\
    CompletedCounter w' = CompletedCounter w) as (E1 & E2 & E3 & E4).
  { destruct Hans as [Hans|[-> _]]; [by apply (He w x w')|done]. }
  pose proof (abs_clock _ _ _ Habs) as Hc.
  exists l, v, es. split; [apply rtc_refl|]. split; [|split; [done|split; [|by eapply Hk]]].
  - eapply abstracts_quiet; [exact Habs|done..| |done]. by rewrite E3.
  - destruct v as [p|]; [|done]. simpl in *. by rewrite E1.
Qed.

Lemma quiet_get k key' : quiet (Get k key').
Proof. intros w x w' []; done. Qed.
Lemma quiet_list k opts : quiet (ListObjects k opts).
Proof. intros w x w' []; done. Qed.
Lemma quiet_now : quiet Now.
Proof. intros w x w' []; done. Qed.
Lemma quiet_metric m labels op :
  (m = pipelinesCompleted -> exists d, op = MetricObserve d) -> quiet (UpdateMetric m labels op).
Proof.
  intros Hm w x w' [lookup|? []|lookup ? []]. simpl.
  destruct m, op; try done. by destruct (Hm eq_refl) as [d [=]].
Qed.

Lemma safe_metric {A} m labels op (k : unit -> prog A) v es o :
  m <> pipelinesCompleted -> safe (k tt) v es o -> safe (Vis (UpdateMetric m labels op) k) v es o.
Proof. intros Hm Hk. apply safe_quiet; [by apply quiet_metric|]. by intros w l [] w' _ _. Qed.

Lemma safe_now {A} (k : Time -> prog A) v es o :
  (forall t, time_is_zero t = false -> safe (k t) v es o) -> safe (Vis Now k) v es o.
Proof.
  intros Hk. apply safe_quiet; [apply quiet_now|].
  intros w l x w' Hw [[]|[_ []]]; [by apply Hk|done..].
Qed.

Lemma safe_reads {A B} (p : prog A) (f : A -> prog B) v es o :
  all_events is_read p -> (forall a, safe (f a) v es o) -> safe (bind p f) v es o.
Proof.
  induction p as [a|X e k IH]; intros Hp Hf; [apply Hf|].
  change (safe (Vis e (fun x => bind (k x) f)) v es o). pose proof (all_events_vis_inv _ _ _ Hp) as Hinv.
  apply safe_quiet.
  - intros w x w' Hans. destruct (Hinv x) as [Hread _].
    destruct e; try done;
      first [exact (quiet_get _ _ _ _ _ Hans)|exact (quiet_list _ _ _ _ _ Hans)|exact (quiet_now _ _ _ Hans)].
  - intros w l x w' _ _. apply IH; [apply Hinv|exact Hf].
Qed.

(** *** The reading of the pipeline *)

Lemma safe_get {A} (k : result GoError Pipeline -> prog A) es o :
  (forall p, key_of KPipeline p = key -> well_timed p -> safe (k (Ok p)) (Some p) es o) ->
  (forall e, safe (k (Err e)) None es o) -> safe (Vis (Get KPipeline key) k) None es o.
Proof.
  intros Hok Herr w l x w' Habs <- Hes _ Hans.
  assert (w' = w) as -> by by destruct Hans as [[]|[]].
  assert (forall e, x = Err e -> exists l' v' es', life_steps l l' /\ abstracts key w l' /\
    es' ⊆ L_Ended l' /\ knows v' w /\ safe (k x) v' es' (L_Owed l')) as Hfail.
  { intros e ->. exists l, None, es. split_and!; [apply rtc_refl|done..|apply Herr]. }
  destruct Hans as [Hans|[_ (p & -> & Hkey & Hwt & Hsees)]].
  2: { exists l, (Some p), es. split; [apply rtc_refl|]. split_and!; [done..|by apply Hok]. }
  destruct Hans as [lookup|x [e Hx]|lookup x [e Hx]]; [|by eapply Hfail..].
  simpl in *. destruct (Stored w) as [p|] eqn:Es; [|by eapply Hfail].
  destruct (decide _); [|by eapply Hfail].
  destruct (abs_stored _ _ _ Habs p Es) as [Hkey Hwt].
  exists l, (Some p), es. split; [apply rtc_refl|]. split; [done|]. split; [done|]. split; [|by apply Hok].
  intros q Hq. rewrite Es in Hq. injection Hq as <-. by constructor.
Qed.

(** *** Writes *)

(** A call of the client that may take effect and then report an error. *)
Lemma safe_write {A X} (e : Op X) (k : X -> prog A) v es o :
  uncached e ->
  (forall w l x w', abstracts key w l -> L_Owed l = o -> es ⊆ L_Ended l -> knows v w ->
    answers e w x w' -> exists l' es', life_steps l l' /\ abstracts key w' l' /\ es' ⊆ L_Ended l' /\
      safe (k x) None es' (L_Owed l')) -> safe (Vis e k) v es o.
Proof.
  intros He Hk w l x w' Habs Ho Hes Hv [Hans|[_ Hc]]; [|by apply He in Hc].
  destruct (Hk w l x w' Habs Ho Hes Hv Hans) as (l' & es' & ? & ? & ? & ?). by exists l', None, es'.
Qed.

Lemma safe_delete {A} p (k : result GoError unit -> prog A) v es o :
  (forall x, safe (k x) None es o) -> safe (Vis (Delete KPipeline p) k) v es o.
Proof.
  intros Hk. apply safe_write; [by intros ? ? ? []|]. intros w l x w' Habs <- Hes _ Hans.
  assert (w' = w \/ environment w w') as [->|Henv].
  { assert (forall lookup, (serve lookup _ (Delete KPipeline p) w).2 = w \/
      environment w (serve lookup _ (Delete KPipeline p) w).2) as Hserve.
    { intros lookup. simpl. destruct (Stored w) as [q|] eqn:Eq; [right|by left]. by constructor. }
    destruct Hans; [apply Hserve|by left|apply Hserve]. }
  - exists l, es. split; [apply rtc_refl|]. done.
  - destruct (environment_life key w w' l Henv Habs) as (l' & H1 & H2 & H3 & H4).
    exists l', es. split_and!; [done..|set_solver|]. by rewrite H3.
Qed.

(** A pipeline with the finalizers of other metadata. *)
Definition regarded (p : Pipeline) (m : ObjectMeta) : Pipeline :=
  with_pipeline_meta p (with_finalizers (Pipeline_Meta p) (Finalizers m)).

Lemma regarded_guard p m : guarded (regarded p m) = bool_decide (metricsFinalizer ∈ Finalizers m).
Proof. done. Qed.

(** The answer to a patch of the finalizers that moves the guard of the version
    it was made from. *)
Lemma patch_answers p m w x w' :
  m = with_finalizers (Pipeline_Meta p) (Finalizers m) ->
  bool_decide (metricsFinalizer ∈ Finalizers m) <> guarded p ->
  answers (Patch KPipeline p (with_pipeline_meta p m)) w x w' ->
  (w' = w /\ exists err, x = Err err) \/
  exists q, let q' := regarded q m in
    Stored w = Some q /\ refuses_finalizers q q' = false /\ w' = with_stored w (finalized q') /\
    (x = Ok q' \/ exists err, x = Err err).
Proof.
  intros Hm Hguard Hans.
  assert (forall q, merged_pipeline p (with_pipeline_meta p m) q =
    regarded q m) as Hmerge.
  { intros q. rewrite merged_pipeline_meta by done. unfold merged.
    rewrite decide_False; [done|]. intros E. apply Hguard. unfold guarded. by rewrite E. }
  destruct Hans as [lookup|x Hx|lookup x Hx]; [|by left|]; simpl;
    (destruct (Stored w) as [q|] eqn:Eq; [|left; simpl; eauto; fail]); rewrite Hmerge;
    (destruct (refuses_finalizers _ _) eqn:Er; [left; simpl; eauto; fail|]); right; exists q; simpl; auto.
Qed.

(** Patching the finalizers of [p] is safe when moving the guard is a step of
    the life; [o'] is what is owed when the answer arrives. *)
Lemma safe_patch {A} p m (k : result GoError Pipeline -> prog A) es o o' :
  m = with_finalizers (Pipeline_Meta p) (Finalizers m) ->
  bool_decide (metricsFinalizer ∈ Finalizers m) = negb (guarded p) ->
  (forall q, sees p q -> well_timed q ->
    let q' := regarded q m in
    refuses_finalizers q q' = false -> well_timed q' /\
    (forall e n, life_steps (mkLife (stage_of (Some q)) (deleting q) e o n)
      (mkLife (stage_of (Some q')) (deleting q') e o' n)) /\
    (o' = o \/ forall e n, life_steps (mkLife (stage_of (Some q)) (deleting q) e o n)
      (mkLife (stage_of (Some q')) (deleting q') e o n))) ->
  (forall q, Pipeline_Status q = Pipeline_Status p -> safe (k (Ok q)) None es o') ->
  (forall err, safe (k (Err err)) None es o) ->
  safe (Vis (Patch KPipeline p (with_pipeline_meta p m)) k) (Some p) es o.
Proof.
  intros Hm Hguard Hlife Hok Herr. apply safe_write; [by intros ? ? ? []|]. intros w l x w' Habs Ho Hes Hv Hans.
  assert (bool_decide (metricsFinalizer ∈ Finalizers m) <> guarded p) as Hne
    by (rewrite Hguard; by destruct (guarded p)).
  destruct (patch_answers p m w x w' Hm Hne Hans) as [[-> [err ->]]|(q & Hq & Href & -> & Hx)].
  { exists l, es. split_and!; [apply rtc_refl|done..|]. rewrite Ho. apply Herr. }
  destruct (abs_stored _ _ _ Habs q Hq) as [Hkey Hwt]. pose proof (Hv q Hq) as Hsees.
  destruct (Hlife q Hsees Hwt Href) as (Hwt' & Hsteps & Halt).
  set (q' := regarded q m) in *.
  assert (forall o'', (forall e n, life_steps (mkLife (stage_of (Some q)) (deleting q) e o n)
    (mkLife (stage_of (Some q')) (deleting q') e o'' n)) -> exists l', life_steps l l' /\
    abstracts key (with_stored w (finalized q')) l' /\ L_Owed l' = o'' /\ L_Ended l' = L_Ended l) as Hstore.
  { intros o'' Hs. apply (store_life key w l q q'); try done; [by right|]. rewrite Ho. apply Hs. }
  destruct Hx as [->|[err ->]].
  - destruct (Hstore o' Hsteps) as (l' & ? & ? & Ho' & He'). exists l', es.
    split_and!; [done..|by rewrite He'|]. rewrite Ho'. apply Hok, Hsees.
  - destruct (Hstore o) as (l' & ? & ? & Ho' & He'); [destruct Halt as [->|?]; done|].
    exists l', es. split_and!; [done..|by rewrite He'|]. rewrite Ho'. apply Herr.
Qed.

(** *** The three moves of the guard *)

Lemma add_guard p :
  bool_decide (metricsFinalizer ∈ Finalizers (AddFinalizer (Pipeline_Meta p) metricsFinalizer)) = true.
Proof. apply bool_decide_eq_true, AddFinalizer_elem. by left. Qed.

Lemma remove_guard p :
  bool_decide (metricsFinalizer ∈ Finalizers (RemoveFinalizer (Pipeline_Meta p) metricsFinalizer)) = false.
Proof. apply bool_decide_eq_false. rewrite RemoveFinalizer_elem. by intros [? _]. Qed.

Lemma contains_guarded p : ContainsFinalizer (Pipeline_Meta p) metricsFinalizer = guarded p.
Proof.
  unfold guarded. destruct (ContainsFinalizer _ _) eqn:E.
  - apply ContainsFinalizer_iff in E. by rewrite bool_decide_true.
  - rewrite bool_decide_false; [done|]. rewrite <-ContainsFinalizer_iff. by rewrite E.
Qed.

Lemma refuses_new_guard p m :
  deleting p = true -> guarded p = false -> metricsFinalizer ∈ Finalizers m ->
  refuses_finalizers p (regarded p m) = true.
Proof.
  intros Hd Hg Hm. unfold refuses_finalizers. unfold deleting in Hd. rewrite Hd. simpl.
  apply existsb_exists. exists metricsFinalizer. split; [by apply list_elem_of_In|].
  unfold guarded in Hg. by rewrite Hg.
Qed.

(** The guard is set once the pipeline has started: it runs. *)
Lemma safe_add_guard {A} p s (k : result GoError Pipeline -> prog A) es o :
  guarded p = false -> PipeSt_StartTime (Pipeline_Status p) = Some s ->
  PipeSt_CompletionTime (Pipeline_Status p) = None -> (forall x, safe (k x) None es o) ->
  safe (Vis (Patch KPipeline p
    (with_pipeline_meta p (AddFinalizer (Pipeline_Meta p) metricsFinalizer))) k) (Some p) es o.
Proof.
  intros Hg Hs Hc Hk. apply (safe_patch _ _ _ _ o o); [apply AddFinalizer_only|by rewrite add_guard, Hg| |auto..].
  intros q [_ Hst Hq _] Hwt q' Href. rewrite Hg in Hq.
  assert (deleting q = false) as Hd.
  { destruct (deleting q) eqn:Ed; [|done]. rewrite <-Href. symmetry. apply refuses_new_guard; [done..|].
    exact (bool_decide_eq_true_1 _ (add_guard p)). }
  unfold well_timed in *. cbn [stage_of]. subst q'. rewrite regarded_guard, add_guard, Hq, Hst in *.
  change (deleting (regarded q _)) with (deleting q).
  change (Pipeline_Status (regarded q _)) with (Pipeline_Status q).
  rewrite Hst, Hd. unfold timed_at, stage_at in *. rewrite Hs, Hc in *.
  split; [done|]. split; [|by left]. intros e n. apply rtc_once, life_runs.
Qed.

(** It is given back when the pipeline is being deleted... *)
Lemma safe_cancel_guard {A} p (k : result GoError Pipeline -> prog A) es o :
  guarded p = true -> deleting p = true -> (forall x, safe (k x) None es o) ->
  safe (Vis (Patch KPipeline p
    (with_pipeline_meta p (RemoveFinalizer (Pipeline_Meta p) metricsFinalizer))) k) (Some p) es o.
Proof.
  intros Hg Hd Hk. apply (safe_patch _ _ _ _ o o); [apply RemoveFinalizer_only|by rewrite remove_guard, Hg| |auto..].
  intros q [_ Hst Hq Hdq] Hwt q' Href. rewrite Hg in Hq. specialize (Hdq Hd).
  unfold well_timed in *. cbn [stage_of]. subst q'. rewrite regarded_guard, remove_guard, Hq in *.
  change (deleting (regarded q _)) with (deleting q).
  change (Pipeline_Status (regarded q _)) with (Pipeline_Status q).
  rewrite Hdq. unfold timed_at, stage_at in *.
  destruct (PipeSt_StartTime (Pipeline_Status q)), (PipeSt_CompletionTime (Pipeline_Status q));
    try done; (split; [apply Hwt|]; split; [|by left]); intros e n; apply rtc_once;
    constructor.
Qed.

(** ... or when it has completed, and is to be counted then. *)
Lemma safe_record_guard {A} p s c (k : result GoError Pipeline -> prog A) es :
  guarded p = true -> PipeSt_StartTime (Pipeline_Status p) = Some s ->
  PipeSt_CompletionTime (Pipeline_Status p) = Some c ->
  (forall q, Pipeline_Status q = Pipeline_Status p -> safe (k (Ok q)) None es true) ->
  (forall err, safe (k (Err err)) None es false) ->
  safe (Vis (Patch KPipeline p
    (with_pipeline_meta p (RemoveFinalizer (Pipeline_Meta p) metricsFinalizer))) k) (Some p) es false.
Proof.
  intros Hg Hs Hc Hok Herr.
  apply (safe_patch _ _ _ _ false true); [apply RemoveFinalizer_only|by rewrite remove_guard, Hg| |done..].
  intros q [_ Hst Hq _] Hwt q' Href. rewrite Hg in Hq.
  unfold well_timed in *. cbn [stage_of]. subst q'. rewrite regarded_guard, remove_guard, Hq in *.
  change (deleting (regarded q _)) with (deleting q).
  change (Pipeline_Status (regarded q _)) with (Pipeline_Status q).
  rewrite Hst in *. unfold timed_at, stage_at in *. rewrite Hs, Hc in *.
  split; [done|]. split; [|right]; intros e n; apply rtc_once; [apply life_records|apply life_forgets].
Qed.

(** *** The status, the pod and the count *)

(** The status of [p] becomes [st], which is a step of the life. *)
Lemma safe_status {A} p st (k : result GoError Pipeline -> prog A) es o :
  (forall q, Pipeline_Status q = Pipeline_Status p -> guarded q = guarded p -> well_timed q ->
    well_timed (with_pipeline_status q st) /\
    forall d e n, es ⊆ e -> life_steps (mkLife (stage_of (Some q)) d e o n)
      (mkLife (stage_of (Some (with_pipeline_status q st))) d e o n)) ->
  (forall x, safe (k x) None es o) ->
  safe (Vis (StatusPatch KPipeline p (with_pipeline_status p st)) k) (Some p) es o.
Proof.
  intros Hlife Hk. apply safe_write; [by intros ? ? ? []|]. intros w l x w' Habs Ho Hes Hv Hans.
  assert (w' = w \/ exists q, Stored w = Some q /\ w' = with_stored w (Some (with_pipeline_status q st)))
    as [->|(q & Hq & ->)].
  { assert (forall lookup,
      let w1 := (serve lookup _ (StatusPatch KPipeline p (with_pipeline_status p st)) w).2 in
      w1 = w \/ exists q, Stored w = Some q /\ w1 = with_stored w (Some (with_pipeline_status q st))) as Hs.
    { intros lookup. simpl. destruct (Stored w) as [q|] eqn:Eq; [right|by left].
      exists q. split; [done|]. simpl. destruct (Hv q Eq) as [_ -> _ _]. by rewrite merged_status_fresh. }
    destruct Hans; [apply Hs|by left|apply Hs]. }
  - exists l, es. split_and!; [apply rtc_refl|done..|]. rewrite Ho. apply Hk.
  - destruct (abs_stored _ _ _ Habs q Hq) as [Hkey Hwt], (Hv q Hq) as [_ Hst Hgu _].
    destruct (Hlife q Hst Hgu Hwt) as [Hwt' Hsteps].
    destruct (store_life key w l q (with_pipeline_status q st) (Some (with_pipeline_status q st)) o)
      as (l' & H1 & H2 & H3 & H4); try done; [by left|rewrite Ho; by apply Hsteps|].
    exists l', es. split_and!; [done..|by rewrite H4|]. rewrite H3. apply Hk.
Qed.

Lemma ended_as_create t pod : ended_as (create_pod t pod) = [].
Proof. done. Qed.

(** The cluster with another scan pod, of the same end. *)
Lemma abstracts_pod w l pod :
  abstracts key w l -> pod_ok pod (L_Ended l) -> abstracts key (with_pod w (Some pod)) l.
Proof. intros [] Hpod. constructor; try done. by intros pod' [= <-]. Qed.

Lemma knows_pod v w pod : knows v (with_pod w pod) = knows v w.
Proof. done. Qed.

Definition keeps_pod (f : Pod -> result GoError Pod) : Prop := forall pod pod',
  time_is_zero (CreationTimestamp (Pod_Meta pod)) = false -> f pod = Ok pod' ->
  CreationTimestamp (Pod_Meta pod') = CreationTimestamp (Pod_Meta pod) /\ Pod_Status pod' = Pod_Status pod.

(** What creating or updating the pod does to the cluster. *)
Lemma serve_pod_life lookup o f w l :
  abstracts key w l -> keeps_pod f ->
  let answer := serve lookup _ (CreateOrUpdate KPod o f) w in
  abstracts key answer.2 l /\ (forall v, knows v w -> knows v answer.2) /\
  forall pod res, answer.1 = Ok (pod, res) -> pod_ok pod (L_Ended l).
Proof.
  intros Habs Hf. simpl. destruct (ScanPodStored w) as [pod|] eqn:Ep.
  - destruct (abs_pod _ _ _ Habs pod Ep) as [Hc He].
    destruct (f pod) as [pod'|e] eqn:Ef; [|done].
    destruct (Hf pod pod' Hc Ef) as [Hc' Hs'].
    destruct (decide (pod' = pod)) as [->|]; [split_and!; [done..|by intros ? ? [= <- <-]]|].
    assert (pod_ok pod' (L_Ended l)) as Hok by (unfold pod_ok, ended_as; rewrite Hc', Hs'; done).
    split_and!; [by apply abstracts_pod|done|by intros ? ? [= <- <-]].
  - destruct (f o) as [pod|e]; [|done].
    assert (pod_ok (create_pod (Clock w) pod) (L_Ended l)) as Hok.
    { split; [exact (abs_clock _ _ _ Habs)|]. rewrite ended_as_create. set_solver. }
    split_and!; [by apply abstracts_pod|done|by intros ? ? [= <- <-]].
Qed.

Lemma safe_pod {A} o f (k : result GoError (Pod * OperationResult) -> prog A) v es b :
  keeps_pod f ->
  (forall pod res, time_is_zero (CreationTimestamp (Pod_Meta pod)) = false ->
    safe (k (Ok (pod, res))) v (ended_as pod ++ es) b) ->
  (forall e, safe (k (Err e)) v es b) -> safe (Vis (CreateOrUpdate KPod o f) k) v es b.
Proof.
  intros Hf Hok Herr w l x w' Habs <- Hes Hv Hans.
  assert (abstracts key w' l /\ knows v w' /\ forall pod res, x = Ok (pod, res) -> pod_ok pod (L_Ended l))
    as (Habs' & Hv' & Hpod).
  { destruct Hans as [Hans|[-> (pod & -> & Hpod)]]; [|by split_and!; [..|intros ? ? [= <- <-]]].
    destruct Hans as [lookup|x [e ->]|lookup x [e ->]]; [|done|];
      destruct (serve_pod_life lookup o f w l Habs Hf) as (Hl1 & Hl2 & Hl3);
      (split; [exact Hl1|]); (split; [exact (Hl2 v Hv)|]); [exact Hl3|done]. }
  destruct x as [[pod res]|e].
  - destruct (Hpod pod res eq_refl) as [Hc He].
    exists l, v, (ended_as pod ++ es). split_and!; [apply rtc_refl|done|set_solver|done|by apply Hok].
  - exists l, v, es. split_and!; [apply rtc_refl|done..|apply Herr].
Qed.

Lemma safe_count {A} labels (k : unit -> prog A) v es :
  safe (k tt) v es false -> safe (Vis (UpdateMetric pipelinesCompleted labels (MetricAdd 1)) k) v es true.
Proof.
  intros Hk w l x w' Habs Ho Hes Hv [Hans|[_ []]]. destruct Hans as [lookup|? []|? ? []]. simpl.
  destruct l as [st d e o n]. simpl in *. subst o.
  exists (mkLife st d e false (n + 1)), v, es. split; [apply rtc_once, life_counts|].
  split; [|split; [done|split; [by destruct v|exact Hk]]].
  destruct Habs as [? ? Hn ? ? ?]. constructor; simpl in *; try done. by rewrite Hn.
Qed.

(** ** A reconciliation is safe *)

Lemma populateScanPod_pod p profile downloader uploaders :
  keeps_pod (fun pod => populateScanPod r pod p profile downloader uploaders).
Proof.
  intros pod pod' Hc. unfold populateScanPod. rewrite Hc.
  destruct (SetControllerReference _ _ _) as [m|e] eqn:Es; [|done]. intros [= <-]. simpl.
  apply SetControllerReference_only in Es as [-> _]. done.
Qed.

Lemma safe_await_ttl p v es : safe (await_ttl p) v es false.
Proof.
  unfold await_ttl, deref. destruct (PipeS_TTLSecondsAfterFinished _); [|done].
  destruct (PipeSt_CompletionTime _); [|done]. apply safe_now. intros now _. simpl.
  destruct (_ <=? 0); [|done]. by apply safe_delete.
Qed.

Lemma safe_handlePostCompletion p es :
  well_timed p -> completed (Pipeline_Status p) -> safe (handlePostCompletion p) (Some p) es false.
Proof.
  intros Hwt Hc. unfold handlePostCompletion. rewrite contains_guarded.
  destruct (guarded p) eqn:Eg; [|apply safe_await_ttl].
  unfold well_timed, timed_at, completed in *.
  destruct (PipeSt_StartTime (Pipeline_Status p)) as [s|] eqn:Es,
    (PipeSt_CompletionTime (Pipeline_Status p)) as [c|] eqn:Ec; try done.
  eapply safe_record_guard; [done..| |done]. intros q Hq.
  apply safe_metric; [done|]. unfold deref. cbn [bind]. rewrite Hq, Ec, Es.
  apply safe_count. apply safe_quiet; [apply quiet_metric; eauto|]. intros. apply safe_await_ttl.
Qed.

(** What [handleCompletion] writes is a step of the life. *)
Lemma completion_life p s pod t st :
  PipeSt_StartTime (Pipeline_Status p) = Some s -> PipeSt_CompletionTime (Pipeline_Status p) = None ->
  guarded p = true -> time_is_zero t = false -> phase_of_pod pod t (Pipeline_Status p) st ->
  PipeSt_StartTime st = Some s ->
  forall q, Pipeline_Status q = Pipeline_Status p -> guarded q = guarded p -> well_timed q ->
    well_timed (with_pipeline_status q st) /\
    forall d e o n, ended_as pod ⊆ e -> life_steps (mkLife (stage_of (Some q)) d e o n)
      (mkLife (stage_of (Some (with_pipeline_status q st))) d e o n).
Proof.
  intros Hs Hc Hg Ht Hph Hs' q Hst Hgq Hwt. unfold well_timed in *. cbn [stage_of].
  change (guarded (with_pipeline_status q st)) with (guarded q). simpl.
  rewrite Hgq, Hg, Hst in *. unfold timed_at, stage_at in *. rewrite Hs, Hc, Hs' in *.
  unfold phase_of_pod, ended_as in *. rewrite Hc in Hph.
  destruct (Pod_Phase (Pod_Status pod)); try done; destruct Hph as [Hp1 Hp2];
    rewrite ?Hp1, ?Hp2; (split; [done|]); intros d e o n He; try apply rtc_refl;
    apply rtc_once, life_completes; set_solver.
Qed.

Lemma safe_handleCompletion p s pod es :
  PipeSt_StartTime (Pipeline_Status p) = Some s -> PipeSt_CompletionTime (Pipeline_Status p) = None ->
  guarded p = true -> safe (handleCompletion p pod) (Some p) (ended_as pod ++ es) false.
Proof.
  intros Hs Hc Hg. unfold handleCompletion. apply safe_now. intros t Ht. cbn [bind].
  assert (forall st, phase_of_pod pod t (Pipeline_Status p) st -> PipeSt_StartTime st = Some s ->
    safe (bind (patchStatus KPipeline p (with_pipeline_status p st))
      (fun r => Ret (emptyResult, err_of r))) (Some p) (ended_as pod ++ es) false) as Hpatch.
  { intros st Hph Hst. apply safe_status; [|done]. intros q Hq Hgq Hwt.
    destruct (completion_life p s pod t st Hs Hc Hg Ht Hph Hst q Hq Hgq Hwt) as [Hwt' Hl].
    split; [exact Hwt'|]. intros d e n He. apply Hl. set_solver. }
  destruct (Pod_Phase (Pod_Status pod)) eqn:Ep; [..|done|done]; apply Hpatch; unfold phase_of_pod;
    rewrite ?Ep; try done.
  - apply running_status_phase.
Qed.

(** A new pipeline starts when its pod is there. *)
Lemma start_life p pod :
  PipeSt_StartTime (Pipeline_Status p) = None -> PipeSt_CompletionTime (Pipeline_Status p) = None ->
  guarded p = false -> time_is_zero (CreationTimestamp (Pod_Meta pod)) = false ->
  forall q, Pipeline_Status q = Pipeline_Status p -> guarded q = guarded p -> well_timed q ->
    let q' := with_pipeline_status q (started_status (Pipeline_Status p) pod) in
    well_timed q' /\ forall d e o n, life_steps (mkLife (stage_of (Some q)) d e o n)
      (mkLife (stage_of (Some q')) d e o n).
Proof.
  intros Hs Hc Hg Ht q Hst Hgq Hwt q'. unfold well_timed in *. cbn [stage_of].
  change (guarded q') with (guarded q). simpl.
  rewrite Hgq, Hg, Hst. unfold timed_at, stage_at. simpl. rewrite Hs, Hc.
  split; [done|]. intros d e o n. apply rtc_once, life_starts.
Qed.

Lemma safe_reconcile_scan_pod p profile downloader uploaders :
  well_timed p -> ~ completed (Pipeline_Status p) ->
  safe (reconcile_scan_pod r p profile downloader uploaders) (Some p) [] false.
Proof.
  intros Hwt Hc. unfold reconcile_scan_pod. apply safe_pod; [apply populateScanPod_pod| |done].
  intros pod res Ht.
  assert (forall f : unit -> prog Outcome, safe (f tt) (Some p) (ended_as pod ++ []) false ->
    safe (bind (if decide (res = OperationResultCreated)
        then op (UpdateMetric pipelinePodsCreated (metricLabelsForPipeline p) (MetricAdd 1))
        else Ret tt) f) (Some p) (ended_as pod ++ []) false) as Hmetric.
  { intros f Hf. destruct (decide _); [|exact Hf]. by apply safe_metric. }
  apply Hmetric. clear Hmetric. rewrite contains_guarded.
  unfold well_timed, timed_at, completed in *.
  destruct (PipeSt_StartTime (Pipeline_Status p)) as [s|] eqn:Es,
    (PipeSt_CompletionTime (Pipeline_Status p)) as [c|] eqn:Ec; [..|]; try done.
  - destruct Hwt as [_ Hcz]. simpl in Hc. by rewrite Hcz in Hc.
  - simpl ptime_is_zero. rewrite Hwt. cbn [negb]. destruct (guarded p) eqn:Eg; cbn [negb].
    + by eapply safe_handleCompletion.
    + eapply safe_add_guard; [done..|]. intros [q|e]; [|done]. by apply safe_metric.
  - simpl ptime_is_zero. cbn [negb]. apply safe_status; [|done].
    intros q Hq Hgq Hwtq. destruct (start_life p pod Es Ec Hwt Ht q Hq Hgq Hwtq) as [Hwt' Hl].
    split; [exact Hwt'|]. intros d e n _. apply Hl.
Qed.

Lemma safe_reconcile_unexpired p :
  well_timed p -> safe (reconcile_unexpired r p) (Some p) [] false.
Proof.
  intros Hwt. unfold reconcile_unexpired.
  destruct (negb _) eqn:Ec.
  { apply safe_handlePostCompletion; [done|]. by apply negb_true_iff in Ec. }
  assert (~ completed (Pipeline_Status p)) as Hc.
  { unfold completed. apply negb_false_iff in Ec. congruence. }
  apply safe_reads; [auto with ocular|]. intros [profile [e|]]; [done|].
  apply safe_reads; [auto with ocular|]. intros [downloader [e|]]; [done|].
  apply safe_reads; [auto with ocular|]. intros [uploaders|e]; [|done].
  by apply safe_reconcile_scan_pod.
Qed.

Lemma safe_Reconcile : safe (Reconcile r key) None [] false.
Proof.
  unfold Reconcile. apply safe_get; [|done]. intros p Hkey Hwt. rewrite contains_guarded.
  destruct (_ && _) eqn:E.
  - apply andb_true_iff in E as [Hd Hg]. apply safe_cancel_guard; [done| |].
    + unfold deleting. apply bool_decide_eq_true. intros Hn. by rewrite Hn in Hd.
    + intros [q|e]; [|done]. by apply safe_metric.
  - apply safe_reads; [apply exceeded_lifetime_reads|]. intros [].
    + by apply safe_delete.
    + by apply safe_reconcile_unexpired.
Qed.

(** ** The simulation *)

(** What is in the cache is admissible. *)
Record cache_ok (c : Cached) (l : Life) : Prop := {
  cache_recent v : v ∈ Recent c -> key_of KPipeline v = key /\ well_timed v /\ knows (Some v) (Server c);
  cache_pods pod : pod ∈ RecentPods c -> pod_ok pod (L_Ended l)
}.

Lemma life_steps_ended l l' : life_steps l l' -> L_Ended l ⊆ L_Ended l'.
Proof. induction 1 as [|l1 l2 l3 Hstep _ IH]; [done|]. etrans; [|exact IH]. by destruct Hstep; set_unfold; auto. Qed.

Lemma pod_ok_ended pod e e' : pod_ok pod e -> e ⊆ e' -> pod_ok pod e'.
Proof. intros [Hc He] Hee. split; [done|set_solver]. Qed.

Lemma elem_of_latest {A} (o : option A) l x : x ∈ option_list o ++ l <-> o = Some x \/ x ∈ l.
Proof. destruct o; simpl; set_solver. Qed.

Lemma cache_pods_latest c w l l' pod :
  cache_ok c l -> abstracts key w l' -> L_Ended l ⊆ L_Ended l' ->
  pod ∈ option_list (ScanPodStored w) ++ RecentPods c -> pod_ok pod (L_Ended l').
Proof.
  intros Hc Habs He [Hp|Hp]%elem_of_latest; [by eapply abs_pod|].
  eapply pod_ok_ended; [by eapply cache_pods|done].
Qed.

Lemma stored_recent w l v : abstracts key w l -> Stored w = Some v ->
  key_of KPipeline v = key /\ well_timed v /\ knows (Some v) w.
Proof.
  intros Habs Hv. destruct (abs_stored _ _ _ Habs v Hv). split; [done|]. split; [done|].
  intros q Hq. simplify_eq. by constructor.
Qed.

Lemma written_ok c w l l' :
  cache_ok c l -> abstracts key w l' -> L_Ended l ⊆ L_Ended l' -> cache_ok (written c w) l'.
Proof.
  intros Hc Habs He. constructor; [|by intros pod; eapply cache_pods_latest]. intros v. simpl.
  destruct (decide _) as [E|].
  - intros Hv. destruct (cache_recent _ _ Hc v Hv) as (H1 & H2 & H3). split; [done|]. split; [done|].
    intros q. rewrite E. apply H3.
  - intros Hv. eapply stored_recent; [done|]. destruct (Stored w); simpl in Hv; set_solver.
Qed.

Lemma changed_ok c w l l' :
  cache_ok c l -> environment (Server c) w -> abstracts key w l' -> L_Ended l ⊆ L_Ended l' ->
  cache_ok (changed c w) l'.
Proof.
  intros Hc Henv Habs He. constructor; [|by intros pod; eapply cache_pods_latest].
  intros v [Hv|Hv]%elem_of_latest; [by eapply stored_recent|].
  destruct (cache_recent _ _ Hc v Hv) as (H1 & H2 & H3). split; [done|]. split; [done|].
  by eapply (knows_environment (Some v)).
Qed.

(** The server is asked, or the cache answers; what is answered is admissible. *)
Lemma cached_serve_admissible s c l X (e : Op X) :
  cache_ok c l -> let a := cached_serve s X e c in
  admissible l (Server c) e a.1 (Server a.2) /\
  (a.2 = c \/ a.2 = written c (serve (Lookup s) X e (Server c)).2).
Proof.
  intros Hc. pose proof (answer_served serve (@call_error) e (Server c) (Lookup s)) as Hserved.
  destruct e as [k key'|k opts|k o|k o f|k o o'|k o o'|k o|k o| |m labels o]; simpl in *;
    try (split; [by left|by right]).
  - split; [|by left]. destruct k; try (by left). simpl.
    destruct (Recent c !! CachedPipeline s) as [p|] eqn:Ep; [|left; apply answer_failed; by eexists].
    destruct (decide _) as [Hk|]; [|left; apply answer_failed; by eexists]. right. split; [done|]. exists p.
    destruct (cache_recent _ _ Hc p) as (H1 & H2 & H3); [by eapply list_elem_of_lookup_2|]. done.
  - destruct k; simpl; try (split; [left; apply answer_failed; by eexists|by left]).
    simpl in Hserved.
    destruct (RecentPods c !! CachedPod s) as [pod|] eqn:Ep; [|split; [by left|by right]].
    destruct (f pod) as [pod'|e] eqn:Ef; [|split; [left; apply answer_failed; by eexists|by left]].
    destruct (decide _) as [->|]; [|split; [by left|by right]]. split; [|by left]. right. split; [done|].
    exists pod. split; [done|]. eapply cache_pods; [done|by eapply list_elem_of_lookup_2].
Qed.

Lemma cached_answers c l X (e : Op X) x c' :
  cache_ok c l -> Execution.answers cached_serve (@call_error) e c x c' ->
  admissible l (Server c) e x (Server c') /\ (c' = c \/ c' = written c (Server c')).
Proof.
  intros Hc Hans. assert (forall s, (cached_serve s X e c).2 = c \/
    (cached_serve s X e c).2 = written c (serve (Lookup s) X e (Server c)).2) as Hs by (intros s; apply (cached_serve_admissible s c l X e Hc)).
  destruct Hans as [s|x Hx|s x Hx].
  - split; [apply (cached_serve_admissible s c l X e Hc)|]. destruct (Hs s) as [->|E]; [by left|right]. by rewrite E.
  - split; [left; by apply answer_failed|by left].
  - destruct (Hs s) as [->| ->]; [split; [left; by apply answer_failed|by left]|].
    split; [left; by apply (answer_lost serve)|by right].
Qed.

Definition simulates (s : System) (l : Life) : Prop :=
  abstracts key (Sys_Cluster s) l /\ cache_ok (Exec_State s) l /\ exists v es, es ⊆ L_Ended l /\ knows v (Sys_Cluster s) /\
    safe (Sys_Todo s) v es (L_Owed l).

Lemma system_step_life s s' l :
  execution_step cached_serve (@call_error) cached_environment cached_restarted (Reconcile r key) s s' ->
  simulates s l -> exists l', life_steps l l' /\ simulates s' l'.
Proof.
  intros Hstep (Habs & Hc & v & es & Hes & Hv & Hsafe).
  destruct Hstep as [c c' todo [w Henv]|c out|c X e k x c' Hans|c todo out]; simpl in *.
  - destruct (environment_life key (Server c) w l Henv Habs) as (l' & H1 & H2 & H3 & H4).
    exists l'. split; [done|]. split; [done|]. split; [by eapply changed_ok|]. exists v, es.
    split_and!; [set_solver|by eapply knows_environment|by rewrite H3].
  - exists l. split; [apply rtc_refl|]. split; [done|]. split; [done|]. exists None, [].
    split_and!; [set_solver|done|]. rewrite Hsafe. apply safe_Reconcile.
  - destruct (cached_answers c l X e x c' Hc Hans) as [Hadm Hc'].
    destruct (Hsafe (Server c) l x (Server c') Habs eq_refl Hes Hv Hadm) as (l' & v' & es' & Hl & Habs' & ? & ? & ?).
    exists l'. split; [done|]. split; [done|]. split; [|by exists v', es']. pose proof (life_steps_ended _ _ Hl) as He.
    destruct Hc' as [->| ->]; [|by eapply written_ok]. constructor; [apply Hc|]. intros pod Hpod.
    eapply pod_ok_ended; [by eapply cache_pods|done].
  - destruct l as [st d e o n]. exists (mkLife st d e false n).
    split; [apply rtc_once, life_restarts|]. split; [|split].
    + destruct Habs. by constructor.
    + destruct Hc. by constructor.
    + exists None, []. split_and!; [set_solver|done|done].
Qed.

Lemma system_steps_life s s' l :
  system_steps r key s s' -> simulates s l -> exists l', life_steps l l' /\ simulates s' l'.
Proof.
  intros Hsteps. revert l. induction Hsteps as [s|s1 s2 s3 H12 _ IH]; intros l Hl.
  - exists l. split; [apply rtc_refl|done].
  - destruct (system_step_life s1 s2 l H12 Hl) as (l2 & Hs2 & Hl2).
    destruct (IH l2 Hl2) as (l3 & Hs3 & Hl3). exists l3. split; [|done].
    unfold life_steps in *. by etrans.
Qed.

(** A new pipeline in its cluster. *)
Record initial (w : Cluster) (p : Pipeline) : Prop := {
  initial_stored : Stored w = Some p;
  initial_key : key_of KPipeline p = key;
  initial_start : PipeSt_StartTime (Pipeline_Status p) = None;
  initial_completion : PipeSt_CompletionTime (Pipeline_Status p) = None;
  initial_guard : guarded p = false;
  initial_pod : ScanPodStored w = None;
  initial_clock : time_is_zero (Clock w) = false;
  initial_counter : CompletedCounter w = 0
}.

Definition initial_life (p : Pipeline) : Life := mkLife New (deleting p) [] false 0.

Lemma initial_life_ok p : life_ok (initial_life p).
Proof. constructor; simpl; (done || lia). Qed.

(** Its cache has it. *)
Definition cached (w : Cluster) : Cached := mkCached w (option_list (Stored w)) [].

Lemma initial_simulates w p out : initial w p -> simulates (mkSystem (cached w) (Ret out)) (initial_life p).
Proof.
  intros [Hs Hk Hst Hco Hg Hpod Hc Hn].
  assert (abstracts key w (initial_life p)) as Habs.
  { constructor; simpl; rewrite ?Hs; simpl; try done.
    - unfold stage_at. by rewrite Hst.
    - intros q [= <-]. split; [done|]. unfold well_timed, timed_at. by rewrite Hst, Hco.
    - intros pod. by rewrite Hpod. }
  split; [done|]. split; [|by exists None, []]. constructor; simpl; [|by intros pod ?%elem_of_nil].
  intros v Hv. eapply stored_recent; [done|]. rewrite Hs in *. simpl in Hv. set_solver.
Qed.

(** C1: whatever happens in the cluster while the controller works on a new
    pipeline, in any order and between any two of its operations - calls that
    fail, calls whose answer is lost, restarts of the controller, reports of
    the kubelet, edits and the deletion of the pipeline by users, reads that
    miss what others have done to the pipeline or to its pod - what is stored of
    the pipeline and what is counted of it went through steps of the abstract
    life, as long as the controller reads its own writes: a read of the pipeline
    is not older than the last write of the controller to it.  The cache of the
    manager does not promise that; [stale_read_counts_twice] and PipelineStale
    show what happens without it. *)
Theorem pipeline_refines_life w p out s :
  initial w p -> system_steps r key (mkSystem (cached w) (Ret out)) s ->
  exists l, life_steps (initial_life p) l /\ abstracts key (Sys_Cluster s) l.
Proof.
  intros Hinit Hsteps.
  destruct (system_steps_life _ _ _ Hsteps (initial_simulates w p out Hinit)) as (l & Hl & Hsim).
  exists l. split; [done|apply Hsim].
Qed.

Lemma stage_of_completion p :
  well_timed p -> completed (Pipeline_Status p) ->
  exists s c, PipeSt_StartTime (Pipeline_Status p) = Some s /\
    PipeSt_CompletionTime (Pipeline_Status p) = Some c /\
    completion_of (stage_of (Some p)) = Some (s, c, PipeSt_Phase (Pipeline_Status p)).
Proof.
  unfold well_timed, timed_at, completed. cbn [stage_of]. unfold stage_at.
  destruct (PipeSt_StartTime _) as [s|], (PipeSt_CompletionTime _) as [c|]; try done.
  intros _ _. exists s, c. by destruct (guarded p).
Qed.

Lemma given_back_stored p :
  well_timed p -> given_back (stage_of (Some p)) -> completed (Pipeline_Status p) /\ guarded p = false.
Proof.
  unfold well_timed, timed_at, completed. cbn [stage_of]. unfold stage_at.
  destruct (PipeSt_StartTime _) as [s|], (PipeSt_CompletionTime _) as [c|]; try done; [|by destruct (guarded p)].
  intros [_ Hc]. by destruct (guarded p).
Qed.

(** C2: in every such execution, in which the controller reads its own writes but
    may miss those of others, a new pipeline is counted as completed at most
    once, over all restarts of the controller, and only once it has completed
    and its guard was given back; and when it has completed, the times and the
    phase of its completion never change again. *)
Theorem completed_counted_once w p out s s' :
  initial w p -> system_steps r key (mkSystem (cached w) (Ret out)) s -> system_steps r key s s' ->
  0 <= CompletedCounter (Sys_Cluster s) <= 1 /\
  forall q, Stored (Sys_Cluster s) = Some q ->
    (CompletedCounter (Sys_Cluster s) = 1 -> completed (Pipeline_Status q) /\ guarded q = false) /\
    (completed (Pipeline_Status q) -> forall q', Stored (Sys_Cluster s') = Some q' ->
      PipeSt_StartTime (Pipeline_Status q') = PipeSt_StartTime (Pipeline_Status q) /\
      PipeSt_CompletionTime (Pipeline_Status q') = PipeSt_CompletionTime (Pipeline_Status q) /\
      PipeSt_Phase (Pipeline_Status q') = PipeSt_Phase (Pipeline_Status q)).
Proof.
  intros Hinit Hs Hs'.
  destruct (system_steps_life _ _ _ Hs (initial_simulates w p out Hinit)) as (l & Hl & Hsim).
  destruct (system_steps_life _ _ _ Hs' Hsim) as (l' & Hl' & [Habs' _]). destruct Hsim as [Habs _].
  pose proof (life_steps_ok _ _ Hl (initial_life_ok p)) as Hok.
  rewrite <-(abs_counted _ _ _ Habs). split; [apply (ok_counted _ Hok)|]. intros q Hq.
  destruct (abs_stored _ _ _ Habs q Hq) as [_ Hwt]. split.
  - intros Hone. apply given_back_stored; [done|]. rewrite <-Hq, <-(abs_stage _ _ _ Habs). by apply (ok_given_back _ Hok).
  - intros Hc q' Hq'. destruct (abs_stored _ _ _ Habs' q' Hq') as [_ Hwt'].
    destruct (stage_of_completion q Hwt Hc) as (t & c & Ht & Hco & Hstage).
    rewrite <-Hq, <-(abs_stage _ _ _ Habs) in Hstage.
    destruct (life_steps_completion _ _ _ Hl' Hstage) as [Hstage'|Hgone].
    + rewrite (abs_stage _ _ _ Habs'), Hq' in Hstage'. revert Hstage'. simpl. unfold stage_at.
      rewrite Ht, Hco. destruct (PipeSt_StartTime (Pipeline_Status q')),
        (PipeSt_CompletionTime (Pipeline_Status q')), (guarded q'); simpl; intros; by simplify_eq.
    + rewrite (abs_stage _ _ _ Habs'), Hq' in Hgone. revert Hgone. simpl. unfold stage_at.
      by destruct (PipeSt_StartTime (Pipeline_Status q')), (PipeSt_CompletionTime (Pipeline_Status q')), (guarded q').
Qed.
End refinement.

(** ** Whole reconciliations *)

(** A reconciliation that runs without interruption. *)
Lemma reconcile_system_steps `{ControllerUtil} `{MapRange string} r key s c out :
  system_steps r key (mkSystem c (Ret out))
    (mkSystem (exec (cached_serve s) (Reconcile r key) c).2 (Ret (exec (cached_serve s) (Reconcile r key) c).1)).
Proof. eapply rtc_l; [apply step_begin|]. apply (exec_steps cached_serve). Qed.

(** ** An example, and what the hypotheses leave out *)

Module System_example.
#[local] Existing Instance ScanPod.Example.controller_util.
#[local] Existing Instance ScanPod.Example.range.

Definition key : ObjectKey := mkObjectKey "ns" "p".
Definition rec (w : Cluster) : Cluster :=
  (reconcile Life_example.lookup ScanPod.Example.reconciler key w).2.

(** The pipeline of the example: started and counted as running, its pod has
    failed, completed, counted as completed. *)
Definition running : Cluster := rec (rec Life_example.cluster).
Definition pod_failed (w : Cluster) : Cluster :=
  with_clock_at (pod_reports (mkPodStatus PodFailed [] []) w) (100 * Second).
Definition completed_cluster : Cluster := rec (pod_failed running).
Definition recorded : Cluster := rec completed_cluster.

(** The same with a cache; the pod is read as it was last stored. *)
Definition cached_rec (n : nat) (c : Cached) : Cached :=
  (exec (cached_serve (mkStaleness Life_example.lookup n 0)) (Reconcile ScanPod.Example.reconciler key) c).2.
Definition cached_running : Cached := cached_rec 0 (cached_rec 0 (cached Life_example.cluster)).
Definition cached_failed : Cached :=
  changed (changed cached_running (pod_reports (mkPodStatus PodFailed [] []) (Server cached_running)))
    (pod_failed (Server cached_running)).
Definition cached_completed : Cached := cached_rec 0 cached_failed.

(** A user edits the labels, which the last reconciliation does not see yet. *)
Definition labelled (p : Pipeline) : Pipeline :=
  let m := Pipeline_Meta p in
  with_pipeline_meta p (mkObjectMeta (Name m) (GenerateName m) (Namespace m) (UID m) {[ "team" := "a" ]} (Annotations m)
    (CreationTimestamp m) (DeletionTimestamp m) (Finalizers m) (OwnerReferences m)).
Definition cached_edited : Cached :=
  changed cached_completed (with_stored (Server cached_completed) (labelled <$> Stored (Server cached_completed))).
Definition cached_recorded : Cached := cached_rec 1 cached_edited.

Definition steps : System -> System -> Prop := system_steps ScanPod.Example.reconciler key.

Lemma rec_steps n c c' out :
  cached_rec n c = c' -> exists out', steps (mkSystem c (Ret out)) (mkSystem c' (Ret out')).
Proof. intros <-. eexists. apply (reconcile_system_steps _ key). Qed.

Lemma initial_example : initial key Life_example.cluster Life_example.pipeline.
Proof. constructor; vm_compute; reflexivity. Qed.

Lemma failed_steps todo : steps (mkSystem cached_running todo) (mkSystem cached_failed todo).
Proof.
  unfold cached_failed. assert ((Pod_Phase ∘ Pod_Status <$> ScanPodStored (Server cached_running)) = Some PodPending) as Hphase
    by (vm_compute; reflexivity).
  unfold pod_failed, pod_reports. destruct (ScanPodStored (Server cached_running)) as [pod|] eqn:Ep; [|discriminate Hphase].
  simpl in Hphase. injection Hphase as Hphase.
  assert (~ pod_ended pod) as Hend by (unfold pod_ended; rewrite Hphase; intuition discriminate).
  eapply rtc_l; [apply step_environment, env_changed, (env_pod_reports _ pod (mkPodStatus PodFailed [] []) Ep Hend)|].
  apply rtc_once, step_environment, env_changed, (env_clock _ (100 * Second)). reflexivity.
Qed.

Lemma labelled_environment w :
  DeletionTimestamp ∘ Pipeline_Meta <$> Stored w = Some None -> environment w (with_stored w (labelled <$> Stored w)).
Proof.
  destruct (Stored w) as [p|] eqn:Ep; [|done]. intros [= Hd]. simpl.
  replace (Some (labelled p)) with (finalized (labelled p)) by (unfold finalized; simpl; by rewrite Hd).
  by apply (env_edit _ p (labelled p) Ep).
Qed.

Lemma edited_steps todo : steps (mkSystem cached_completed todo) (mkSystem cached_edited todo).
Proof.
  assert (DeletionTimestamp ∘ Pipeline_Meta <$> Stored (Server cached_completed) = Some None) as Hd
    by (vm_compute; reflexivity).
  apply rtc_once, step_environment. unfold cached_edited. apply env_changed, labelled_environment, Hd.
Qed.

Lemma recorded_steps out : exists out1 out2,
  steps (mkSystem (cached Life_example.cluster) (Ret out)) (mkSystem cached_completed (Ret out1)) /\
  steps (mkSystem cached_completed (Ret out1)) (mkSystem cached_recorded (Ret out2)).
Proof.
  destruct (rec_steps 0 (cached Life_example.cluster) _ out eq_refl) as [o1 H1].
  destruct (rec_steps 0 (cached_rec 0 (cached Life_example.cluster)) cached_running o1 eq_refl) as [o2 H2].
  pose proof (failed_steps (Ret o2)) as H3.
  destruct (rec_steps 0 cached_failed cached_completed o2 eq_refl) as [o3 H4].
  pose proof (edited_steps (Ret o3)) as H5.
  destruct (rec_steps 1 cached_edited cached_recorded o3 eq_refl) as [o4 H6].
  exists o3, o4. unfold steps, system_steps, execution_steps in *. split; [|exact (transitivity H5 H6)].
  exact (transitivity H1 (transitivity H2 (transitivity H3 H4))).
Qed.

Lemma pipeline_refines_life_witness : exists l,
  life_steps (initial_life Life_example.pipeline) l /\ abstracts key (Server cached_recorded) l /\
  L_Stage l = Recorded (6 * Second) (100 * Second) PipelineFailed /\ L_Counted l = 1.
Proof.
  destruct (recorded_steps (emptyResult, None)) as (o1 & o2 & H1 & H2).
  assert (forall c todo, steps (mkSystem (cached Life_example.cluster) (Ret (emptyResult, None))) (mkSystem c todo) ->
    exists l, life_steps (initial_life Life_example.pipeline) l /\ abstracts key (Server c) l) as Hall.
  { intros c todo Hc. exact (pipeline_refines_life ScanPod.Example.reconciler key Life_example.cluster
      Life_example.pipeline (emptyResult, None) (mkSystem c todo) initial_example Hc). }
  destruct (Hall cached_recorded (Ret o2) (transitivity H1 H2)) as (l & Hl & Habs). exists l. split; [exact Hl|]. split; [exact Habs|].
  rewrite (abs_stage _ _ _ Habs), (abs_counted _ _ _ Habs). vm_compute. split; reflexivity.
Defined.

Lemma completed_counted_once_witness :
  CompletedCounter (Server cached_recorded) = 1 /\ forall q, Stored (Server cached_completed) = Some q ->
    PipeSt_CompletionTime (Pipeline_Status q) = Some (100 * Second) /\
    forall q', Stored (Server cached_recorded) = Some q' ->
      PipeSt_CompletionTime (Pipeline_Status q') = PipeSt_CompletionTime (Pipeline_Status q).
Proof.
  destruct (recorded_steps (emptyResult, None)) as (o1 & o2 & H1 & H2).
  assert (forall c c', steps (mkSystem (cached Life_example.cluster) (Ret (emptyResult, None))) (mkSystem c (Ret o1)) ->
    steps (mkSystem c (Ret o1)) (mkSystem c' (Ret o2)) -> forall q, Stored (Server c) = Some q ->
    completed (Pipeline_Status q) -> forall q', Stored (Server c') = Some q' ->
    PipeSt_CompletionTime (Pipeline_Status q') = PipeSt_CompletionTime (Pipeline_Status q)) as Hall.
  { intros c c' Hc Hc' q Hq Hcq q' Hq'.
    destruct (completed_counted_once ScanPod.Example.reconciler key Life_example.cluster
      Life_example.pipeline (emptyResult, None) (mkSystem c (Ret o1)) (mkSystem c' (Ret o2))
      initial_example Hc Hc') as [_ Hkeep].
    destruct (Hkeep q Hq) as [_ Hk]. destruct (Hk Hcq q' Hq') as (_ & H & _). exact H. }
  split; [vm_compute; reflexivity|]. intros q Hq.
  assert (PipeSt_CompletionTime (Pipeline_Status q) = Some (100 * Second)) as Hc.
  { assert ((PipeSt_CompletionTime ∘ Pipeline_Status <$> Stored (Server cached_completed))
      = Some (Some (100 * Second))) as E by (vm_compute; reflexivity).
    rewrite Hq in E. injection E as E. exact E. }
  split; [exact Hc|]. intros q' Hq'.
  exact (Hall cached_completed cached_recorded H1 H2 q Hq (f_equal ptime_is_zero Hc) q' Hq').
Defined.

(** *** A restart between the start and the completion

    The gauge of running pipelines begins at zero again, and the completion
    takes one off. *)
Lemma restart_makes_gauge_negative :
  RunningGauge running = 1 /\ RunningGauge (rec (rec (pod_failed (restarted running)))) = -1.
Proof. split; vm_compute; reflexivity. Qed.

(** *** A lost answer to the patch that gives the guard back

    The pipeline is never counted as completed, and stays counted as running. *)
Definition losing_patches : handler Cluster := fun X e w =>
  match e in Op X return X * Cluster with
  | Patch k orig o => (Err (APIError "timeout"), (serve Life_example.lookup _ (Patch k orig o) w).2)
  | e => serve Life_example.lookup _ e w
  end.

Lemma lost_answer_never_counted :
  let lost := (exec losing_patches (Reconcile ScanPod.Example.reconciler key) completed_cluster).2 in
  CompletedCounter (rec lost) = 0 /\ RunningGauge (rec lost) = 1 /\
  (guarded <$> Stored (rec lost)) = Some false.
Proof. split_and!; vm_compute; reflexivity. Qed.

(** *** A stale read

    The client reads from a cache.  One that still has the pipeline as it was
    before its guard was given back makes it count twice: the patch carries no
    resource version, so the server accepts it. *)
Definition reading_stale (p : option Pipeline) : handler Cluster := fun X e w =>
  match e in Op X return X * Cluster with
  | Get k key' =>
      (match k as k return result GoError (obj k) with
       | KPipeline => match p with Some p => Ok p | None => Err APINotFound end
       | k => Life_example.lookup k key'
       end, w)
  | e => serve Life_example.lookup _ e w
  end.

Lemma stale_read_counts_twice :
  let stale := reading_stale (Stored completed_cluster) in
  CompletedCounter recorded = 1 /\
  CompletedCounter (exec stale (Reconcile ScanPod.Example.reconciler key) recorded).2 = 2 /\
  RunningGauge (exec stale (Reconcile ScanPod.Example.reconciler key) recorded).2 = -1.
Proof. split_and!; vm_compute; reflexivity. Qed.
End System_example.
