(* ===== verification/PipelineStale.v ===== *)
(** * The pipeline controller reading a stale cache

    The client of the controller reads from the cache of the manager, which may
    lag behind the server.  The executions here are those of PipelineSystem,
    but a read of the pipeline may give any version of it that was ever stored,
    also one that is older than what the controller has written itself.  What of the life of a pipeline
    survives this is an invariant over all versions; what does not is shown by
    executions. *)

From Stdlib Require Import ZArith Lia String Ascii.
From S2P Require Import Prelude Effects Execution GoStd K8s Api Client Resources ControllerCommon PipelineController ScanPod PipelineServer PipelineLife PipelineSafety PipelineSystem PipelineRefinement.

Local Open Scope string_scope.
Local Open Scope Z_scope.
Local Open Scope list_scope.

(** ** A cluster that remembers *)

(** The cluster; every version of the pipeline and of its pod that was stored,
    the latest first; the readings of the clock; and whether a client other than
    the controller has asked for the deletion of the pipeline. *)
Record StaleCluster := mkStale {
  Current : Cluster;
  Versions : list Pipeline;
  PodVersions : list Pod;
  Readings : list Time;
  Asked : bool
}.

Definition recorded (w : StaleCluster) (c : Cluster) : StaleCluster :=
  mkStale c (option_list (Stored c) ++ Versions w) (option_list (ScanPodStored c) ++ PodVersions w)
    (Readings w) (Asked w).
Definition with_reading (w : StaleCluster) (t : Time) : StaleCluster :=
  mkStale (Current w) (Versions w) (PodVersions w) (t :: Readings w) (Asked w).
Definition with_asked (w : StaleCluster) : StaleCluster :=
  mkStale (Current w) (Versions w) (PodVersions w) (Readings w) true.

Definition stale_serve (s : Staleness) : handler StaleCluster := fun X e w =>
  match e in Op X return X * StaleCluster with
  | Get k key => (stale_get s (Versions w) k key, w)
  | CreateOrUpdate k o mutate =>
      let a := stale_create_or_update s (PodVersions w) k o mutate (Current w) in
      (a.1, match a.2 with Some c => recorded w c | None => w end)
  | Now => (Clock (Current w), with_reading w (Clock (Current w)))
  | e => ((serve (Lookup s) _ e (Current w)).1, recorded w (serve (Lookup s) _ e (Current w)).2)
  end.

(** What else happens: the environment of PipelineSystem, where a deletion by
    another client is remembered. *)
Inductive stale_environment (w : StaleCluster) : StaleCluster -> Prop :=
| stale_deleted p : Stored (Current w) = Some p ->
    stale_environment w (recorded (with_asked w)
      (with_stored (Current w) (finalized (delete_at (Clock (Current w)) p))))
| stale_other c : environment (Current w) c ->
    deletion_of (Stored c) = deletion_of (Stored (Current w)) -> stale_environment w (recorded w c).

Definition stale_restarted (w : StaleCluster) : StaleCluster :=
  mkStale (restarted (Current w)) (Versions w) (PodVersions w) (Readings w) (Asked w).

(** ** What survives *)

(** A version that is stored later has started and completed when an earlier one has. *)
Definition advances (p q : PipelineStatus) : Prop :=
  (started p -> started q) /\ (completed p -> completed q).

#[export] Instance advances_preorder : PreOrder advances.
Proof. split; [by split|]. intros p q s [] []. split; auto. Qed.

(** A deletion was asked for, or a lifetime that some version had was over. *)
Definition deletable (w : StaleCluster) : Prop :=
  Asked w = true \/ exists v now, v ∈ Versions w /\ now ∈ Readings w /\ expired v now.

Record stale_ok (w : StaleCluster) : Prop := {
  ok_stored p : Stored (Current w) = Some p -> p ∈ Versions w;
  ok_order v p : v ∈ Versions w -> Stored (Current w) = Some p ->
    advances (Pipeline_Status v) (Pipeline_Status p);
  ok_versions v : v ∈ Versions w -> completed (Pipeline_Status v) -> started (Pipeline_Status v);
  ok_pod pod : ScanPodStored (Current w) = Some pod -> pod ∈ PodVersions w;
  ok_pods pod : pod ∈ PodVersions w -> time_is_zero (CreationTimestamp (Pod_Meta pod)) = false;
  ok_clock : time_is_zero (Clock (Current w)) = false;
  ok_deletion : deletion_of (Stored (Current w)) = true -> deletable w
}.

(** What a reconciliation knows: it has seen pipelines, as far as their deletion
    depends on them, and readings of the clock. *)
Definition agrees (v p : Pipeline) : Prop :=
  Pipeline_Spec v = Pipeline_Spec p /\ Pipeline_Status v = Pipeline_Status p /\
  CreationTimestamp (Pipeline_Meta v) = CreationTimestamp (Pipeline_Meta p).

Record Known := mkKnown { SeenPipelines : list Pipeline; SeenTimes : list Time }.

Definition stale_knows (kn : Known) (w : StaleCluster) : Prop :=
  (forall p, p ∈ SeenPipelines kn -> exists v, v ∈ Versions w /\ agrees v p) /\
  (forall t, t ∈ SeenTimes kn -> t ∈ Readings w).

Lemma expired_agrees v p now : agrees v p -> expired p now -> expired v now.
Proof. intros (Hs & Hst & Hc). unfold expired. by rewrite Hs, Hst, Hc. Qed.

(** *** Steps of the cluster *)

(** What of a cluster [c] keeps the invariant after [w]. *)
Record moved (w : StaleCluster) (c : Cluster) : Prop := {
  moved_stored q : Stored c = Some q -> exists p, Stored (Current w) = Some p /\
    advances (Pipeline_Status p) (Pipeline_Status q) /\
    (completed (Pipeline_Status q) -> started (Pipeline_Status q));
  moved_pod pod : ScanPodStored c = Some pod -> time_is_zero (CreationTimestamp (Pod_Meta pod)) = false;
  moved_clock : time_is_zero (Clock c) = false;
  moved_deletion : deletion_of (Stored c) = true -> deletion_of (Stored (Current w)) = true \/ deletable w
}.

Lemma elem_of_recorded {A} (o : option A) l x : x ∈ option_list o ++ l <-> o = Some x \/ x ∈ l.
Proof. destruct o; simpl; set_solver. Qed.

Lemma recorded_knows w c kn : stale_knows kn w -> stale_knows kn (recorded w c).
Proof.
  intros [Hp Ht]. split; [|done]. intros p Hin. destruct (Hp p Hin) as (v & Hv & Ha). exists v.
  split; [|done]. apply elem_of_recorded. by right.
Qed.

Lemma recorded_ok w c : stale_ok w -> moved w c -> stale_ok (recorded w c).
Proof.
  intros Hok [Hst Hpod Hc Hd]. constructor; simpl.
  - intros p Hp. apply elem_of_recorded. by left.
  - intros v q Hv Hq. apply elem_of_recorded in Hv as [Hv|Hv]; [by simplify_eq|].
    destruct (Hst q Hq) as (p & Hp & Hpq & _). etrans; [by eapply ok_order|done].
  - intros v Hv. apply elem_of_recorded in Hv as [Hv|Hv]; [|by eapply ok_versions].
    by destruct (Hst v Hv) as (_ & _ & _ & ?).
  - intros pod Hp. apply elem_of_recorded. by left.
  - intros pod Hp. apply elem_of_recorded in Hp as [Hp|Hp]; [auto|by eapply ok_pods].
  - done.
  - intros Hdel. assert (deletable w) as [Ha|(v & now & Hv & Hnow & He)]
      by (destruct (Hd Hdel); [by apply ok_deletion|done]); [by left|].
    right. exists v, now. split; [apply elem_of_recorded; by right|done].
Qed.

(** The pipeline stays, with another status or other finalizers; or goes. *)
Lemma moved_same w : stale_ok w -> moved w (Current w).
Proof.
  intros Hok. constructor.
  - intros q Hq. exists q. split; [done|]. split; [done|]. eapply ok_versions, ok_stored; done.
  - intros pod Hp. by eapply ok_pods, ok_pod.
  - by apply ok_clock.
  - by left.
Qed.

Lemma moved_quiet w c :
  stale_ok w -> Stored c = Stored (Current w) -> ScanPodStored c = ScanPodStored (Current w) ->
  time_is_zero (Clock c) = false -> moved w c.
Proof. intros Hok E1 E2 Hc. destruct (moved_same w Hok). constructor; rewrite ?E1, ?E2; auto. Qed.

Lemma moved_with_stored w p s :
  stale_ok w -> Stored (Current w) = Some p ->
  (forall q, s = Some q -> advances (Pipeline_Status p) (Pipeline_Status q) /\
    (completed (Pipeline_Status q) -> started (Pipeline_Status q))) ->
  (deletion_of s = true -> deleting p = true \/ deletable w) ->
  moved w (with_stored (Current w) s).
Proof.
  intros Hok Hp Hs Hd. destruct (moved_same w Hok). constructor; simpl; auto.
  - intros q Hq. exists p. destruct (Hs q Hq). auto.
  - rewrite Hp. exact Hd.
Qed.

(** A version with the same status and deletion, unless it was finalized. *)
Lemma moved_finalized w p q :
  stale_ok w -> Stored (Current w) = Some p -> Pipeline_Status q = Pipeline_Status p ->
  (deleting q = true -> deleting p = true \/ deletable w) ->
  moved w (with_stored (Current w) (finalized q)).
Proof.
  intros Hok Hp Hst Hd. eapply moved_with_stored; [done..| |].
  - intros q' Hq'. apply finalized_some in Hq' as ->. rewrite Hst. split; [done|].
    eapply ok_versions, ok_stored; done.
  - intros Hdel. apply Hd. unfold finalized in Hdel. unfold deleting.
    destruct (DeletionTimestamp (Pipeline_Meta q)) eqn:E; [done|]. simpl in Hdel.
    unfold deleting in Hdel. by rewrite E in Hdel.
Qed.

Lemma with_asked_ok w : (stale_ok w -> stale_ok (with_asked w)) /\ forall kn, stale_knows kn w -> stale_knows kn (with_asked w).
Proof. split; [|done]. intros []. constructor; simpl; auto. intros _. by left. Qed.

Lemma moved_environment w c :
  stale_ok w -> environment (Current w) c -> deletion_of (Stored c) = deletion_of (Stored (Current w)) -> moved w c.
Proof.
  intros Hok Henv Hd. pose proof (ok_clock _ Hok) as Hc.
  destruct Henv as [t Ht|pod st Hpod Hend| |p Hp|p q Hp He]; simpl in *.
  - by apply moved_quiet.
  - destruct (moved_same w Hok) as [Hs Hpods _ Hdel]. constructor; simpl; [done| |done|done].
    intros pod' [= <-]. exact (Hpods pod Hpod).
  - destruct (moved_same w Hok). by constructor.
  - eapply moved_finalized; [done..|]. intros _. left. rewrite Hp in Hd. simpl in Hd. rewrite <-Hd.
    unfold finalized. simpl. by destruct (Finalizers _).
  - destruct He as [E1 E2 E3 E4]. eapply moved_finalized; [done..|]. unfold deleting. rewrite E4. by left.
Qed.

Lemma stale_environment_ok w w' :
  stale_environment w w' -> stale_ok w -> stale_ok w' /\ forall kn, stale_knows kn w -> stale_knows kn w'.
Proof.
  intros [p Hp|c Hc Hd] Hok.
  - destruct (with_asked_ok w) as [Ha Hk]. specialize (Ha Hok).
    split; [|intros kn Hkn; by apply recorded_knows, Hk]. apply recorded_ok; [done|].
    apply (moved_finalized (with_asked w) p); [done..|]. intros _. right. by left.
  - split; [by apply recorded_ok, moved_environment|]. intros kn. apply recorded_knows.
Qed.

(** *** The operations of a reconciliation *)

Notation stale_keeps := (keeps stale_serve (@call_error) stale_ok stale_knows).
Notation stale_answers := (Execution.answers stale_serve (@call_error)).

(** What a call may do to the cluster, served or not. *)
Inductive grows (w : StaleCluster) : StaleCluster -> Prop :=
| grows_same : grows w w
| grows_recorded c : moved w c -> grows w (recorded w c)
| grows_reading t : grows w (with_reading w t).

Lemma grows_ok w w' : grows w w' -> stale_ok w -> stale_ok w' /\ forall kn, stale_knows kn w -> stale_knows kn w'.
Proof.
  intros [|c Hc|t] Hok; [done| |].
  - split; [by apply recorded_ok|]. intros kn. apply recorded_knows.
  - split.
    + destruct Hok. constructor; simpl; auto. intros Hd.
      destruct (ok_deletion0 Hd) as [?|(v & now & ? & ? & ?)]; [by left|]. right. exists v, now.
      split; [done|]. split; [by right|done].
    + intros kn [Hp Ht]. split; [exact Hp|]. intros t' Ht'. right. auto.
Qed.

Definition growing {X} (e : Op X) : Prop := forall s w, stale_ok w -> grows w (stale_serve s X e w).2.

Lemma growing_answers {X} (e : Op X) w x w' :
  growing e -> stale_ok w -> stale_answers e w x w' -> grows w w'.
Proof. intros He Hok [s|y Hy|s y Hy]; [by apply He|constructor|by apply He]. Qed.

Lemma calm_growing {X} (e : Op X) : growing e -> calm stale_serve (@call_error) stale_ok stale_knows e.
Proof. intros He w x w' Hans Hok. by eapply grows_ok, Hok; eapply growing_answers. Qed.

Lemma keeps_growing {A X} (e : Op X) (k : X -> prog A) kn :
  growing e -> (forall x, stale_keeps (k x) kn) -> stale_keeps (Vis e k) kn.
Proof. intros He. by apply keeps_calm, calm_growing. Qed.

Lemma growing_read {X} (e : Op X) x : is_read (event e x) -> growing e.
Proof.
  destruct e; simpl; try done; intros _ s w Hok; simpl; constructor. by apply moved_same.
Qed.

Lemma growing_metric m labels op : growing (UpdateMetric m labels op).
Proof.
  intros s w Hok. constructor. pose proof (ok_clock _ Hok).
  apply moved_quiet; [done|..]; by destruct m, op.
Qed.

Lemma keeps_reads {A B} (p : prog A) (f : A -> prog B) kn :
  all_events is_read p -> (forall a, stale_keeps (f a) kn) -> stale_keeps (bind p f) kn.
Proof.
  intros Hp Hf. apply (keeps_bind _ _ _ _ p f); [|exact Hf]. eapply all_events_impl; [exact Hp|].
  intros [X e x] Hr. by eapply calm_growing, growing_read.
Qed.

Lemma keeps_get {A} key (k : result GoError Pipeline -> prog A) :
  (forall p, stale_keeps (k (Ok p)) (mkKnown [p] [])) -> (forall e, stale_keeps (k (Err e)) (mkKnown [] [])) ->
  stale_keeps (Vis (Get KPipeline key) k) (mkKnown [] []).
Proof.
  intros Hok Herr w x w' Hw Hkn Hans.
  assert (w' = w) as -> by by destruct Hans.
  assert (forall p, x = Ok p -> p ∈ Versions w) as Hread.
  { intros p Hx. destruct Hans as [s|y [e ->]|s y [e ->]]; [|done..]. revert Hx. simpl.
    destruct (Versions w !! CachedPipeline s) as [v|] eqn:Ev; [|done].
    destruct (decide _); [|done]. intros [= ->]. by eapply list_elem_of_lookup_2. }
  split; [done|]. destruct x as [p|e]; [exists (mkKnown [p] [])|by exists (mkKnown [] [])].
  split; [|apply Hok]. split; [|by intros t Ht%elem_of_nil]. intros q ->%list_elem_of_singleton.
  exists p. split; [by apply Hread|done].
Qed.

Lemma keeps_now {A} (k : Time -> prog A) ps ts :
  (forall t, time_is_zero t = false -> stale_keeps (k t) (mkKnown ps (t :: ts))) ->
  stale_keeps (Vis Now k) (mkKnown ps ts).
Proof.
  intros Hk w x w' Hw [Hp Ht] Hans. destruct Hans as [s|? []|? ? []]. simpl.
  split; [by apply (grows_ok w (with_reading w _) (grows_reading w _))|].
  eexists. split; [|by apply Hk, ok_clock]. split; [exact Hp|].
  intros t [->|Hin]%elem_of_cons; simpl; [by left|right; auto].
Qed.

(** *** Writes *)

Lemma keeps_write {A X} (e : Op X) (k : X -> prog A) kn :
  (forall s w, stale_ok w -> stale_knows kn w -> grows w (stale_serve s X e w).2) ->
  (forall x, stale_keeps (k x) kn) -> stale_keeps (Vis e k) kn.
Proof.
  intros He Hk w x w' Hw Hkn Hans.
  assert (grows w w') as Hg by (destruct Hans; [by apply He|constructor|by apply He]).
  destruct (grows_ok w w' Hg Hw) as [Hok' Hkn']. split; [done|]. exists kn. auto.
Qed.

(** A write of a status that starts and completes the pipeline, or leaves that
    alone, whichever version it was made from. *)
Definition status_write (old new : PipelineStatus) : Prop :=
  (PipeSt_StartTime new = PipeSt_StartTime old \/ started new) /\
  (PipeSt_CompletionTime new = PipeSt_CompletionTime old \/ completed new /\ started old).

Lemma merged_advances old new st :
  status_write old new -> advances old st -> (completed st -> started st) ->
  advances st (merged_status old new st) /\
  (completed (merged_status old new st) -> started (merged_status old new st)).
Proof.
  intros [Hs Hc] [Has Hac] Hst. unfold advances, started, completed, merged_status, merged in *. simpl.
  destruct (decide (PipeSt_StartTime old = PipeSt_StartTime new)),
    (decide (PipeSt_CompletionTime old = PipeSt_CompletionTime new)); intuition congruence.
Qed.

Lemma keeps_status {A} p st (k : result GoError Pipeline -> prog A) kn :
  p ∈ SeenPipelines kn -> status_write (Pipeline_Status p) st -> (forall x, stale_keeps (k x) kn) ->
  stale_keeps (Vis (StatusPatch KPipeline p (with_pipeline_status p st)) k) kn.
Proof.
  intros Hp Hst Hk. apply keeps_write; [|exact Hk]. intros s w Hok [Hkn _]. simpl. constructor.
  destruct (Stored (Current w)) as [q|] eqn:Eq; simpl; [|by apply moved_same].
  destruct (Hkn p Hp) as (v & Hv & _ & Hstv & _).
  assert (completed (Pipeline_Status q) -> started (Pipeline_Status q)) as Hq
    by by eapply ok_versions, ok_stored.
  pose proof (ok_order _ Hok v q Hv Eq) as Hadv. rewrite Hstv in Hadv.
  destruct (merged_advances _ _ _ Hst Hadv Hq) as [Hadv' Hst'].
  apply (moved_with_stored w q); [done..| |]; [by intros q' [= <-]|by left].
Qed.

Lemma keeps_patch {A} p m (k : result GoError Pipeline -> prog A) ps ts :
  m = with_finalizers (Pipeline_Meta p) (Finalizers m) ->
  (forall q, stale_keeps (k (Ok q)) (mkKnown (q :: ps) ts)) ->
  (forall e, stale_keeps (k (Err e)) (mkKnown ps ts)) ->
  stale_keeps (Vis (Patch KPipeline p (with_pipeline_meta p m)) k) (mkKnown ps ts).
Proof.
  intros Hm Hok Herr w x w' Hw Hkn Hans.
  assert (forall s, let a := stale_serve s _ (Patch KPipeline p (with_pipeline_meta p m)) w in
    grows w a.2 /\ forall q, a.1 = Ok q -> exists v, v ∈ Versions w /\ agrees v q) as Hserve.
  { intros s. simpl. destruct (Stored (Current w)) as [v|] eqn:Ev; [|by split; [constructor; by apply moved_same|]].
    rewrite (merged_pipeline_meta p m v Hm).
    destruct (refuses_finalizers _ _); simpl; [by split; [constructor; by apply moved_same|]|].
    split; [constructor; apply (moved_finalized w v); [done..|by left]|].
    intros q [= <-]. exists v. split; [by eapply ok_stored|done]. }
  assert (grows w w' /\ forall q, x = Ok q -> exists v, v ∈ Versions w /\ agrees v q) as [Hg Hx].
  { destruct Hans as [s|y [e ->]|s y [e ->]]; [apply Hserve|by split; [constructor|]|].
    split; [apply Hserve|done]. }
  destruct (grows_ok w w' Hg Hw) as [Hok' Hkn']. split; [done|]. destruct (Hkn' _ Hkn) as [Hp' Ht'].
  destruct x as [q|e]; [|exists (mkKnown ps ts); by split; [|apply Herr]].
  exists (mkKnown (q :: ps) ts). split; [|apply Hok]. split; [|exact Ht'].
  intros p' [->|Hin]%elem_of_cons; [|by apply Hp'].
  assert (stale_knows (mkKnown [q] []) w) as Hq.
  { split; [|by intros t Ht%elem_of_nil]. intros q' ->%list_elem_of_singleton. by apply Hx. }
  destruct (Hkn' _ Hq) as [H _]. apply H. by left.
Qed.

Lemma keeps_delete {A} p now (k : result GoError unit -> prog A) kn :
  p ∈ SeenPipelines kn -> now ∈ SeenTimes kn -> expired p now -> (forall x, stale_keeps (k x) kn) ->
  stale_keeps (Vis (Delete KPipeline p) k) kn.
Proof.
  intros Hp Hnow He Hk. apply keeps_write; [|exact Hk]. intros s w Hok [Hkn Ht]. simpl. constructor.
  destruct (Stored (Current w)) as [q|] eqn:Eq; simpl; [|by apply moved_same].
  destruct (Hkn p Hp) as (v & Hv & Ha).
  apply (moved_finalized w q); [done..|]. intros _. right. right. exists v, now.
  split; [done|]. split; [auto|]. by eapply expired_agrees.
Qed.

(** The pod a call gives was created at some time. *)
Definition pod_created (x : result GoError (Pod * OperationResult)) : Prop :=
  match x with Ok (pod, _) => time_is_zero (CreationTimestamp (Pod_Meta pod)) = false | Err _ => True end.

Lemma serve_pod_moved o f w :
  keeps_pod f -> stale_ok w ->
  moved w (serve_create_or_update KPod o f (Current w)).2 /\
  pod_created (serve_create_or_update KPod o f (Current w)).1.
Proof.
  intros Hf Hw. pose proof (moved_same w Hw) as Hsame.
  assert (forall pod, time_is_zero (CreationTimestamp (Pod_Meta pod)) = false ->
    moved w (with_pod (Current w) (Some pod))) as Hmoved.
  { intros pod Hpod. destruct Hsame. constructor; [done| |done|done]. by intros pod' [= <-]. }
  simpl. destruct (ScanPodStored (Current w)) as [pod|] eqn:Ep.
  - pose proof (ok_pods _ Hw pod (ok_pod _ Hw pod Ep)) as Hpod.
    destruct (f pod) as [pod'|e] eqn:Ef; [|done]. destruct (Hf pod pod' Hpod Ef) as [Hc' _].
    rewrite <-Hc' in Hpod. destruct (decide _); (split; [first [exact Hsame|exact (Hmoved _ Hpod)]|try exact Hpod]).
    congruence.
  - destruct (f o) as [pod|e]; [|done].
    assert (time_is_zero (CreationTimestamp (Pod_Meta (create_pod (Clock (Current w)) pod))) = false)
      as Hpod by exact (ok_clock _ Hw). split; [exact (Hmoved _ Hpod)|exact Hpod].
Qed.

Lemma stale_pod_grows s o f w :
  keeps_pod f -> stale_ok w ->
  let a := stale_serve s _ (CreateOrUpdate KPod o f) w in grows w a.2 /\ pod_created a.1.
Proof.
  intros Hf Hw. destruct (serve_pod_moved o f w Hf Hw) as [Hm Hc]. unfold stale_serve, stale_create_or_update.
  destruct (PodVersions w !! CachedPod s) as [pod|] eqn:Ep; [|by split; [constructor|]].
  destruct (f pod) as [pod'|e]; [|by split; [constructor|]].
  destruct (decide _) as [->|]; [|by split; [constructor|]]. split; [constructor|]. simpl.
  eapply ok_pods; [done|by eapply list_elem_of_lookup_2].
Qed.

Lemma keeps_create_or_update {A} o f (k : result GoError (Pod * OperationResult) -> prog A) kn :
  keeps_pod f -> (forall x, pod_created x -> stale_keeps (k x) kn) ->
  stale_keeps (Vis (CreateOrUpdate KPod o f) k) kn.
Proof.
  intros Hf Hk w x w' Hw Hkn Hans.
  assert (grows w w' /\ pod_created x) as [Hg Hx].
  { destruct Hans as [s|y [e ->]|s y [e ->]]; [by apply stale_pod_grows|by split; [constructor|]|].
    split; [by apply (stale_pod_grows s)|done]. }
  destruct (grows_ok w w' Hg Hw) as [Hok' Hkn']. split; [done|]. exists kn. auto.
Qed.

(** ** A reconciliation keeps the invariant *)

Section stale.
Context `{ControllerUtil} `{MapRange string}.
Variable r : PipelineReconciler.
Variable key : ObjectKey.

Lemma keeps_await_ttl p ps ts : p ∈ ps -> stale_keeps (await_ttl p) (mkKnown ps ts).
Proof.
  intros Hp. unfold await_ttl, deref. destruct (PipeS_TTLSecondsAfterFinished _) as [n|] eqn:En; [|done].
  destruct (PipeSt_CompletionTime _) as [t|] eqn:Et; [|done]. apply keeps_now. intros now _. cbn [bind].
  destruct (Z.leb_spec (time_sub (time_add t (duration_mul n Second)) now) 0); [|done].
  apply (keeps_delete p now); [done|by left| |done]. right. eauto.
Qed.

Lemma keeps_handlePostCompletion p ps ts : p ∈ ps -> stale_keeps (handlePostCompletion p) (mkKnown ps ts).
Proof.
  intros Hp. unfold handlePostCompletion, deref. destruct (ContainsFinalizer _ _); [|by apply keeps_await_ttl].
  apply keeps_patch; [apply RemoveFinalizer_only| |done]. intros q. cbn [bind].
  apply keeps_growing; [apply growing_metric|intros []].
  destruct (PipeSt_CompletionTime _); [|done]. destruct (PipeSt_StartTime _); [|done].
  apply keeps_growing; [apply growing_metric|intros []]. apply keeps_growing; [apply growing_metric|intros []].
  apply keeps_await_ttl. by left.
Qed.

(** The statuses [handleCompletion] writes. *)
Lemma completion_write st pod t st' :
  started st -> time_is_zero t = false -> In st' (completion_statuses st pod t) -> status_write st st'.
Proof.
  intros Hs Ht [<-|[<-|[<-|[<-|[]]]]]; unfold status_write, failed_status, running_status;
    try destruct (determineScanPodStageStatuses pod) as [[? ?] ?]; simpl; auto.
Qed.

Lemma keeps_handleCompletion p pod ps ts :
  p ∈ ps -> started (Pipeline_Status p) -> stale_keeps (handleCompletion p pod) (mkKnown ps ts).
Proof.
  intros Hp Hs. unfold handleCompletion. apply keeps_now. intros t Ht. cbn [bind].
  assert (forall st, In st (completion_statuses (Pipeline_Status p) pod t) ->
    stale_keeps (bind (patchStatus KPipeline p (with_pipeline_status p st))
      (fun r => Ret (emptyResult, err_of r))) (mkKnown ps (t :: ts))) as Hpatch.
  { intros st Hst. apply keeps_status; [done| |done]. by eapply completion_write. }
  destruct (Pod_Phase (Pod_Status pod)); [..|done|done]; apply Hpatch; simpl; tauto.
Qed.

Lemma keeps_reconcile_scan_pod p profile downloader uploaders ps ts :
  p ∈ ps -> stale_keeps (reconcile_scan_pod r p profile downloader uploaders) (mkKnown ps ts).
Proof.
  intros Hp. unfold reconcile_scan_pod.
  apply keeps_create_or_update; [apply populateScanPod_pod|]. intros [[pod res]|e] Hpod; [|done]. cbn [bind].
  assert (forall f : unit -> prog Outcome, stale_keeps (f tt) (mkKnown ps ts) ->
    stale_keeps (bind (if decide (res = OperationResultCreated)
        then op (UpdateMetric pipelinePodsCreated (metricLabelsForPipeline p) (MetricAdd 1))
        else Ret tt) f) (mkKnown ps ts)) as Hmetric.
  { intros f Hf. destruct (decide _); [|exact Hf]. apply keeps_growing; [apply growing_metric|by intros []]. }
  apply Hmetric. clear Hmetric. destruct (negb (ptime_is_zero (PipeSt_StartTime _))) eqn:Es.
  - destruct (negb (ContainsFinalizer _ _)).
    + apply keeps_patch; [apply AddFinalizer_only| |done]. intros q.
      by apply keeps_growing; [apply growing_metric|intros []].
    + apply keeps_handleCompletion; [done|]. by apply negb_true_iff in Es.
  - apply keeps_status; [done| |done]. split; [by right|by left].
Qed.

Lemma keeps_reconcile_unexpired p ps ts : p ∈ ps -> stale_keeps (reconcile_unexpired r p) (mkKnown ps ts).
Proof.
  intros Hp. unfold reconcile_unexpired. destruct (negb _); [by apply keeps_handlePostCompletion|].
  apply keeps_reads; [auto with ocular|]. intros [profile [e|]]; [done|].
  apply keeps_reads; [auto with ocular|]. intros [downloader [e|]]; [done|].
  apply keeps_reads; [auto with ocular|]. intros [uploaders|e]; [|done].
  by apply keeps_reconcile_scan_pod.
Qed.

Lemma keeps_Reconcile : stale_keeps (Reconcile r key) (mkKnown [] []).
Proof.
  unfold Reconcile. apply keeps_get; [|done]. intros p. cbn [bind]. destruct (_ && _).
  - apply keeps_patch; [apply RemoveFinalizer_only| |done]. intros q.
    by apply keeps_growing; [apply growing_metric|intros []].
  - unfold exceeded_lifetime. destruct (PipeS_TTLSecondsMaxLifetime _) as [n|] eqn:En;
      [|apply keeps_reconcile_unexpired; by left].
    apply keeps_now. intros now _. cbn [bind]. destruct (seconds_gt _ _) eqn:Egt;
      [|apply keeps_reconcile_unexpired; by left].
    apply (keeps_delete p now); [by left|by left| |done]. left. eauto.
Qed.

(** ** Executions *)

Definition stale_steps : Execution Op StaleCluster Outcome -> Execution Op StaleCluster Outcome -> Prop :=
  execution_steps stale_serve (@call_error) stale_environment stale_restarted (Reconcile r key).

(** The cluster of a new pipeline, of which nothing was read yet. *)
Definition remembering (w : Cluster) : StaleCluster := mkStale w (option_list (Stored w)) [] [] false.

Lemma initial_stale_ok w p : initial key w p -> deleting p = false -> stale_ok (remembering w).
Proof.
  intros [Hs Hk Hst Hco _ Hpod Hc _] Hd. constructor; simpl; rewrite ?Hs, ?Hpod; simpl; try done.
  - intros q [= <-]. by left.
  - by intros v q ->%list_elem_of_singleton [= <-].
  - intros v ->%list_elem_of_singleton. unfold completed. by rewrite Hco.
  - by intros pod Hin%elem_of_nil.
  - congruence.
Qed.

(** C3: however old what the controller reads is - any earlier version of the
    pipeline or of its pod, in any order, besides failing calls, lost answers,
    restarts and what users do -, a pipeline that has started or completed stays
    so in the store, it completes only after it started, and it is deleted only
    when another client asked for that or a lifetime of one of its versions was
    over at a reading of the clock. *)
Theorem stale_reads_keep_life w p out s :
  initial key w p -> deleting p = false -> stale_steps (mkExecution (remembering w) (Ret out)) s ->
  let now := Exec_State s in
  (forall q, Stored (Current now) = Some q -> q ∈ Versions now) /\
  (forall v, v ∈ Versions now -> completed (Pipeline_Status v) -> started (Pipeline_Status v)) /\
  (forall v q, v ∈ Versions now -> Stored (Current now) = Some q ->
     advances (Pipeline_Status v) (Pipeline_Status q)) /\
  (deletion_of (Stored (Current now)) = true -> deletable now).
Proof.
  intros Hinit Hd Hsteps now. assert (stale_ok now) as [? ? ? ? ? ? ?]; [|done].
  eapply (execution_invariant stale_serve (@call_error) stale_environment stale_restarted (Reconcile r key)
    stale_ok stale_knows (mkKnown [] [])); [..|exact Hsteps].
  - intros v. split; intros ? Hin; by apply elem_of_nil in Hin.
  - apply keeps_Reconcile.
  - intros v v' Henv Hv. by apply stale_environment_ok.
  - intros v [? ? ? ? ? ? ?]. by constructor.
  - by eapply initial_stale_ok.
Qed.
End stale.

(** ** An example, and what does not survive *)

Module Stale_example.
#[local] Existing Instance ScanPod.Example.controller_util.
#[local] Existing Instance ScanPod.Example.range.

Definition key : ObjectKey := System_example.key.
(** A reconciliation that reads the [n]-th last version of the pipeline. *)
Definition reading (n : nat) : Staleness := mkStaleness Life_example.lookup n 0.
Definition stale_rec (n : nat) (w : StaleCluster) : StaleCluster :=
  (exec (stale_serve (reading n)) (Reconcile ScanPod.Example.reconciler key) w).2.

(** Started and counted; its pod fails; completed at 100 seconds; later. *)
Definition started_once : StaleCluster := stale_rec 0 (remembering Life_example.cluster).
Definition running : StaleCluster := stale_rec 0 started_once.
Definition failed_pod (w : Cluster) : Cluster :=
  with_pod w ((fun pod => mkPod (Pod_Meta pod) (Pod_Spec pod) (mkPodStatus PodFailed [] [])) <$> ScanPodStored w).
Definition pod_over : StaleCluster := recorded running (failed_pod (Current running)).
Definition at_time (t : Time) (w : StaleCluster) : StaleCluster := recorded w (with_clock_at (Current w) t).
Definition finished : StaleCluster := stale_rec 0 (at_time (100 * Second) pod_over).
Definition later : StaleCluster := at_time (120 * Second) finished.

Lemma started_once_eq : started_once = stale_rec 0 (remembering Life_example.cluster).
Proof. unfold started_once. reflexivity. Qed.
Lemma running_eq : running = stale_rec 0 started_once.
Proof. unfold running. reflexivity. Qed.
Lemma finished_eq : finished = stale_rec 0 (at_time (100 * Second) pod_over).
Proof. unfold finished. reflexivity. Qed.
Lemma later_eq : later = at_time (120 * Second) finished.
Proof. unfold later. reflexivity. Qed.

Notation steps := (stale_steps ScanPod.Example.reconciler key).

Lemma stale_rec_steps n w w' out :
  w' = stale_rec n w -> exists out', steps (mkExecution w (Ret out)) (mkExecution w' (Ret out')).
Proof. intros ->. eexists. eapply rtc_l; [apply step_begin|]. apply (exec_steps stale_serve _ _ _ _ (reading n)). Qed.

Lemma at_time_steps t w todo : time_is_zero t = false -> steps (mkExecution w todo) (mkExecution (at_time t w) todo).
Proof. intros Ht. apply rtc_once, step_environment, stale_other; [by constructor|done]. Qed.

Lemma pod_over_steps todo : steps (mkExecution running todo) (mkExecution pod_over todo).
Proof.
  apply rtc_once, step_environment, stale_other; [|done]. unfold failed_pod.
  assert ((Pod_Phase ∘ Pod_Status <$> ScanPodStored (Current running)) = Some PodPending) as Hphase
    by (vm_compute; reflexivity).
  destruct (ScanPodStored (Current running)) as [pod|] eqn:Ep; [|discriminate Hphase].
  apply (env_pod_reports _ pod (mkPodStatus PodFailed [] [])); [exact Ep|].
  simpl in Hphase. injection Hphase as Hphase. unfold pod_ended. rewrite Hphase. intuition discriminate.
Qed.

(** The reconciliation of [n]-th last version when all this has happened. *)
Lemma later_steps n : exists out, steps (mkExecution (remembering Life_example.cluster) (Ret (emptyResult, None)))
  (mkExecution (stale_rec n later) (Ret out)).
Proof.
  destruct (stale_rec_steps 0 _ _ (emptyResult, None) started_once_eq) as [o1 H1].
  destruct (stale_rec_steps 0 _ _ o1 running_eq) as [o2 H2].
  pose proof (pod_over_steps (Ret o2)) as H3.
  pose proof (at_time_steps (100 * Second) pod_over (Ret o2) eq_refl) as H4.
  destruct (stale_rec_steps 0 _ _ o2 finished_eq) as [o3 H5].
  pose proof (at_time_steps (120 * Second) finished (Ret o3) eq_refl) as H6.
  destruct (stale_rec_steps n later (stale_rec n later) o3 eq_refl) as [o4 H7]. exists o4.
  unfold stale_steps, execution_steps in *. rewrite <-later_eq in H6.
  exact (transitivity H1 (transitivity H2 (transitivity H3 (transitivity H4 (transitivity H5 (transitivity H6 H7)))))).
Qed.

Definition shown (w : StaleCluster) : option (option Time * option Time * PipelinePhase * nat) :=
  (fun p => let st := Pipeline_Status p in
     (PipeSt_StartTime st, PipeSt_CompletionTime st, PipeSt_Phase st, length (PipeSt_Conditions st)))
  <$> Stored (Current w).

Lemma finished_shown :
  shown later = Some (Some (6 * Second), Some (100 * Second), PipelineFailed, 2%nat).
Proof. vm_compute. reflexivity. Qed.

(** The time to live of the pipeline is over, and it is deleted. *)
Definition expired_cluster : StaleCluster := stale_rec 0 (at_time (300 * Second) (stale_rec 0 later)).

Lemma expired_steps : exists out, steps (mkExecution (remembering Life_example.cluster) (Ret (emptyResult, None)))
  (mkExecution expired_cluster (Ret out)).
Proof.
  destruct (later_steps 0) as [o1 H1].
  pose proof (at_time_steps (300 * Second) (stale_rec 0 later) (Ret o1) eq_refl) as H2.
  destruct (stale_rec_steps 0 (at_time (300 * Second) (stale_rec 0 later)) expired_cluster o1) as [o2 H3];
    [unfold expired_cluster; reflexivity|]. exists o2.
  unfold stale_steps, execution_steps in *. exact (transitivity H1 (transitivity H2 H3)).
Qed.

Lemma stale_reads_keep_life_witness :
  (forall q, Stored (Current (stale_rec 7 later)) = Some q -> completed (Pipeline_Status q)) /\
  Asked expired_cluster = false /\ deletable expired_cluster.
Proof.
  assert (forall w out, steps (mkExecution (remembering Life_example.cluster) (Ret (emptyResult, None)))
      (mkExecution w (Ret out)) ->
    (forall v q, v ∈ Versions w -> Stored (Current w) = Some q ->
       advances (Pipeline_Status v) (Pipeline_Status q)) /\
    (deletion_of (Stored (Current w)) = true -> deletable w)) as Hall.
  { intros w out Hw. refine (proj2 (proj2 (stale_reads_keep_life ScanPod.Example.reconciler key Life_example.cluster
      Life_example.pipeline (emptyResult, None) (mkExecution w (Ret out)) System_example.initial_example eq_refl Hw))). }
  split; [|split; [vm_compute; reflexivity|]].
  - intros q Hq. destruct (later_steps 7) as [out Hsteps].
    assert (existsb (fun v => negb (ptime_is_zero (PipeSt_CompletionTime (Pipeline_Status v))))
      (Versions (stale_rec 7 later)) = true) as Hv by (vm_compute; reflexivity).
    apply existsb_exists in Hv as (v & Hv & Hc%negb_true_iff).
    destruct (proj1 (Hall _ _ Hsteps) v q (proj2 (list_elem_of_In _ _) Hv) Hq) as [_ Hadv]. exact (Hadv Hc).
  - destruct expired_steps as [out Hsteps]. apply (proj2 (Hall _ _ Hsteps)). vm_compute. reflexivity.
Defined.

(** A cache that has not seen the completion yet makes the controller complete
    the pipeline again: the time of its completion moves. *)
Lemma stale_read_moves_completion :
  shown (stale_rec 2 later) = Some (Some (6 * Second), Some (120 * Second), PipelineFailed, 2%nat).
Proof. vm_compute. reflexivity. Qed.

(** One that has not seen the start makes it start again: the pipeline keeps
    its time of completion, but its phase is that of one that downloads and the
    condition that tells how it ended is lost; and so it stays, as a completed
    pipeline is not looked at again. *)
Lemma stale_read_revives :
  shown (stale_rec 7 later) = Some (Some (6 * Second), Some (100 * Second), PipelineDownloading, 1%nat) /\
  shown (stale_rec 0 (stale_rec 0 (stale_rec 7 later))) =
    Some (Some (6 * Second), Some (100 * Second), PipelineDownloading, 1%nat).
Proof. split; vm_compute; reflexivity. Qed.
End Stale_example.
