(* ===== verification/CronSystem.v ===== *)
(** * The cron search controller in its cluster

    Executions of the cron search controller against a model of the API server
    with the searches of a cluster: the concurrency policy that forbids
    concurrent runs keeps at most one search active however calls fail and the
    controller restarts, an activation time starts its search, and what happens
    when the searches of the past are gone. *)

From Stdlib Require Import ZArith Lia String Ascii.
From S2P Require Import Prelude Effects Execution GoStd K8s Api Client ControllerCommon CronSearchController CronSchedule CronSafety.

Local Open Scope string_scope.
Local Open Scope Z_scope.
Local Open Scope list_scope.

(** ** The cluster *)

Record CronCluster := mkCronCluster {
  Cron_Stored : option CronSearch;
  Cron_Searches : list Search;
  Cron_Clock : Time
}.

Definition with_cron (w : CronCluster) (c : option CronSearch) : CronCluster :=
  mkCronCluster c (Cron_Searches w) (Cron_Clock w).
Definition with_searches (w : CronCluster) (ss : list Search) : CronCluster :=
  mkCronCluster (Cron_Stored w) ss (Cron_Clock w).

Definition same_object (s s' : Search) : bool := bool_decide (key_of KSearch s = key_of KSearch s').

(** The searches a list request selects; the only field it can be indexed by is
    that of the owner. *)
Definition selects (opts : ListOptions) (s : Search) : bool :=
  (String.eqb (LO_Namespace opts) "" || String.eqb (LO_Namespace opts) (Namespace (Search_Meta s))) &&
  match LO_FieldSelector opts with
  | Some (field, value) => String.eqb field searchOwnerKey && bool_decide (value ∈ search_owner_index s)
  | None => true
  end &&
  match LO_LabelSelector opts with
  | Some (k, v) => bool_decide (Labels (Search_Meta s) !! k = Some v)
  | None => true
  end.

(** A new object gets its creation time; its status is not taken over. *)
Definition created_search (t : Time) (s : Search) : Search :=
  let m := Search_Meta s in
  mkSearch (mkObjectMeta (Name m) (GenerateName m) (Namespace m) (UID m) (Labels m) (Annotations m)
    t (DeletionTimestamp m) (Finalizers m) (OwnerReferences m)) (Search_Spec s) zero_SearchStatus.

Definition cron_get (k : Kind) (key : ObjectKey) (w : CronCluster) : result GoError (obj k) :=
  match k as k return result GoError (obj k) with
  | KCronSearch => match Cron_Stored w with
                   | Some c => if decide (key_of KCronSearch c = key) then Ok c else Err APINotFound
                   | None => Err APINotFound
                   end
  | _ => Err APINotFound
  end.

Definition cron_list (k : Kind) (opts : ListOptions) (w : CronCluster) : result GoError (list (obj k)) :=
  match k as k return result GoError (list (obj k)) with
  | KSearch => Ok (List.filter (selects opts) (Cron_Searches w))
  | _ => Ok []
  end.

Definition cron_create (k : Kind) : obj k -> CronCluster -> result GoError (obj k) * CronCluster :=
  match k as k return obj k -> CronCluster -> result GoError (obj k) * CronCluster with
  | KSearch => fun s w =>
      if existsb (same_object s) (Cron_Searches w) then (Err APIAlreadyExists, w)
      else let s := created_search (Cron_Clock w) s in
           (Ok s, with_searches w (Cron_Searches w ++ [s]))
  | _ => fun _ w => (Err (APIError "unsupported"), w)
  end.

(** The schema of the resource allows for ten references to active searches. *)
Definition max_active : nat := 10.

Definition cron_status_update (k : Kind) : obj k -> CronCluster -> result GoError (obj k) * CronCluster :=
  match k as k return obj k -> CronCluster -> result GoError (obj k) * CronCluster with
  | KCronSearch => fun c w =>
      match Cron_Stored w with
      | Some c0 =>
          if (length (CronSt_Active (CronSearch_Status c)) <=? max_active)%nat then
            let c := with_cron_status c0 (CronSearch_Status c) in (Ok c, with_cron w (Some c))
          else (Err (APIError "Invalid"), w)
      | None => (Err APINotFound, w)
      end
  | _ => fun _ w => (Err (APIError "unsupported"), w)
  end.

Definition cron_delete (k : Kind) : obj k -> CronCluster -> result GoError unit * CronCluster :=
  match k as k return obj k -> CronCluster -> result GoError unit * CronCluster with
  | KSearch => fun s w =>
      if existsb (same_object s) (Cron_Searches w)
      then (Ok tt, with_searches w (List.filter (fun s' => negb (same_object s s')) (Cron_Searches w)))
      else (Err APINotFound, w)
  | _ => fun _ w => (Err (APIError "unsupported"), w)
  end.

(** The controller makes no other calls ([Reconcile_calls]). *)
Definition cron_serve : handler CronCluster := fun X e w =>
  match e in Op X return X * CronCluster with
  | Get k key => (cron_get k key w, w)
  | ListObjects k opts => (cron_list k opts w, w)
  | Create k o => cron_create k o w
  | CreateOrUpdate k o mutate => (Err (APIError "unsupported"), w)
  | Patch k orig o => (Err (APIError "unsupported"), w)
  | StatusPatch k orig o => (Err (APIError "unsupported"), w)
  | StatusUpdate k o => cron_status_update k o w
  | Delete k o => cron_delete k o w
  | Now => (Cron_Clock w, w)
  | UpdateMetric m labels op => (tt, w)
  end.

(** ** The system *)

Definition is_child (key : ObjectKey) (s : Search) : bool :=
  String.eqb (Key_Namespace key) (Namespace (Search_Meta s)) &&
  bool_decide (Key_Name key ∈ search_owner_index s).

(** The active searches of a cron search. *)
Definition active_children (key : ObjectKey) (w : CronCluster) : list Search :=
  List.filter (fun s => is_child key s && is_active s) (Cron_Searches w).

(** What happens besides: the clock moves, a search makes progress (a finished
    one stays finished), a search goes away, others create searches of their
    own, and the cron search is edited, but for its policy. *)
Inductive cron_environment (key : ObjectKey) (w : CronCluster) : CronCluster -> Prop :=
| cenv_clock t : cron_environment key w (mkCronCluster (Cron_Stored w) (Cron_Searches w) t)
| cenv_progress before s s' after :
    Cron_Searches w = before ++ s :: after -> Search_Meta s' = Search_Meta s ->
    (is_active s' = true -> is_active s = true) ->
    cron_environment key w (with_searches w (before ++ s' :: after))
| cenv_removed before s after :
    Cron_Searches w = before ++ s :: after -> cron_environment key w (with_searches w (before ++ after))
| cenv_created s :
    is_child key s = false -> cron_environment key w (with_searches w (Cron_Searches w ++ [s]))
| cenv_edited c c' :
    Cron_Stored w = Some c ->
    CronS_ConcurrencyPolicy (CronSearch_Spec c') = CronS_ConcurrencyPolicy (CronSearch_Spec c) ->
    key_of KCronSearch c' = key_of KCronSearch c -> cron_environment key w (with_cron w (Some c'))
| cenv_deleted : cron_environment key w (with_cron w None).

(** The server keeps the names of the searches apart. *)
Definition distinct_searches (w : CronCluster) : Prop := NoDup (key_of KSearch <$> Cron_Searches w).

Definition distinct_environment (key : ObjectKey) (w w' : CronCluster) : Prop :=
  cron_environment key w w' /\ distinct_searches w'.

(** ** The cache *)

(** The cluster, the versions of searches the cache may have, the
    specifications the cron search has had, and the readings of the clock. *)
Record CronCached := mkCronCached {
  Cron_Server : CronCluster;
  Search_Versions : list Search;
  Cron_Specs : list CronSearchSpec;
  Clock_Readings : list Time
}.

(** What a cache answers: to a reading of the cron search some version of it, to
    a listing some searches; [None] when it is up to date. *)
Record CronCache := mkCronCache {
  CachedCron : option CronSearch;
  CachedSearches : option (ListOptions -> list Search)
}.

Definition cached_get (cache : CronCache) (k : Kind) (key : ObjectKey) (w : CronCluster) : result GoError (obj k) :=
  match k as k return result GoError (obj k) with
  | KCronSearch => match CachedCron cache with
                   | Some c => if decide (key_of KCronSearch c = key) then Ok c else Err APINotFound
                   | None => cron_get KCronSearch key w
                   end
  | k => cron_get k key w
  end.

Definition cached_list (cache : CronCache) (k : Kind) (opts : ListOptions) (w : CronCluster) :
    result GoError (list (obj k)) :=
  match k as k return result GoError (list (obj k)) with
  | KSearch => match CachedSearches cache with
               | Some ss => Ok (ss opts)
               | None => cron_list KSearch opts w
               end
  | k => cron_list k opts w
  end.

Definition remembered (c : CronCached) (w : CronCluster) (versions : list Search) : CronCached :=
  mkCronCached w (Cron_Searches w ++ versions) (option_list (CronSearch_Spec <$> Cron_Stored w) ++ Cron_Specs c)
    (Clock_Readings c).

(** After a write of the controller, older objects of a name it has created are
    not seen any more; after what others do, everything may be. *)
Definition appears (w w' : CronCluster) (v : Search) : bool :=
  existsb (same_object v) (Cron_Searches w') && negb (existsb (same_object v) (Cron_Searches w)).
Definition cron_written (c : CronCached) (w : CronCluster) : CronCached :=
  remembered c w (List.filter (fun v => negb (appears (Cron_Server c) w v)) (Search_Versions c)).
Definition cron_changed (c : CronCached) (w : CronCluster) : CronCached := remembered c w (Search_Versions c).
Definition clock_read (c : CronCached) : CronCached :=
  mkCronCached (Cron_Server c) (Search_Versions c) (Cron_Specs c) (Cron_Clock (Cron_Server c) :: Clock_Readings c).

(** Writes go to the server.  It would refuse the status of an old version of
    the cron search, which ends the reconciliation; that is not relied on. *)
Definition cached_serve (cache : CronCache) : handler CronCached := fun X e c =>
  match e in Op X return X * CronCached with
  | Get k key => (cached_get cache k key (Cron_Server c), c)
  | ListObjects k opts => (cached_list cache k opts (Cron_Server c), c)
  | Now => (Cron_Clock (Cron_Server c), clock_read c)
  | e => let a := cron_serve _ e (Cron_Server c) in (a.1, cron_written c a.2)
  end.

(** A cache in which the controller reads its own writes.  A listing has every
    search that is stored - only the controller makes children of the cron
    search -, but perhaps in an earlier version, and others that are gone. *)
Record CronView := mkCronView { Seen_Cron : option CronSearch; Seen_Searches : list nat }.

Definition view_list (v : CronView) (c : CronCached) (opts : ListOptions) : list Search :=
  let seen := List.filter (selects opts) (omap (fun i => Search_Versions c !! i) (Seen_Searches v)) in
  seen ++ List.filter (fun s => selects opts s && negb (existsb (same_object s) seen)) (Cron_Searches (Cron_Server c)).

Definition own_writes_serve (v : CronView) : handler CronCached := fun X e c =>
  cached_serve (mkCronCache (Seen_Cron v) (Some (view_list v c))) X e c.

Inductive cached_cron_environment (key : ObjectKey) (c : CronCached) : CronCached -> Prop :=
| cenv_changed w : distinct_environment key (Cron_Server c) w -> cached_cron_environment key c (cron_changed c w).

(** A cache that has the current state. *)
Definition cron_cached (w : CronCluster) : CronCached :=
  mkCronCached w (Cron_Searches w) (option_list (CronSearch_Spec <$> Cron_Stored w)) [].

Section system.
Context `{ControllerUtil} `{CronLibrary} `{RFC3339} `{References} `{SortSlice}.
Variable key : ObjectKey.

(** The executions of the controller of the cron search at [key]. *)
Notation CronSystem := (Execution Op CronCached Outcome).
Definition cron_steps : CronSystem -> CronSystem -> Prop :=
  execution_steps own_writes_serve (@call_error) (cached_cron_environment key) (fun c => c) (Reconcile key).

(** *** The calls of the controller are those the server serves *)

Definition cron_call (v : Event) : Prop :=
  match v with
  | event e _ =>
      match e with
      | Get k _ | StatusUpdate k _ => k = KCronSearch
      | ListObjects k _ | Create k _ | Delete k _ => k = KSearch
      | Now => True
      | _ => False
      end
  end.

Lemma trim_history_calls limit searches : all_events cron_call (trim_history limit searches).
Proof.
  destruct limit as [limit|]; [|constructor]. unfold trim_history.
  generalize 0, (Z.of_nat (length (sort_slice started_before searches))). intros i n.
  revert i. induction (sort_slice started_before searches) as [|s ss IH]; intros i; simpl; [constructor|].
  destruct (_ <=? _); [constructor|]. apply all_events_vis; [done|]. intros _. apply IH.
Qed.

Lemma delete_active_calls searches : all_events cron_call (delete_active searches).
Proof.
  induction searches as [|s ss IH]; simpl; [constructor|]. apply all_events_vis; [done|]. intros res. simpl.
  destruct (ignore_not_found _); [constructor|exact IH].
Qed.

Lemma start_missed_run_calls c active missed result :
  all_events cron_call (start_missed_run c active missed result).
Proof.
  unfold start_missed_run. destruct (_ && _); [constructor|]. apply all_events_bind.
  { destruct (decide _); [apply delete_active_calls|constructor]. }
  intros [e|]; [constructor|]. destruct (constructSearchForCronSearch c missed); [|constructor].
  apply all_events_vis; [done|]. intros [s|e]; constructor.
Qed.

Lemma schedule_next_calls c active : all_events cron_call (schedule_next c active).
Proof.
  unfold schedule_next. apply all_events_vis; [done|]. intros now. simpl.
  destruct (getNextSchedule c now) as [[[missed next]|e]|]; [|constructor..].
  apply all_events_vis; [done|]. intros now2. apply all_events_vis; [done|]. intros now3.
  destruct (time_is_zero missed); [constructor|]. apply all_events_bind.
  - unfold too_late. destruct (CronS_StartingDeadlineSeconds _); [|constructor].
    apply all_events_vis; [done|constructor].
  - intros []; [constructor|apply start_missed_run_calls].
Qed.

Lemma Reconcile_calls req : all_events cron_call (Reconcile req).
Proof.
  unfold Reconcile. apply all_events_vis; [done|]. intros [c0|e]; [|constructor].
  apply all_events_vis; [done|]. intros [children|e]; [|constructor].
  destruct (findExistingSearches children) as [cat last].
  apply all_events_vis; [done|]. intros [c|e]; [|constructor].
  apply all_events_bind; [apply trim_history_calls|intros _].
  apply all_events_bind; [apply trim_history_calls|intros _].
  destruct (default false _); [constructor|apply schedule_next_calls].
Qed.

(** ** No concurrent runs *)

(** What the policy promises of a cluster. *)
Record one_active (w : CronCluster) : Prop := {
  forbids c : Cron_Stored w = Some c -> CronS_ConcurrencyPolicy (CronSearch_Spec c) = ForbidConcurrent;
  at_most_one : (length (active_children key w) <= 1)%nat;
  one_distinct : distinct_searches w
}.

(** What the controller may see of an active child is active. *)
Definition seen_ok (c : CronCached) : Prop := forall v s,
  v ∈ Search_Versions c -> s ∈ Cron_Searches (Cron_Server c) -> same_object s v = true ->
  is_child key s = true -> is_active s = true -> is_active v = true.

Definition forbidding (c : CronCached) : Prop := one_active (Cron_Server c) /\ seen_ok c.

(** What the controller may know: that no child is active. *)
Definition knows_idle (idle : bool) (c : CronCached) : Prop := idle = true -> active_children key (Cron_Server c) = [].

Notation cron_safe := (keeps own_writes_serve (@call_error) forbidding knows_idle).

Lemma same_object_iff s s' : same_object s s' = true <-> key_of KSearch s = key_of KSearch s'.
Proof. apply bool_decide_eq_true. Qed.

Lemma NoDup_fmap_eq {A B} (f : A -> B) l x y : NoDup (f <$> l) -> x ∈ l -> y ∈ l -> f x = f y -> x = y.
Proof.
  intros Hnd Hx Hy E. apply list_elem_of_lookup in Hx as [i Hi], Hy as [j Hj].
  assert (i = j) as ->; [|congruence].
  eapply (NoDup_lookup _ _ _ (f x) Hnd); rewrite list_lookup_fmap; [by rewrite Hi|by rewrite Hj, E].
Qed.

(** Active children go on from active children, or have a name that is seen of
    nothing else. *)
Lemma remembered_seen c w versions :
  distinct_searches w -> versions ⊆ Search_Versions c ->
  (forall s', s' ∈ Cron_Searches w -> is_child key s' = true -> is_active s' = true ->
    (exists s, s ∈ Cron_Searches (Cron_Server c) /\ same_object s s' = true /\ is_child key s = true /\ is_active s = true) \/
    (forall v, v ∈ versions -> same_object s' v = false)) ->
  seen_ok c -> seen_ok (remembered c w versions).
Proof.
  intros Hd Hsub Hgo Hseen v s' Hv Hs' Hk Hchild Hact. simpl in *. apply elem_of_app in Hv as [Hv|Hv].
  - apply same_object_iff in Hk. assert (v = s') as ->; [|done]. by eapply (NoDup_fmap_eq (key_of KSearch)).
  - destruct (Hgo s' Hs' Hchild Hact) as [(s & Hs & Hss & Hc & Ha)|Hfresh]; [|by rewrite Hfresh in Hk].
    apply same_object_iff in Hk, Hss. apply (Hseen v s); [by apply Hsub|done|apply same_object_iff; congruence|done..].
Qed.

(** The policy stays, and no search becomes active. *)
Record calms (w w' : CronCluster) : Prop := {
  calm_policy c' : Cron_Stored w' = Some c' -> exists c, Cron_Stored w = Some c /\
    CronS_ConcurrencyPolicy (CronSearch_Spec c') = CronS_ConcurrencyPolicy (CronSearch_Spec c);
  calm_active : (length (active_children key w') <= length (active_children key w))%nat;
  calm_child s' : s' ∈ Cron_Searches w' -> is_child key s' = true -> is_active s' = true ->
    exists s, s ∈ Cron_Searches w /\ same_object s s' = true /\ is_child key s = true /\ is_active s = true
}.

Lemma same_object_refl s : same_object s s = true.
Proof. by apply same_object_iff. Qed.

Lemma calms_refl w : calms w w.
Proof. constructor; [eauto|done|]. intros s Hs Hc Ha. exists s. by rewrite same_object_refl. Qed.

Lemma calms_forbidding c w versions :
  calms (Cron_Server c) w -> distinct_searches w -> versions ⊆ Search_Versions c ->
  forbidding c -> forbidding (remembered c w versions).
Proof.
  intros [Hp Ha Hchild] Hd Hsub [[Hf Hone _] Hseen]. split.
  - constructor; simpl; [|lia|done]. intros c' Hc'. destruct (Hp c' Hc') as (c0 & Hc & ->). by apply Hf.
  - apply remembered_seen; [done|done| |done]. intros s' Hs' Hc' Ha'. left. by apply Hchild.
Qed.

Lemma calms_idle w w' : calms w w' -> active_children key w = [] -> active_children key w' = [].
Proof. intros [_ Ha _] Hw. rewrite Hw in Ha. apply length_zero_iff_nil. simpl in Ha. lia. Qed.

Lemma filter_length_mono (f g : Search -> bool) l :
  (forall s, g s = true -> f s = true) -> (length (List.filter g l) <= length (List.filter f l))%nat.
Proof.
  intros Hgf. induction l as [|s l IH]; simpl; [lia|]. specialize (Hgf s).
  destruct (g s), (f s); simpl; [lia|discriminate (Hgf eq_refl)|lia..].
Qed.

Lemma filter_filter (f g : Search -> bool) l :
  List.filter f (List.filter g l) = List.filter (fun s => g s && f s) l.
Proof. induction l as [|s l IH]; simpl; [done|]. destruct (g s); simpl; by rewrite ?IH. Qed.

Lemma bool_filter_sublist {A} (f : A -> bool) l : List.filter f l `sublist_of` l.
Proof. induction l as [|x l IH]; simpl; [done|]. destruct (f x); by constructor. Qed.

Lemma distinct_sublist w ss : ss `sublist_of` Cron_Searches w -> distinct_searches w -> distinct_searches (with_searches w ss).
Proof. intros Hsub Hd. eapply sublist_NoDup; [exact Hd|]. by apply fmap_sublist. Qed.

Lemma calm_delete w (s : Search) :
  calms w (with_searches w (List.filter (fun s' => negb (same_object s s')) (Cron_Searches w))).
Proof.
  constructor; [eauto| |].
  - unfold active_children. simpl. rewrite filter_filter. apply filter_length_mono.
    by intros s' [_ Hs]%andb_true_iff.
  - intros s' [Hs' _]%filter_elem Hc Ha. exists s'. by rewrite same_object_refl.
Qed.

(** Everything but a creation is calm. *)
Lemma calm_serve X (e : Op X) w :
  (forall x, create_of KSearch (event e x) = None) ->
  calms w (cron_serve X e w).2 /\ (distinct_searches w -> distinct_searches (cron_serve X e w).2).
Proof.
  intros He. destruct e; simpl; try (by split; [apply calms_refl|]).
  - destruct k; simpl; try (by split; [apply calms_refl|]). by discriminate (He (Err APINotFound)).
  - destruct k; simpl; try (by split; [apply calms_refl|]). destruct (Cron_Stored w) as [c|] eqn:Ec; simpl;
      [|by split; [apply calms_refl|]]. destruct (_ <=? _)%nat; simpl; [|by split; [apply calms_refl|]].
    split; [|done]. constructor; [|done|apply (calm_child w w (calms_refl w))]. intros c' [= <-]. by exists c.
  - destruct k; simpl; try (by split; [apply calms_refl|]). destruct (existsb _ _); simpl;
      [|by split; [apply calms_refl|]]. split; [apply calm_delete|apply distinct_sublist, bool_filter_sublist].
Qed.

Lemma calms_keeps c w versions :
  calms (Cron_Server c) w -> distinct_searches w -> versions ⊆ Search_Versions c -> forbidding c ->
  forbidding (remembered c w versions) /\
  forall idle, knows_idle idle c -> knows_idle idle (remembered c w versions).
Proof.
  intros Hcalm Hd Hsub Hc. split; [by apply calms_forbidding|]. intros idle Hidle Hi.
  eapply calms_idle; [exact Hcalm|by apply Hidle].
Qed.

Lemma calm_own v X (e : Op X) c :
  (forall x, create_of KSearch (event e x) = None) -> forbidding c ->
  forbidding (own_writes_serve v X e c).2 /\
  forall idle, knows_idle idle c -> knows_idle idle (own_writes_serve v X e c).2.
Proof.
  intros He Hc.
  assert (forbidding (cron_written c (cron_serve X e (Cron_Server c)).2) /\
    forall idle, knows_idle idle c -> knows_idle idle (cron_written c (cron_serve X e (Cron_Server c)).2)) as Hw.
  { destruct (calm_serve X e (Cron_Server c) He) as [Hcalm Hd]. apply calms_keeps; [done| | |done].
    - apply Hd, Hc.
    - intros s [Hs _]%filter_elem. exact Hs. }
  destruct e; try exact Hw; by split.
Qed.

Lemma calm_op X (e : Op X) :
  (forall x, create_of KSearch (event e x) = None) -> calm own_writes_serve (@call_error) forbidding knows_idle e.
Proof.
  intros He c x c' Hans Hc. destruct Hans; [by apply calm_own|by split|by apply calm_own].
Qed.

Lemma calm_environment w w' : cron_environment key w w' -> calms w w'.
Proof.
  destruct 1 as [t|before s s' after Hw Hm Ha|before s after Hw|s Hc|c c' Hc Hp _|].
  - constructor; [eauto|done|]. apply (calm_child w w (calms_refl w)).
  - assert (is_child key s' = is_child key s) as Es by (unfold is_child, search_owner_index; by rewrite Hm).
    constructor; [eauto| |].
    + unfold active_children. simpl. rewrite Hw, !List.filter_app, !length_app. simpl. rewrite Es.
      destruct (is_child key s); simpl; [|done].
      destruct (is_active s') eqn:E; [rewrite (Ha eq_refl); done|]. destruct (is_active s); simpl; lia.
    + simpl. rewrite Hw. intros x [Hx|[->|Hx]%elem_of_cons]%elem_of_app Hcx Hax.
      * exists x. rewrite same_object_refl. set_solver.
      * exists s. split; [set_solver|]. rewrite <-Es. split; [|auto]. apply same_object_iff.
        unfold key_of. simpl. by rewrite Hm.
      * exists x. rewrite same_object_refl. set_solver.
  - constructor; [eauto| |].
    + unfold active_children. simpl. rewrite Hw, !List.filter_app, !length_app. simpl. destruct (_ && _); simpl; lia.
    + simpl. intros x Hx Hcx Hax. exists x. rewrite Hw, same_object_refl. set_solver.
  - constructor; [eauto| |].
    + unfold active_children. simpl. rewrite List.filter_app. simpl. rewrite Hc. simpl. by rewrite app_nil_r.
    + simpl. intros x [Hx| ->%list_elem_of_singleton]%elem_of_app Hcx Hax; [|congruence].
      exists x. by rewrite same_object_refl.
  - constructor; [|done|apply (calm_child w w (calms_refl w))]. intros c'' [= <-]. by exists c.
  - constructor; [done|done|apply (calm_child w w (calms_refl w))].
Qed.

Lemma safe_calm {A X} (e : Op X) (k : X -> prog A) idle :
  (forall x, create_of KSearch (event e x) = None) -> (forall x, cron_safe (k x) idle) ->
  cron_safe (Vis e k) idle.
Proof. intros He. by apply keeps_calm, calm_op. Qed.

Lemma safe_bind {A B} (p : prog A) (f : A -> prog B) idle :
  all_events (fun v => match v with event e _ => forall x, create_of KSearch (event e x) = None end) p ->
  (forall a, cron_safe (f a) idle) -> cron_safe (bind p f) idle.
Proof.
  intros Hp Hf. apply (keeps_bind _ _ _ _ p f); [|exact Hf].
  eapply all_events_impl; [exact Hp|]. intros [X e x]. apply calm_op.
Qed.

Lemma creations_all_events {A} (p : prog A) :
  always p (fun tr _ => creations tr = []) ->
  all_events (fun v => match v with event e _ => forall x, create_of KSearch (event e x) = None end) p.
Proof.
  intros Hp. eapply always_impl; [exact Hp|]. intros tr a Htr. cbv beta in Htr. clear a.
  induction tr as [|v tr IH]; [constructor|]. unfold creations in Htr. simpl in Htr.
  destruct (create_of KSearch v) eqn:E; [done|]. constructor; [|by apply IH].
  destruct v as [X e x]. intros y. by destruct e.
Qed.

(** The reading of the children, the write of the status and the creation. *)
Lemma view_list_active v c opts s :
  seen_ok c -> s ∈ Cron_Searches (Cron_Server c) -> selects opts s = true -> is_child key s = true ->
  is_active s = true -> exists s', s' ∈ view_list v c opts /\ is_active s' = true.
Proof.
  intros Hseen Hs Hsel Hc Ha. unfold view_list.
  destruct (existsb (same_object s) (List.filter (selects opts) (omap (fun i => Search_Versions c !! i) (Seen_Searches v)))) eqn:E.
  - apply existsb_exists in E as (s' & Hin%list_elem_of_In & Hsame). exists s'. split; [by apply elem_of_app; left|].
    apply filter_elem in Hin as [(i & _ & Hi)%list_elem_of_omap _].
    apply (Hseen s' s); [by eapply list_elem_of_lookup_2|done..].
  - exists s. split; [|done]. apply elem_of_app. right. apply filter_elem. by rewrite Hsel, E.
Qed.

Lemma safe_list {A} (k : result GoError (list Search) -> prog A) :
  (forall children, cron_safe (k (Ok children)) (negb (nonempty (List.filter is_active children)))) ->
  (forall e, cron_safe (k (Err e)) false) ->
  cron_safe (Vis (ListObjects KSearch
    (mkListOptions (Key_Namespace key) None (Some (searchOwnerKey, Key_Name key)))) k) false.
Proof.
  intros Hok Herr w x w' Hw _ Hans.
  destruct Hans as [v|x [e ->]|v x [e ->]]; simpl; (split; [done|]).
  2,3: by exists false.
  eexists. split; [|apply Hok]. intros Hidle. unfold nonempty in Hidle.
  destruct (List.filter is_active _) as [|s ss] eqn:E; [|done]. clear Hidle.
  destruct (active_children key (Cron_Server w)) as [|s ss] eqn:Ea; [done|].
  assert (s ∈ active_children key (Cron_Server w)) as Hs by (rewrite Ea; apply list_elem_of_here).
  apply filter_elem in Hs as [Hs [Hc Ha]%andb_true_iff].
  destruct (view_list_active v w (mkListOptions (Key_Namespace key) None (Some (searchOwnerKey, Key_Name key))) s)
    as (s' & Hs' & Ha'); [apply Hw|done| |done|done|].
  - unfold is_child in Hc. apply andb_true_iff in Hc as [Hns Hidx].
    unfold selects. simpl. by rewrite Hns, Hidx, orb_true_r.
  - assert (s' ∈ @nil Search) as Hn; [|by apply elem_of_nil in Hn]. rewrite <-E. by apply filter_elem.
Qed.

Lemma safe_status_update {A} c (k : result GoError CronSearch -> prog A) idle :
  (forall c', CronS_ConcurrencyPolicy (CronSearch_Spec c') = ForbidConcurrent ->
    cron_safe (k (Ok c')) idle) ->
  (forall e, cron_safe (k (Err e)) idle) -> cron_safe (Vis (StatusUpdate KCronSearch c) k) idle.
Proof.
  intros Hok Herr w x w' Hw Hidle Hans.
  assert (forall y, create_of KSearch (event (StatusUpdate KCronSearch c) y) = None) as Hno by done.
  destruct (calm_op _ _ Hno _ _ _ Hans Hw) as [Hw' Hknows].
  split; [done|]. exists idle. split; [by apply Hknows|].
  destruct Hans as [l|x [e ->]|l x [e ->]]; [|apply Herr..]. simpl.
  destruct (Cron_Stored (Cron_Server w)) as [c0|] eqn:Ec; [|apply Herr].
  destruct (_ <=? _)%nat; [|apply Herr]. apply Hok. simpl.
  by apply (forbids _ (proj1 Hw)).
Qed.

(** A new search has no older versions. *)
Lemma created_forbidding v c s :
  forbidding c -> active_children key (Cron_Server c) = [] -> forbidding (own_writes_serve v _ (Create KSearch s) c).2.
Proof.
  intros [[Hf Hone Hd] Hseen] Hidle. simpl. destruct (existsb _ _) eqn:E; simpl.
  { apply calms_forbidding; [apply calms_refl|done| |done]. intros x [Hx _]%filter_elem. exact Hx. }
  assert (forall s', s' ∈ Cron_Searches (Cron_Server c) -> same_object s s' = false) as Hnew.
  { intros s' Hs'. apply not_true_iff_false. intros Hsame. apply not_true_iff_false in E. apply E.
    apply existsb_exists. exists s'. by rewrite <-list_elem_of_In. }
  assert (distinct_searches (with_searches (Cron_Server c) (Cron_Searches (Cron_Server c) ++ [created_search (Cron_Clock (Cron_Server c)) s])))
    as Hd'.
  { unfold distinct_searches. simpl. rewrite fmap_app. apply NoDup_app. split; [done|].
    split; [|apply NoDup_singleton]. intros k (s' & -> & Hs')%list_elem_of_fmap Hk.
    apply list_elem_of_singleton in Hk. pose proof (Hnew s' Hs') as Hno. apply not_true_iff_false in Hno.
    by apply Hno, same_object_iff. }
  split.
  - constructor; [exact Hf| |exact Hd']. unfold active_children in *. simpl. rewrite List.filter_app, Hidle. simpl.
    destruct (_ && _); simpl; lia.
  - apply remembered_seen; [exact Hd'| | |done].
    { intros x [Hx _]%filter_elem. exact Hx. }
    intros s' [Hs'| ->%list_elem_of_singleton]%elem_of_app Hc Ha.
    + left. exists s'. by rewrite same_object_refl.
    + right. intros x [_ Hx]%filter_elem. apply not_true_iff_false. intros Hsame. apply negb_true_iff in Hx.
      apply not_true_iff_false in Hx. apply Hx. unfold appears. apply andb_true_iff. split.
      * apply existsb_exists. eexists. split; [apply list_elem_of_In; apply elem_of_app; right; by apply list_elem_of_singleton|].
        apply same_object_iff. apply same_object_iff in Hsame. by symmetry.
      * apply negb_true_iff, not_true_iff_false. intros (s' & Hs'%list_elem_of_In & Hxs)%existsb_exists.
        pose proof (Hnew s' Hs') as Hno. apply not_true_iff_false in Hno. apply Hno.
        apply same_object_iff in Hsame, Hxs. apply same_object_iff. by rewrite <-Hxs, <-Hsame.
Qed.

Lemma safe_create {A} s (k : result GoError Search -> prog A) :
  (forall x, cron_safe (k x) false) -> cron_safe (Vis (Create KSearch s) k) true.
Proof.
  intros Hk w x w' Hw Hidle Hans. specialize (Hidle eq_refl). split; [|by exists false].
  destruct Hans; [by apply created_forbidding|done|by apply created_forbidding].
Qed.

(** ** A reconciliation keeps it *)

Lemma safe_start_missed_run c active missed result :
  CronS_ConcurrencyPolicy (CronSearch_Spec c) = ForbidConcurrent ->
  cron_safe (start_missed_run c active missed result) (negb (nonempty active)).
Proof.
  intros Hp. unfold start_missed_run. rewrite Hp. simpl.
  destruct active as [|s active]; simpl; [|done].
  destruct (constructSearchForCronSearch c missed) as [s|e]; [|done].
  apply safe_create. by intros [s'|e].
Qed.

Lemma safe_schedule_next c active :
  CronS_ConcurrencyPolicy (CronSearch_Spec c) = ForbidConcurrent ->
  cron_safe (schedule_next c active) (negb (nonempty active)).
Proof.
  intros Hp. unfold schedule_next. apply safe_calm; [done|]. intros now. simpl.
  destruct (getNextSchedule c now) as [[[missed next]|e]|]; [|done..].
  apply safe_calm; [done|]. intros now2. apply safe_calm; [done|]. intros now3.
  destruct (time_is_zero missed); [done|]. apply safe_bind.
  - apply creations_all_events. eapply always_impl; [apply too_late_events|]. by intros tr a [Htr _].
  - intros []; [done|]. by apply safe_start_missed_run.
Qed.

Lemma safe_trim {B} limit searches (f : unit -> prog B) idle :
  (forall a, cron_safe (f a) idle) -> cron_safe (bind (trim_history limit searches) f) idle.
Proof.
  intros Hf. apply safe_bind; [|exact Hf]. apply creations_all_events.
  eapply always_impl; [apply trim_history_events|]. by intros tr a [Htr _].
Qed.

Lemma safe_cron_reconcile : cron_safe (Reconcile key) false.
Proof.
  unfold Reconcile. apply safe_calm; [done|]. intros [c0|e]; [|done]. apply safe_list; [|done].
  intros children. pose proof (findExistingSearches_eq children) as E. rewrite categorize_all in E.
  simpl in E. rewrite E. apply safe_status_update; [|done]. intros c Hc.
  apply safe_trim. intros _. apply safe_trim. intros _.
  destruct (default false _); [done|]. by apply safe_schedule_next.
Qed.

(** C8: under the policy that forbids concurrent runs at most one search of a
    cron search is ever active, as long as the listings of the controller show
    the searches it has created - perhaps as they were before, and with others
    that are gone - and the policy is not edited: whatever else happens in the
    cluster between any two operations, failing calls, lost answers, restarts,
    the progress and the deletion of searches, other edits of the cron search.
    A listing that misses a search of the controller's own breaks it
    ([stale_listing_runs_two]). *)
Theorem forbid_one_active w out s :
  one_active w -> cron_steps (mkExecution (cron_cached w) (Ret out)) s ->
  (length (active_children key (Cron_Server (Exec_State s))) <= 1)%nat.
Proof.
  intros Hw Hsteps.
  destruct (execution_invariant own_writes_serve (@call_error) (cached_cron_environment key) (fun c => c) (Reconcile key)
    forbidding knows_idle false (cron_cached w) out s) as [[_ Hone _] _];
    [done|apply safe_cron_reconcile| |done| |done|exact Hone].
  - intros c c' [v [Henv Hd]] Hc. apply calms_keeps; [by apply calm_environment|done|done|done].
  - split; [done|]. intros v s' Hv Hs' Hsame Hc Ha. simpl in *. apply same_object_iff in Hsame.
    assert (v = s') as ->; [|done]. eapply (NoDup_fmap_eq (key_of KSearch)); [apply Hw|done..].
Qed.

(** ** An activation time starts its search, once *)

Lemma created_same t s : key_of KSearch (created_search t s) = key_of KSearch s.
Proof. done. Qed.

(** The loops of deletions, run against the server: searches are removed, and
    nothing fails. *)
Definition removes (w w' : CronCluster) : Prop :=
  Cron_Stored w' = Cron_Stored w /\ Cron_Clock w' = Cron_Clock w /\ Cron_Searches w' ⊆ Cron_Searches w.

Lemma removes_refl w : removes w w.
Proof. done. Qed.
Lemma removes_trans w1 w2 w3 : removes w1 w2 -> removes w2 w3 -> removes w1 w3.
Proof. intros (A1 & A2 & A3) (B1 & B2 & B3). split; [congruence|]. split; [congruence|]. set_solver. Qed.

Lemma serve_delete_removes s w :
  removes w (cron_serve _ (Delete KSearch s) w).2 /\
  ignore_not_found (err_of (cron_serve _ (Delete KSearch s) w).1) = None.
Proof.
  simpl. destruct (existsb _ _); simpl; [|done]. split; [|done]. split; [done|]. split; [done|].
  intros s' Hs'. simpl in Hs'. rewrite list_elem_of_In, filter_In in Hs'. rewrite list_elem_of_In. tauto.
Qed.

Lemma exec_delete_oldest i n limit ss w :
  exists w', exec cron_serve (delete_oldest i n limit ss) w = (tt, w') /\ removes w w'.
Proof.
  revert i w; induction ss as [|s ss IH]; intros i w; cbn [delete_oldest exec]; [by exists w|].
  destruct (_ <=? _); cbn [exec]; [by exists w|]. rewrite exec_bind. cbn [exec op].
  destruct (serve_delete_removes s w) as [Hr _].
  destruct (cron_serve _ (Delete KSearch s) w) as [a w1]. destruct (IH (i + 1) w1) as (w' & E & Hr').
  exists w'. split; [exact E|]. by eapply removes_trans.
Qed.

Lemma exec_trim limit ss w :
  exists w', exec cron_serve (trim_history limit ss) w = (tt, w') /\ removes w w'.
Proof. destruct limit as [limit|]; [apply exec_delete_oldest|by exists w]. Qed.

Lemma exec_delete_active ss w :
  exists w', exec cron_serve (delete_active ss) w = (None, w') /\ removes w w'.
Proof.
  revert w; induction ss as [|s ss IH]; intros w; cbn [delete_active exec]; [by exists w|].
  rewrite exec_bind. cbn [exec op]. destruct (serve_delete_removes s w) as [Hr Hok].
  destruct (cron_serve _ (Delete KSearch s) w) as [a w1]. simpl in Hok. rewrite Hok.
  destruct (IH w1) as (w' & E & Hr'). exists w'. split; [exact E|]. by eapply removes_trans.
Qed.

(** What a reconciliation lists. *)
Definition listed (w : CronCluster) : list Search :=
  List.filter (selects (mkListOptions (Key_Namespace key) None (Some (searchOwnerKey, Key_Name key))))
    (Cron_Searches w).

Definition last_scheduled (w : CronCluster) : option Time := fold_left more_recent (listed w) None.

(** The cron search with the status a reconciliation writes. *)
Definition observed (w : CronCluster) (c : CronSearch) : CronSearch :=
  with_cron_status c (mkCronSearchStatus (active_references (List.filter is_active (listed w)))
    (last_scheduled w) (CronSt_Conditions (CronSearch_Status c))).

(** A reconciliation up to the write of the status. *)
Lemma exec_reconcile_status w c :
  Cron_Stored w = Some c -> key_of KCronSearch c = key ->
  exec cron_serve (Reconcile key) w =
    if (length (active_references (List.filter is_active (listed w))) <=? max_active)%nat
    then
      let w1 := with_cron w (Some (observed w c)) in
      let spec := CronSearch_Spec c in
      let w2 := (exec cron_serve (trim_history (CronS_FailedJobsHistoryLimit spec)
        (List.filter (ended_with ConditionFalse) (listed w))) w1).2 in
      let w3 := (exec cron_serve (trim_history (CronS_SuccessfulJobsHistoryLimit spec)
        (List.filter (ended_with ConditionTrue) (listed w))) w2).2 in
      if default false (CronS_Suspend spec) then ((emptyResult, None), w3)
      else exec cron_serve (schedule_next (observed w c) (List.filter is_active (listed w))) w3
    else ((emptyResult, Some (APIError "Invalid")), w).
Proof.
  intros Hc Hkey. unfold Reconcile. rewrite exec_bind. cbn [exec op]. simpl cron_serve.
  cbv beta iota zeta. rewrite Hc, decide_True by done. rewrite exec_bind. cbn [exec op].
  simpl cron_serve. cbv beta iota zeta.
  fold (listed w). pose proof (findExistingSearches_eq (listed w)) as E. rewrite categorize_all in E.
  simpl in E. rewrite E. rewrite exec_bind. cbn [exec op]. unfold cron_serve at 1, cron_status_update.
  rewrite Hc. cbn [CronSearch_Status with_cron_status CronSt_Active cat_active].
  destruct (_ <=? _)%nat; [|done]. cbv beta iota zeta.
  change (with_cron_status c (mkCronSearchStatus (active_references (List.filter is_active (listed w)))
    (fold_left more_recent (listed w) None) (CronSt_Conditions (CronSearch_Status c)))) with (observed w c).
  rewrite exec_bind. destruct (exec cron_serve (trim_history _ _) _) as [[] w2]. cbv beta iota zeta.
  rewrite exec_bind. simpl cat_successful. simpl CronSearch_Spec. simpl snd.
  destruct (exec cron_serve (trim_history (CronS_SuccessfulJobsHistoryLimit _) _) _) as [[] w3].
  by destruct (default false _).
Qed.

(** The schema allows for the status of ten active searches: a reconciliation
    that lists more of them does nothing - neither is the history trimmed, nor
    anything scheduled, nor an active search replaced. *)
Theorem many_active_stop w c :
  Cron_Stored w = Some c -> key_of KCronSearch c = key ->
  (max_active < length (active_references (List.filter is_active (listed w))))%nat ->
  exists e, exec cron_serve (Reconcile key) w = ((emptyResult, Some e), w).
Proof.
  intros Hc Hkey Hmany. rewrite (exec_reconcile_status w c Hc Hkey).
  destruct (Nat.leb_spec (length (active_references (List.filter is_active (listed w)))) max_active); [lia|].
  by eexists.
Qed.

(** A reconciliation of a cron search that is not suspended, up to the
    computation of its schedule. *)
Lemma reconcile_schedules w c :
  Cron_Stored w = Some c -> key_of KCronSearch c = key ->
  CronS_Suspend (CronSearch_Spec c) <> Some true ->
  (length (active_references (List.filter is_active (listed w))) <= max_active)%nat ->
  exists w1, removes (with_cron w (Some (observed w c))) w1 /\
    exec cron_serve (Reconcile key) w =
      exec cron_serve (schedule_next (observed w c) (List.filter is_active (listed w))) w1.
Proof.
  intros Hc Hkey Hsus Hfew. rewrite (exec_reconcile_status w c Hc Hkey).
  destruct (Nat.leb_spec (length (active_references (List.filter is_active (listed w)))) max_active); [|lia].
  cbv zeta.
  destruct (exec_trim (CronS_FailedJobsHistoryLimit (CronSearch_Spec c))
    (List.filter (ended_with ConditionFalse) (listed w)) (with_cron w (Some (observed w c)))) as (w1 & -> & R1).
  destruct (exec_trim (CronS_SuccessfulJobsHistoryLimit (CronSearch_Spec c))
    (List.filter (ended_with ConditionTrue) (listed w)) w1) as (w2 & E2 & R2).
  cbn [snd]. rewrite E2. cbn [snd]. exists w2. split; [by eapply removes_trans|].
  destruct (CronS_Suspend (CronSearch_Spec c)) as [[]|]; done.
Qed.

(** The start at [t] may happen at [now]: it is not too late, and the policy
    does not forbid it. *)
Definition may_start (c : CronSearch) (active : list Search) (t now : Time) : Prop :=
  (forall seconds, CronS_StartingDeadlineSeconds (CronSearch_Spec c) = Some seconds ->
    time_before (time_add t (duration_mul seconds Second)) now = false) /\
  (CronS_ConcurrencyPolicy (CronSearch_Spec c) = ForbidConcurrent -> active = []).

Definition name_free (s : Search) (w : CronCluster) : Prop :=
  forall s', s' ∈ Cron_Searches w -> key_of KSearch s' <> key_of KSearch s.

Lemma exec_create s w :
  name_free s w ->
  cron_serve _ (Create KSearch s) w = (Ok (created_search (Cron_Clock w) s),
    with_searches w (Cron_Searches w ++ [created_search (Cron_Clock w) s])).
Proof.
  intros Hfree. simpl. destruct (existsb _ _) eqn:E; [|done].
  apply existsb_exists in E as (s' & Hin & Hsame). apply bool_decide_eq_true in Hsame.
  apply list_elem_of_In in Hin. by destruct (Hfree s' Hin).
Qed.

Lemma exec_schedule_starts c active w t next s :
  getNextSchedule c (Cron_Clock w) = Some (Ok (t, next)) -> time_is_zero t = false ->
  may_start c active t (Cron_Clock w) -> constructSearchForCronSearch c t = Ok s -> name_free s w ->
  exists w', removes w w' /\ exec cron_serve (schedule_next c active) w =
    ((requeue_after (time_sub next (Cron_Clock w)), None),
      with_searches w' (Cron_Searches w' ++ [created_search (Cron_Clock w) s])).
Proof.
  intros Hn Hz [Hlate Hforbid] Hs Hfree. unfold schedule_next. rewrite exec_bind. cbn [exec op].
  simpl cron_serve. cbv beta iota zeta. rewrite Hn. do 2 (rewrite exec_bind; cbn [exec op]; simpl cron_serve; cbv beta iota zeta).
  rewrite Hz, exec_bind.
  assert (exec cron_serve (too_late c t) w = (false, w)) as ->.
  { unfold too_late. destruct (CronS_StartingDeadlineSeconds _) as [n|] eqn:En; [|done].
    simpl. by rewrite (Hlate n eq_refl). }
  unfold start_missed_run. set (policy := CronS_ConcurrencyPolicy _) in *.
  assert (bool_decide (policy = ForbidConcurrent) && nonempty active = false) as ->.
  { case_bool_decide as Hp; [by rewrite Hforbid|done]. }
  rewrite exec_bind.
  assert (exists w', exec cron_serve (if decide (policy = ReplaceConcurrent) then delete_active active else Ret None) w
    = (None, w') /\ removes w w') as (w' & -> & Hr).
  { destruct (decide _); [apply exec_delete_active|by exists w]. }
  exists w'. split; [done|]. rewrite Hs, exec_bind. cbn [exec op].
  destruct Hr as (_ & Hclock & Hsub).
  rewrite exec_create; [by rewrite Hclock|]. intros s' Hs'. apply Hfree. by apply Hsub.
Qed.

(** Without a missed start nothing is created. *)
Lemma exec_schedule_idle c active w :
  match getNextSchedule c (Cron_Clock w) with
  | Some (Ok (missed, _)) => time_is_zero missed = true
  | _ => True
  end -> (exec cron_serve (schedule_next c active) w).2 = w.
Proof.
  intros Hn. unfold schedule_next. rewrite exec_bind. cbn [exec op]. simpl cron_serve. cbv beta iota zeta.
  destruct (getNextSchedule _ _) as [[[missed next]|e]|]; [|done..].
  do 2 (rewrite exec_bind; cbn [exec op]; simpl cron_serve; cbv beta iota zeta). by rewrite Hn.
Qed.

Lemma child_listed w s : s ∈ Cron_Searches w -> is_child key s = true -> s ∈ listed w.
Proof.
  unfold listed. rewrite !list_elem_of_In, filter_In. unfold selects, is_child. simpl.
  rewrite !andb_true_iff. intros Hin [Hns Hidx]. rewrite Hns, Hidx, orb_true_r. by repeat split.
Qed.

Lemma constructed_child c t s :
  zero_time <= t < year_10000 -> key_of KCronSearch c = key -> constructSearchForCronSearch c t = Ok s ->
  is_child key s = true.
Proof.
  intros Ht Hkey Hs. destruct (constructSearch_roundtrip c t Ht) as (s' & Hs' & Hidx & _).
  rewrite Hs in Hs'. injection Hs' as <-. apply constructSearch_shape in Hs as (_ & Hns & _).
  unfold is_child. rewrite Hidx, Hns, <-Hkey. simpl. rewrite String.eqb_refl. simpl.
  apply bool_decide_eq_true, list_elem_of_singleton. reflexivity.
Qed.

(** What a reconciliation sees while the search of metadata [meta] is there and
    the activation at [next] has not come: each listing shows the search, the
    stored cron search has the specification, and the status that was written. *)
Record seen_before (next : Time) (spec : CronSearchSpec) (meta : ObjectMeta) (tr : list Event) : Prop := {
  seen_listed v ss : v ∈ tr -> list_of KSearch v = Some (Ok ss) -> exists s, s ∈ ss /\ Search_Meta s = meta;
  seen_stored v c c' : v ∈ tr -> status_update_of KCronSearch v = Some (c, Ok c') ->
    CronSearch_Spec c' = spec /\
    CronSt_LastScheduleTime (CronSearch_Status c') = CronSt_LastScheduleTime (CronSearch_Status c);
  seen_clock v now : v ∈ tr -> clock_of v = Some now -> now < next
}.

Lemma last_schedule_earliest c now m t :
  CronSt_LastScheduleTime (CronSearch_Status c) = Some m -> t <= m -> t <= earliest_time c now.
Proof.
  intros Hm Hle. unfold earliest_time. rewrite Hm.
  destruct (CronS_StartingDeadlineSeconds _); [|lia]. unfold time_after.
  destruct (Z.ltb_spec m (time_add now (duration_mul (- Second) z))); lia.
Qed.

Lemma quiet_schedule c active next :
  (forall now, now < next -> exists n, getNextSchedule c now = Some (Ok (zero_time, n))) ->
  always (schedule_next c active) (fun tr _ =>
    (forall v now, v ∈ tr -> clock_of v = Some now -> now < next) -> creations tr = []).
Proof.
  intros Hquiet. unfold schedule_next. intros now. simpl. destruct (Z.lt_ge_cases now next) as [Hlt|Hge].
  - destruct (Hquiet now Hlt) as [n ->]. by intros now2 now3.
  - eapply always_impl; [apply always_trivial|]. intros tr a _ Hclock.
    specialize (Hclock (event Now now) now (list_elem_of_here _ _) eq_refl). lia.
Qed.

Lemma quiet_trim {B} limit searches (f : unit -> prog B) (Q : list Event -> Prop) :
  (forall tr tr', Q (tr ++ tr') -> Q tr') ->
  (forall a, always (f a) (fun tr _ => Q tr -> creations tr = [])) ->
  always (bind (trim_history limit searches) f) (fun tr _ => Q tr -> creations tr = []).
Proof.
  intros HQ Hf. apply always_bind. eapply always_impl; [apply trim_history_events|]. intros tr a [Hc _].
  eapply always_impl; [apply Hf|]. intros tr' b Hf' Hseen. rewrite creations_app, Hc. by apply Hf', (HQ tr).
Qed.

Lemma quiet_rest c children next :
  (forall now, now < next -> exists n, getNextSchedule c now = Some (Ok (zero_time, n))) ->
  let spec := CronSearch_Spec c in
  always (bind (trim_history (CronS_FailedJobsHistoryLimit spec) (List.filter (ended_with ConditionFalse) children)) (fun _ =>
    bind (trim_history (CronS_SuccessfulJobsHistoryLimit spec) (List.filter (ended_with ConditionTrue) children)) (fun _ =>
    if default false (CronS_Suspend spec) then Ret (emptyResult, None)
    else schedule_next c (List.filter is_active children))))
  (fun tr _ => (forall v now, v ∈ tr -> clock_of v = Some now -> now < next) -> creations tr = []).
Proof.
  intros Hquiet spec.
  apply (quiet_trim _ _ _ (fun tr => forall v now, v ∈ tr -> clock_of v = Some now -> now < next)); [set_solver|].
  intros _. apply (quiet_trim _ _ _ (fun tr => forall v now, v ∈ tr -> clock_of v = Some now -> now < next)); [set_solver|].
  intros _. destruct (default false _); [done|]. by apply quiet_schedule.
Qed.

Lemma quiet_reconcile sched t next spec meta :
  parse_standard (CronS_Schedule spec) = Ok sched ->
  (forall s, Search_Meta s = meta -> scheduled_at s = Some t) ->
  (forall now u, t <= u <= now -> now < next -> now < sched_next sched u) ->
  always (Reconcile key) (fun tr _ => seen_before next spec meta tr -> creations tr = []).
Proof.
  intros Hsched Hat Hnone. unfold Reconcile. intros [c0|e]; simpl; [|done]. intros [children|e]; simpl; [|done].
  pose proof (findExistingSearches_eq children) as E. rewrite categorize_all in E. simpl in E.
  rewrite E. simpl. intros [c|e]; simpl; [|done].
  apply always_path. intros tr a Hpath Hseen.
  destruct (seen_listed _ _ _ _ Hseen _ children (list_elem_of_further _ _ _ (list_elem_of_here _ _)) eq_refl) as (s & Hs & Hm).
  destruct (seen_stored _ _ _ _ Hseen _ _ c (list_elem_of_further _ _ _ (list_elem_of_further _ _ _ (list_elem_of_here _ _))) eq_refl)
    as (Hspec & Hlast). simpl in Hlast.
  destruct (most_recent_spec children None) as (_ & Hall & _). destruct (Hall s t Hs (Hat s Hm)) as (m & Hmr & Hle).
  unshelve epose proof (proj1 (always_path _ _) (quiet_rest c children next _) tr a Hpath) as Hrest.
  - intros now Hnow. apply (no_start_missed c now sched t); [by rewrite Hspec| |auto].
    apply (last_schedule_earliest c now m); [congruence|done].
  - apply Hrest. intros v now Hv. apply (seen_clock _ _ _ _ Hseen). set_solver.
Qed.

(** C9: a missed start that the deadline and the policy allow is made up: a
    reconciliation whose calls are served, with the current searches listed,
    creates its search and asks to be called at the next activation.  From then
    on, whatever is answered, no reconciliation creates anything before the next
    activation, as long as its listing shows that search and the specification
    stays the same, for a schedule that goes on activating.  Without the search
    the start is made up again ([gone_search_runs_again],
    [no_history_runs_again]). *)
Theorem missed_start_made_up_once w c t next s sched :
  Cron_Stored w = Some c -> key_of KCronSearch c = key -> CronS_Suspend (CronSearch_Spec c) <> Some true ->
  (length (active_references (List.filter is_active (listed w))) <= max_active)%nat ->
  parse_standard (CronS_Schedule (CronSearch_Spec c)) = Ok sched ->
  getNextSchedule (observed w c) (Cron_Clock w) = Some (Ok (t, next)) -> time_is_zero t = false ->
  zero_time <= t < year_10000 -> truncate_to_second t = t ->
  may_start c (List.filter is_active (listed w)) t (Cron_Clock w) ->
  constructSearchForCronSearch (observed w c) t = Ok s -> name_free s w ->
  let made := created_search (Cron_Clock w) s in
  exists w', exec cron_serve (Reconcile key) w = ((requeue_after (time_sub next (Cron_Clock w)), None), w') /\
    made ∈ listed w' /\
    forall A, activates sched A t next ->
      always (Reconcile key) (fun tr _ => seen_before next (CronSearch_Spec c) (Search_Meta made) tr -> creations tr = []).
Proof.
  intros Hc Hkey Hsus Hfew Hsched Hn Hz Hrange Hsec Hmay Hs Hfree made.
  destruct (reconcile_schedules w c Hc Hkey Hsus Hfew) as (w1 & (R1 & R2 & R3) & ->). simpl in R1, R2, R3.
  destruct (exec_schedule_starts (observed w c) (List.filter is_active (listed w)) w1 t next s)
    as (w2 & (S1 & S2 & S3) & ->); [by rewrite R2|done|by rewrite R2|done| |].
  { intros s' Hs'. apply Hfree. by apply R3. }
  rewrite R2. eexists. split; [reflexivity|]. split.
  - apply child_listed; [apply elem_of_app; right; by apply list_elem_of_singleton|].
    exact (constructed_child (observed w c) t s Hrange Hkey Hs).
  - intros A Hact. apply (quiet_reconcile sched t); [done| |].
    2: exact (no_start_until_next (observed w c) (Cron_Clock w) sched A t next Hsched Hn Hz Hact).
    intros s' Hm. pose proof (constructSearch_scheduled_at _ t s Hrange Hs) as Hat. rewrite Hsec in Hat.
    rewrite <-Hat. unfold scheduled_at, getScheduledTimeForSearch. by rewrite Hm.
Qed.

(** ** When the past is forgotten

    The last schedule time is read off the searches that are still there.  When
    none is - their time to live is over, or the history limits are zero - the
    starts are counted from the creation of the cron search; once there were
    more than a hundred, nothing is ever started again, nor requeued. *)
Theorem forgotten_history_stops w c sched :
  Cron_Stored w = Some c -> key_of KCronSearch c = key -> CronS_Suspend (CronSearch_Spec c) <> Some true ->
  parse_standard (CronS_Schedule (CronSearch_Spec c)) = Ok sched ->
  CronS_StartingDeadlineSeconds (CronSearch_Spec c) = None -> listed w = [] ->
  (forall k, (k <= 101)%nat -> nth_start sched (CreationTimestamp (CronSearch_Meta c)) k <= Cron_Clock w) ->
  (exec cron_serve (Reconcile key) w).1 = (emptyResult, None) /\
  Cron_Searches (exec cron_serve (Reconcile key) w).2 ⊆ Cron_Searches w.
Proof.
  intros Hc Hkey Hsus Hsched Hdead Hnone Hmany.
  destruct (reconcile_schedules w c Hc Hkey Hsus) as (w1 & (R1 & R2 & R3) & ->); [rewrite Hnone; simpl; lia|].
  destruct (getNextSchedule_answer (observed w c) (Cron_Clock w) sched Hsched) as (res & Hres & Hans).
  assert (earliest_time (observed w c) (Cron_Clock w) = CreationTimestamp (CronSearch_Meta c)) as He.
  { unfold earliest_time, observed, last_scheduled. rewrite Hnone. simpl. by rewrite Hdead. }
  rewrite He in Hans. destruct res as [[missed next]|e].
  { destruct Hans as [_ [[Hlt _]|(n & Hn & _ & Hafter & _)]].
    - pose proof (Hmany 0%nat ltac:(lia)). simpl in *. lia.
    - pose proof (Hmany (S n) ltac:(lia)). lia. }
  unfold schedule_next. rewrite exec_bind. cbn [exec op]. simpl cron_serve. cbv beta iota zeta.
  simpl in R2. rewrite R2, Hres. done.
Qed.

End system.

(** ** An example: a start every minute, one at a time *)

Module Cron_example.
#[local] Existing Instance controller_util_model.
#[local] Existing Instance periodic.
#[local] Existing Instance binary_rfc3339.
#[local] Existing Instance sort_slice_insertion.
#[local] Instance references : References := {|
  get_reference s := Ok (mkObjectReference "Search" (Namespace (Search_Meta s)) (Name (Search_Meta s))
    (UID (Search_Meta s))) |}.

Definition key : ObjectKey := mkObjectKey "ns" "nightly".

(** It was created at second 3600. *)
Definition cron : CronSearch := example_cron None None.
Definition cluster (searches : list Search) (now : Z) : CronCluster :=
  mkCronCluster (Some cron) searches (now * Second).
(** The search of the start at second 3660 of the year 1. *)
Definition run_name : string := "nightly--62135593140".
Definition every_minute : @schedule periodic := exist _ (60 * Second) eq_refl.
Definition after (w : CronCluster) : CronCluster := (exec cron_serve (Reconcile key) w).2.

(** A run at second 3690, and one a minute later that sees the search of the
    first as it was created. *)
Definition seen_none : CronView := mkCronView None [].
Definition seen_first : CronView := mkCronView None [0%nat].
Definition own_after (v : CronView) (c : CronCached) : CronCached := (exec (own_writes_serve v) (Reconcile key) c).2.
Definition at_second (w : CronCluster) (now : Z) : CronCluster :=
  mkCronCluster (Cron_Stored w) (Cron_Searches w) (now * Second).
Definition one_run : CronCached := own_after seen_none (cron_cached (cluster [] 3690)).
Definition later : CronCached := cron_changed one_run (at_second (Cron_Server one_run) 3750).
Definition two_runs : CronCached := own_after seen_first later.

Lemma own_run v c out : exists out',
  cron_steps key (mkExecution c (Ret out)) (mkExecution (own_after v c) (Ret out')).
Proof. eexists. eapply rtc_l; [apply step_begin|]. apply (exec_steps own_writes_serve _ _ _ _ v). Qed.

Lemma two_runs_steps : exists out,
  cron_steps key (mkExecution (cron_cached (cluster [] 3690)) (Ret (emptyResult, None))) (mkExecution two_runs (Ret out)).
Proof.
  destruct (own_run seen_none (cron_cached (cluster [] 3690)) (emptyResult, None)) as [out H1].
  destruct (own_run seen_first later out) as [out' H2]. exists out'. etrans; [exact H1|].
  eapply rtc_l; [apply (step_environment _ _ _ _ _ _ later)|].
  { constructor. split; [apply cenv_clock|].
    assert (E : key_of KSearch <$> Cron_Searches (Cron_Server one_run) = [mkObjectKey "ns" run_name])
      by (vm_compute; reflexivity).
    unfold distinct_searches, at_second. cbn [Cron_Searches]. rewrite E. apply NoDup_singleton. }
  exact H2.
Qed.

Lemma forbid_one_active_witness :
  length (active_children key (Cron_Server two_runs)) = 1%nat /\
  (length (active_children key (Cron_Server two_runs)) <= 1)%nat.
Proof.
  split; [vm_compute; reflexivity|].
  assert (one_active key (cluster [] 3690)) as Hone.
  { constructor; [intros c [= <-]; reflexivity|simpl; lia|apply NoDup_nil_2]. }
  destruct two_runs_steps as [out Hsteps].
  exact (forbid_one_active key (cluster [] 3690) (emptyResult, None) (mkExecution two_runs (Ret out)) Hone Hsteps).
Defined.

Lemma missed_start_made_up_once_witness :
  exists s w', exec cron_serve (Reconcile key) (cluster [] 3690)
      = ((requeue_after (30 * Second), None), w') /\ created_search (3690 * Second) s ∈ listed key w' /\
    Name (Search_Meta s) = run_name /\
    always (Reconcile key) (fun tr _ =>
      seen_before (3720 * Second) (CronSearch_Spec cron) (Search_Meta (created_search (3690 * Second) s)) tr ->
      creations tr = []).
Proof.
  destruct (constructSearchForCronSearch cron (3660 * Second)) as [s|e] eqn:Es; [|vm_compute in Es; discriminate Es].
  destruct (missed_start_made_up_once key (cluster [] 3690) cron (3660 * Second) (3720 * Second) s
    every_minute) as (w' & E & Hin & Hquiet).
  - reflexivity.
  - reflexivity.
  - discriminate.
  - simpl. lia.
  - reflexivity.
  - vm_compute. reflexivity.
  - reflexivity.
  - split; [discriminate|reflexivity].
  - reflexivity.
  - split; [discriminate|reflexivity].
  - exact Es.
  - intros s' Hs'. simpl in Hs'. by apply elem_of_nil in Hs'.
  - exists s, w'. split; [exact E|]. split; [exact Hin|].
    split; [injection Es as <-; vm_compute; reflexivity|].
    exact (Hquiet _ (periodic_activates every_minute _ _)).
Defined.

(** The next reconciliation, with the search listed, creates nothing. *)
Definition seconds_later : CronCluster := at_second (after (cluster [] 3690)) 3710.
Lemma seen_before_holds : exists s, Cron_Searches seconds_later = [s] /\
  seen_before (3720 * Second) (CronSearch_Spec cron) (Search_Meta s) (run cron_serve (Reconcile key) seconds_later).2 /\
  Cron_Searches (after seconds_later) = [s].
Proof.
  destruct (Cron_Searches seconds_later) as [|s [|]] eqn:E; [vm_compute in E; discriminate E| |vm_compute in E; discriminate E].
  exists s. split; [done|].
  assert (exists g c c', (run cron_serve (Reconcile key) seconds_later).2 =
      [event (Get KCronSearch key) g; event (ListObjects KSearch (mkListOptions "ns" None (Some (searchOwnerKey, "nightly")))) (Ok [s]);
       event (StatusUpdate KCronSearch c) (Ok c'); event Now (3710 * Second); event Now (3710 * Second); event Now (3710 * Second)] /\
      CronSearch_Spec c' = CronSearch_Spec cron /\
      CronSt_LastScheduleTime (CronSearch_Status c') = CronSt_LastScheduleTime (CronSearch_Status c)) as (g & c & c' & -> & Hspec & Hlast).
  { vm_compute in E. injection E as <-. do 3 eexists. split; [vm_compute; reflexivity|]. split; reflexivity. }
  split.
  - constructor.
    + intros v ss Hv. rewrite !elem_of_cons, elem_of_nil in Hv. destruct_or! Hv; subst v; try done.
      intros [= <-]. exists s. split; [apply list_elem_of_here|done].
    + intros v d d' Hv. rewrite !elem_of_cons, elem_of_nil in Hv. destruct_or! Hv; subst v; try done.
      by intros [= <- <-].
    + intros v now Hv. rewrite !elem_of_cons, elem_of_nil in Hv. destruct_or! Hv; subst v; try done;
        intros [= <-]; reflexivity.
  - vm_compute in E |- *. exact E.
Qed.

(** The search of the start at second 3660 has run and is gone: it is created
    again. *)
Definition names (w : CronCluster) : list string := (fun s => Name (Search_Meta s)) <$> Cron_Searches w.
Lemma gone_search_runs_again :
  names (after (cluster [] 3690)) = [run_name] /\
  names (after (with_searches (after (cluster [] 3690)) [])) = [run_name].
Proof. split; vm_compute; reflexivity. Qed.

(** Limits of zero make the controller itself forget: the next reconciliation
    deletes the finished search, the one after it starts it again. *)
Definition finished (s : Search) : Search :=
  mkSearch (Search_Meta s) (Search_Spec s) (mkSearchStatus
    [mkCondition CompletedSuccessfullyConditionType ConditionTrue "" "" 0] (Some 0) (Some 0) None).
Definition without_history (w : CronCluster) : CronCluster :=
  let spec := CronSearch_Spec cron in
  with_cron w (Some (mkCronSearch (CronSearch_Meta cron) (mkCronSearchSpec (CronS_SearchTemplate spec)
    (CronS_Schedule spec) None (Some 0) (Some 0) ForbidConcurrent None) (CronSearch_Status cron))).
Lemma no_history_runs_again :
  let started := after (without_history (cluster [] 3690)) in
  let ended := with_searches started (finished <$> Cron_Searches started) in
  names started = [run_name] /\ names (after ended) = [] /\
  names (after (after ended)) = [run_name].
Proof. split_and!; vm_compute; reflexivity. Qed.

(** After a hundred and one minutes it stops. *)
Lemma forgotten_history_stops_witness :
  (exec cron_serve (Reconcile key) (cluster [] (3600 + 101 * 60))).1 = (emptyResult, None) /\
  Cron_Searches (exec cron_serve (Reconcile key) (cluster [] (3600 + 101 * 60))).2 ⊆ [].
Proof.
  apply (forgotten_history_stops key (cluster [] (3600 + 101 * 60)) cron every_minute).
  - reflexivity.
  - reflexivity.
  - discriminate.
  - reflexivity.
  - reflexivity.
  - reflexivity.
  - intros k Hk. simpl CreationTimestamp.
    assert (Hall : forallb (fun k => nth_start every_minute (CreationTimestamp (CronSearch_Meta cron)) k
      <=? Cron_Clock (cluster [] (3600 + 101 * 60))) (seq 0 102) = true) by (vm_compute; reflexivity).
    apply Z.leb_le. rewrite forallb_forall in Hall. apply Hall, in_seq. lia.
Defined.

(** Eleven active searches: the start of the minute is not made up, though the
    policy allows for it. *)
Definition allowing (w : CronCluster) : CronCluster :=
  let spec := CronSearch_Spec cron in
  with_cron w (Some (mkCronSearch (CronSearch_Meta cron) (mkCronSearchSpec (CronS_SearchTemplate spec)
    (CronS_Schedule spec) None None None AllowConcurrent None) (CronSearch_Status cron))).
Definition every_minute_for (n : nat) : CronCluster :=
  Nat.iter n (fun w => after (at_second w (Cron_Clock w / Second + 60))) (allowing (cluster [] 3630)).
Lemma many_active_stop_witness :
  length (Cron_Searches (every_minute_for 11)) = 11%nat /\
  length (Cron_Searches (every_minute_for 12)) = 11%nat /\
  exists e, exec cron_serve (Reconcile key) (every_minute_for 11) = ((emptyResult, Some e), every_minute_for 11).
Proof.
  split; [vm_compute; reflexivity|]. split; [vm_compute; reflexivity|].
  destruct (Cron_Stored (every_minute_for 11)) as [c|] eqn:Ec; [|vm_compute in Ec; discriminate Ec].
  apply (many_active_stop key (every_minute_for 11) c).
  - exact Ec.
  - vm_compute in Ec. injection Ec as <-. reflexivity.
  - vm_compute. lia.
Defined.
End Cron_example.
