(* ===== verification/CronStale.v ===== *)
(** * The cron search controller reading a stale cache

    The controller finds out which starts it has made up from a listing that
    its cache answers, and the cache may lag behind the server.  What keeps a
    start from being made up twice then is the name of its search: in the
    executions here a listing may answer anything, and still no start has two
    searches.  The policy that forbids concurrent runs is not so lucky. *)

From Stdlib Require Import ZArith Lia String Ascii.
From S2P Require Import Prelude Effects Execution GoStd K8s Api Client ControllerCommon CronSearchController CronSchedule CronSafety CronSystem.

Local Open Scope string_scope.
Local Open Scope Z_scope.
Local Open Scope list_scope.

Section stale.
Context `{ControllerUtil} `{CronLibrary} `{RFC3339} `{References} `{SortSlice}.
Variable key : ObjectKey.

(** The cache answers anything to the readings of the controller. *)
Definition stale_cron_steps :
    Execution Op CronCached Outcome -> Execution Op CronCached Outcome -> Prop :=
  execution_steps cached_serve (@call_error) (cached_cron_environment key) (fun c => c) (Reconcile key).

(** At a reading of the clock [t] was a missed start of a specification that the
    cron search has had: an activation its schedule gives that was not in the
    future. *)
Definition was_start (specs : list CronSearchSpec) (readings : list Time) (t : Time) : Prop :=
  exists spec now, spec ∈ specs /\ now ∈ readings /\ start_of spec t now.

(** The search [s] was made for the start at [t]. *)
Record made_for (c : CronCached) (t : Time) (s : Search) : Prop := {
  made_key : key_of KSearch s = mkObjectKey (Key_Namespace key) (Key_Name key +:+ "-" +:+ itoa (time_unix t));
  made_annotation : Annotations (Search_Meta s) !! scheduledTimeAnnotation = Some (format_rfc3339 t);
  made_start : was_start (Cron_Specs c) (Clock_Readings c) t
}.

Record starts_ok (c : CronCached) : Prop := {
  starts_distinct : distinct_searches (Cron_Server c);
  starts_cron o : Cron_Stored (Cron_Server c) = Some o -> key_of KCronSearch o = key /\ CronSearch_Spec o ∈ Cron_Specs c;
  starts_made s : s ∈ Cron_Searches (Cron_Server c) -> is_child key s = true -> exists t, made_for c t s
}.

Lemma was_start_mono specs specs' readings readings' t :
  specs ⊆ specs' -> readings ⊆ readings' -> was_start specs readings t -> was_start specs' readings' t.
Proof. intros Hs Hr (spec & now & Hspec & Hnow & Hstart). exists spec, now. auto. Qed.

Lemma made_for_meta c c' t s s' :
  Cron_Specs c ⊆ Cron_Specs c' -> Clock_Readings c ⊆ Clock_Readings c' ->
  Search_Meta s' = Search_Meta s -> made_for c t s -> made_for c' t s'.
Proof.
  intros Hs Hr E [Hk Ha Hst]. unfold key_of in Hk.
  constructor; unfold key_of; simpl in *; [by rewrite E..|by eapply was_start_mono].
Qed.

Lemma is_child_meta s s' : Search_Meta s' = Search_Meta s -> is_child key s' = is_child key s.
Proof. intros E. unfold is_child, search_owner_index. by rewrite E. Qed.

(** ** Steps of the cluster *)

(** Nothing is created for the cron search: what searches there are were there
    before, as far as their metadata tell. *)
Record recalls (w w' : CronCluster) : Prop := {
  recalls_distinct : distinct_searches w -> distinct_searches w';
  recalls_cron : (forall c, Cron_Stored w = Some c -> key_of KCronSearch c = key) ->
    forall c, Cron_Stored w' = Some c -> key_of KCronSearch c = key;
  recalls_child s' : s' ∈ Cron_Searches w' -> is_child key s' = true ->
    exists s, s ∈ Cron_Searches w /\ Search_Meta s' = Search_Meta s
}.

Lemma recalls_refl w : recalls w w.
Proof. constructor; eauto. Qed.

Lemma recalls_ok c w versions : recalls (Cron_Server c) w -> starts_ok c -> starts_ok (remembered c w versions).
Proof.
  intros [Hd Hc Hs] [Hd0 Hc0 Hs0]. constructor; simpl; [auto| |].
  - intros o Ho. split; [eapply Hc; [|exact Ho]; intros o0 Ho0; by apply Hc0|]. rewrite Ho. simpl. apply list_elem_of_here.
  - intros s' Hs' Hchild. destruct (Hs s' Hs' Hchild) as (s & Hin & Hm). destruct (Hs0 s Hin) as [t Ht].
    + by rewrite <-(is_child_meta s s' Hm).
    + exists t. eapply made_for_meta; [..|exact Ht]; simpl; [set_solver|done|done].
Qed.

Lemma recalls_sublist w ss :
  ss `sublist_of` Cron_Searches w -> recalls w (with_searches w ss).
Proof.
  intros Hsub. constructor; simpl; [|auto|].
  - by apply distinct_sublist.
  - intros s' Hs' _. exists s'. split; [by eapply elem_of_sublist|done].
Qed.

Lemma recalls_serve X (e : Op X) w :
  (forall x, create_of KSearch (event e x) = None) -> recalls w (cron_serve X e w).2.
Proof.
  intros He. destruct e; simpl; try apply recalls_refl.
  - destruct k; simpl; try apply recalls_refl. by discriminate (He (Err APINotFound)).
  - destruct k; simpl; try apply recalls_refl. destruct (Cron_Stored w) as [c|] eqn:Ec; simpl;
      [|apply recalls_refl]. destruct (_ <=? _)%nat; simpl; [|apply recalls_refl].
    constructor; [done| |eauto]. intros Hkey c' [= <-]. exact (Hkey c Ec).
  - destruct k; simpl; try apply recalls_refl. destruct (existsb _ _); simpl; [|apply recalls_refl].
    apply recalls_sublist, bool_filter_sublist.
Qed.

Lemma recalls_environment w w' : distinct_environment key w w' -> recalls w w'.
Proof.
  intros [Henv Hd]. destruct Henv as [t|before s s' after Hw Hm Ha|before s after Hw|s Hc|c c' Hc Hp Hk|].
  - constructor; [done|done|]. intros x Hx _. by exists x.
  - constructor; [done|done|]. simpl. rewrite Hw. intros x. rewrite !elem_of_app, !elem_of_cons.
    intros [Hx|[->|Hx]] _; [exists x|exists s|exists x]; set_solver.
  - constructor; [done|done|]. simpl. rewrite Hw. intros x Hx _. exists x. set_solver.
  - constructor; [done|done|]. simpl. intros x. rewrite elem_of_app, list_elem_of_singleton.
    intros [Hx| ->] Hchild; [by exists x|congruence].
  - constructor; [done| |eauto]. intros Hkey c'' [= <-]. rewrite Hk. by apply Hkey.
  - constructor; [done|done|]. intros x Hx _. by exists x.
Qed.

(** ** A reconciliation *)

(** What a reconciliation knows of the past: a specification the cron search has
    had, and a reading of the clock. *)
Definition knows_past (k : option CronSearchSpec * option Time) (c : CronCached) : Prop :=
  (forall spec, k.1 = Some spec -> spec ∈ Cron_Specs c) /\ (forall now, k.2 = Some now -> now ∈ Clock_Readings c).

Lemma past_mono k c c' :
  Cron_Specs c ⊆ Cron_Specs c' -> Clock_Readings c ⊆ Clock_Readings c' -> knows_past k c -> knows_past k c'.
Proof. intros Hs Hr [K1 K2]. split; intros ? ?; auto. Qed.

Notation stale_safe := (keeps cached_serve (@call_error) starts_ok knows_past).

Lemma recalls_keeps c w versions :
  recalls (Cron_Server c) w -> starts_ok c ->
  starts_ok (remembered c w versions) /\ forall k, knows_past k c -> knows_past k (remembered c w versions).
Proof.
  intros Hr Hc. split; [by apply recalls_ok|]. intros k. apply past_mono; simpl; [set_solver|done].
Qed.

Lemma clock_read_ok c : starts_ok c -> starts_ok (clock_read c).
Proof.
  intros [Hd Hc Hm]. constructor; simpl; [done|done|]. intros s Hs Hchild.
  destruct (Hm s Hs Hchild) as [t Ht]. exists t. eapply made_for_meta; [..|exact Ht]; simpl; [done|set_solver|done].
Qed.

Lemma recalls_cached cache X (e : Op X) c :
  (forall x, create_of KSearch (event e x) = None) -> starts_ok c ->
  starts_ok (cached_serve cache X e c).2 /\ forall k, knows_past k c -> knows_past k (cached_serve cache X e c).2.
Proof.
  intros He Hc. pose proof (recalls_serve X e (Cron_Server c) He) as Hr.
  destruct e; try (by apply recalls_keeps); try (by split).
  split; [by apply clock_read_ok|]. intros k'. apply past_mono; simpl; [done|set_solver].
Qed.

Lemma recalls_calm X (e : Op X) :
  (forall x, create_of KSearch (event e x) = None) ->
  calm cached_serve (@call_error) starts_ok knows_past e.
Proof.
  intros He c x c' Hans Hok. destruct Hans; [by apply recalls_cached|by split|by apply recalls_cached].
Qed.

Lemma stale_bind {A B} (p : prog A) (f : A -> prog B) k :
  all_events (fun v => match v with event e _ => forall x, create_of KSearch (event e x) = None end) p ->
  (forall a, stale_safe (f a) k) -> stale_safe (bind p f) k.
Proof.
  intros Hp Hf. apply (keeps_bind _ _ _ _ p f); [|exact Hf].
  eapply all_events_impl; [exact Hp|]. intros [X e x]. apply recalls_calm.
Qed.

Lemma stale_call {A X} (e : Op X) (p : X -> prog A) k :
  (forall x, create_of KSearch (event e x) = None) -> (forall x, stale_safe (p x) k) -> stale_safe (Vis e p) k.
Proof. intros He. by apply keeps_calm, recalls_calm. Qed.

(** The answer to the write of the status has the current specification. *)
Lemma stale_status_update {A} o (p : result GoError CronSearch -> prog A) :
  (forall o', key_of KCronSearch o' = key -> stale_safe (p (Ok o')) (Some (CronSearch_Spec o'), None)) ->
  (forall e, stale_safe (p (Err e)) (None, None)) -> stale_safe (Vis (StatusUpdate KCronSearch o) p) (None, None).
Proof.
  intros Hok Herr c x c' Hc _ Hans.
  assert (forall y, create_of KSearch (event (StatusUpdate KCronSearch o) y) = None) as Hno by done.
  destruct (recalls_calm _ _ Hno _ _ _ Hans Hc) as [Hc' _]. split; [done|].
  assert (knows_past (None, None) c') as Hn by done.
  destruct Hans as [l|x [e ->]|l x [e ->]]; [|by exists (None, None); eauto..]. simpl in *.
  destruct (Cron_Stored (Cron_Server c)) as [o0|] eqn:Eo; [|by exists (None, None); eauto].
  destruct (_ <=? _)%nat; [|by exists (None, None); eauto]. simpl in *.
  destruct (starts_cron c Hc o0 Eo) as [Hk _]. eexists. split; [|apply Hok; exact Hk].
  split; [|done]. intros spec [= <-]. simpl. apply list_elem_of_here.
Qed.

Lemma stale_now {A} (p : Time -> prog A) spec now0 :
  (forall now, stale_safe (p now) (Some spec, Some (default now now0))) ->
  stale_safe (Vis Now p) (Some spec, now0).
Proof.
  intros Hp c x c' Hc [Hspec Hnow] Hans.
  assert (forall y, create_of KSearch (event Now y) = None) as Hno by done.
  destruct (recalls_calm _ _ Hno _ _ _ Hans Hc) as [Hc' Hk]. split; [done|].
  exists (Some spec, Some (default x now0)). split; [|apply Hp].
  destruct Hans as [l|x []|l x []].
  destruct (Hk (Some spec, now0) (conj Hspec Hnow)) as [K1 K2]. split; [exact K1|]. simpl.
  intros now [= <-]. destruct now0 as [now0|]; simpl; [by apply K2|apply list_elem_of_here].
Qed.

(** The creation is refused when there is a search of that name. *)
Lemma stale_create {A} o t s now (p : result GoError Search -> prog A) :
  key_of KCronSearch o = key -> start_of (CronSearch_Spec o) t now -> constructSearchForCronSearch o t = Ok s ->
  (forall x, stale_safe (p x) (Some (CronSearch_Spec o), Some now)) ->
  stale_safe (Vis (Create KSearch s) p) (Some (CronSearch_Spec o), Some now).
Proof.
  intros Ho Hstart Hs Hp c x c' Hc Hpast Hans.
  enough (starts_ok c' /\ knows_past (Some (CronSearch_Spec o), Some now) c') as [? ?] by (split; [done|]; by eexists).
  destruct Hpast as [Hspec Hnow]. simpl in Hspec, Hnow.
  apply constructSearch_shape in Hs as (Hname & Hns & Hann & _).
  assert (forall cache, starts_ok (cached_serve cache _ (Create KSearch s) c).2 /\
    knows_past (Some (CronSearch_Spec o), Some now) (cached_serve cache _ (Create KSearch s) c).2) as Hserved.
  { intros cache. split; [|split; simpl; [set_solver|done]].
    simpl. destruct (existsb _ _) eqn:E; simpl; [by apply recalls_ok; [apply recalls_refl|]|].
    destruct Hc as [Hd Hkey Hmade]. constructor; simpl.
    - unfold distinct_searches. simpl. rewrite fmap_app. apply NoDup_app. split; [done|].
      split; [|apply NoDup_singleton]. intros y (s' & -> & Hs')%list_elem_of_fmap Hy.
      apply list_elem_of_singleton in Hy. apply not_true_iff_false in E. apply E. apply existsb_exists.
      exists s'. split; [by apply list_elem_of_In|]. by apply bool_decide_eq_true.
    - intros o' Ho'. split; [by apply Hkey|]. rewrite Ho'. simpl. apply list_elem_of_here.
    - intros s' [Hs'| ->%list_elem_of_singleton]%elem_of_app Hchild.
      + destruct (Hmade s' Hs' Hchild) as [t' Ht']. exists t'.
        eapply made_for_meta; [..|exact Ht']; simpl; [set_solver|done|done].
      + exists t. constructor; [|exact Hann|].
        * unfold key_of in *. simpl in *. rewrite Hname, Hns. by rewrite <-Ho.
        * exists (CronSearch_Spec o), now. simpl. split; [set_solver|]. split; [by apply Hnow|exact Hstart]. }
  by destruct Hans.
Qed.

Lemma stale_start_missed_run o active missed result now :
  key_of KCronSearch o = key -> start_of (CronSearch_Spec o) missed now ->
  stale_safe (start_missed_run o active missed result) (Some (CronSearch_Spec o), Some now).
Proof.
  intros Ho Hstart. unfold start_missed_run. destruct (_ && _); [done|]. apply stale_bind.
  - destruct (decide _); [|constructor].
    apply creations_all_events. eapply always_impl; [apply delete_active_events|]. by intros tr a (Htr & _).
  - intros [err|]; [done|]. destruct (constructSearchForCronSearch o missed) as [s|e] eqn:Es; [|done].
    eapply stale_create; [done|exact Hstart|exact Es|]. by intros [s'|e].
Qed.

Lemma stale_schedule_next o active :
  key_of KCronSearch o = key -> stale_safe (schedule_next o active) (Some (CronSearch_Spec o), None).
Proof.
  intros Ho. unfold schedule_next. apply stale_now. intros now. simpl.
  destruct (getNextSchedule o now) as [[[missed next]|e]|] eqn:En; [|done..].
  apply stale_now. intros now2. apply stale_now. intros now3. simpl.
  destruct (time_is_zero missed) eqn:Ez; [done|]. apply stale_bind.
  - apply creations_all_events. eapply always_impl; [apply too_late_events|]. by intros tr a [Htr _].
  - intros []; [done|]. apply stale_start_missed_run; [done|]. by eapply missed_start_of.
Qed.

Lemma stale_trim {B} limit searches (f : unit -> prog B) k :
  (forall a, stale_safe (f a) k) -> stale_safe (bind (trim_history limit searches) f) k.
Proof.
  intros Hf. apply stale_bind; [|exact Hf]. apply creations_all_events.
  eapply always_impl; [apply trim_history_events|]. by intros tr a [Htr _].
Qed.

Lemma stale_cron_reconcile : stale_safe (Reconcile key) (None, None).
Proof.
  unfold Reconcile. apply stale_call; [done|]. intros [c0|e]; [|done].
  apply stale_call; [done|]. intros [children|e]; [|done].
  pose proof (findExistingSearches_eq children) as E. rewrite categorize_all in E.
  simpl in E. rewrite E. apply stale_status_update; [|done]. intros c Hc.
  apply stale_trim. intros _. apply stale_trim. intros _.
  destruct (default false _); [done|]. by apply stale_schedule_next.
Qed.

(** The searches of the cron search. *)
Definition children_of (w : CronCluster) : list Search := List.filter (is_child key) (Cron_Searches w).

(** C23: however old what the cache answers is - listings may leave out searches or
    show others, whatever the order of calls, failures, restarts and what
    happens besides -, every search of the cron search was made for a start: an
    activation given by a schedule the cron search has had, not in the future at
    a reading of the clock; it is named by that time and tells it in its
    annotation, and no second of time has two of them. *)
Theorem one_search_per_start w out s :
  starts_ok (cron_cached w) -> stale_cron_steps (mkExecution (cron_cached w) (Ret out)) s ->
  let c := Exec_State s in
  (forall s1, s1 ∈ children_of (Cron_Server c) -> exists t, made_for c t s1) /\
  (forall s1 s2 t1 t2, s1 ∈ children_of (Cron_Server c) -> s2 ∈ children_of (Cron_Server c) ->
     made_for c t1 s1 -> made_for c t2 s2 -> time_unix t1 = time_unix t2 -> s1 = s2).
Proof.
  intros Hw Hsteps c.
  assert (starts_ok c) as [Hd _ Hmade].
  { eapply (execution_invariant cached_serve (@call_error) (cached_cron_environment key) (fun c => c)
      (Reconcile key) starts_ok knows_past (None, None)); [done|apply stale_cron_reconcile| |done|exact Hw|exact Hsteps].
    intros c1 c2 [v Henv] Hc. apply recalls_keeps; [by apply recalls_environment|done]. }
  split.
  - intros s1 [Hin Hchild]%filter_elem. by apply Hmade.
  - intros s1 s2 t1 t2 [Hin1 _]%filter_elem [Hin2 _]%filter_elem [K1 _ _] [K2 _ _] E.
    eapply NoDup_fmap_eq; [exact Hd|done..|]. by rewrite K1, K2, E.
Qed.
End stale.

(** ** An example, and what a stale listing breaks *)

Module CronStale_example.
Import Cron_example.
#[local] Existing Instance controller_util_model.
#[local] Existing Instance periodic.
#[local] Existing Instance binary_rfc3339.
#[local] Existing Instance sort_slice_insertion.
#[local] Existing Instance references.

(** A reconciliation whose cache is up to date, and one whose cache has seen no
    search yet. *)
Definition up_to_date : CronCache := mkCronCache None None.
Definition unseen : CronCache := mkCronCache None (Some (fun _ => [])).
Definition cached_after (cache : CronCache) (c : CronCached) : CronCached :=
  (exec (cached_serve cache) (Reconcile key) c).2.
Definition stale_after (w : CronCluster) : CronCluster := Cron_Server (cached_after unseen (cron_cached w)).

(** The start of second 3660 is found missed again, and its search refused. *)
Lemma stale_start_refused :
  names (after (cluster [] 3690)) = [run_name] /\
  names (stale_after (after (cluster [] 3690))) = [run_name] /\
  (exec (cached_serve unseen) (Reconcile key) (cron_cached (after (cluster [] 3690)))).1 <> (emptyResult, None).
Proof. split; [vm_compute; reflexivity|]. split; [vm_compute; reflexivity|]. by vm_compute. Qed.

(** One run that sees everything, and one that sees nothing. *)
Definition once : CronCached := cached_after up_to_date (cron_cached (cluster [] 3690)).
Definition twice : CronCached := cached_after unseen once.

Lemma cached_run cache c out : exists out',
  stale_cron_steps key (mkExecution c (Ret out)) (mkExecution (cached_after cache c) (Ret out')).
Proof. eexists. eapply rtc_l; [apply step_begin|]. apply (exec_steps cached_serve _ _ _ _ cache). Qed.

Lemma twice_steps : exists out,
  stale_cron_steps key (mkExecution (cron_cached (cluster [] 3690)) (Ret (emptyResult, None))) (mkExecution twice (Ret out)).
Proof.
  destruct (cached_run up_to_date (cron_cached (cluster [] 3690)) (emptyResult, None)) as [out H1].
  destruct (cached_run unseen once out) as [out' H2]. exists out'. etrans; [exact H1|exact H2].
Qed.

Lemma one_search_per_start_witness :
  length (children_of key (Cron_Server twice)) = 1%nat /\
  exists s t, s ∈ children_of key (Cron_Server twice) /\ made_for key twice t s.
Proof.
  split; [vm_compute; reflexivity|].
  assert (starts_ok key (cron_cached (cluster [] 3690))) as Hok.
  { constructor; [constructor| |by intros s Hs%elem_of_nil]. intros c [= <-]. split; [reflexivity|apply list_elem_of_here]. }
  destruct twice_steps as [out Hsteps].
  destruct (one_search_per_start key (cluster [] 3690) (emptyResult, None) (mkExecution twice (Ret out)) Hok Hsteps)
    as [Hmade _].
  assert (Hlen : length (children_of key (Cron_Server twice)) = 1%nat) by (vm_compute; reflexivity).
  simpl Exec_State in Hmade. destruct (children_of key (Cron_Server twice)) as [|s ss]; [discriminate Hlen|].
  destruct (Hmade s (list_elem_of_here _ _)) as [t Ht]. exists s, t. split; [apply list_elem_of_here|exact Ht].
Defined.

(** A minute later the policy forbids a second run, but the listing that has not
    seen the first one lets it start. *)
Lemma stale_listing_runs_two :
  let w := at_second (after (cluster [] 3690)) 3750 in
  CronS_ConcurrencyPolicy (CronSearch_Spec cron) = ForbidConcurrent /\
  length (active_children key (after w)) = 1%nat /\
  length (active_children key (stale_after w)) = 2%nat.
Proof. split_and!; vm_compute; reflexivity. Qed.
End CronStale_example.
