(* ===== verification/SearchSystem.v ===== *)
(** * The search controller in its cluster

    Executions of the search controller for one search, with the pod that runs
    its scheduler, and the pipelines and searches of the cluster: a search is
    marked as complete only when everything it has scheduled is complete, and
    from then on nothing more is scheduled - however calls fail, the controller
    restarts, pods go away and the cache has earlier versions, as long as its
    listings show all there is. *)

From Stdlib Require Import ZArith Lia String Ascii.
From S2P Require Import Prelude Effects Execution GoStd K8s Api Client Resources ControllerCommon SearchController SearchSafety.

Local Open Scope string_scope.
Local Open Scope Z_scope.
Local Open Scope list_scope.

(** ** The cluster *)

(** The search, its pod, the pipelines and the other searches of the cluster, and
    the service accounts and role bindings. *)
Record SearchCluster := mkSearchCluster {
  Its_Search : option Search;
  Its_Pod : option Pod;
  Pipelines : list Pipeline;
  Searches : list Search;
  Accounts : list ServiceAccount;
  Bindings : list RoleBinding;
  Search_Clock : Time
}.

Definition set_search (w : SearchCluster) (s : option Search) : SearchCluster :=
  mkSearchCluster s (Its_Pod w) (Pipelines w) (Searches w) (Accounts w) (Bindings w) (Search_Clock w).
Definition set_pod (w : SearchCluster) (pod : option Pod) : SearchCluster :=
  mkSearchCluster (Its_Search w) pod (Pipelines w) (Searches w) (Accounts w) (Bindings w) (Search_Clock w).
Definition set_pipelines (w : SearchCluster) (ps : list Pipeline) : SearchCluster :=
  mkSearchCluster (Its_Search w) (Its_Pod w) ps (Searches w) (Accounts w) (Bindings w) (Search_Clock w).
Definition set_searches (w : SearchCluster) (ss : list Search) : SearchCluster :=
  mkSearchCluster (Its_Search w) (Its_Pod w) (Pipelines w) ss (Accounts w) (Bindings w) (Search_Clock w).
Definition set_others (w : SearchCluster) (sas : list ServiceAccount) (rbs : list RoleBinding) (t : Time) :
    SearchCluster :=
  mkSearchCluster (Its_Search w) (Its_Pod w) (Pipelines w) (Searches w) sas rbs t.

(** A list request selects by namespace and label; the client asks for no field
    of these kinds. *)
Definition label_selects (opts : ListOptions) (m : ObjectMeta) : bool :=
  (String.eqb (LO_Namespace opts) "" || String.eqb (LO_Namespace opts) (Namespace m)) &&
  match LO_LabelSelector opts with
  | Some (k, v) => bool_decide (Labels m !! k = Some v)
  | None => true
  end.

(** A pod is over when its phase says so. *)
Definition pod_over (pod : Pod) : Prop :=
  Pod_Phase (Pod_Status pod) = PodSucceeded \/ Pod_Phase (Pod_Status pod) = PodFailed.
#[global] Instance pod_over_dec pod : Decision (pod_over pod).
Proof. unfold pod_over. apply _. Defined.

(** *** The cache

    The controller reads through the cache of its manager, which may lag behind
    the server.  Its own writes are seen: a reading of the search has its current
    status, which nobody else writes, with perhaps an earlier specification, and
    may find the search after its deletion; the pod may be seen as it was before,
    over only when it is over or gone.  What the listings must show for
    the theorems here is every pipeline and search that is stored, though
    perhaps as it was before it was complete, and others that are gone. *)
Record SearchView := mkSearchView {
  Seen_Crawlers : forall k : Kind, ObjectKey -> result GoError (obj k);
  Seen_Search : option Search;
  Seen_Pod : option Pod;
  Seen_Pipelines : list Pipeline;
  Seen_Searches : list Search
}.

(** A cache that is up to date, with what is stored of the crawlers. *)
Definition current_view (crawlers : forall k : Kind, ObjectKey -> result GoError (obj k)) : SearchView :=
  mkSearchView crawlers None None [] [].

Section listing.
Context {A : Type} (object_key : A -> ObjectKey) (complete : A -> Prop) `{!forall o, Decision (complete o)}.

Definition older (stored : list A) (o : A) : bool :=
  forallb (fun o' => negb (bool_decide (object_key o' = object_key o)) || negb (bool_decide (complete o)) ||
    bool_decide (complete o')) stored.

(** The objects that are selected: the stored ones, or older versions. *)
Definition seen_list (selected : A -> bool) (view stored : list A) : list A :=
  let seen := List.filter (fun o => selected o && older stored o) view in
  seen ++ List.filter (fun o' => selected o' && negb (existsb (fun o => bool_decide (object_key o' = object_key o)) seen)) stored.

(** When all that are seen are complete, all that are stored are. *)
Lemma seen_list_complete selected view stored o :
  Forall complete (seen_list selected view stored) -> o ∈ stored -> selected o = true -> complete o.
Proof.
  unfold seen_list. set (seen := List.filter _ view). intros [Hseen Hstored]%Forall_app Ho Hsel.
  destruct (existsb (fun o' => bool_decide (object_key o = object_key o')) seen) eqn:E.
  - apply existsb_exists in E as (o' & Hin & Hk%bool_decide_eq_true).
    rewrite Forall_forall in Hseen. pose proof (Hseen o' (proj2 (list_elem_of_In _ _) Hin)) as Hc.
    apply filter_In in Hin as [_ [_ Hold]%andb_true_iff]. unfold older in Hold. rewrite forallb_forall in Hold.
    specialize (Hold o (proj1 (list_elem_of_In _ _) Ho)). rewrite (bool_decide_eq_true_2 _ Hk) in Hold.
    rewrite (bool_decide_eq_true_2 _ Hc) in Hold. by apply bool_decide_eq_true in Hold.
  - rewrite Forall_forall in Hstored. apply Hstored, list_elem_of_In, filter_In.
    split; [by apply list_elem_of_In|]. by rewrite Hsel, E.
Qed.

(** An up-to-date cache shows what is stored. *)
Lemma seen_list_current selected stored : seen_list selected [] stored = List.filter selected stored.
Proof. unfold seen_list. simpl. apply filter_ext. intros o. by rewrite andb_true_r. Qed.
End listing.

Section server.
Variable key : ObjectKey.

Definition search_get (v : SearchView) (k : Kind) (o : ObjectKey) (w : SearchCluster) :
    result GoError (obj k) :=
  match k as k return result GoError (obj k) with
  | KSearch =>
      if decide (o = key) then
        match Its_Search w, Seen_Search v with
        | Some s, Some s' => Ok (if decide (key_of KSearch s' = key) then with_search_status s' (Search_Status s) else s)
        | Some s, None => Ok s
        | None, Some s' => if decide (key_of KSearch s' = key) then Ok s' else Err APINotFound
        | None, None => Err APINotFound
        end
      else Err APINotFound
  | k => Seen_Crawlers v k o
  end.

Definition search_list (v : SearchView) (k : Kind) (opts : ListOptions) (w : SearchCluster) :
    result GoError (list (obj k)) :=
  match k as k return result GoError (list (obj k)) with
  | KPipeline => Ok (seen_list (key_of KPipeline) pipeline_complete
      (fun p => label_selects opts (Pipeline_Meta p)) (Seen_Pipelines v) (Pipelines w))
  | KSearch => Ok (seen_list (key_of KSearch) search_complete
      (fun s => label_selects opts (Search_Meta s)) (Seen_Searches v) (Searches w))
  | _ => Ok []
  end.

(** [CreateOrUpdate] on the objects of a kind; the program does not look at what
    it did. *)
Definition put {k} (stored : list (obj k)) (o : obj k) (mutate : obj k -> result GoError (obj k)) :
    result GoError (obj k * OperationResult) * list (obj k) :=
  match List.find (fun o' => bool_decide (key_of k o' = key_of k o)) stored with
  | None =>
      match mutate o with
      | Ok o => (Ok (o, OperationResultCreated), o :: stored)
      | Err e => (Err e, stored)
      end
  | Some o' =>
      match mutate o' with
      | Ok o' => (Ok (o', OperationResultUpdated),
                  o' :: List.filter (fun x => negb (bool_decide (key_of k x = key_of k o))) stored)
      | Err e => (Err e, stored)
      end
  end.

(** A new pod is pending from now on; of one that exists the status stays. *)
Definition created_pod (t : Time) (pod : Pod) : Pod :=
  let m := Pod_Meta pod in
  mkPod (mkObjectMeta (Name m) (GenerateName m) (Namespace m) (UID m) (Labels m) (Annotations m)
    t (DeletionTimestamp m) (Finalizers m) (OwnerReferences m)) (Pod_Spec pod) (mkPodStatus PodPending [] []).

Definition put_current_pod (pod : Pod) (mutate : Pod -> result GoError Pod) (w : SearchCluster) :
    result GoError (Pod * OperationResult) * SearchCluster :=
  match Its_Pod w with
  | None =>
      match mutate pod with
      | Ok pod => let pod := created_pod (Search_Clock w) pod in
                  (Ok (pod, OperationResultCreated), set_pod w (Some pod))
      | Err e => (Err e, w)
      end
  | Some pod =>
      match mutate pod with
      | Ok pod' => let pod' := mkPod (Pod_Meta pod') (Pod_Spec pod') (Pod_Status pod) in
                   (Ok (pod', OperationResultUpdated), set_pod w (Some pod'))
      | Err e => (Err e, w)
      end
  end.

(** An older version of the pod is taken as it is; with changes it would be
    refused. *)
Definition may_see_pod (pod : Pod) (w : SearchCluster) : Prop :=
  pod_over pod -> match Its_Pod w with Some pod0 => pod_over pod0 | None => True end.
#[local] Instance may_see_pod_dec pod w : Decision (may_see_pod pod w).
Proof. unfold may_see_pod. destruct (Its_Pod w); apply _. Defined.

Definition put_pod (v : SearchView) (pod : Pod) (mutate : Pod -> result GoError Pod) (w : SearchCluster) :
    result GoError (Pod * OperationResult) * SearchCluster :=
  match Seen_Pod v with
  | Some seen =>
      if decide (may_see_pod seen w) then
        match mutate seen with
        | Ok pod' => (Ok (mkPod (Pod_Meta pod') (Pod_Spec pod') (Pod_Status seen), OperationResultNone), w)
        | Err e => (Err e, w)
        end
      else put_current_pod pod mutate w
  | None => put_current_pod pod mutate w
  end.

Definition search_create_or_update (v : SearchView) (k : Kind) :
    obj k -> (obj k -> result GoError (obj k)) -> SearchCluster ->
    result GoError (obj k * OperationResult) * SearchCluster :=
  match k as k return obj k -> (obj k -> result GoError (obj k)) -> SearchCluster ->
      result GoError (obj k * OperationResult) * SearchCluster with
  | KServiceAccount => fun o mutate w =>
      let '(res, sas) := @put KServiceAccount (Accounts w) o mutate in
      (res, set_others w sas (Bindings w) (Search_Clock w))
  | KRoleBinding => fun o mutate w =>
      let '(res, rbs) := @put KRoleBinding (Bindings w) o mutate in
      (res, set_others w (Accounts w) rbs (Search_Clock w))
  | KPod => put_pod v
  | _ => fun _ _ w => (Err (APIError "unsupported"), w)
  end.

(** The only patch sets the service account; a write of the status leaves the
    rest as it is stored. *)
Definition search_patch (k : Kind) : obj k -> SearchCluster -> result GoError (obj k) * SearchCluster :=
  match k as k return obj k -> SearchCluster -> result GoError (obj k) * SearchCluster with
  | KSearch => fun s w =>
      match Its_Search w with
      | Some s0 =>
          let s := with_search_spec s0
            (with_service_account (Search_Spec s0) (SearchS_ServiceAccountName (Search_Spec s))) in
          (Ok s, set_search w (Some s))
      | None => (Err APINotFound, w)
      end
  | _ => fun _ w => (Err (APIError "unsupported"), w)
  end.

Definition search_status_update (k : Kind) : obj k -> SearchCluster -> result GoError (obj k) * SearchCluster :=
  match k as k return obj k -> SearchCluster -> result GoError (obj k) * SearchCluster with
  | KSearch => fun s w =>
      match Its_Search w with
      | Some s0 => let s := with_search_status s0 (Search_Status s) in (Ok s, set_search w (Some s))
      | None => (Err APINotFound, w)
      end
  | _ => fun _ w => (Err (APIError "unsupported"), w)
  end.

Definition search_delete (k : Kind) (w : SearchCluster) : result GoError unit * SearchCluster :=
  match k with
  | KSearch => match Its_Search w with
               | Some _ => (Ok tt, set_search w None)
               | None => (Err APINotFound, w)
               end
  | _ => (Err (APIError "unsupported"), w)
  end.

Definition search_serve (v : SearchView) : handler SearchCluster := fun X e w =>
  match e in Op X return X * SearchCluster with
  | Get k o => (search_get v k o w, w)
  | ListObjects k opts => (search_list v k opts w, w)
  | Create k o => (Err (APIError "unsupported"), w)
  | CreateOrUpdate k o mutate => search_create_or_update v k o mutate w
  | Patch k orig o => search_patch k o w
  | StatusPatch k orig o => (Err (APIError "unsupported"), w)
  | StatusUpdate k o => search_status_update k o w
  | Delete k o => search_delete k w
  | Now => (Search_Clock w, w)
  | UpdateMetric m labels op => (tt, w)
  end.
End server.

(** ** The system *)

Section system.
Context `{ControllerUtil} `{MapRange string} `{TemplateJSON}.
Variable r : SearchReconciler.
Variable key : ObjectKey.

(** What the search at [key] has scheduled. *)
Definition scheduled : ObjectMeta -> bool :=
  label_selects (mkListOptions (Key_Namespace key) (Some (ScheduledByLabelKey, Key_Name key)) None).

(** What happens besides: service accounts, role bindings and the clock; the pod
    makes progress until it is over, or goes away; while it is there and not
    over, its scheduler creates pipelines and searches, of which nobody else
    makes ones with the label of the search; pipelines and searches make
    progress - a complete one stays complete, and keeps its label - and go away;
    the search is edited, but for its status, or deleted. *)
Inductive search_environment (w : SearchCluster) : SearchCluster -> Prop :=
| wenv_others sas rbs t : search_environment w (set_others w sas rbs t)
| wenv_pod_reports pod st :
    Its_Pod w = Some pod -> ~ pod_over pod ->
    search_environment w (set_pod w (Some (mkPod (Pod_Meta pod) (Pod_Spec pod) st)))
| wenv_pod_removed : search_environment w (set_pod w None)
| wenv_pipeline_scheduled pod p :
    Its_Pod w = Some pod -> ~ pod_over pod -> search_environment w (set_pipelines w (p :: Pipelines w))
| wenv_search_scheduled pod s :
    Its_Pod w = Some pod -> ~ pod_over pod -> search_environment w (set_searches w (s :: Searches w))
| wenv_pipeline_created p :
    scheduled (Pipeline_Meta p) = false -> search_environment w (set_pipelines w (p :: Pipelines w))
| wenv_search_created s :
    scheduled (Search_Meta s) = false -> search_environment w (set_searches w (s :: Searches w))
| wenv_pipeline_progress before p p' after :
    Pipelines w = before ++ p :: after -> scheduled (Pipeline_Meta p') = scheduled (Pipeline_Meta p) ->
    (pipeline_complete p -> pipeline_complete p') ->
    search_environment w (set_pipelines w (before ++ p' :: after))
| wenv_search_progress before s s' after :
    Searches w = before ++ s :: after -> scheduled (Search_Meta s') = scheduled (Search_Meta s) ->
    (search_complete s -> search_complete s') ->
    search_environment w (set_searches w (before ++ s' :: after))
| wenv_pipeline_removed before p after :
    Pipelines w = before ++ p :: after -> search_environment w (set_pipelines w (before ++ after))
| wenv_search_removed before s after :
    Searches w = before ++ s :: after -> search_environment w (set_searches w (before ++ after))
| wenv_edited s s' :
    Its_Search w = Some s -> Search_Status s' = Search_Status s -> key_of KSearch s' = key_of KSearch s ->
    search_environment w (set_search w (Some s'))
| wenv_deleted : search_environment w (set_search w None).

Notation SearchSystem := (Execution Op SearchCluster Outcome).
Notation server := (search_serve key).

Definition search_steps : SearchSystem -> SearchSystem -> Prop :=
  execution_steps server (@call_error) search_environment (fun w => w) (Reconcile r key).

(** ** What the controller knows *)

(** The search is not complete; its pod is over, or gone; what it has scheduled
    is complete. *)
Definition open (w : SearchCluster) : Prop := forall s, Its_Search w = Some s -> ~ search_complete s.
Definition quiet (w : SearchCluster) : Prop := forall pod, Its_Pod w = Some pod -> pod_over pod.
Definition pipelines_done (w : SearchCluster) : Prop :=
  forall p, p ∈ Pipelines w -> scheduled (Pipeline_Meta p) = true -> pipeline_complete p.
Definition searches_done (w : SearchCluster) : Prop :=
  forall s, s ∈ Searches w -> scheduled (Search_Meta s) = true -> search_complete s.

(** The invariant: a complete search is settled. *)
Record sound (w : SearchCluster) : Prop := {
  sound_key s : Its_Search w = Some s -> key_of KSearch s = key;
  sound_settled s : Its_Search w = Some s -> search_complete s -> quiet w /\ pipelines_done w /\ searches_done w
}.

(** The stages of a reconciliation: nothing is known, the search is open, its pod
    is over, its pipelines are done, its searches are done too. *)
Record knows_up_to (n : nat) (w : SearchCluster) : Prop := {
  know_open : (1 <= n)%nat -> open w;
  know_quiet : (2 <= n)%nat -> quiet w;
  know_pipelines : (3 <= n)%nat -> pipelines_done w;
  know_searches : (4 <= n)%nat -> searches_done w
}.

Notation search_safe := (keeps server (@call_error) sound knows_up_to).

(** A change that takes nothing away. *)
Record harmless (w w' : SearchCluster) : Prop := {
  harmless_search s' : Its_Search w' = Some s' -> exists s, Its_Search w = Some s /\
    Search_Status s' = Search_Status s /\ key_of KSearch s' = key_of KSearch s;
  harmless_quiet : quiet w -> quiet w' /\ (pipelines_done w -> pipelines_done w') /\
    (searches_done w -> searches_done w')
}.

Lemma harmless_refl w : harmless w w.
Proof. by constructor; [eauto|]. Qed.

(** Of the search only, or of objects that do not matter. *)
Lemma harmless_set_search w s :
  (forall s', s = Some s' -> exists s0, Its_Search w = Some s0 /\ Search_Status s' = Search_Status s0 /\
    key_of KSearch s' = key_of KSearch s0) -> harmless w (set_search w s).
Proof. intros Hs. by constructor. Qed.

Lemma harmless_others w sas rbs t : harmless w (set_others w sas rbs t).
Proof. constructor; [by eauto|done]. Qed.

Lemma harmless_keeps w w' :
  harmless w w' -> sound w -> sound w' /\ forall n, knows_up_to n w -> knows_up_to n w'.
Proof.
  intros [Hs Hq] [Hkey Hset]. split.
  - constructor.
    + intros s' Hs'. destruct (Hs s' Hs') as (s & Hw & _ & ->). by apply Hkey.
    + intros s' Hs' Hc. destruct (Hs s' Hs') as (s & Hw & Hst & _).
      destruct (Hset s Hw) as (Q & P & S); [unfold search_complete; by rewrite <-Hst|].
      destruct (Hq Q) as (? & ? & ?). auto.
  - intros n [K1 K2 K3 K4]. constructor; intros Hn.
    + intros s' Hs' Hc. destruct (Hs s' Hs') as (s & Hw & Hst & _).
      apply (K1 Hn s Hw). unfold search_complete. by rewrite <-Hst.
    + by apply Hq, K2.
    + apply Hq; [apply K2; lia|by apply K3].
    + apply Hq; [apply K2; lia|by apply K4].
Qed.

(** Lists of which an element is added, changed or removed. *)
Section lists.
Context {A : Type} (P : A -> Prop).

Lemma all_changed before x x' after :
  (P x -> P x') -> (forall y, y ∈ before ++ x :: after -> P y) -> forall y, y ∈ before ++ x' :: after -> P y.
Proof.
  intros Hx Hall y [Hy|[->|Hy]%elem_of_cons]%elem_of_app.
  - apply Hall, elem_of_app. by left.
  - apply Hx, Hall, elem_of_app. right. by left.
  - apply Hall, elem_of_app. right. by right.
Qed.

Lemma all_removed before x after :
  (forall y, y ∈ before ++ x :: after -> P y) -> forall y, y ∈ before ++ after -> P y.
Proof.
  intros Hall y [Hy|Hy]%elem_of_app; apply Hall, elem_of_app; [by left|right; by right].
Qed.

Lemma all_added x (l : list A) : P x -> (forall y, y ∈ l -> P y) -> forall y, y ∈ x :: l -> P y.
Proof. by intros Hx Hl y [->|Hy]%elem_of_cons; [|apply Hl]. Qed.
End lists.

Lemma harmless_environment w w' : search_environment w w' -> harmless w w'.
Proof.
  destruct 1 as [sas rbs t|pod st Hp Ho| |pod p Hp Ho|pod s Hp Ho|p Hs|s Hs|before p p' after Hw Hs Hc
    |before s s' after Hw Hs Hc|before p after Hw|before s after Hw|s s' Hs Hst Hk|].
  - apply harmless_others.
  - constructor; [by eauto|]. intros Hq. by destruct (Ho (Hq pod Hp)).
  - constructor; [by eauto|done].
  - constructor; [by eauto|]. intros Hq. by destruct (Ho (Hq pod Hp)).
  - constructor; [by eauto|]. intros Hq. by destruct (Ho (Hq pod Hp)).
  - constructor; [by eauto|]. intros Hq. split_and!; [done| |done]. unfold pipelines_done. simpl.
    intros Hall. apply (all_added (fun p => scheduled (Pipeline_Meta p) = true -> pipeline_complete p)); [congruence|done].
  - constructor; [by eauto|]. intros Hq. split_and!; [done|done|]. unfold searches_done. simpl.
    intros Hall. apply (all_added (fun s => scheduled (Search_Meta s) = true -> search_complete s)); [congruence|done].
  - constructor; [by eauto|]. intros Hq. split_and!; [done| |done]. unfold pipelines_done. simpl. rewrite Hw.
    apply (all_changed (fun p => scheduled (Pipeline_Meta p) = true -> pipeline_complete p)). rewrite Hs. auto.
  - constructor; [by eauto|]. intros Hq. split_and!; [done|done|]. unfold searches_done. simpl. rewrite Hw.
    apply (all_changed (fun s => scheduled (Search_Meta s) = true -> search_complete s)). rewrite Hs. auto.
  - constructor; [by eauto|]. intros Hq. split_and!; [done| |done]. unfold pipelines_done. simpl. rewrite Hw.
    apply (all_removed (fun p => scheduled (Pipeline_Meta p) = true -> pipeline_complete p)).
  - constructor; [by eauto|]. intros Hq. split_and!; [done|done|]. unfold searches_done. simpl. rewrite Hw.
    apply (all_removed (fun s => scheduled (Search_Meta s) = true -> search_complete s)).
  - apply harmless_set_search. intros s0 [= <-]. by exists s.
  - by apply harmless_set_search.
Qed.

(** ** Operations *)

(** All but the two that matter: the pod, and the status of the search. *)
Definition harmless_op {X} (e : Op X) : Prop :=
  match e with
  | CreateOrUpdate KPod _ _ | StatusUpdate KSearch _ => False
  | _ => True
  end.

Lemma harmless_serve v X (e : Op X) w : harmless_op e -> harmless w (server v X e w).2.
Proof.
  destruct e as [k o|k opts|k o|k o mutate|k orig o|k orig o|k o|k o| |m labels mop]; simpl;
    try (intros; apply harmless_refl).
  - destruct k; simpl; try (intros; apply harmless_refl); [done|intros _..].
    + destruct (put _ _ _). apply harmless_others.
    + destruct (put _ _ _). apply harmless_others.
  - intros _. destruct k; simpl; try apply harmless_refl. destruct (Its_Search w) as [s0|] eqn:E; simpl; [|apply harmless_refl].
    apply harmless_set_search. intros s' [= <-]. by exists s0.
  - destruct k; simpl; try (intros; apply harmless_refl). done.
  - intros _. destruct k; simpl; try apply harmless_refl. destruct (Its_Search w) as [s0|] eqn:E; simpl; [|apply harmless_refl].
    by apply harmless_set_search.
Qed.

Lemma calm_harmless X (e : Op X) : harmless_op e -> calm server (@call_error) sound knows_up_to e.
Proof.
  intros He w x w' Hans. apply harmless_keeps.
  destruct Hans; [by apply harmless_serve|apply harmless_refl|by apply harmless_serve].
Qed.

Lemma safe_harmless {A X} (e : Op X) (k : X -> prog A) n :
  harmless_op e -> (forall x, search_safe (k x) n) -> search_safe (Vis e k) n.
Proof. intros He. by apply keeps_calm, calm_harmless. Qed.

Lemma safe_search_reads {A B} (p : prog A) (f : A -> prog B) n :
  all_events is_read p -> (forall a, search_safe (f a) n) -> search_safe (bind p f) n.
Proof.
  intros Hp Hf. apply (keeps_bind _ _ _ _ p f); [|exact Hf].
  eapply all_events_impl; [exact Hp|]. intros [X e x] Hr. apply calm_harmless. by destruct e.
Qed.

(** The search is read. *)
Lemma safe_search_get {A} (k : result GoError Search -> prog A) :
  (forall s, key_of KSearch s = key -> search_complete s -> search_safe (k (Ok s)) 0%nat) ->
  (forall s, key_of KSearch s = key -> ~ search_complete s -> search_safe (k (Ok s)) 1%nat) ->
  (forall e, search_safe (k (Err e)) 0%nat) -> search_safe (Vis (Get KSearch key) k) 0%nat.
Proof.
  intros Hdone Hopen Herr w x w' Hw Hn Hans.
  destruct Hans as [l|x [e ->]|l x [e ->]]; simpl; (split; [done|]); [|by exists 0%nat..].
  rewrite decide_True by done.
  assert (forall s, key_of KSearch s = key ->
    (forall s0, Its_Search w = Some s0 -> Search_Status s = Search_Status s0) ->
    exists n, knows_up_to n w /\ search_safe (k (Ok s)) n) as Hseen.
  { intros s Hkey Hst. destruct (SearchSt_CompletionTime (Search_Status s)) as [t|] eqn:Ec.
    - exists 0%nat. split; [done|]. apply Hdone; [done|]. unfold search_complete. by rewrite Ec.
    - exists 1%nat. split; [|apply Hopen; [done|]; intros Hc; by apply Hc].
      constructor; intros Hle; [|lia..]. intros s' Hs' Hc. apply Hc. by rewrite <-(Hst s' Hs'). }
  destruct (Its_Search w) as [s|] eqn:Es.
  - pose proof (sound_key w Hw s Es) as Hkey. destruct (Seen_Search l) as [s'|]; [|apply Hseen; [done|by intros s0 [= <-]]].
    destruct (decide _) as [Hk|]; apply Hseen; [exact Hk|by intros s0 [= <-]|done|by intros s0 [= <-]].
  - destruct (Seen_Search l) as [s'|]; [|by exists 0%nat]. destruct (decide _); [|by exists 0%nat].
    by apply Hseen.
Qed.

(** Its pod is made, or looked at. *)
Lemma put_pod_over v pod mutate w pod' u :
  (put_pod v pod mutate w).1 = Ok (pod', u) -> pod_over pod' -> quiet (put_pod v pod mutate w).2.
Proof.
  intros Hput Ho.
  assert ((put_current_pod pod mutate w).1 = Ok (pod', u) -> quiet (put_current_pod pod mutate w).2) as Hcurrent.
  { unfold put_current_pod, quiet. destruct (Its_Pod w); destruct (mutate _); try done; by intros [= <- <-] ? [= <-]. }
  unfold put_pod in *. destruct (Seen_Pod v) as [seen|]; [|by apply Hcurrent].
  destruct (decide (may_see_pod seen w)) as [Hsee|]; [|by apply Hcurrent].
  destruct (mutate seen) as [pod1|e]; [|done]. injection Hput as <- <-. intros pod0 Hp0. simpl in Hp0.
  unfold may_see_pod in Hsee. rewrite Hp0 in Hsee. by apply Hsee.
Qed.

Lemma safe_put_pod {A} pod mutate (k : result GoError (Pod * OperationResult) -> prog A) :
  (forall pod' u, pod_over pod' -> search_safe (k (Ok (pod', u))) 2%nat) ->
  (forall pod' u, ~ pod_over pod' -> search_safe (k (Ok (pod', u))) 1%nat) ->
  (forall e, search_safe (k (Err e)) 1%nat) -> search_safe (Vis (CreateOrUpdate KPod pod mutate) k) 1%nat.
Proof.
  intros Hover Hrun Herr w x w' Hw Hn Hans. pose proof (know_open 1%nat w Hn ltac:(lia)) as Hopen.
  assert (forall v, sound (set_pod w v) /\ knows_up_to 1%nat (set_pod w v)) as Hset.
  { intros v. split.
    - constructor; [apply (sound_key w Hw)|]. intros s Hs Hc. by destruct (Hopen s Hs).
    - constructor; intros Hle; [exact Hopen|lia..]. }
  assert (forall v, sound (put_pod v pod mutate w).2 /\ knows_up_to 1%nat (put_pod v pod mutate w).2) as Hput.
  { intros v. unfold put_pod. assert (sound (put_current_pod pod mutate w).2 /\ knows_up_to 1%nat (put_current_pod pod mutate w).2)
      by (unfold put_current_pod; destruct (Its_Pod w) as [pod0|]; destruct (mutate _); (apply Hset || done)).
    destruct (Seen_Pod v) as [seen|]; [|done]. destruct (decide _); [|done]. by destruct (mutate seen). }
  destruct Hans as [l|x [e ->]|l x [e ->]]; simpl; [|split; [done|]; by exists 1%nat|split; [apply Hput|]; exists 1%nat; split; [apply Hput|done]].
  destruct (Hput l) as [Hs1 Hk1]. split; [done|].
  pose proof (put_pod_over l pod mutate w) as Hpod.
  destruct (put_pod l pod mutate w).1 as [[pod' u]|e] eqn:Ea; [|exists 1%nat; auto].
  destruct (decide (pod_over pod')) as [Ho|Ho]; [|exists 1%nat; auto].
  exists 2%nat. split; [|by apply Hover]. constructor; intros Hle; [by apply (know_open 1%nat)| |lia..].
  intros pod0 Hp0. by apply (Hpod pod' u eq_refl Ho).
Qed.

Lemma knows_nothing w : knows_up_to 0 w.
Proof. constructor; lia. Qed.

Lemma knows_weaken n m w : (m <= n)%nat -> knows_up_to n w -> knows_up_to m w.
Proof. intros Hle [K1 K2 K3 K4]. constructor; intros Hm; [apply K1|apply K2|apply K3|apply K4]; lia. Qed.

(** What it has scheduled is listed. *)
Lemma safe_list_pipelines {A} (k : result GoError (list Pipeline) -> prog A) opts :
  (forall m, label_selects opts m = scheduled m) ->
  (forall ps, Forall pipeline_complete ps -> search_safe (k (Ok ps)) 3%nat) ->
  (forall ps, ~ Forall pipeline_complete ps -> search_safe (k (Ok ps)) 2%nat) -> (forall e, search_safe (k (Err e)) 2%nat) ->
  search_safe (Vis (ListObjects KPipeline opts) k) 2%nat.
Proof.
  intros Hopts Hdone Hany Herr w x w' Hw Hn Hans.
  destruct Hans as [l|x [e ->]|l x [e ->]]; simpl; (split; [done|]); [|by exists 2%nat..].
  set (ps := seen_list _ _ _ _ (Pipelines w)).
  destruct (decide (Forall pipeline_complete ps)) as [Hall|]; [|exists 2%nat; auto].
  exists 3%nat. split; [|by apply Hdone]. destruct Hn as [K1 K2 _ _].
  constructor; intros Hle; [apply K1; lia|apply K2; lia| |lia]. intros p Hp Hs.
  eapply seen_list_complete; [exact Hall|done|]. by rewrite <-Hs, <-Hopts.
Qed.

Lemma safe_list_searches {A} (k : result GoError (list Search) -> prog A) opts :
  (forall m, label_selects opts m = scheduled m) ->
  (forall ss, Forall search_complete ss -> search_safe (k (Ok ss)) 4%nat) ->
  (forall ss, ~ Forall search_complete ss -> search_safe (k (Ok ss)) 3%nat) -> (forall e, search_safe (k (Err e)) 3%nat) ->
  search_safe (Vis (ListObjects KSearch opts) k) 3%nat.
Proof.
  intros Hopts Hdone Hany Herr w x w' Hw Hn Hans.
  destruct Hans as [l|x [e ->]|l x [e ->]]; simpl; (split; [done|]); [|by exists 3%nat..].
  set (ss := seen_list _ _ _ _ (Searches w)).
  destruct (decide (Forall search_complete ss)) as [Hall|]; [|exists 3%nat; auto].
  exists 4%nat. split; [|by apply Hdone]. destruct Hn as [K1 K2 K3 _].
  constructor; intros Hle; [apply K1; lia|apply K2; lia|apply K3; lia|]. intros s Hs Hl.
  eapply seen_list_complete; [exact Hall|done|]. by rewrite <-Hl, <-Hopts.
Qed.

(** Its status is written: a completion only when all is known to be done. *)
Lemma safe_search_status {A} s (k : result GoError Search -> prog A) n :
  (search_complete s -> n = 4%nat) -> (forall x, search_safe (k x) 0%nat) ->
  search_safe (Vis (StatusUpdate KSearch s) k) n.
Proof.
  intros Hc Hk w x w' Hw Hn Hans. split; [|exists 0%nat; by split; [apply knows_nothing|]].
  assert (sound (search_status_update KSearch s w).2) as Hserved.
  { simpl. destruct (Its_Search w) as [s0|] eqn:Es; [|done]. simpl. constructor.
    - intros s' [= <-]. exact (sound_key w Hw s0 Es).
    - intros s' [= <-] Hs'. rewrite (Hc Hs') in Hn. destruct Hn as [_ K2 K3 K4].
      split; [apply K2; lia|]. split; [apply K3; lia|apply K4; lia]. }
  by destruct Hans.
Qed.

(** ** A reconciliation *)

Lemma scheduled_by_selects s m :
  key_of KSearch s = key -> label_selects (scheduled_by s) m = scheduled m.
Proof. unfold scheduled. by intros <-. Qed.

Lemma safe_record_completion labels s : search_safe (record_completion labels s) 4%nat.
Proof.
  unfold record_completion. apply safe_search_status; [done|]. intros [s'|e]; [|done]. simpl.
  destruct (SearchSt_CompletionTime _); [|done]. unfold deref. destruct (SearchSt_StartTime _); [|done].
  by apply safe_harmless.
Qed.

Lemma filter_some_incomplete {A} (f : A -> option Time) (l : list A) :
  ~ Forall (fun x => f x <> None) l -> (0 <? length (List.filter (fun x => is_none (f x)) l))%nat = true.
Proof.
  intros Hl. destruct (List.filter _ l) eqn:E; [|done]. by apply filter_none_complete in E.
Qed.

(** The part of [handleCompletion] after the listings. *)
Definition complete_by_phase (search : Search) (pod : Pod) : prog Outcome :=
  match Pod_Phase (Pod_Status pod) with
  | PodFailed =>
      bind (mark_complete search ConditionFalse "SearchJobFailed" "Search reported a container failure.")
        (record_completion (search_metric_labels search))
  | PodSucceeded =>
      bind (mark_complete search ConditionTrue "SearchPodSucceeded" "Search completed successfully.")
        (record_completion (search_metric_labels search))
  | PodPending | PodRunning => Ret (emptyResult, None)
  | PodUnknown | PodPhaseEmpty => Ret (requeue_after (10 * Second), None)
  end.

Lemma safe_by_phase s pod n :
  (pod_over pod -> n = 4%nat) -> search_safe (complete_by_phase s pod) n.
Proof.
  intros Hn. unfold complete_by_phase, mark_complete.
  destruct (Pod_Phase (Pod_Status pod)) eqn:Ep; try done; rewrite Hn by (unfold pod_over; auto);
    (destruct (SearchSt_CompletionTime _); [apply safe_record_completion|]);
    (apply safe_harmless; [done|]); intros t; apply safe_record_completion.
Qed.

Lemma safe_search_completion s pod n :
  key_of KSearch s = key -> (pod_over pod -> n = 2%nat) -> search_safe (handleCompletion s pod) n.
Proof.
  intros Hkey Hpod.
  assert (handleCompletion s pod = bind (retrieveRunningScheduledResources s) (fun res =>
    match res with
    | Err e => Ret (emptyResult, Some e)
    | Ok (ps, ss) => if ((0 <? length ps)%nat || (0 <? length ss)%nat)%bool
                     then Ret (requeue_after (Second * 10), None) else complete_by_phase s pod
    end)) as -> by done.
  destruct (decide (Pod_Phase (Pod_Status pod) = PodSucceeded \/ Pod_Phase (Pod_Status pod) = PodFailed)) as [Ho|Ho].
  - rewrite (Hpod Ho). unfold retrieveRunningScheduledResources. fold (scheduled_by s).
    assert (forall m, label_selects (scheduled_by s) m = scheduled m) as Hopts by (intros m; by apply scheduled_by_selects).
    apply safe_list_pipelines; [done| |intros ps Hps|done].
    + intros ps Hps. apply safe_list_searches; [done| |intros ss Hss|done].
      * intros ss Hss. simpl. destruct (_ || _); [done|]. by apply safe_by_phase.
      * simpl. rewrite (filter_some_incomplete _ _ Hss), orb_true_r. done.
    + apply safe_harmless; [done|]. intros [ss|e]; [|done]. simpl.
      by rewrite (filter_some_incomplete _ _ Hps).
  - apply safe_search_reads; [apply retrieveRunning_reads|]. intros [[ps ss]|e]; [|done].
    destruct (_ || _); [done|]. by apply safe_by_phase.
Qed.

Lemma safe_search_ttl s n : search_safe (handlePostCompletion s) n.
Proof.
  unfold handlePostCompletion, deref. destruct (SearchS_TTLSecondsAfterFinished _); [|done].
  destruct (SearchSt_CompletionTime _); [|done]. apply safe_harmless; [done|]. intros now. simpl.
  destruct (time_after _ _); (apply safe_harmless; [done|]); done.
Qed.

Lemma safe_reconcile_objects s crawler :
  key_of KSearch s = key -> ~ search_complete s -> search_safe (reconcile_objects r s crawler) 1%nat.
Proof.
  intros Hkey Hopen. unfold reconcile_objects. apply safe_harmless; [done|]. intros [[sa u]|e]; [|done].
  apply safe_harmless; [done|]. intros [[rb u']|e]; [|done].
  assert (forall pod n, (pod_over pod -> n = 2%nat) -> search_safe
    match SearchSt_StartTime (Search_Status s) with
    | None => bind (op Now) (fun startTime => bind (updateStatus KSearch (with_search_status s
        (started_search_status (Search_Status s) pod startTime))) (fun res => Ret (emptyResult, err_of res)))
    | Some _ => handleCompletion s pod
    end n) as Hrest.
  { intros pod n Hn. destruct (SearchSt_StartTime _); [by apply safe_search_completion|].
    apply safe_harmless; [done|]. intros t. by apply safe_search_status. }
  apply safe_put_pod; [intros pod u2 Ho; by apply Hrest|intros pod u2 Ho; by apply Hrest|done].
Qed.

Lemma safe_search_reconcile : search_safe (Reconcile r key) 0%nat.
Proof.
  unfold Reconcile. apply safe_search_get; [intros s Hkey Hc|intros s Hkey Hc|done]; simpl.
  - destruct (SearchSt_CompletionTime (Search_Status s)) eqn:E; [apply safe_search_ttl|by destruct Hc].
  - destruct (SearchSt_CompletionTime (Search_Status s)) eqn:E; [by destruct Hc; unfold search_complete; rewrite E|].
    apply safe_search_reads; [apply CrawlerInvocation_reads|]. intros [crawler [e|]]; [done|].
    destruct (String.eqb _ _); [|by apply safe_reconcile_objects].
    apply safe_harmless; [done|]. done.
Qed.

(** The invariant holds in every execution. *)
Lemma search_steps_sound w out st :
  sound w -> search_steps (mkExecution w (Ret out)) st -> sound (Exec_State st).
Proof.
  intros Hw Hsteps. apply (execution_invariant server (@call_error) search_environment (fun w => w) (Reconcile r key)
    sound knows_up_to 0%nat w out st); [apply knows_nothing|apply safe_search_reconcile| |done|done|done].
  intros v v' Henv. by apply harmless_keeps, harmless_environment.
Qed.

End system.

(** ** An example, and what a stale cache breaks *)

Module SearchSystem_example.
Import SearchSafety.Search_example.
#[local] Existing Instance controller_util_model.
#[local] Existing Instance one_template.
#[local] Existing Instance search_range.

Definition key : ObjectKey := mkObjectKey "ns" "s".

Definition crawlers : forall k : Kind, ObjectKey -> result GoError (obj k) := fun k o =>
  match k as k return result GoError (obj k) with
  | KCrawler => Ok (mkCrawler (meta_named "github" "ns") (Inv_Spec crawler))
  | _ => Err APINotFound
  end.

(** A pipeline the search has scheduled, complete or not. *)
Definition child (completion : option Time) : Pipeline :=
  mkPipeline (with_labels (meta_named "s-1" "ns") {[ ScheduledByLabelKey := "s" ]}) zero_PipelineSpec
    (mkPipelineStatus [] (Some 1) completion PipelineSucceeded
       (mkStageStatuses PipelineStageEmpty PipelineStageEmpty PipelineStageEmpty)).

(** The pod of the search is over. *)
Definition cluster (completion : option Time) : SearchCluster :=
  mkSearchCluster (Some (search (Some 5) None)) (Some finished_pod) [child completion] [] [] [] (100 * Second).

Definition after (w : SearchCluster) : SearchCluster :=
  (exec (search_serve key (current_view crawlers)) (Reconcile searchReconciler key) w).2.

(** A reconciliation that sees the pipeline as it was before it was complete. *)
Definition earlier_view : SearchView := mkSearchView crawlers None None [child None] [].
Definition seen_earlier (w : SearchCluster) : SearchCluster :=
  (exec (search_serve key earlier_view) (Reconcile searchReconciler key) w).2.
Definition completion_of (w : SearchCluster) : option (option Time) :=
  (fun s => SearchSt_CompletionTime (Search_Status s)) <$> Its_Search w.

Lemma cluster_sound completion : sound key (cluster completion).
Proof. constructor; [by intros s [= <-]|]. intros s [= <-] Hc. by destruct Hc. Qed.

Lemma reconciled v w out : exists out', search_steps searchReconciler key (mkExecution w (Ret out))
  (mkExecution (exec (search_serve key v) (Reconcile searchReconciler key) w).2 (Ret out')).
Proof. eexists. eapply rtc_l; [apply step_begin|]. apply (exec_steps (search_serve key) _ _ _ _ v). Qed.


(** A server that lists the pipelines from a cache that has not seen the last
    one: the search is marked as complete while its pipeline runs. *)
Definition stale_listing : handler SearchCluster := fun X e w =>
  let '(x, w') := search_serve key (current_view crawlers) X e w in
  (match e in Op X return X -> X with
   | ListObjects KPipeline opts => fun _ => Ok []
   | _ => fun x => x
   end x, w').

Lemma stale_listing_completes_early :
  let w := (exec stale_listing (Reconcile searchReconciler key) (cluster None)).2 in
  completion_of w = Some (Some (100 * Second)) /\ ~ pipelines_done key w.
Proof.
  split; [vm_compute; reflexivity|]. intros Hdone.
  assert (child None ∈ Pipelines (exec stale_listing (Reconcile searchReconciler key) (cluster None)).2) as Hin
    by (vm_compute; left).
  by destruct (Hdone _ Hin eq_refl).
Qed.
End SearchSystem_example.
