(* ===== verification/SearchRun.v ===== *)
(** * A search from its crawler to its completion

    The cluster of SearchSystem with the process in the pod of the search: the
    scheduler of cmd/scheduler, with the environment the kubelet gives it,
    creates what its crawler asks for.  The controller, the process and
    everybody else take turns at every operation.  A search that is reported as
    a success was run to its end by some pod: every target that was decoded
    there was created or refused, and everything that was created, by any pod of
    the search, is complete or gone. *)

From Stdlib Require Import ZArith Lia String Ascii.
From S2P Require Import Prelude Effects Execution GoStd K8s Api Client Resources Containers ControllerCommon SearchController SearchSafety Kubelet Scheduler SchedulerSafety SearchSystem.

Local Open Scope string_scope.
Local Open Scope Z_scope.
Local Open Scope list_scope.

(** ** The state *)

(** The process of the scheduler: its environment, the template it has read,
    and what has happened so far. *)
Record SchedulerProcess := mkSchedulerProcess {
  Process_Env : string -> string;
  Process_Template : PipelineTemplate;
  Process_Log : list SchedulerEvent
}.

(** The cluster and the process of the pod that is there.  Three histories
    record what there was: the logs of the processes that ended well, and the
    keys of the pipelines and searches that were created, with what was asked
    for. *)
Record SearchRun := mkSearchRun {
  Cluster : SearchCluster;
  Process : option SchedulerProcess;
  Succeeded : list (list SchedulerEvent);
  Made_Pipelines : list (Target * ObjectKey);
  Made_Searches : list (ParameterizedLocalObjectReference * ObjectKey)
}.

Definition set_cluster (w : SearchRun) (c : SearchCluster) : SearchRun :=
  mkSearchRun c (Process w) (Succeeded w) (Made_Pipelines w) (Made_Searches w).
Definition set_process (w : SearchRun) (p : option SchedulerProcess) : SearchRun :=
  mkSearchRun (Cluster w) p (Succeeded w) (Made_Pipelines w) (Made_Searches w).

(** A created object gets a name. *)
Definition with_name (m : ObjectMeta) (n : string) : ObjectMeta :=
  mkObjectMeta n (GenerateName m) (Namespace m) (UID m) (Labels m) (Annotations m)
    (CreationTimestamp m) (DeletionTimestamp m) (Finalizers m) (OwnerReferences m).
Definition named_pipeline (n : string) (p : Pipeline) : Pipeline :=
  mkPipeline (with_name (Pipeline_Meta p) n) (Pipeline_Spec p) (Pipeline_Status p).
Definition named_search (n : string) (s : Search) : Search :=
  mkSearch (with_name (Search_Meta s) n) (Search_Spec s) (Search_Status s).

(** What a step of the scheduler creates, and whether it is told so. *)
Definition created_target (s : Scheduler) (ev : SchedulerEvent) : option Target :=
  match ev, Create_State (Targets s) with
  | TargetEvent (Created _), Creating t => Some t
  | _, _ => None
  end.
Definition created_reference (s : Scheduler) (ev : SchedulerEvent) : option ParameterizedLocalObjectReference :=
  match ev, Create_State (Scheduler.Crawlers s) with
  | CrawlerEvent (Created _), Creating t => Some t
  | _, _ => None
  end.
Definition refused (ev : SchedulerEvent) : bool :=
  match ev with
  | TargetEvent (Created (Some _)) | CrawlerEvent (Created (Some _)) => true
  | _ => false
  end.

Section run.
Context `{ControllerUtil} `{MapRange string} `{TemplateJSON} `{Kubelet}.
Variable r : SearchReconciler.
Variable key : ObjectKey.

(** The process of a new pod: the container reads the template from the
    annotation, through the volume of the pod. *)
Definition started_process (pod : Pod) : option SchedulerProcess :=
  match PS_Containers (Pod_Spec pod), Annotations (Pod_Meta pod) !! PipelineTemplateAnnotation with
  | [c], Some json =>
      match unmarshal_template json with
      | Ok template => Some (mkSchedulerProcess (getenv pod c) template [])
      | Err _ => None
      end
  | _, _ => None
  end.

(** Only after a pod of the search has succeeded is one seen so. *)
Definition run_view (w : SearchRun) (v : SearchView) : SearchView :=
  match Seen_Pod v, Succeeded w with
  | Some pod, [] =>
      if decide (Pod_Phase (Pod_Status pod) = PodSucceeded)
      then mkSearchView (Seen_Crawlers v) (Seen_Search v) None (Seen_Pipelines v) (Seen_Searches v) else v
  | _, _ => v
  end.

Definition run_serve (v : SearchView) : handler SearchRun := fun X e w =>
  let '(x, c) := search_serve key (run_view w v) X e (Cluster w) in
  (x, set_process (set_cluster w c)
        match Its_Pod (Cluster w), Its_Pod c with
        | None, Some pod => started_process pod
        | _, _ => Process w
        end).

(** A change by others: it leaves the pod alone, and the objects it makes have
    neither the label of the search nor the name of one of its own; the names
    and the label of the others stay. *)
Definition foreign {A} (meta : A -> ObjectMeta) (made : list ObjectKey) (before after : list A) : Prop :=
  forall o, o ∈ after ->
    (exists o', o' ∈ before /\ Name (meta o) = Name (meta o') /\ Namespace (meta o) = Namespace (meta o') /\
      scheduled key (meta o) = scheduled key (meta o')) \/
    (scheduled key (meta o) = false /\ mkObjectKey (Namespace (meta o)) (Name (meta o)) ∉ made).

(** A step of the process, from a state of its scheduler. *)
Definition process_step (w : SearchRun) (p : SchedulerProcess) (ev : SchedulerEvent) (s s' : Scheduler) : Prop :=
  Process w = Some p /\ (exists pod, Its_Pod (Cluster w) = Some pod /\ ~ pod_over pod) /\
  Schedule_run Schedule_start (Process_Log p) = Some s /\ Schedule_step ev s = Some s'.
Definition logged (p : SchedulerProcess) (ev : SchedulerEvent) : option SchedulerProcess :=
  Some (mkSchedulerProcess (Process_Env p) (Process_Template p) (Process_Log p ++ [ev])).

Inductive run_environment (w : SearchRun) : SearchRun -> Prop :=
| renv_foreign c :
    search_environment key (Cluster w) c -> Its_Pod c = Its_Pod (Cluster w) ->
    foreign Pipeline_Meta (Made_Pipelines w).*2 (Pipelines (Cluster w)) (Pipelines c) ->
    foreign Search_Meta (Made_Searches w).*2 (Searches (Cluster w)) (Searches c) ->
    run_environment w (set_cluster w c)
| renv_pod_reports pod st :
    Its_Pod (Cluster w) = Some pod -> ~ pod_over pod -> Pod_Phase st <> PodSucceeded ->
    run_environment w (set_cluster w (set_pod (Cluster w) (Some (mkPod (Pod_Meta pod) (Pod_Spec pod) st))))
(** The pod succeeds: its process has ended, after its hook has returned. *)
| renv_pod_succeeds pod st p s :
    Its_Pod (Cluster w) = Some pod -> ~ pod_over pod -> Process w = Some p ->
    Schedule_run Schedule_start (Process_Log p) = Some s -> ScheduleHook s = Returned ->
    Pod_Phase st = PodSucceeded ->
    run_environment w (mkSearchRun (set_pod (Cluster w) (Some (mkPod (Pod_Meta pod) (Pod_Spec pod) st)))
      (Process w) (Process_Log p :: Succeeded w) (Made_Pipelines w) (Made_Searches w))
| renv_pod_removed : run_environment w (set_process (set_cluster w (set_pod (Cluster w) None)) None)
(** A step of the process that makes nothing: none that creates, or one that is
    refused. *)
| renv_process p ev s s' :
    process_step w p ev s s' ->
    (created_target s ev = None /\ created_reference s ev = None \/ refused ev = true) ->
    run_environment w (set_process w (logged p ev))
(** A pipeline or a search is created under a new name; the answer may be lost. *)
| renv_pipeline p ev s s' t n :
    process_step w p ev s s' -> created_target s ev = Some t ->
    let o := named_pipeline n (scheduled_pipeline (Process_Env p) (Process_Template p) t) in
    (forall o', o' ∈ Pipelines (Cluster w) -> key_of KPipeline o' <> key_of KPipeline o) ->
    run_environment w (mkSearchRun (set_pipelines (Cluster w) (o :: Pipelines (Cluster w))) (logged p ev)
      (Succeeded w) ((t, key_of KPipeline o) :: Made_Pipelines w) (Made_Searches w))
| renv_search p ev s s' t n :
    process_step w p ev s s' -> created_reference s ev = Some t ->
    let o := named_search n (scheduled_search (Process_Env p) (Process_Template p) t) in
    (forall o', o' ∈ Searches (Cluster w) -> key_of KSearch o' <> key_of KSearch o) ->
    run_environment w (mkSearchRun (set_searches (Cluster w) (o :: Searches (Cluster w))) (logged p ev)
      (Succeeded w) (Made_Pipelines w) ((t, key_of KSearch o) :: Made_Searches w)).

Definition run_steps : Execution Op SearchRun Outcome -> Execution Op SearchRun Outcome -> Prop :=
  execution_steps run_serve (@call_error) run_environment (fun w => w) (Reconcile r key).

(** ** The cluster without its process *)

Lemma run_answers {X} (e : Op X) w x w' :
  answers run_serve (@call_error) e w x w' ->
  answers (search_serve key) (@call_error) e (Cluster w) x (Cluster w').
Proof.
  destruct 1 as [l|x Hx|l x Hx].
  - unfold run_serve. pose proof (answer_served (search_serve key) (@call_error) e (Cluster w) (run_view w l)) as Ha.
    by destruct (search_serve key (run_view w l) X e (Cluster w)) as [x c].
  - by apply answer_failed.
  - unfold run_serve. pose proof (answer_lost (search_serve key) (@call_error) e (Cluster w) (run_view w l) x Hx) as Ha.
    by destruct (search_serve key (run_view w l) X e (Cluster w)) as [y c].
Qed.

Lemma run_environment_cluster w w' :
  run_environment w w' -> rtc (search_environment key) (Cluster w) (Cluster w').
Proof.
  destruct 1 as [c He _ _ _|pod st Hp Ho _|pod st p s Hp Ho _ _ _ _| |p ev s s' _ _
    |p ev s s' t n (_ & (pod & Hp & Ho) & _) _ o _|p ev s s' t n (_ & (pod & Hp & Ho) & _) _ o _]; simpl.
  - by apply rtc_once.
  - by apply rtc_once, wenv_pod_reports.
  - by apply rtc_once, wenv_pod_reports.
  - apply rtc_once, wenv_pod_removed.
  - apply rtc_refl.
  - by eapply rtc_once, wenv_pipeline_scheduled.
  - by eapply rtc_once, wenv_search_scheduled.
Qed.

Lemma run_steps_cluster s s' : run_steps s s' ->
  search_steps r key (mkExecution (Cluster (Exec_State s)) (Exec_Todo s))
    (mkExecution (Cluster (Exec_State s')) (Exec_Todo s')).
Proof.
  induction 1 as [s|s1 s2 s3 Hstep _ IH]; [apply rtc_refl|]. unfold search_steps, execution_steps in *; etransitivity; [clear IH|exact IH].
  destruct Hstep as [w w' todo He|w a|w X e k x w' Hans|w todo a]; simpl.
  - apply run_environment_cluster in He. induction He as [c|c1 c2 c3 He _ IH]; [apply rtc_refl|].
    eapply rtc_l; [by apply step_environment|done].
  - apply rtc_once, step_begin.
  - apply rtc_once. apply step_call. by apply run_answers.
  - apply rtc_once. apply (step_restart _ _ _ (fun w => w)).
Qed.

(** ** What is true of a run *)

(** The search is marked as a success. *)
Definition success (s : Search) : Prop :=
  exists c, c ∈ SearchSt_Conditions (Search_Status s) /\
    Cond_Type c = CompletedSuccessfullyConditionType /\ Cond_Status c = ConditionTrue.

(** Everything a log creates was refused or is among what was made. *)
Definition tracked (ps : list (Target * ObjectKey)) (ss : list (ParameterizedLocalObjectReference * ObjectKey))
    (log : list SchedulerEvent) : Prop :=
  forall pre ev post s, log = pre ++ ev :: post -> Schedule_run Schedule_start pre = Some s ->
    (forall t, created_target s ev = Some t -> refused ev = true \/ exists k, (t, k) ∈ ps) /\
    (forall t, created_reference s ev = Some t -> refused ev = true \/ exists k, (t, k) ∈ ss).

Definition made_are_scheduled (w : SearchRun) : Prop :=
  (forall t k p, (t, k) ∈ Made_Pipelines w -> p ∈ Pipelines (Cluster w) -> key_of KPipeline p = k ->
    scheduled key (Pipeline_Meta p) = true) /\
  (forall t k s, (t, k) ∈ Made_Searches w -> s ∈ Searches (Cluster w) -> key_of KSearch s = k ->
    scheduled key (Search_Meta s) = true).

Definition process_ok (w : SearchRun) (p : SchedulerProcess) : Prop :=
  Process_Env p EnvVarSearchName = Key_Name key /\ Process_Env p EnvVarNamespaceName = Key_Namespace key /\
  is_Some (Schedule_run Schedule_start (Process_Log p)) /\
  tracked (Made_Pipelines w) (Made_Searches w) (Process_Log p).

Definition log_done (w : SearchRun) (log : list SchedulerEvent) : Prop :=
  (exists s, Schedule_run Schedule_start log = Some s /\ ScheduleHook s = Returned) /\
  tracked (Made_Pipelines w) (Made_Searches w) log.

Record run_sound (w : SearchRun) : Prop := {
  run_key s : Its_Search (Cluster w) = Some s -> key_of KSearch s = key;
  run_success s : Its_Search (Cluster w) = Some s -> success s -> Succeeded w <> [];
  run_pod pod : Its_Pod (Cluster w) = Some pod -> Pod_Phase (Pod_Status pod) = PodSucceeded -> Succeeded w <> [];
  run_process p : Process w = Some p -> process_ok w p;
  run_succeeded log : log ∈ Succeeded w -> log_done w log;
  run_made : made_are_scheduled w
}.

(** What a reconciliation knows: that a pod has succeeded, unless the search is
    gone. *)
Definition knows_success (b : bool) (w : SearchRun) : Prop :=
  b = true -> Succeeded w <> [] \/ Its_Search (Cluster w) = None.

Lemma tracked_mono ps ps' ss ss' log : ps ⊆ ps' -> ss ⊆ ss' -> tracked ps ss log -> tracked ps' ss' log.
Proof.
  intros Hps Hss Ht pre ev post s Hlog Hrun. destruct (Ht pre ev post s Hlog Hrun) as [Ha Hb]. split.
  - intros t Hc. destruct (Ha t Hc) as [?|[k ?]]; [by left|right; exists k; auto].
  - intros t Hc. destruct (Hb t Hc) as [?|[k ?]]; [by left|right; exists k; auto].
Qed.

Lemma tracked_snoc ps ss log ev s :
  Schedule_run Schedule_start log = Some s -> tracked ps ss log ->
  (forall t, created_target s ev = Some t -> refused ev = true \/ exists k, (t, k) ∈ ps) ->
  (forall t, created_reference s ev = Some t -> refused ev = true \/ exists k, (t, k) ∈ ss) ->
  tracked ps ss (log ++ [ev]).
Proof.
  intros Hrun Ht Ha Hb pre ev' post s' Hlog Hrun'.
  destruct post as [|x post _] using rev_ind.
  - apply app_inj_tail in Hlog as [-> ->]. simplify_eq. auto.
  - rewrite app_comm_cons, app_assoc in Hlog. apply app_inj_tail in Hlog as [-> _]. by eapply Ht.
Qed.

(** A change that keeps the pod, or removes it, and the processes. *)
Lemma sound_kept w c p' :
  run_sound w ->
  (forall s', Its_Search c = Some s' -> exists s, Its_Search (Cluster w) = Some s /\
    Search_Status s' = Search_Status s /\ key_of KSearch s' = key_of KSearch s) ->
  (forall pod, Its_Pod c = Some pod -> Pod_Phase (Pod_Status pod) = PodSucceeded ->
    exists pod', Its_Pod (Cluster w) = Some pod' /\ Pod_Phase (Pod_Status pod') = PodSucceeded) ->
  (forall p, p' = Some p -> process_ok w p) ->
  made_are_scheduled (set_cluster w c) ->
  run_sound (set_process (set_cluster w c) p').
Proof.
  intros [Hk Hs Hp Hpr Hlog Hm] Hsearch Hpod Hproc Hmade. constructor; simpl; try done.
  - intros s' Hs'. destruct (Hsearch s' Hs') as (s & ? & _ & ->). by apply Hk.
  - intros s' Hs' Hsuc. destruct (Hsearch s' Hs') as (s & Hw & Hst & _). apply (Hs s Hw).
    unfold success. by rewrite <-Hst.
  - intros pod Hpo Hph. destruct (Hpod pod Hpo Hph) as (pod' & ? & ?). by eapply Hp.
Qed.

Lemma made_foreign w c :
  made_are_scheduled w ->
  foreign Pipeline_Meta (Made_Pipelines w).*2 (Pipelines (Cluster w)) (Pipelines c) ->
  foreign Search_Meta (Made_Searches w).*2 (Searches (Cluster w)) (Searches c) ->
  made_are_scheduled (set_cluster w c).
Proof.
  intros [Hm1 Hm2] Hf1 Hf2. split; simpl.
  - intros t k p Hk Hp Hkey. destruct (Hf1 p Hp) as [(p0 & Hp0 & Hn & Hns & ->)|[_ Hnot]].
    + apply (Hm1 t k p0 Hk Hp0). rewrite <-Hkey. unfold key_of. simpl. by rewrite Hn, Hns.
    + destruct Hnot. rewrite <-Hkey in Hk. apply list_elem_of_fmap. by exists (t, key_of KPipeline p).
  - intros t k p Hk Hp Hkey. destruct (Hf2 p Hp) as [(p0 & Hp0 & Hn & Hns & ->)|[_ Hnot]].
    + apply (Hm2 t k p0 Hk Hp0). rewrite <-Hkey. unfold key_of. simpl. by rewrite Hn, Hns.
    + destruct Hnot. rewrite <-Hkey in Hk. apply list_elem_of_fmap. by exists (t, key_of KSearch p).
Qed.

(** What the scheduler creates has the label of the search. *)
Lemma scheduled_objects p n t ref :
  Process_Env p EnvVarSearchName = Key_Name key -> Process_Env p EnvVarNamespaceName = Key_Namespace key ->
  scheduled key (Pipeline_Meta (named_pipeline n (scheduled_pipeline (Process_Env p) (Process_Template p) t))) = true /\
  scheduled key (Search_Meta (named_search n (scheduled_search (Process_Env p) (Process_Template p) ref))) = true.
Proof.
  intros Hn Hns. unfold scheduled, label_selects. simpl. rewrite Hns, String.eqb_refl, orb_true_r. simpl.
  split; apply bool_decide_eq_true; unfold scheduledByLabels, MergeMaps; rewrite ?Hn.
  - by rewrite lookup_maps_copy, lookup_singleton_eq.
  - by rewrite lookup_singleton_eq.
Qed.

(** ** Steps of the environment *)

Lemma process_ok_logged w p ev s s' ps ss p' :
  run_sound w -> process_step w p ev s s' -> (Made_Pipelines w) ⊆ ps -> (Made_Searches w) ⊆ ss ->
  (forall t, created_target s ev = Some t -> refused ev = true \/ exists k, (t, k) ∈ ps) ->
  (forall t, created_reference s ev = Some t -> refused ev = true \/ exists k, (t, k) ∈ ss) ->
  logged p ev = Some p' ->
  forall c sc, process_ok (mkSearchRun c (Some p') sc ps ss) p'.
Proof.
  intros Hw (Hp & _ & Hrun & Hstep) Hps Hss Ht Hr [= <-] c sc.
  destruct (run_process w Hw p Hp) as (Hn & Hns & _ & Htr). split; [done|]. split; [done|]. simpl. split.
  - rewrite Schedule_run_app, Hrun. simpl. rewrite Hstep. eauto.
  - eapply tracked_snoc; [exact Hrun| |done|done]. by eapply tracked_mono.
Qed.

Lemma log_done_mono w w' log :
  (Made_Pipelines w) ⊆ (Made_Pipelines w') -> (Made_Searches w) ⊆ (Made_Searches w') ->
  log_done w log -> log_done w' log.
Proof. intros Hps Hss [Hr Ht]. split; [done|]. by eapply tracked_mono. Qed.

(** The process makes a pipeline, or a search. *)
Lemma sound_made w p' ps ss o1 o2 :
  run_sound w -> (Made_Pipelines w) ⊆ ps -> (Made_Searches w) ⊆ ss ->
  (forall p, p ∈ o1 -> scheduled key (Pipeline_Meta p) = true) ->
  (forall s, s ∈ o2 -> scheduled key (Search_Meta s) = true) ->
  (forall t k, (t, k) ∈ ps -> (t, k) ∈ Made_Pipelines w \/ forall p, p ∈ Pipelines (Cluster w) -> key_of KPipeline p <> k) ->
  (forall t k, (t, k) ∈ ss -> (t, k) ∈ Made_Searches w \/ forall s, s ∈ Searches (Cluster w) -> key_of KSearch s <> k) ->
  (forall c sc, process_ok (mkSearchRun c (Some p') sc ps ss) p') ->
  run_sound (mkSearchRun (set_searches (set_pipelines (Cluster w) (o1 ++ Pipelines (Cluster w)))
    (o2 ++ Searches (Cluster w))) (Some p') (Succeeded w) ps ss).
Proof.
  intros [Hk Hs Hp Hpr Hlog [Hm1 Hm2]] Hps Hss Ho1 Ho2 Hnew1 Hnew2 Hproc. constructor; simpl; try done.
  - intros p [= <-]. apply Hproc.
  - intros log Hin. eapply log_done_mono; [| |by apply Hlog]; done.
  - split; simpl.
    + intros t k p Htk [Hin|Hin]%elem_of_app Hkey; [by apply Ho1|].
      destruct (Hnew1 t k Htk) as [Hold|Hno]; [by eapply Hm1|by destruct (Hno p Hin)].
    + intros t k p Htk [Hin|Hin]%elem_of_app Hkey; [by apply Ho2|].
      destruct (Hnew2 t k Htk) as [Hold|Hno]; [by eapply Hm2|by destruct (Hno p Hin)].
Qed.

Lemma created_once s ev t u : created_target s ev = Some t -> created_reference s ev = Some u -> False.
Proof. destruct ev as [[]|[]| | |]; simpl; try done; by destruct (Create_State _). Qed.

Lemma run_environment_knows w w' b : run_environment w w' -> knows_success b w -> knows_success b w'.
Proof.
  intros He Hb Htrue. destruct (Hb Htrue) as [Hs|Hg]; [left; by destruct He|right].
  destruct He as [c Hc _ _ _|pod st _ _ _|pod st p s _ _ _ _ _ _| |p ev s s' _ _|p ev s s' t n _ _ o _|p ev s s' t n _ _ o _];
    try exact Hg. simpl. destruct (Its_Search c) as [s'|] eqn:E; [|done].
  destruct (harmless_search _ _ _ (harmless_environment _ _ _ Hc) s' E) as (s & ? & _). congruence.
Qed.

Lemma run_environment_keeps w w' : run_environment w w' ->
  run_sound w -> run_sound w' /\ forall b, knows_success b w -> knows_success b w'.
Proof.
  intros He Hw. split; [|intros b; by apply run_environment_knows]. pose proof Hw as [Hk Hs Hp Hpr Hlog Hm].
  destruct He as [c Hc Hpod Hf1 Hf2|pod st Hpo Ho Hph|pod st p s Hpo Ho Hproc Hrun Hret Hph| |p ev s s' Hstep Hnone
    |p ev s s' t n Hstep Hmade o Hnew|p ev s s' t n Hstep Hmade o Hnew].
  - change (run_sound (set_process (set_cluster w c) (Process w))). apply sound_kept; [done| |rewrite Hpod; eauto|done|by apply made_foreign].
    intros s' Hs'. eapply harmless_search; [by eapply harmless_environment|done].
  - change (run_sound (set_process (set_cluster w (set_pod (Cluster w) (Some (mkPod (Pod_Meta pod) (Pod_Spec pod) st)))) (Process w))).
    apply sound_kept; [done|by eauto| |done|done]. intros q [= <-] Hq. by destruct Hph.
  - constructor; simpl; try done. intros log [->|Hin]%elem_of_cons; [|by apply Hlog].
    split; [by exists s|]. by apply (Hpr p Hproc).
  - apply sound_kept; [done|by eauto|done|done|done].
  - destruct w as [c pr sc ps ss]. apply (sound_kept (mkSearchRun c pr sc ps ss) c); [done|by eauto|by eauto| |done].
    intros p' Hp'. refine (process_ok_logged _ p ev s s' ps ss p' Hw Hstep _ _ _ _ Hp' c sc); [done..| |].
    + intros t Ht. destruct Hnone as [[Hn _]|Hr]; [by rewrite Hn in Ht|by left].
    + intros t Ht. destruct Hnone as [[_ Hn]|Hr]; [by rewrite Hn in Ht|by left].
  - assert (Process w = Some p) as Hproc by apply Hstep.
    destruct (Hpr p Hproc) as (Hn & Hns & _). destruct w as [c pr sc ps ss].
    apply (sound_made (mkSearchRun c pr sc ps ss) _ ((t, key_of KPipeline o) :: ps) ss [o] []); try done.
    + intros x Hx. apply elem_of_cons. by right.
    + intros x [->|Hx]%elem_of_cons; [|by apply elem_of_nil in Hx].
      by apply (scheduled_objects p n t zero_Reference).
    + intros x Hx. by apply elem_of_nil in Hx.
    + intros t' k [[= -> ->]|Hx]%elem_of_cons; [by right|by left].
    + intros t' k Hx. by left.
    + intros c' sc'. eapply (process_ok_logged _ p ev s s'); [exact Hw|exact Hstep| |done| | |done].
      * intros x Hx. apply elem_of_cons. by right.
      * intros t' Ht'. rewrite Hmade in Ht'. injection Ht' as <-. right. eexists. apply elem_of_cons. by left.
      * intros u Hu. by destruct (created_once _ _ _ _ Hmade Hu).
  - assert (Process w = Some p) as Hproc by apply Hstep.
    destruct (Hpr p Hproc) as (Hn & Hns & _). destruct w as [c pr sc ps ss].
    apply (sound_made (mkSearchRun c pr sc ps ss) _ ps ((t, key_of KSearch o) :: ss) [] [o]); try done.
    + intros x Hx. apply elem_of_cons. by right.
    + intros x Hx. by apply elem_of_nil in Hx.
    + intros x [->|Hx]%elem_of_cons; [|by apply elem_of_nil in Hx]. 
      by apply (scheduled_objects p n (mkTarget "" "") t).
    + intros t' k Hx. by left.
    + intros t' k [[= -> ->]|Hx]%elem_of_cons; [by right|by left].
    + intros c' sc'. eapply (process_ok_logged _ p ev s s'); [exact Hw|exact Hstep|done| | | |done].
      * intros x Hx. apply elem_of_cons. by right.
      * intros u Hu. by destruct (created_once _ _ _ _ Hu Hmade).
      * intros t' Ht'. rewrite Hmade in Ht'. injection Ht' as <-. right. eexists. apply elem_of_cons. by left.
Qed.

(** ** Operations of the controller *)

Notation run_safe := (keeps run_serve (@call_error) run_sound knows_success).

Lemma serve_objects v X (e : Op X) c : let c' := (search_serve key v X e c).2 in
  Pipelines c' = Pipelines c /\ Searches c' = Searches c /\ (harmless_op e -> Its_Pod c' = Its_Pod c) /\
  (Its_Search c = None -> Its_Search c' = None).
Proof.
  destruct e as [k o|k opts|k o|k o mutate|k orig o|k orig o|k o|k o| |m labels mop]; simpl; try done.
  - destruct k; simpl; try done.
    + assert (forall pod, let c' := (put_current_pod pod mutate c).2 in Pipelines c' = Pipelines c /\ Searches c' = Searches c /\
        (False -> Its_Pod c' = Its_Pod c) /\ (Its_Search c = None -> Its_Search c' = None)) as Hput.
      { intros pod. unfold put_current_pod. by destruct (Its_Pod c); destruct (mutate _). }
      unfold put_pod. destruct (Seen_Pod v) as [seen|]; [|apply Hput].
      destruct (decide _); [by destruct (mutate seen)|apply Hput].
    + by destruct (put _ _ _).
    + by destruct (put _ _ _).
  - destruct k; simpl; try done. by destruct (Its_Search c) eqn:E; simpl; rewrite ?E.
  - destruct k; simpl; try done. by destruct (Its_Search c) eqn:E; simpl; rewrite ?E.
  - destruct k; simpl; try done. by destruct (Its_Search c) eqn:E; simpl; rewrite ?E.
Qed.

Lemma run_serve_calm v X (e : Op X) w : harmless_op e -> run_sound w ->
  run_sound (run_serve v X e w).2.
Proof.
  intros He Hw. pose proof (serve_objects (run_view w v) X e (Cluster w)) as (Hp & Hs & Hpod & _). specialize (Hpod He).
  pose proof (harmless_serve key (run_view w v) X e (Cluster w) He) as Hh.
  unfold run_serve. destruct (search_serve key (run_view w v) X e (Cluster w)) as [x c]. simpl in *.
  assert (match Its_Pod (Cluster w), Its_Pod c with None, Some pod => started_process pod | _, _ => Process w end
    = Process w) as -> by (rewrite Hpod; by destruct (Its_Pod (Cluster w))).
  destruct Hw as [Hk Hsu Hpo Hpr Hlog [Hm1 Hm2]]. apply sound_kept; [by constructor| | |done|].
  - intros s' Hs'. by eapply harmless_search.
  - rewrite Hpod. eauto.
  - split; simpl; [rewrite Hp|rewrite Hs]; done.
Qed.

Lemma run_serve_knows v X (e : Op X) w b : knows_success b w -> knows_success b (run_serve v X e w).2.
Proof.
  intros Hb Htrue. unfold run_serve. pose proof (serve_objects (run_view w v) X e (Cluster w)) as (_ & _ & _ & Hgone).
  destruct (search_serve key (run_view w v) X e (Cluster w)) as [x c]. simpl in *.
  destruct (Hb Htrue) as [?|?]; auto.
Qed.

Lemma run_answer_knows {X} (e : Op X) w x w' b :
  answers run_serve (@call_error) e w x w' -> knows_success b w -> knows_success b w'.
Proof. destruct 1; [apply run_serve_knows|done|apply run_serve_knows]. Qed.

Lemma run_calm {X} (e : Op X) : harmless_op e -> calm run_serve (@call_error) run_sound knows_success e.
Proof.
  intros He w x w' Hans Hw. split.
  - destruct Hans; [by apply run_serve_calm|done|by apply run_serve_calm].
  - intros b. by apply (run_answer_knows _ _ _ _ _ Hans).
Qed.

Lemma run_safe_calm {A X} (e : Op X) (k : X -> prog A) b :
  harmless_op e -> (forall x, run_safe (k x) b) -> run_safe (Vis e k) b.
Proof. intros He. by apply keeps_calm, run_calm. Qed.

Lemma run_safe_reads {A B} (p : prog A) (f : A -> prog B) b :
  all_events is_read p -> (forall a, run_safe (f a) b) -> run_safe (bind p f) b.
Proof.
  intros Hp Hf. apply (keeps_bind _ _ _ _ p f); [|exact Hf].
  eapply all_events_impl; [exact Hp|]. intros [X e x] Hr. apply run_calm. by destruct e.
Qed.

Lemma run_safe_status {A} s (k : result GoError Search -> prog A) b :
  (success s -> b = true) -> (forall x, run_safe (k x) false) -> run_safe (Vis (StatusUpdate KSearch s) k) b.
Proof.
  intros Hsuc Hk w x w' Hw Hb Hans. split; [|exists false; by split].
  assert (forall l, run_sound (run_serve l _ (StatusUpdate KSearch s) w).2) as Hserved.
  { intros l. unfold run_serve. simpl. destruct Hw as [Hkey Hsu Hpo Hpr Hlog Hm].
    destruct (Its_Search (Cluster w)) as [s0|] eqn:Es; simpl;
      (assert (forall pr, match Its_Pod (Cluster w), Its_Pod (Cluster w) with
         None, Some pod => started_process pod | _, _ => pr end = pr) as -> by (by destruct (Its_Pod (Cluster w))));
      constructor; simpl; try done.
    - intros s' [= <-]. exact (Hkey s0 eq_refl).
    - intros s' [= <-] Hs'. destruct (Hb (Hsuc Hs')); congruence.
    - intros s' Hs'. congruence.
    - intros s' Hs'. congruence. }
  by destruct Hans.
Qed.

Lemma run_safe_get {A} (k : result GoError Search -> prog A) :
  (forall s b, key_of KSearch s = key -> (success s -> b = true) -> run_safe (k (Ok s)) b) ->
  (forall e, run_safe (k (Err e)) false) -> run_safe (Vis (Get KSearch key) k) false.
Proof.
  intros Hok Herr w x w' Hw Hb Hans. pose proof (run_calm (Get KSearch key) I w x w' Hans Hw) as [Hw' _].
  split; [done|]. destruct Hans as [l|x [e ->]|l x [e ->]]; [|by exists false..].
  assert (forall s, key_of KSearch s = key ->
    (forall s0, Its_Search (Cluster w) = Some s0 -> Search_Status s = Search_Status s0) ->
    exists b, knows_success b (run_serve l _ (Get KSearch key) w).2 /\ run_safe (k (Ok s)) b) as Hseen.
  { intros s Hkey Hst. assert (knows_success true w \/ ~ success s) as [Hyes|Hno].
    - destruct (Its_Search (Cluster w)) as [s0|] eqn:Es; [|left; by right].
      destruct (decide (Succeeded w = [])) as [Hnil|Hsome]; [right|left; by left].
      intros Hsuc. apply (run_success w Hw s0 Es); [|done]. unfold success. by rewrite <-(Hst s0 eq_refl).
    - exists true. split; [by apply run_serve_knows|]. by apply Hok.
    - exists false. split; [done|]. by apply Hok. }
  unfold run_serve in *. simpl in *. rewrite decide_True by done.
  destruct (Its_Search (Cluster w)) as [s|] eqn:Es.
  - pose proof (run_key w Hw s Es) as Hkey. destruct (Seen_Search (run_view w l)) as [s'|]; [|apply Hseen; [done|by intros s0 [= <-]]].
    destruct (decide _) as [Hk|]; apply Hseen; [exact Hk|by intros s0 [= <-]|done|by intros s0 [= <-]].
  - destruct (Seen_Search (run_view w l)) as [s'|]; [|by exists false]. destruct (decide _); [|by exists false].
    by apply Hseen.
Qed.

Hypothesis plain_name : has_byte "$" (Key_Name key) = false.

(** The pod of a search: a new one starts a process with the environment of its
    search. *)
Definition search_pod_request (s : Search) (crawler : Invocation CrawlerSpec) : Op (result GoError (Pod * OperationResult)) :=
  CreateOrUpdate KPod (pod_named (searchResourcePrefix +:+ Name (Search_Meta s)) (Namespace (Search_Meta s)))
    (fun pod => populateSearchPod r s pod crawler).

Lemma started_process_env s crawler pod' t p :
  key_of KSearch s = key ->
  populateSearchPod r s (pod_named (searchResourcePrefix +:+ Name (Search_Meta s)) (Namespace (Search_Meta s))) crawler = Ok pod' ->
  started_process (created_pod t pod') = Some p ->
  Process_Env p EnvVarSearchName = Key_Name key /\ Process_Env p EnvVarNamespaceName = Key_Namespace key /\
  Process_Log p = [].
Proof.
  intros Hkey Hpop. unfold started_process. change (Pod_Spec (created_pod t pod')) with (Pod_Spec pod').
  rewrite (crawler_container_in_pod r s _ crawler pod' Hpop eq_refl).
  destruct (_ !! PipelineTemplateAnnotation); [|done]. destruct (unmarshal_template _); [|done].
  intros [= <-]. cbn [Process_Env Process_Log].
  destruct (pod_annotations r s _ crawler pod' Hpop eq_refl eq_refl) as [Hns _].
  destruct (crawler_env_search s crawler) with (p := created_pod t pod') as [-> Hns'].
  - by rewrite <-Hkey in plain_name.
  - split; [by rewrite <-Hkey|]. split; [|done]. etransitivity; [exact Hns'|]. rewrite <-Hkey. exact Hns.
Qed.

Lemma run_view_succeeded w v pod :
  Seen_Pod (run_view w v) = Some pod -> Pod_Phase (Pod_Status pod) = PodSucceeded -> Succeeded w <> [].
Proof.
  unfold run_view. destruct (Seen_Pod v) as [seen|] eqn:E; [|congruence].
  destruct (Succeeded w); [|done]. destruct (decide _) as [|Hno]; simpl; [done|]. congruence.
Qed.

(** What the answer and the new cluster of a call make of a run. *)
Definition served_run {X} (w : SearchRun) (a : X * SearchCluster) : SearchRun :=
  set_process (set_cluster w a.2)
    match Its_Pod (Cluster w), Its_Pod a.2 with None, Some pod => started_process pod | _, _ => Process w end.

Lemma run_put_pod l s crawler w : key_of KSearch s = key -> run_sound w ->
  run_sound (run_serve l _ (search_pod_request s crawler) w).2 /\
  forall pod' u, (run_serve l _ (search_pod_request s crawler) w).1 = Ok (pod', u) ->
    Pod_Phase (Pod_Status pod') = PodSucceeded -> Succeeded w <> [].
Proof.
  intros Hkey Hw. pose proof Hw as [Hk Hsu Hpo Hpr Hlog Hm].
  set (name := pod_named (searchResourcePrefix +:+ Name (Search_Meta s)) (Namespace (Search_Meta s))).
  set (a := put_pod (run_view w l) name (fun pod => populateSearchPod r s pod crawler) (Cluster w)).
  assert (run_serve l _ (search_pod_request s crawler) w = (a.1, served_run w a)) as ->.
  { unfold run_serve. change (search_serve key (run_view w l) _ (search_pod_request s crawler) (Cluster w)) with a.
    unfold served_run. by destruct a. }
  simpl. subst a. unfold put_pod.
  assert (forall x : result GoError (Pod * OperationResult), run_sound (served_run w (x, Cluster w))) as Hsame.
  { intros x. unfold served_run. simpl. destruct w as [c p sc ps ss]. simpl in *. by destruct (Its_Pod c). }
  assert (let a := put_current_pod name (fun pod => populateSearchPod r s pod crawler) (Cluster w) in
    run_sound (served_run w a) /\ forall pod' u, a.1 = Ok (pod', u) -> Pod_Phase (Pod_Status pod') = PodSucceeded -> Succeeded w <> [])
    as Hcurrent.
  { unfold put_current_pod, served_run in *. destruct (Its_Pod (Cluster w)) as [pod0|] eqn:Ep.
    - destruct (populateSearchPod r s pod0 crawler) as [pod1|e] eqn:E; cbn; rewrite ?Ep; split; try done.
      + apply (sound_kept w _ (Process w)); [done|by eauto| |done|done].
        intros pod [= <-] Hph. exists pod0. by rewrite Ep.
      + intros pod' u [= <- <-] Hph. by apply (Hpo pod0).
      + by destruct w.
    - destruct (populateSearchPod r s name crawler) as [pod1|e] eqn:E; cbn; rewrite ?Ep; split; try done.
      + apply sound_kept; [done|by eauto| | |done].
        * by intros pod [= <-] Hph.
        * intros p Hp. destruct (started_process_env s crawler pod1 _ p Hkey E Hp) as (Hn & Hns & Hl).
          split; [done|]. split; [done|]. rewrite Hl. split; [by eexists|].
          intros pre ev post s' Hnil. by destruct pre.
      + by intros pod' u [= <- <-].
      + by destruct w. }
  destruct (Seen_Pod (run_view w l)) as [seen|] eqn:Eseen; [|exact Hcurrent].
  destruct (decide _); [|exact Hcurrent].
  destruct (populateSearchPod r s seen crawler) as [pod1|e]; (split; [apply Hsame|]); [|done].
  intros pod' u [= <- <-] Hph. by eapply run_view_succeeded.
Qed.

Lemma run_safe_pod {A} s crawler (k : result GoError (Pod * OperationResult) -> prog A) b :
  key_of KSearch s = key ->
  (forall pod' u b', (b = true -> b' = true) -> (Pod_Phase (Pod_Status pod') = PodSucceeded -> b' = true) -> run_safe (k (Ok (pod', u))) b') ->
  (forall e, run_safe (k (Err e)) b) -> run_safe (Vis (search_pod_request s crawler) k) b.
Proof.
  intros Hkey Hok Herr w x w' Hw Hb Hans.
  assert (knows_success b w') as Hb' by (by eapply run_answer_knows).
  destruct Hans as [l|x [e ->]|l x [e ->]].
  - destruct (run_put_pod l s crawler w Hkey Hw) as [Hs Hp]. split; [done|].
    pose proof (run_serve_knows l _ (search_pod_request s crawler) w true) as Hk.
    destruct (run_serve l _ _ w).1 as [[pod' u]|e] eqn:E; [|by exists b].
    destruct (decide (Pod_Phase (Pod_Status pod') = PodSucceeded)) as [Hph|Hph].
    + exists true. split; [|by apply Hok]. apply Hk. intros _. left. by eapply Hp.
    + exists b. split; [done|]. by apply Hok.
  - split; [done|]. by exists b.
  - split; [by apply run_put_pod|]. by exists b.
Qed.

(** ** A reconciliation *)

Lemma success_completed s t status reason message :
  success (with_search_status s (completed_search_status (Search_Status s) t status reason message)) ->
  success s \/ status = ConditionTrue.
Proof.
  intros (c & Hin & Hty & Hst). simpl in Hin. apply elem_of_app in Hin as [Hin|Hin].
  - left. by exists c.
  - apply elem_of_cons in Hin as [->|Hin]; [by right|by apply elem_of_nil in Hin].
Qed.

Lemma not_success_started s pod t :
  ~ success (with_search_status s (started_search_status (Search_Status s) pod t)).
Proof.
  intros (c & Hin & Hty & _). simpl in Hin. apply elem_of_cons in Hin as [->|Hin]; [done|].
  by apply elem_of_nil in Hin.
Qed.

Lemma run_safe_record labels s b : (success s -> b = true) -> run_safe (record_completion labels s) b.
Proof.
  intros Hs. unfold record_completion. apply run_safe_status; [done|]. intros [s'|e]; [|done]. simpl.
  destruct (SearchSt_CompletionTime _); [|done]. unfold deref. destruct (SearchSt_StartTime _); [|done].
  by apply run_safe_calm.
Qed.

Lemma run_safe_mark labels s status reason message b :
  (success s -> b = true) -> (status = ConditionTrue -> b = true) ->
  run_safe (bind (mark_complete s status reason message) (record_completion labels)) b.
Proof.
  intros Hs Hst. unfold mark_complete. destruct (SearchSt_CompletionTime _); [by apply run_safe_record|].
  apply run_safe_calm; [done|]. intros t. apply run_safe_record. intros Hsuc.
  destruct (success_completed _ _ _ _ _ Hsuc); auto.
Qed.

Lemma run_safe_completion s pod b :
  (success s -> b = true) -> (Pod_Phase (Pod_Status pod) = PodSucceeded -> b = true) ->
  run_safe (handleCompletion s pod) b.
Proof.
  intros Hs Hp. unfold handleCompletion. apply run_safe_reads; [apply retrieveRunning_reads|].
  intros [[ps ss]|e]; [|done]. destruct (_ || _); [done|].
  destruct (Pod_Phase (Pod_Status pod)) eqn:E; try done; by apply run_safe_mark; auto.
Qed.

Lemma run_safe_objects s crawler b :
  key_of KSearch s = key -> (success s -> b = true) -> run_safe (reconcile_objects r s crawler) b.
Proof.
  intros Hkey Hs. unfold reconcile_objects. apply run_safe_calm; [done|]. intros [[sa u]|e]; [|done].
  apply run_safe_calm; [done|]. intros [[rb u']|e]; [|done].
  apply (run_safe_pod s crawler); [done| |done]. intros pod u2 b' Hb Hp. simpl.
  destruct (SearchSt_StartTime (Search_Status s)); [apply run_safe_completion; auto|].
  apply run_safe_calm; [done|]. intros t. apply run_safe_status; [|done].
  intros Hsuc. by destruct (not_success_started _ _ _ Hsuc).
Qed.

Lemma run_safe_reconcile : run_safe (Reconcile r key) false.
Proof.
  unfold Reconcile. apply run_safe_get; [|done]. intros s b Hkey Hs. simpl.
  destruct (SearchSt_CompletionTime (Search_Status s)).
  - unfold handlePostCompletion, deref. destruct (SearchS_TTLSecondsAfterFinished _); [|done].
    destruct (SearchSt_CompletionTime _); [|done]. apply run_safe_calm; [done|]. intros now. simpl.
    destruct (time_after _ _); (apply run_safe_calm; [done|]); done.
  - apply run_safe_reads; [apply CrawlerInvocation_reads|]. intros [crawler [e|]]; [done|].
    destruct (String.eqb _ _); [|by apply run_safe_objects]. by apply run_safe_calm.
Qed.

(** ** The end of a search *)

(** A log says that the creation for [t] was refused. *)
Definition target_refused (log : list SchedulerEvent) (t : Target) : Prop :=
  exists pre e post s, log = pre ++ TargetEvent (Created (Some e)) :: post /\
    Schedule_run Schedule_start pre = Some s /\ Create_State (Targets s) = Creating t.
Definition reference_refused (log : list SchedulerEvent) (t : ParameterizedLocalObjectReference) : Prop :=
  exists pre e post s, log = pre ++ CrawlerEvent (Created (Some e)) :: post /\
    Schedule_run Schedule_start pre = Some s /\ Create_State (Scheduler.Crawlers s) = Creating t.

Lemma created_split {A} (f : Scheduler -> SchedulerEvent -> list A) (g : Scheduler -> SchedulerEvent -> option A)
    s0 log t : (forall s ev, t ∈ f s ev -> g s ev = Some t) -> is_Some (Schedule_run s0 log) ->
  t ∈ attempted f s0 log ->
  exists pre ev post s, log = pre ++ ev :: post /\ Schedule_run s0 pre = Some s /\ g s ev = Some t.
Proof.
  intros Hfg. revert s0. induction log as [|ev log IH]; intros s0 Hrun Hin; [by apply elem_of_nil in Hin|].
  simpl in Hin, Hrun. apply elem_of_app in Hin as [Hin|Hin].
  - exists [], ev, log, s0. split; [done|]. split; [done|]. by apply Hfg.
  - destruct (Schedule_step ev s0) as [s1|] eqn:E; [|by apply elem_of_nil in Hin].
    destruct (IH s1 Hrun Hin) as (pre & ev' & post & s & -> & Hpre & Hg).
    exists (ev :: pre), ev', post, s. split; [done|]. split; [|done]. simpl. by rewrite E.
Qed.

Lemma created_target_in s ev t : t ∈ target_event (attempts (Targets s)) ev -> created_target s ev = Some t.
Proof.
  unfold created_target, attempts. destruct ev as [[]|[]| | |]; simpl; try (by intros ?%elem_of_nil);
    destruct (Create_State (Targets s)); try (by intros ?%elem_of_nil); by intros ->%list_elem_of_singleton.
Qed.

Lemma created_reference_in s ev t :
  t ∈ crawler_event (attempts (Scheduler.Crawlers s)) ev -> created_reference s ev = Some t.
Proof.
  unfold created_reference, attempts. destruct ev as [[]|[]| | |]; simpl; try (by intros ?%elem_of_nil);
    destruct (Create_State (Scheduler.Crawlers s)); try (by intros ?%elem_of_nil); by intros ->%list_elem_of_singleton.
Qed.

Lemma target_settled ps ss log t : tracked ps ss log -> is_Some (Schedule_run Schedule_start log) ->
  t ∈ target_attempts Schedule_start log -> target_refused log t \/ exists k, (t, k) ∈ ps.
Proof.
  intros Htr Hrun Hin.
  destruct (created_split _ created_target _ _ _ (fun s ev => created_target_in s ev t) Hrun Hin) as (pre & ev & post & s & -> & Hpre & Hg).
  destruct (proj1 (Htr pre ev post s eq_refl Hpre) t Hg) as [Hr|?]; [left|by right].
  unfold created_target in Hg. destruct ev as [[| | | | | |[e|]|]|[]| | |]; try done.
  destruct (Create_State (Targets s)) eqn:E; try done. injection Hg as ->. by exists pre, e, post, s.
Qed.

Lemma reference_settled ps ss log t : tracked ps ss log -> is_Some (Schedule_run Schedule_start log) ->
  t ∈ crawler_attempts Schedule_start log -> reference_refused log t \/ exists k, (t, k) ∈ ss.
Proof.
  intros Htr Hrun Hin.
  destruct (created_split _ created_reference _ _ _ (fun s ev => created_reference_in s ev t) Hrun Hin) as (pre & ev & post & s & -> & Hpre & Hg).
  destruct (proj2 (Htr pre ev post s eq_refl Hpre) t Hg) as [Hr|?]; [left|by right].
  unfold created_reference in Hg. destruct ev as [[]|[| | | | | |[e|]|]| | |]; try done.
  destruct (Create_State (Scheduler.Crawlers s)) eqn:E; try done. injection Hg as ->. by exists pre, e, post, s.
Qed.

Lemma run_steps_sound w out st :
  run_sound w -> run_steps (mkExecution w (Ret out)) st -> run_sound (Exec_State st).
Proof.
  intros Hw Hsteps.
  eapply (execution_invariant run_serve (@call_error) run_environment (fun w => w) (Reconcile r key)
    run_sound knows_success false); [done|apply run_safe_reconcile|apply run_environment_keeps|done|exact Hw|exact Hsteps].
Qed.

(** The process goes on without creating anything. *)
Definition creates_nothing (ev : SchedulerEvent) : bool :=
  match ev with TargetEvent (Created _) | CrawlerEvent (Created _) => false | _ => true end.

Lemma process_runs evs w todo p pod s s' :
  Process w = Some p -> Its_Pod (Cluster w) = Some pod -> ~ pod_over pod ->
  Schedule_run Schedule_start (Process_Log p) = Some s -> Schedule_run s evs = Some s' ->
  forallb creates_nothing evs = true ->
  run_steps (mkExecution w todo) (mkExecution (set_process w
    (Some (mkSchedulerProcess (Process_Env p) (Process_Template p) (Process_Log p ++ evs)))) todo).
Proof.
  revert w p s. induction evs as [|ev evs IH]; intros w p s Hp Hpod Ho Hrun Hevs Hnone.
  - rewrite app_nil_r. destruct w, p. simpl in *. subst. apply rtc_refl.
  - simpl in Hevs, Hnone. apply andb_true_iff in Hnone as [Hev Hnone].
    destruct (Schedule_step ev s) as [s1|] eqn:E; [|done].
    eapply rtc_l; [apply step_environment; eapply (renv_process w p ev s s1)|].
    + split; [done|]. split; [by exists pod|done].
    + left. by destruct ev as [[]|[]| | |].
    + refine (eq_rect _ (fun x => rtc _ _ (mkExecution x todo)) (IH (set_process w (logged p ev)) _ s1 _ _ _ _ Hevs Hnone) _ _);
        [done|done|done|simpl; by rewrite Schedule_run_app, Hrun; simpl; rewrite E|].
      simpl. by rewrite <-app_assoc.
Qed.

End run.

(** ** A run *)

Module SearchRun_example.
Import SearchSafety.Search_example SearchSystem.SearchSystem_example.
#[local] Existing Instance controller_util_model.
#[local] Existing Instance one_template.
#[local] Existing Instance search_range.
#[local] Existing Instance kubelet_model.

Notation steps := (run_steps searchReconciler key).
Definition at_rest (w : SearchRun) : Execution Op SearchRun Outcome := mkExecution w (Ret (emptyResult, None)).

(** What can happen next, as functions of the state: a reconciliation; events of
    the process; the creation of a pipeline; the end of the pod; the completion
    of the pipelines.  Each is a step, or some, when its test holds. *)
Definition reconciled (w : SearchRun) : SearchRun :=
  (exec (run_serve key (current_view crawlers)) (Reconcile searchReconciler key) w).2.

Definition pod_runs (w : SearchRun) : bool :=
  match Its_Pod (Cluster w) with
  | Some pod => bool_decide (Pod_Phase (Pod_Status pod) <> PodSucceeded) &&
                bool_decide (Pod_Phase (Pod_Status pod) <> PodFailed)
  | None => false
  end.
Definition scheduler_of (w : SearchRun) : option Scheduler :=
  Process w ≫= fun p => Schedule_run Schedule_start (Process_Log p).

Definition advanced (evs : list SchedulerEvent) (w : SearchRun) : SearchRun :=
  set_process w ((fun p => mkSchedulerProcess (Process_Env p) (Process_Template p) (Process_Log p ++ evs)) <$> Process w).
Definition can_advance (evs : list SchedulerEvent) (w : SearchRun) : bool :=
  pod_runs w && forallb creates_nothing evs &&
  match scheduler_of w ≫= fun s => Schedule_run s evs with Some _ => true | None => false end.

Definition made_pipeline (n : string) (w : SearchRun) : SearchRun :=
  match Process w, scheduler_of w ≫= fun s => created_target s (TargetEvent (Created None)) with
  | Some p, Some t =>
      let o := named_pipeline n (scheduled_pipeline (Process_Env p) (Process_Template p) t) in
      mkSearchRun (set_pipelines (Cluster w) (o :: Pipelines (Cluster w))) (logged p (TargetEvent (Created None)))
        (Succeeded w) ((t, key_of KPipeline o) :: Made_Pipelines w) (Made_Searches w)
  | _, _ => w
  end.
Definition can_make (w : SearchRun) : bool := pod_runs w && bool_decide (Pipelines (Cluster w) = []).

Definition pod_ended (w : SearchRun) : SearchRun :=
  match Its_Pod (Cluster w), Process w with
  | Some pod, Some p =>
      mkSearchRun (set_pod (Cluster w) (Some (mkPod (Pod_Meta pod) (Pod_Spec pod) (mkPodStatus PodSucceeded [] []))))
        (Process w) (Process_Log p :: Succeeded w) (Made_Pipelines w) (Made_Searches w)
  | _, _ => w
  end.
Definition can_end (w : SearchRun) : bool :=
  pod_runs w && match scheduler_of w with
                | Some s => match ScheduleHook s with Returned => true | _ => false end
                | None => false
                end.

Definition completed (p : Pipeline) : Pipeline :=
  mkPipeline (Pipeline_Meta p) (Pipeline_Spec p) (Pipeline_Status (child (Some 9))).
Definition pipeline_completed (w : SearchRun) : SearchRun :=
  match Pipelines (Cluster w) with
  | p :: ps => set_cluster w (set_pipelines (Cluster w) (completed p :: ps))
  | [] => w
  end.

Lemma pod_runs_true w : pod_runs w = true -> exists pod, Its_Pod (Cluster w) = Some pod /\ ~ pod_over pod.
Proof.
  unfold pod_runs. destruct (Its_Pod (Cluster w)) as [pod|]; [|done].
  intros [Ha%bool_decide_eq_true Hb%bool_decide_eq_true]%andb_true_iff. exists pod. by split; [|intros []].
Qed.

Lemma reconciled_steps w : steps (at_rest w) (at_rest (reconciled w)).
Proof.
  eapply rtc_l; [apply step_begin|]. eapply rtc_r; [apply (exec_steps (run_serve key) _ _ _ _ (current_view crawlers))|].
  apply (step_restart _ _ _ (fun w => w)).
Qed.

Lemma advanced_steps evs w : can_advance evs w = true -> steps (at_rest w) (at_rest (advanced evs w)).
Proof.
  unfold can_advance, advanced, scheduler_of. intros [[Hpod Hn]%andb_true_iff Hrun]%andb_true_iff.
  destruct (pod_runs_true w Hpod) as (pod & Hp & Ho). destruct (Process w) as [p|] eqn:Ep; [|done]. simpl in *.
  destruct (Schedule_run Schedule_start (Process_Log p)) as [s|] eqn:Es; [|done]. simpl in Hrun.
  destruct (Schedule_run s evs) as [s'|] eqn:Es'; [|done]. by eapply process_runs.
Qed.

Lemma made_pipeline_steps n w : can_make w = true -> steps (at_rest w) (at_rest (made_pipeline n w)).
Proof.
  unfold can_make, made_pipeline, scheduler_of. intros [Hpod Hnil%bool_decide_eq_true]%andb_true_iff.
  destruct (pod_runs_true w Hpod) as (pod & Hp & Ho). destruct (Process w) as [p|] eqn:Ep; [|apply rtc_refl]. simpl.
  destruct (Schedule_run Schedule_start (Process_Log p)) as [s|] eqn:Es; [|apply rtc_refl]. simpl.
  destruct (Create_State (Targets s)) as [|t| |] eqn:Ec; try apply rtc_refl.
  apply rtc_once, step_environment.
  destruct (Schedule_step (TargetEvent (Created None)) s) as [s'|] eqn:Estep.
  - eapply renv_pipeline.
    + split; [exact Ep|]. split; [by exists pod|]. split; [exact Es|exact Estep].
    + simpl. by rewrite Ec.
    + intros o' Ho'. rewrite Hnil in Ho'. by apply elem_of_nil in Ho'.
  - destruct s as [cancelled [d c] crawlers hook]. simpl in *. subst c. by destruct d.
Qed.

Lemma pod_ended_steps w : can_end w = true -> steps (at_rest w) (at_rest (pod_ended w)).
Proof.
  unfold can_end, pod_ended, scheduler_of. intros [Hpod Hret]%andb_true_iff.
  destruct (pod_runs_true w Hpod) as (pod & Hp & Ho). rewrite Hp. destruct (Process w) as [p|] eqn:Ep; [|done].
  simpl in Hret. destruct (Schedule_run Schedule_start (Process_Log p)) as [s|] eqn:Es; [|done].
  apply rtc_once, step_environment. rewrite <-Ep. eapply renv_pod_succeeds; try done. by destruct (ScheduleHook s).
Qed.

Lemma pipeline_completed_steps w : steps (at_rest w) (at_rest (pipeline_completed w)).
Proof.
  unfold pipeline_completed. destruct (Pipelines (Cluster w)) as [|p ps] eqn:E; [apply rtc_refl|].
  apply rtc_once, step_environment, renv_foreign.
  - by apply (wenv_pipeline_progress key (Cluster w) [] p (completed p) ps).
  - done.
  - intros o [->|Ho]%elem_of_cons; left; [exists p|exists o]; rewrite E; (split; [apply elem_of_cons; auto|done]).
  - intros o Ho. left. by exists o.
Qed.

(** A new search: its pod starts; its scheduler is asked for a pipeline, and
    creates it; the crawler exits, the hook returns, and the pod succeeds; the
    search waits for its pipeline, and completes after it. *)
Definition asked : list SchedulerEvent :=
  [TargetEvent (Opened None); CrawlerEvent (Opened None);
   TargetEvent (Decoded Schedule_example.one); TargetEvent Sent].
Definition ended : list SchedulerEvent :=
  [TargetEvent Paused; CrawlerExited; TargetEvent DecodeFailed; CrawlerEvent DecodeFailed; TargetEvent WokeUp;
   CrawlerEvent WokeUp; TargetEvent SawClosed; CrawlerEvent SawClosed; GroupDone].

Definition w0 : SearchRun :=
  mkSearchRun (mkSearchCluster (Some (search None None)) None [] [] [] [] 5) None [] [] [].
Definition w1 : SearchRun := advanced asked (reconciled w0).
Definition w2 : SearchRun := advanced ended (made_pipeline "s-1" w1).
Definition w3 : SearchRun := reconciled (pod_ended w2).
Definition w4 : SearchRun := reconciled (pipeline_completed w3).

Lemma w4_reached : steps (at_rest w0) (at_rest w4).
Proof.
  unfold steps, execution_steps. transitivity (at_rest w1); [|transitivity (at_rest w2); [|transitivity (at_rest w3)]].
  - etransitivity; [apply reconciled_steps|apply advanced_steps; vm_compute; reflexivity].
  - etransitivity; [apply made_pipeline_steps; vm_compute; reflexivity|apply advanced_steps; vm_compute; reflexivity].
  - etransitivity; [apply pod_ended_steps; vm_compute; reflexivity|apply reconciled_steps].
  - etransitivity; [apply pipeline_completed_steps|apply reconciled_steps].
Qed.

Definition conditions_of (w : SearchRun) : list (string * ConditionStatus) :=
  match Its_Search (Cluster w) with
  | Some s => (fun c => (Cond_Type c, Cond_Status c)) <$> SearchSt_Conditions (Search_Status s)
  | None => []
  end.

(** The search is not complete while its pipeline runs. *)
Example search_waits : (conditions_of w3, conditions_of w4)
  = ([(StartedConditionType, ConditionTrue)],
     [(StartedConditionType, ConditionTrue); (CompletedSuccessfullyConditionType, ConditionTrue)]).
Proof. vm_compute. reflexivity. Qed.

Lemma w0_sound : run_sound key w0 /\ sound key (Cluster w0).
Proof.
  split.
  - constructor; [intros s [= <-]; reflexivity|intros s [= <-] (c & Hc & _); by apply elem_of_nil in Hc|discriminate
      |discriminate|intros log Hlog; by apply elem_of_nil in Hlog|].
    split; intros t k p Hk; by apply elem_of_nil in Hk.
  - constructor; [intros s [= <-]; reflexivity|]. intros s [= <-] Hc. by destruct Hc.
Qed.

End SearchRun_example.
